(* ===== verification/_CoqProject ===== *)
-Q . S2P
Prelude.v
GoStrings.v
Proto.v
NodeResource.v
ReferenceApi.v
NodeResourceProofs.v
YarnApi.v
NodesSyncer.v
NodesSyncerProofs.v
Mocks.v
Metrics.v
Reconciler.v
ReconcilerProofs.v
Interleaving.v
Convergence.v
Recovery.v
Wire.v
Crypto.v
Security.v
SecurityProofs.v
Net.v
Ipc.v
IpcProofs.v
IpcRuns.v
IpcSent.v
ServerView.v
IpcSasl.v
TokenStore.v
Config.v
YarnClient.v
YarnClientProofs.v
ClientWire.v
ClientOutage.v
ClientFailover.v
Examples.v
GoPath.v
NodeManager.v
NodeManagerProofs.v
CgroupSweep.v
AgentServer.v
Runtime.v
RuntimeProofs.v
Options.v
Agent.v
AgentFiles.v
AgentRaces.v
Startup.v
