(* ===== verification/Prelude.v ===== *)
(** * yarn-copilot: a verification development

    yarn-copilot co-locates Hadoop YARN with Kubernetes.  An operator
    ([src/cmd/yarn-operator]) tells the YARN resource managers how much of each
    node's batch resources they may use and records on the Kubernetes node what YARN
    uses; an agent on every node ([src/cmd/yarn-copilot-agent]) mirrors cgroups for
    YARN containers and lists and kills them over a socket.

    ** The parts and the files that model them

    The operator:
    - [NodeResource] models [pkg/controller/noderesource/yarn_resource.go] and
      [types.go]: the two annotations of a node, their reading and writing, and the
      conversion of batch resources to cores and megabytes.  [NodeResourceProofs]
      proves it against the list specification [AllocSpec]; [ReferenceApi] is an
      executable instance of the interfaces (quantities, quotas, JSON) used by the
      concrete runs.
    - [Reconciler] models [resource_sync_controller.go]: [Reconcile] with every
      helper, the cache of clients, and [Add].  [ReconcilerProofs] refines it to
      [ReconcileSpec] and treats the operator as a transition system ([op_step]:
      reconciliations and polling rounds in any order).  [Interleaving] refines that
      system to one step per visited cluster.
    - [NodesSyncer] models [pkg/yarn/cache]: polling rounds, lookups and the polling
      goroutine as a process over timer events.  [Metrics] models
      [pkg/controller/metrics].  [Convergence] composes the cache and the reconciler;
      [Recovery] follows the polling goroutine through failed rounds.
    - [Startup] models [cmd/yarn-operator/main.go] as a function to the exit status;
      [Options] models the selection of controllers and the agent's defaults
      ([src/cmd]).

    The YARN client, which the operator uses through the classes [YarnClient] and
    [YarnClientFactory] of [YarnApi]:
    - [Proto]: the messages of [pkg/yarn/apis/proto] the program uses.
    - [Wire] models [apis/auth/auth.go]; [Security] models [apis/security] (users,
      tokens, DIGEST-MD5) with [Crypto], an executable md5, base64 and hex.
      [TokenStore] follows the store over the life of a process.
    - [Net] is the model of TCP connections; [Ipc] models
      [pkg/yarn/client/ipc/client.go] on it: handshake, SASL, framing, calls.
      [IpcRuns] holds a reference encoding and concrete runs; [IpcSasl] the call of a
      user with a token; [IpcSent] what a call that succeeds has sent, whatever the
      other side did; [ServerView] is a reference reader of the server's side.
    - [Config] models [pkg/yarn/config]; [YarnClient] models [apis/service],
      [client.go], [factory.go] and the three small clients, and instantiates the two
      classes.  [ClientWire], [ClientOutage] and [ClientFailover] put these clients
      under the operator: the bytes a reconciliation sends, an outage, and the
      recovery from failovers (they are [Repairable], the interface of [Recovery], and
      [Unreachable] during an outage).  [Mocks] models the test doubles of [client/mockclient], one more instance of the class.
      [Examples] models the four programs of [client/examples].

    The agent:
    - [GoPath] and [NodeManager] model [pkg/copilot-agent/nm] and [utils] on a
      model of the file system; [AgentServer] models [pkg/copilot-agent/server];
      [Runtime] models [pkg/copilot-agent/runtime], the client side of the agent's
      socket.  [RuntimeProofs] puts the two together.  [CgroupSweep] treats the
      periodic sweep of CPU cgroups; [Agent] models [cmd/yarn-copilot-agent/main.go],
      with the operator's loop and the server (opening its socket, serving, stopped or
      exited) as one transition system, and [AgentFiles] bounds the files that system touches.  [AgentRaces] splits
      requests and the refresh of the endpoint at their calls: goroutines are trees of
      atomic actions, reasoned about with rely and guarantee, and every run of [Agent]
      is one of its runs.

    [Prelude] (this file) has the monad, machine integers and shared lemmas;
    [GoStrings] what the code uses of [strings] and [strconv].

    ** How state and effects are represented

    A Go function with effects is a state-passing function [M S A] (below); its
    outcome is a value, an error or a panic, and the effects before an error stay.
    Pointers that are shared are modelled as shared: the map of clients that the
    reconciler extends and the node cache polls is one cell of [Heap], and clients
    are objects of a heap ([CW]).  Go's random map iteration is the class [MapRange]:
    any order that is a permutation.  Integers are [Z] with the wrap-around of their
    width written out ([int32], [int64]).  Sockets deliver input in segments and may
    fail at any operation; closing is recorded.  The file system of the agent is a map of
    paths with a set of paths the operating system refuses; removing a tree follows the
    rules of a cgroup hierarchy, where the kernel keeps ([EBUSY]) every directory with
    processes in it or below it, and a share is stored clamped as the kernel does.

    Code outside the repository is an argument of the model: classes for quantities,
    quotas, JSON and koordinator's constants ([QuantityApi], [QuotaApi], [Json],
    [KoordinatorApi]), the Kubernetes client ([K8sClient]), protobuf ([Protowire],
    [ProtoMessage]), users, randomness, files, XML, cgroup helpers, HTTP.  What is
    used of their documented behaviour is a class of laws next to each, and every
    class of laws has an instance that a concrete run uses.

    ** What the theorems show

    - Annotations: writing an allocation refines the list specification, round-trips,
      leaves other schedulers' entries alone; totals by priority; rounding of
      [calculate], and the mismatch of its megabyte with the one recorded.
    - Reconciler: every error-free run did one of the four things of [ReconcileSpec];
      rejected updates are retried; when an accepted update panics; clients once
      known stay polled in every reachable state; a write to the map of clients during
      its iteration happens only for a cluster that was unknown at the start.
    - Node cache: a round replaces the cache by the snapshot of the answers, lookups
      after it, failed rounds keep the cache, [Started] implies a successful round,
      when the goroutine can crash and when it cannot.  With the reconciler: what a
      resource manager reports is what the node's annotation says, and when everyone
      answers the reconciliation succeeds and it is written.  Over time: if
      reinitialising a client repairs it, [k] broken clients cost at most [k] rounds,
      and the repository's clients are such clients: when [k] of any number of clusters
      have failed over, round [k + 1] has the answers of all, down to the sockets.  One
      resource manager that stays unreachable keeps the whole cache as it was.
    - RPC client: frames state their length, a call to an answering server returns
      the answer having sent exactly the right bytes, with and without the SASL
      exchange; the bytes of any successful call are read by the reference server as
      the call that was meant, with nothing left over; the exact conditions of panics on
      malformed input; connections that leak; the DIGEST-MD5 response agrees with RFC 2831; the bounds and monotonicity
      of the token store.
    - Configuration and clients: the last property wins; initialisation picks an
      active manager; the pair of addresses stays consistent under every sequence
      of calls; which clusters are discovered; after a failover the next poll goes to
      the new active manager; an error-free reconciliation of a node manager's node has
      put the framed update request on a connection to the admin address.
    - Agent: which memory cgroups a resync and which CPU cgroups a sweep leaves; the
      shares of the parent cgroup; a kill signals only the group of a listed container,
      and in every reachable state, however the actions of concurrent requests and the
      loop alternate, only process groups above one are signalled; when the base URL
      of the HTTP client can be read while it is written; in every reachable
      state files outside the agent's directories and its socket are as they were at the
      start; which endpoint the agent talks to; the life cycle of the server; what a caller
      of the plugin sees, end to end; what discovery registers.
    - Programs: when the operator exits with which status, and what it has started.

    ** Bounds and fuel

    [size_loop] of [Ipc] has ten rounds: a varint of a 63-bit length has at most nine
    bytes, and [sizeVarint_correct] shows that the loop ends with the right value for
    every such length.  [Crypto] iterates over the given blocks.  All other loops are
    structural on the list the code ranges over; goroutines and event loops are
    functions of the sequence of events, of any length.

    ** What is not modelled

    - Generated protobuf code beyond the messages in use.
    - Logging; the parsing of flags, the registration of the scheme and the random
      seed, which are calls of libraries at the start of the programs.
    - Time beyond the events of timers: a tick is an event, how long a call takes is
      not represented.
    - Data races other than those on the map of clients ([Interleaving]) and on the
      base URL of the agent's HTTP client ([AgentRaces]).  The file operations of one
      event of the agent's loop are one action, and [AgentFiles] is about the system
      whose requests are atomic; requests only read files.
    - Networks are scripts of the connections to come and end; [Repairable] therefore
      counts the polls a manager still answers, as many as there are ticks.
    - The kernel's bookkeeping of processes: the [cgroup.procs] files are files, a process
      that forks, exits or moves between two calls of the agent does not change them.
    - The staleness of the manager's Kubernetes client: it is built with a cache, while
      the laws of [K8sClient] let [Get] return what the API server stores.  The pprof
      listener, a goroutine of the operator, is one step before the boot.

    ** Possible extensions

    A law-abiding model of the protobuf wire format below [ProtoMessage], which here is
    an interface with an instance for every countable type; the SASL negotiation read
    by [ServerView]; a clock that bounds how long a poll may take. *)

From Stdlib Require Export Ascii ZArith Lia.
From stdpp Require Export base gmap strings list pretty numbers option.

#[global] Arguments String.append : simpl nomatch.

Declare Scope go_scope.
Delimit Scope go_scope with go.

(** ** Errors, panics and results

    A Go [error] is represented by its [Error()] text.  A function that returns
    [(T, error)] becomes a function into [outcome T]; a run-time panic (nil
    dereference, slice bounds, negative [make]) is the third constructor, which
    no [if err != nil] handles. *)

Abbreviation error := string (only parsing).

Inductive outcome (A : Type) : Type :=
| Ok (a : A)
| Err (e : string)
| Panic (why : string).
Arguments Ok {A} a.
Arguments Err {A} e.
Arguments Panic {A} why.

#[global] Instance outcome_eq_dec `{EqDecision A} : EqDecision (outcome A).
Proof. solve_decision. Defined.

#[global] Instance outcome_ret : MRet outcome := λ A a, Ok a.
#[global] Instance outcome_bind : MBind outcome := λ A B f x,
  match x with Ok a => f a | Err e => Err e | Panic w => Panic w end.
#[global] Instance outcome_fmap : FMap outcome := λ A B f x,
  match x with Ok a => Ok (f a) | Err e => Err e | Panic w => Panic w end.

Definition is_ok {A} (x : outcome A) : bool :=
  match x with Ok _ => true | _ => false end.

(** ** The state-and-error monad

    A Go function with effects is [M S A]: it takes the state, and returns the
    outcome together with the state it leaves behind.  An error or a panic keeps
    the effects performed before it, as in Go. *)

Definition M (S A : Type) : Type := S → outcome A * S.

#[global] Instance M_ret S : MRet (M S) := λ A a s, (Ok a, s).
#[global] Instance M_bind S : MBind (M S) := λ A B f c s,
  match c s with
  | (Ok a, s') => f a s'
  | (Err e, s') => (Err e, s')
  | (Panic w, s') => (Panic w, s')
  end.

Definition get_st {S} : M S S := λ s, (Ok s, s).
Definition gets {S A} (f : S → A) : M S A := λ s, (Ok (f s), s).
Definition modify {S} (f : S → S) : M S unit := λ s, (Ok tt, f s).
Definition throw {S A} (e : error) : M S A := λ s, (Err e, s).
Definition gopanic {S A} (w : string) : M S A := λ s, (Panic w, s).
Definition lift_out {S A} (x : outcome A) : M S A := λ s, (x, s).

(** [try c] is [v, err := c]: the error becomes a value, a panic does not. *)
Definition try {S A} (c : M S A) : M S (A + error) := λ s,
  match c s with
  | (Ok a, s') => (Ok (inl a), s')
  | (Err e, s') => (Ok (inr e), s')
  | (Panic w, s') => (Panic w, s')
  end.

(** [zoom get put c] runs [c], which works on a part of the state. *)
Definition zoom {S T A} (get : S → T) (put : T → S → S) (c : M T A) : M S A := λ s,
  let '(r, t) := c (get s) in (r, put t s).

(** [for _, x := range l { f(x) }] where [f] may return an error early. *)
Fixpoint for_each {S A} (l : list A) (f : A → M S unit) : M S unit :=
  match l with
  | [] => mret tt
  | x :: l' => _ ← f x; for_each l' f
  end.

(** The same loop with an accumulator held in local variables. *)
Fixpoint fold_m {S A B} (l : list A) (f : B → A → M S B) (b : B) : M S B :=
  match l with
  | [] => mret b
  | x :: l' => b' ← f b x; fold_m l' f b'
  end.

(** [if err := c; err != nil { os.Exit(1) }; k] in a program's [main], whose result is
    the exit status; [log.Fatal] exits the same way. *)
Definition or_exit {S A} (c : M S A) (k : A → M S Z) : M S Z :=
  r ← try c;
  match r with
  | inl a => k a
  | inr _ => mret 1%Z
  end.

(** The loop [for _, x := range l { if p(x) { return x } }]. *)
Definition first_such {A} (p : A → bool) : list A → option A :=
  fix go l := match l with
              | [] => None
              | x :: l' => if p x then Some x else go l'
              end.

Section MonadLemmas.
Context {S : Type}.

Lemma M_bind_ok {A B} (c : M S A) (f : A → M S B) s a s' :
  c s = (Ok a, s') → (c ≫= f) s = f a s'.
Proof. unfold mbind, M_bind. by intros ->. Qed.

Lemma M_bind_err {A B} (c : M S A) (f : A → M S B) s e s' :
  c s = (Err e, s') → (c ≫= f) s = (Err e, s').
Proof. unfold mbind, M_bind. by intros ->. Qed.

Lemma M_bind_panic {A B} (c : M S A) (f : A → M S B) s w s' :
  c s = (Panic w, s') → (c ≫= f) s = (Panic w, s').
Proof. unfold mbind, M_bind. by intros ->. Qed.

Lemma M_bind_inv {A B} (c : M S A) (f : A → M S B) s b s' :
  (c ≫= f) s = (Ok b, s') → ∃ a s1, c s = (Ok a, s1) ∧ f a s1 = (Ok b, s').
Proof.
  unfold mbind, M_bind. destruct (c s) as [[a|e|w] s1]; intros; simplify_eq; eauto.
Qed.

Lemma M_bind_err_inv {A B} (c : M S A) (f : A → M S B) s e s' :
  (c ≫= f) s = (Err e, s') →
  c s = (Err e, s') ∨ ∃ a s1, c s = (Ok a, s1) ∧ f a s1 = (Err e, s').
Proof.
  unfold mbind, M_bind. destruct (c s) as [[a|e'|w] s1]; intros; simplify_eq; eauto.
Qed.

Lemma try_no_err {A} (c : M S A) s e s' : try c s ≠ (Err e, s').
Proof. unfold try. by destruct (c s) as [[| |] ?]. Qed.

Lemma M_ret_run {A} (a : A) (s : S) : (mret a : M S A) s = (Ok a, s).
Proof. done. Qed.

Lemma M_bind_assoc {A B C} (c : M S A) (f : A → M S B) (g : B → M S C) s :
  ((c ≫= f) ≫= g) s = (c ≫= λ a, f a ≫= g) s.
Proof. unfold mbind, M_bind. by destruct (c s) as [[a|e|w] s1]. Qed.

Lemma try_ok {A} (c : M S A) s a s' : c s = (Ok a, s') → try c s = (Ok (inl a), s').
Proof. unfold try. by intros ->. Qed.

Lemma try_err {A} (c : M S A) s e s' : c s = (Err e, s') → try c s = (Ok (inr e), s').
Proof. unfold try. by intros ->. Qed.

Lemma try_bind_inv {A B} (c : M S A) (f : A + error → M S B) s b s' :
  (try c ≫= f) s = (Ok b, s') →
  (∃ a s1, c s = (Ok a, s1) ∧ f (inl a) s1 = (Ok b, s')) ∨
  (∃ e s1, c s = (Err e, s1) ∧ f (inr e) s1 = (Ok b, s')).
Proof.
  unfold mbind, M_bind, try. destruct (c s) as [[a|e|w] s1]; intros; simplify_eq; eauto.
Qed.

Lemma try_bind_ok {A B} (c : M S A) (f : A + error → M S B) s a s' :
  c s = (Ok a, s') → (try c ≫= f) s = f (inl a) s'.
Proof. unfold mbind, M_bind, try. by intros ->. Qed.

Lemma try_bind_err {A B} (c : M S A) (f : A + error → M S B) s e s' :
  c s = (Err e, s') → (try c ≫= f) s = f (inr e) s'.
Proof. unfold mbind, M_bind, try. by intros ->. Qed.

Lemma or_exit_bind {A B} (c : M S A) (g : A → M S B) (k : B → M S Z) s :
  or_exit c (λ a, or_exit (g a) k) s = or_exit (c ≫= g) k s.
Proof.
  unfold or_exit, try, mbind, M_bind. by destruct (c s) as [[a|e|w] s1].
Qed.

Lemma or_exit_ext {A} (c c' : M S A) (k k' : A → M S Z) s :
  c s = c' s → (∀ a s1, k a s1 = k' a s1) → or_exit c k s = or_exit c' k' s.
Proof.
  intros Hc Hk. unfold or_exit, try, mbind, M_bind. rewrite Hc.
  destruct (c' s) as [[a|e|w] s1]; [apply Hk|done..].
Qed.

Lemma for_each_app {A} (l1 l2 : list A) (f : A → M S unit) s :
  for_each (l1 ++ l2) f s = (for_each l1 f ≫= λ _, for_each l2 f) s.
Proof.
  revert s. induction l1 as [|x l1 IH]; intros s; [done|].
  simpl. rewrite M_bind_assoc. unfold mbind at 1 2, M_bind.
  destruct (f x s) as [[[]|e|w] s1]; [apply IH|done|done].
Qed.

End MonadLemmas.

(** ** Relational invariants of computations

    [preserves R c]: whatever the outcome of [c], the states before and after are
    related by [R].  For a preorder this follows from the parts of [c]. *)

Definition preserves {S A} (R : relation S) (c : M S A) : Prop :=
  ∀ s r s', c s = (r, s') → R s s'.

Section Preserves.
Context {S : Type} (R : relation S) `{!PreOrder R}.

Lemma preserves_state {A} (c : M S A) : (∀ s, (c s).2 = s) → preserves R c.
Proof. intros Hc s r s' H. specialize (Hc s). rewrite H in Hc. cbn in Hc. by subst. Qed.

Lemma preserves_bind {A B} (c : M S A) (f : A → M S B) :
  preserves R c → (∀ a, preserves R (f a)) → preserves R (c ≫= f).
Proof.
  intros Hc Hf s r s'. unfold mbind, M_bind.
  destruct (c s) as [[a|e|w] s1] eqn:E; [|intros [= <- <-]; by eapply Hc..].
  intros H. etrans; [by eapply Hc|by eapply Hf].
Qed.

Lemma preserves_try {A} (c : M S A) : preserves R c → preserves R (try c).
Proof.
  intros Hc s r s'. unfold try. destruct (c s) as [[a|e|w] s1] eqn:E;
    intros [= <- <-]; by eapply Hc.
Qed.

Lemma preserves_for_each {A} (l : list A) (f : A → M S unit) :
  (∀ x, x ∈ l → preserves R (f x)) → preserves R (for_each l f).
Proof.
  induction l as [|x l IH]; intros Hf; cbn [for_each]; [by apply preserves_state|].
  apply preserves_bind; [apply Hf; by left|]. intros _. apply IH. intros y Hy. apply Hf. by right.
Qed.

End Preserves.

Lemma first_such_Some {A} (p : A → bool) l x :
  first_such p l = Some x ↔
  ∃ l1 l2, l = l1 ++ x :: l2 ∧ p x = true ∧ Forall (λ y, p y = false) l1.
Proof.
  split.
  - induction l as [|y l IH]; simpl; [done|].
    destruct (p y) eqn:Hy; intros Heq.
    + simplify_eq. by exists [], l.
    + destruct (IH Heq) as (l1 & l2 & -> & ? & ?). exists (y :: l1), l2. auto.
  - intros (l1 & l2 & -> & Hx & Hl1). induction Hl1 as [|y l1 Hy _ IH]; simpl.
    + by rewrite Hx.
    + by rewrite Hy.
Qed.

Lemma first_such_None {A} (p : A → bool) l :
  first_such p l = None ↔ Forall (λ y, p y = false) l.
Proof.
  induction l as [|y l IH]; simpl; [done|].
  destruct (p y) eqn:Hy; split; intros H; try done.
  - inversion H; congruence.
  - constructor; [done|by apply IH].
  - inversion H; subst. by apply IH.
Qed.

(** ** Machine integers

    Values of Go's [int], [int64], [int32] are [Z]; a conversion or an
    arithmetic operation that can leave the width wraps. *)

Section Ints.
Local Open Scope Z_scope.

Definition swrap (w : Z) (z : Z) : Z :=
  (z + 2 ^ (w - 1)) mod 2 ^ w - 2 ^ (w - 1).
Definition uwrap (w : Z) (z : Z) : Z := z mod 2 ^ w.

Definition in_int32 (z : Z) : Prop := - 2 ^ 31 ≤ z < 2 ^ 31.
Definition in_int64 (z : Z) : Prop := - 2 ^ 63 ≤ z < 2 ^ 63.

Lemma swrap_id w z : 0 < w → - 2 ^ (w - 1) ≤ z < 2 ^ (w - 1) → swrap w z = z.
Proof.
  intros Hw Hz. unfold swrap.
  assert (2 ^ w = 2 * 2 ^ (w - 1)) as Hpow.
  { rewrite <- Z.pow_succ_r by lia. f_equal. lia. }
  rewrite Z.mod_small by lia. lia.
Qed.

Lemma swrap_range w z : 0 < w → - 2 ^ (w - 1) ≤ swrap w z < 2 ^ (w - 1).
Proof.
  intros Hw. unfold swrap.
  assert (2 ^ w = 2 * 2 ^ (w - 1)) as Hpow.
  { rewrite <- Z.pow_succ_r by lia. f_equal. lia. }
  pose proof (Z.pow_pos_nonneg 2 (w - 1)) as Hpos.
  pose proof (Z.mod_pos_bound (z + 2 ^ (w - 1)) (2 ^ w)) as Hmod. lia.
Qed.

(** Wrapping a summand first does not change the wrapped sum. *)
Lemma swrap_add_l w a b : swrap w (swrap w a + b) = swrap w (a + b).
Proof.
  unfold swrap. f_equal. set (h := 2 ^ (w - 1)). set (m := 2 ^ w).
  replace ((a + h) mod m - h + b + h) with ((a + h) mod m + b) by lia.
  rewrite Zplus_mod_idemp_l. f_equal. lia.
Qed.

Lemma swrap_add_r w a b : swrap w (a + swrap w b) = swrap w (a + b).
Proof. rewrite (Z.add_comm a), swrap_add_l. f_equal. lia. Qed.

Lemma swrap32_id z : in_int32 z → swrap 32 z = z.
Proof. intros H. apply swrap_id; [lia|]. unfold in_int32 in H. lia. Qed.
Lemma swrap64_id z : in_int64 z → swrap 64 z = z.
Proof. intros H. apply swrap_id; [lia|]. unfold in_int64 in H. lia. Qed.
Lemma swrap32_range z : in_int32 (swrap 32 z).
Proof. pose proof (swrap_range 32 z). unfold in_int32. lia. Qed.
Lemma swrap64_range z : in_int64 (swrap 64 z).
Proof. pose proof (swrap_range 64 z). unfold in_int64. lia. Qed.
End Ints.

Abbreviation int32 := (swrap 32).
Abbreviation int64 := (swrap 64).
Abbreviation uint64 := (uwrap 64).

#[global] Instance in_int32_dec z : Decision (in_int32 z).
Proof. unfold in_int32. apply _. Defined.
#[global] Instance in_int64_dec z : Decision (in_int64 z).
Proof. unfold in_int64. apply _. Defined.

(** ** Automation *)

Create HintDb copilot.
Create Rewrite HintDb copilot.
#[export] Hint Resolve swrap32_range swrap64_range : copilot.
#[export] Hint Rewrite @M_ret_run : copilot.

(** Run a monadic computation by unfolding the plumbing of [M]. *)
Ltac unfold_M :=
  unfold mbind, M_bind, mret, M_ret, outcome_bind, outcome_ret, get_st, gets, modify,
    throw, gopanic, lift_out, try in *.

(** Case analysis on every run of a computation the goal or a hypothesis
    matches on. *)
Ltac run_cases :=
  repeat match goal with
  | |- context [match ?c ?s with (_, _) => _ end] =>
      let E := fresh "Erun" in destruct (c s) as [[?|?|?] ?] eqn:E; simpl
  | H : context [match ?c ?s with (_, _) => _ end] |- _ =>
      let E := fresh "Erun" in destruct (c s) as [[?|?|?] ?] eqn:E; simpl in H
  end.

(** Decompose a successful run of a bind. *)
Ltac inv_bind :=
  repeat match goal with
  | H : (_ ≫= _) _ = (Ok _, _) |- _ =>
      apply M_bind_inv in H as (? & ? & ? & H); simpl in H
  | H : mret _ _ = _ |- _ => rewrite M_ret_run in H
  | H : lift_out _ _ = (Ok _, _) |- _ => unfold lift_out in H
  end; simplify_eq/=.

(** Split a goal [preserves R c] along the binds and case distinctions of [c]; the
    parts are left to the hints of [copilot]. *)
#[export] Hint Extern 2 (preserves _ (mret _)) => apply preserves_state; [apply _|done] : copilot.
#[export] Hint Extern 2 (preserves _ (throw _)) => apply preserves_state; [apply _|done] : copilot.
#[export] Hint Extern 2 (preserves _ (lift_out _)) => apply preserves_state; [apply _|done] : copilot.
#[export] Hint Extern 2 (preserves _ (gopanic _)) => apply preserves_state; [apply _|done] : copilot.
#[export] Hint Extern 2 (preserves _ get_st) => apply preserves_state; [apply _|done] : copilot.

Ltac solve_preserves :=
  repeat first [ progress auto 2 with copilot nocore
               | apply preserves_bind; [apply _| |intros] | apply preserves_try | case_match ].

(** ** Maps *)

(** Looking a key up in a Go map that may be nil: a nil map is empty. *)
Definition nil_lookup {A} (k : string) (m : option (gmap string A)) : option A :=
  m ≫= lookup k.

Lemma nil_lookup_Some {A} k (m : gmap string A) : nil_lookup k (Some m) = m !! k.
Proof. done. Qed.

Lemma nil_lookup_None {A} k : nil_lookup (A:=A) k None = None.
Proof. done. Qed.

#[export] Hint Rewrite @nil_lookup_Some @nil_lookup_None : copilot.

(** Building a map by inserting the pairs of a list in order: a later pair
    overwrites an earlier one, as assignments in a Go loop do. *)
Definition insert_all {A} (l : list (string * A)) (m : gmap string A) : gmap string A :=
  foldl (λ acc '(k, v), <[k := v]> acc) m l.

(** The value the last pair with key [k] carries. *)
Definition last_value {A} (k : string) (l : list (string * A)) : option A :=
  first_such (λ p, bool_decide (p.1 = k)) (reverse l) ≫= λ p, Some p.2.

Lemma insert_all_app {A} (l1 l2 : list (string * A)) m :
  insert_all (l1 ++ l2) m = insert_all l2 (insert_all l1 m).
Proof. unfold insert_all. by rewrite foldl_app. Qed.

Lemma lookup_insert_all {A} k (l : list (string * A)) m :
  insert_all l m !! k = match last_value k l with Some v => Some v | None => m !! k end.
Proof.
  revert m. induction l as [|[k' v'] l IH] using rev_ind; intros m; [done|].
  rewrite insert_all_app. unfold last_value. rewrite reverse_app. simpl.
  case_bool_decide as Hk; simpl.
  - subst k'. by rewrite lookup_insert_eq.
  - rewrite lookup_insert_ne by done. apply IH.
Qed.

Lemma last_value_None {A} k (l : list (string * A)) :
  last_value k l = None ↔ k ∉ l.*1.
Proof.
  unfold last_value.
  destruct (first_such _ _) as [p|] eqn:E; simpl.
  - apply first_such_Some in E as (l1 & l2 & Hl & Hp & _).
    apply bool_decide_eq_true in Hp. split; [done|intros []].
    apply list_elem_of_fmap. exists p. split; [done|].
    rewrite <- (reverse_involutive l), Hl, elem_of_reverse, elem_of_app, elem_of_cons. auto.
  - apply first_such_None in E. split; [|done]. intros _ Hin.
    apply list_elem_of_fmap in Hin as (p & -> & Hp).
    rewrite list.Forall_forall in E.
    assert (bool_decide (p.1 = p.1) = false) as Hp'
      by (apply E; by apply elem_of_reverse).
    by apply bool_decide_eq_false in Hp'.
Qed.

Lemma last_value_Some {A} k (v : A) l : last_value k l = Some v → (k, v) ∈ l.
Proof.
  unfold last_value. destruct (first_such _ _) as [[k' v']|] eqn:E; cbn; [|done].
  intros [= ->]. apply first_such_Some in E as (l1 & l2 & Hl & Hp & _).
  apply bool_decide_eq_true in Hp. cbn in Hp. subst k'.
  rewrite <- (reverse_involutive l), Hl, elem_of_reverse, elem_of_app, elem_of_cons. auto.
Qed.
