(* ===== verification/GoStrings.v ===== *)
(** * Go's [strings] and [strconv], as far as the repository uses them

    Go strings are byte sequences; here [string] is a list of [ascii], one per
    byte.  The package models [strings.Split], [SplitN(_, _, 2)], [HasPrefix],
    [HasSuffix], [ReplaceAll], [Join], [strconv.Atoi], [Itoa] and [ParseBool].
    Every separator the repository passes to [Split] is a single byte. *)

From S2P Require Import Prelude.

Local Open Scope string_scope.

(** ** Splitting and joining *)

(** [strings.Split(s, sep)] for a one-byte separator. *)
Fixpoint Split (s : string) (sep : ascii) : list string :=
  match s with
  | "" => [""]
  | String a s' =>
      if Ascii.eqb a sep then "" :: Split s' sep
      else match Split s' sep with
           | [] => [String a ""]
           | h :: t => String a h :: t
           end
  end.

(** [strings.SplitN(s, sep, 2)]: split at the first separator only. *)
Fixpoint SplitN2 (s : string) (sep : ascii) : list string :=
  match s with
  | "" => [""]
  | String a s' =>
      if Ascii.eqb a sep then [""; s']
      else match SplitN2 s' sep with
           | [] => [String a ""]
           | h :: t => String a h :: t
           end
  end.

(** [strings.Join]. *)
Fixpoint Join (l : list string) (sep : string) : string :=
  match l with
  | [] => ""
  | [x] => x
  | x :: l' => x +:+ sep +:+ Join l' sep
  end.

Definition HasPrefix (s p : string) : bool := String.prefix p s.

Fixpoint HasSuffix (s suf : string) : bool :=
  bool_decide (s = suf) ||
  match s with "" => false | String _ s' => HasSuffix s' suf end.

(** [strings.ReplaceAll(s, old, new)] for a non-empty [old]: [skip] bytes of the
    current occurrence are still to be dropped. *)
Fixpoint replace_go (old new : string) (skip : nat) (s : string) : string :=
  match s with
  | "" => ""
  | String a s' =>
      match skip with
      | S k => replace_go old new k s'
      | O => if String.prefix old s then new +:+ replace_go old new (String.length old - 1) s'
             else String a (replace_go old new 0 s')
      end
  end.
Definition ReplaceAll (s old new : string) : string := replace_go old new 0 s.

(** A byte occurs in a string. *)
Fixpoint contains_byte (c : ascii) (s : string) : bool :=
  match s with "" => false | String a s' => Ascii.eqb a c || contains_byte c s' end.

(** The string without its first byte, and without its last. *)
Definition tail_str (s : string) : string :=
  match s with "" => "" | String _ s' => s' end.
Fixpoint drop_last (s : string) : string :=
  match s with "" => "" | String _ "" => "" | String a s' => String a (drop_last s') end.

(** The double quote. *)
Definition dquote : string := String (Ascii.ascii_of_nat 34) "".

(** ** Numbers *)

Definition digit_of (a : ascii) : option Z :=
  let n := Z.of_N (Ascii.N_of_ascii a) in
  if bool_decide (48 ≤ n ≤ 57)%Z then Some (n - 48)%Z else None.

Definition atoi_syntax (s : string) : error :=
  "strconv.Atoi: parsing " +:+ dquote +:+ s +:+ dquote +:+ ": invalid syntax".
Definition atoi_range (s : string) : error :=
  "strconv.Atoi: parsing " +:+ dquote +:+ s +:+ dquote +:+ ": value out of range".

(** The digit loop of [strconv.ParseUint(s, 10, 64)]; [s0] is the whole input,
    for the error text. *)
Fixpoint parse_digits (s0 : string) (n : Z) (s : string) : outcome Z :=
  match s with
  | "" => Ok n
  | String a s' =>
      match digit_of a with
      | None => Err (atoi_syntax s0)
      | Some d =>
          let n' := (n * 10 + d)%Z in
          if bool_decide (2 ^ 64 ≤ n')%Z then Err (atoi_range s0) else parse_digits s0 n' s'
      end
  end.

Definition ParseUint10 (s0 s : string) : outcome Z :=
  match s with "" => Err (atoi_syntax s0) | _ => parse_digits s0 0 s end.

(** [strconv.Atoi] with a 64-bit [int]. *)
Definition Atoi (s : string) : outcome Z :=
  let neg := match s with "" => false | String a _ => Ascii.eqb a "-" end in
  let body := match s with
              | "" => ""
              | String a s' => if Ascii.eqb a "-" || Ascii.eqb a "+" then s' else s
              end in
  un ← ParseUint10 s body;
  if neg then if bool_decide (2 ^ 63 < un)%Z then Err (atoi_range s) else Ok (- un)%Z
  else if bool_decide (2 ^ 63 ≤ un)%Z then Err (atoi_range s) else Ok un.

(** [strconv.Itoa], and the [%d] verb. *)
Definition Itoa (z : Z) : string := pretty z.

(** [strconv.ParseBool]. *)
Definition ParseBool (s : string) : outcome bool :=
  if bool_decide (s ∈ ["1"; "t"; "T"; "true"; "TRUE"; "True"]) then Ok true
  else if bool_decide (s ∈ ["0"; "f"; "F"; "false"; "FALSE"; "False"]) then Ok false
  else Err ("strconv.ParseBool: parsing " +:+ dquote +:+ s +:+ dquote +:+ ": invalid syntax").

(** ** UTF-8

    [utf8.ValidString]: [pending] holds the ranges the continuation bytes of the
    current code point must fall into. *)

Definition utf8_lead (b : Z) : option (list (Z * Z)) :=
  if bool_decide (b < 128)%Z then Some []
  else if bool_decide (194 ≤ b ≤ 223)%Z then Some [(128, 191)]%Z
  else if bool_decide (b = 224)%Z then Some [(160, 191); (128, 191)]%Z
  else if bool_decide (b = 237)%Z then Some [(128, 159); (128, 191)]%Z
  else if bool_decide (225 ≤ b ≤ 239)%Z then Some [(128, 191); (128, 191)]%Z
  else if bool_decide (b = 240)%Z then Some [(144, 191); (128, 191); (128, 191)]%Z
  else if bool_decide (b = 244)%Z then Some [(128, 143); (128, 191); (128, 191)]%Z
  else if bool_decide (241 ≤ b ≤ 243)%Z then Some [(128, 191); (128, 191); (128, 191)]%Z
  else None.

Fixpoint utf8_go (pending : list (Z * Z)) (s : string) : bool :=
  match s, pending with
  | "", [] => true
  | "", _ :: _ => false
  | String a s', (lo, hi) :: p =>
      let b := Z.of_N (Ascii.N_of_ascii a) in
      bool_decide (lo ≤ b ≤ hi)%Z && utf8_go p s'
  | String a s', [] =>
      match utf8_lead (Z.of_N (Ascii.N_of_ascii a)) with
      | Some p => utf8_go p s'
      | None => false
      end
  end.

Definition ValidString (s : string) : bool := utf8_go [] s.

(** ** Lemmas *)

Lemma string_app_nil_r s : s +:+ "" = s.
Proof. induction s as [|a s IH]; [done|]. simpl. by rewrite IH. Qed.

Lemma string_app_assoc a b c : (a +:+ b) +:+ c = a +:+ (b +:+ c).
Proof. induction a as [|x a IH]; [done|]. simpl. by rewrite IH. Qed.

Lemma string_app_inj_l a b c : a +:+ b = a +:+ c → b = c.
Proof. induction a as [|x a IH]; [done|]. simpl. intros [=]. auto. Qed.

Lemma string_length_app a b : String.length (a +:+ b) = (String.length a + String.length b)%nat.
Proof. induction a as [|x a IH]; [done|]. simpl. by rewrite IH. Qed.

Lemma string_app_inj_r a b c : a +:+ c = b +:+ c → a = b.
Proof.
  revert b. induction a as [|x a IH]; intros [|y b] Heq; [done| | |].
  - apply (f_equal String.length) in Heq. rewrite !string_length_app in Heq. simpl in Heq. lia.
  - apply (f_equal String.length) in Heq. rewrite !string_length_app in Heq. simpl in Heq. lia.
  - simpl in Heq. injection Heq as -> Heq. by rewrite (IH _ Heq).
Qed.

Lemma contains_byte_app c a b :
  contains_byte c (a +:+ b) = contains_byte c a || contains_byte c b.
Proof. induction a as [|x a IH]; simpl; [done|]. rewrite IH. by rewrite orb_assoc. Qed.

Lemma Split_not_nil s sep : Split s sep ≠ [].
Proof. destruct s; simpl; [done|]. repeat case_match; done. Qed.

Lemma Split_app a b sep :
  contains_byte sep a = false → Split (a +:+ String sep b) sep = a :: Split b sep.
Proof.
  induction a as [|x a IH]; simpl; intros H.
  - by rewrite Ascii.eqb_refl.
  - apply orb_false_iff in H as [-> H]. by rewrite IH.
Qed.

Lemma Split_no_sep a sep : contains_byte sep a = false → Split a sep = [a].
Proof.
  induction a as [|x a IH]; simpl; intros H; [done|].
  apply orb_false_iff in H as [-> H]. by rewrite IH.
Qed.

(** Joining what was split gives the string back. *)
Lemma Join_Split s sep : Join (Split s sep) (String sep "") = s.
Proof.
  induction s as [|x s IH]; [done|]. simpl.
  destruct (Ascii.eqb_spec x sep) as [->|Hne].
  - pose proof (Split_not_nil s sep).
    destruct (Split s sep) as [|h t]; [done|]. simpl in *. by rewrite IH.
  - pose proof (Split_not_nil s sep).
    destruct (Split s sep) as [|h t]; [done|]. destruct t; simpl in *; by rewrite <- IH.
Qed.

Lemma Split_pieces s sep : Forall (λ p, contains_byte sep p = false) (Split s sep).
Proof.
  induction s as [|x s IH]; simpl; [by repeat constructor|].
  destruct (Ascii.eqb x sep) eqn:E; [by constructor|].
  destruct (Split s sep) as [|h t]; [repeat constructor; simpl; by rewrite E|].
  inversion IH; subst. constructor; [|done]. simpl. by rewrite E.
Qed.

(** Splitting what was joined gives the pieces back. *)
Lemma Split_Join sep l :
  l ≠ [] → Forall (λ p, contains_byte sep p = false) l → Split (Join l (String sep "")) sep = l.
Proof.
  intros Hne Hl. induction Hl as [|x l Hx Hl IH]; [done|].
  destruct l as [|y l]; [by apply Split_no_sep|].
  change (Split (x +:+ String sep (Join (y :: l) (String sep ""))) sep = x :: y :: l).
  rewrite Split_app by done. f_equal. by apply IH.
Qed.

Lemma SplitN2_app a b sep :
  contains_byte sep a = false → SplitN2 (a +:+ String sep b) sep = [a; b].
Proof.
  induction a as [|x a IH]; simpl; intros H.
  - by rewrite Ascii.eqb_refl.
  - apply orb_false_iff in H as [-> H]. by rewrite IH.
Qed.

Lemma SplitN2_inv s sep a b :
  SplitN2 s sep = [a; b] → s = a +:+ String sep b ∧ contains_byte sep a = false.
Proof.
  revert a. induction s as [|x s IH]; intros a; simpl; [done|].
  destruct (Ascii.eqb_spec x sep) as [->|Hne]; [by intros [= <- <-]|].
  destruct (SplitN2 s sep) as [|h t] eqn:E; [done|]. intros [= <- ->].
  destruct (IH _ eq_refl) as [-> Ha]. simpl. split; [done|]. rewrite Ha.
  by apply Ascii.eqb_neq in Hne as ->.
Qed.

Lemma drop_last_app s a : drop_last (s +:+ String a "") = s.
Proof.
  induction s as [|x s IH]; [done|]. simpl. rewrite IH. by destruct s.
Qed.

Lemma HasSuffix_app s suf : HasSuffix (s +:+ suf) suf = true.
Proof.
  induction s as [|x s IH]; cbn [String.append HasSuffix].
  - destruct suf; cbn [HasSuffix]; by rewrite bool_decide_eq_true_2.
  - by rewrite IH, orb_true_r.
Qed.

Lemma HasPrefix_inv p s : HasPrefix s p = true → ∃ r, s = p +:+ r.
Proof.
  unfold HasPrefix. revert s. induction p as [|a p IH]; intros s H; [by exists s|].
  destruct s as [|b s]; simpl in H; [done|].
  destruct (Ascii.ascii_dec a b) as [->|]; [|done].
  destruct (IH s H) as [r ->]. by exists r.
Qed.

Lemma HasPrefix_app p r : HasPrefix (p +:+ r) p = true.
Proof.
  unfold HasPrefix. induction p as [|a p IH]; simpl; [by destruct r|].
  by destruct (Ascii.ascii_dec a a).
Qed.

(** ** [Atoi] inverts [Itoa] *)

Lemma digit_of_pretty x : (x < 10)%N → digit_of (pretty_N_char x) = Some (Z.of_N x).
Proof.
  intros Hx.
  assert (x = 0 ∨ x = 1 ∨ x = 2 ∨ x = 3 ∨ x = 4 ∨ x = 5 ∨ x = 6 ∨ x = 7 ∨ x = 8 ∨ x = 9)%N
    as Hcases by lia.
  repeat destruct Hcases as [->|Hcases]; try reflexivity. by subst.
Qed.

(** The decimal rendering of [x] in front of [s] is read as [x] first. *)
Lemma parse_digits_pretty s0 x s :
  (Z.of_N x < 2 ^ 64)%Z →
  parse_digits s0 0 (pretty_N_go x s) = parse_digits s0 (Z.of_N x) s.
Proof.
  revert s. induction (N.lt_wf_0 x) as [x _ IH]; intros s Hx.
  assert (x = 0 ∨ 0 < x)%N as [->|Hpos] by lia; [done|].
  rewrite pretty_N_go_step by done.
  rewrite IH; [|by apply N.div_lt|].
  2: { rewrite N2Z.inj_div. pose proof (N2Z.is_nonneg x).
       apply Z.le_lt_trans with (Z.of_N x); [|done]. apply Z.div_le_upper_bound; lia. }
  cbn [parse_digits]. rewrite digit_of_pretty by (apply N.mod_lt; lia).
  rewrite N2Z.inj_div, N2Z.inj_mod.
  replace (Z.of_N x `div` Z.of_N 10 * 10 + Z.of_N x `mod` Z.of_N 10)%Z with (Z.of_N x)
    by (pose proof (Z.div_mod (Z.of_N x) 10); lia).
  by rewrite bool_decide_eq_false_2 by lia.
Qed.

Lemma pretty_N_go_suffix x s : pretty_N_go x s = pretty_N_go x "" +:+ s.
Proof.
  revert s. induction (N.lt_wf_0 x) as [x _ IH]; intros s.
  assert (x = 0 ∨ 0 < x)%N as [->|Hpos] by lia; [done|].
  rewrite (pretty_N_go_step x s), (pretty_N_go_step x "") by done.
  rewrite (IH _ (N.div_lt x 10 Hpos eq_refl) (String _ s)).
  rewrite (IH _ (N.div_lt x 10 Hpos eq_refl) (String _ "")).
  by rewrite string_app_assoc.
Qed.

Definition is_digit (a : ascii) : bool := bool_decide (is_Some (digit_of a)).

Fixpoint all_digits (s : string) : bool :=
  match s with "" => true | String a s' => is_digit a && all_digits s' end.

Lemma all_digits_app a b : all_digits (a +:+ b) = all_digits a && all_digits b.
Proof. induction a as [|x a IH]; simpl; [done|]. by rewrite IH, andb_assoc. Qed.

Lemma all_digits_pretty_go x : all_digits (pretty_N_go x "") = true.
Proof.
  induction (N.lt_wf_0 x) as [x _ IH].
  assert (x = 0 ∨ 0 < x)%N as [->|Hpos] by lia; [done|].
  rewrite pretty_N_go_step by done.
  rewrite pretty_N_go_suffix, all_digits_app.
  rewrite (IH _ (N.div_lt x 10 Hpos eq_refl)). simpl. unfold is_digit.
  rewrite digit_of_pretty by (apply N.mod_lt; lia). by rewrite bool_decide_eq_true_2 by eauto.
Qed.

Lemma pretty_pos_nonempty (p : positive) : pretty p ≠ "".
Proof.
  intros Heq. assert (pretty_N_go (Npos p) "" = "") as H by exact Heq.
  rewrite pretty_N_go_step, pretty_N_go_suffix in H by lia.
  by destruct (pretty_N_go _ "").
Qed.

Lemma all_digits_pretty_pos (p : positive) : all_digits (pretty p) = true.
Proof. apply (all_digits_pretty_go (Npos p)). Qed.

(** The rendering of a non-negative number is a non-empty string of digits. *)
Lemma Itoa_digits z : (0 ≤ z)%Z → all_digits (Itoa z) = true ∧ Itoa z ≠ "".
Proof.
  destruct z as [|p|p]; intros H; [done| |lia].
  split; [apply all_digits_pretty_pos|apply pretty_pos_nonempty].
Qed.

Lemma ParseUint10_pretty s0 (p : positive) :
  (Z.pos p < 2 ^ 64)%Z → ParseUint10 s0 (pretty p) = Ok (Z.pos p).
Proof.
  intros Hp. unfold ParseUint10.
  pose proof (pretty_pos_nonempty p). destruct (pretty p) as [|a s] eqn:E; [done|].
  rewrite <- E. exact (parse_digits_pretty s0 (Npos p) "" Hp).
Qed.

Lemma not_digit_sign a s : all_digits (String a s) = true → a ≠ "-"%char ∧ a ≠ "+"%char.
Proof.
  simpl. intros [Ha _]%andb_prop. split; intros ->; by vm_compute in Ha.
Qed.

(** C-style contract of the pair: every [int] survives [Itoa] then [Atoi]. *)
Lemma Atoi_Itoa z : in_int64 z → Atoi (Itoa z) = Ok z.
Proof.
  unfold in_int64. intros Hz. destruct z as [|p|p]; [done| |].
  - unfold Atoi, Itoa. change (pretty (Z.pos p)) with (pretty p).
    pose proof (all_digits_pretty_pos p) as Hd.
    pose proof (ParseUint10_pretty (pretty p) p) as HP.
    destruct (pretty p) as [|a s]; [by specialize (HP ltac:(lia))|].
    apply not_digit_sign in Hd as [->%Ascii.eqb_neq ->%Ascii.eqb_neq]. cbn [orb].
    rewrite HP by lia. unfold mbind, outcome_bind.
    by rewrite bool_decide_eq_false_2 by lia.
  - unfold Atoi, Itoa. change (pretty (Z.neg p)) with ("-" +:+ pretty p).
    cbn -[Itoa ParseUint10 pretty bool_decide Z.pow]. rewrite ParseUint10_pretty by lia.
    unfold mbind, outcome_bind. by rewrite bool_decide_eq_false_2 by lia.
Qed.

(** [Atoi] only returns 64-bit values. *)
Lemma parse_digits_range s0 n s v :
  (0 ≤ n < 2 ^ 64)%Z → parse_digits s0 n s = Ok v → (0 ≤ v < 2 ^ 64)%Z.
Proof.
  revert n. induction s as [|a s IH]; simpl; intros n Hn H; [by simplify_eq|].
  destruct (digit_of a) as [d|] eqn:Hd; [|done]. case_bool_decide as Hlt; [done|].
  assert (0 ≤ d)%Z by (unfold digit_of in Hd; case_bool_decide; simplify_eq; lia).
  eapply IH; [|exact H]. lia.
Qed.

(** A non-digit does not occur in a string of digits. *)
Lemma all_digits_no_byte c s :
  is_digit c = false → all_digits s = true → contains_byte c s = false.
Proof.
  intros Hc. induction s as [|a s IH]; [done|]. cbn [all_digits contains_byte].
  intros [Ha Hs]%andb_prop. rewrite IH by done. rewrite orb_false_r.
  apply Ascii.eqb_neq. intros ->. congruence.
Qed.

Lemma Itoa_no_byte c z : is_digit c = false → c ≠ "-"%char → contains_byte c (Itoa z) = false.
Proof.
  intros Hc Hm. destruct (Z_le_gt_dec 0 z) as [Hz|Hz].
  - by apply all_digits_no_byte, Itoa_digits.
  - destruct z as [|p|p]; [lia..|]. change (Itoa (Z.neg p)) with (String "-" (pretty p)).
    cbn [contains_byte]. rewrite (all_digits_no_byte c (pretty p) Hc (all_digits_pretty_pos p)), orb_false_r.
    apply Ascii.eqb_neq. congruence.
Qed.

Lemma Atoi_range s v : Atoi s = Ok v → in_int64 v.
Proof.
  unfold Atoi, mbind, outcome_bind. destruct (ParseUint10 s _) as [un| |] eqn:E; [|done..].
  assert (0 ≤ un < 2 ^ 64)%Z as Hun.
  { unfold ParseUint10 in E. case_match; [done|]. by eapply parse_digits_range. }
  unfold in_int64. repeat case_match; intros; simplify_eq;
    repeat match goal with H : bool_decide _ = _ |- _ =>
      apply bool_decide_eq_false in H || apply bool_decide_eq_true in H end; lia.
Qed.

#[export] Hint Resolve Atoi_Itoa Atoi_range : copilot.
