(* ===== verification/Proto.v ===== *)
(** * The protobuf messages the program exchanges

    The structs and enumerations of [src/pkg/yarn/apis/proto/**/*.pb.go] that the
    hand-written code builds, reads or sends, with every message they contain, and
    the generated accessors.  A Go pointer field is an [option], a [[]byte] field
    an [option (list byte)] (the code distinguishes a nil [ClientId] from an
    empty one), a repeated field a [list].  An accessor takes an [option], because
    the generated methods accept a nil receiver.  32-bit floats, which the program
    never computes with, are their IEEE bits.  The bookkeeping fields [state],
    [sizeCache] and [unknownFields] belong to the protobuf run time. *)

From S2P Require Import Prelude.

Local Open Scope string_scope.

(** ** Enumerations

    [enum_name] and [enum_value] are the [X_name] and [X_value] tables of the
    generated code, kept as association lists in the source's order. *)

Class ProtoEnum (E : Type) := {
  enum_all : list E;
  enum_number : E → Z;
  enum_name : list (Z * string);
  enum_value : list (string * Z)
}.

(** The [String] method: the name of the number, or the number in decimal. *)
Definition enum_String `{ProtoEnum E} (e : E) : string :=
  match first_such (λ p, bool_decide (p.1 = enum_number e)) enum_name with
  | Some p => p.2
  | None => pretty (enum_number e)
  end.

(** Decoding a name through [X_value], then the number through the type. *)
Definition enum_of_name `{ProtoEnum E} (s : string) : option E :=
  match first_such (λ p, bool_decide (p.1 = s)) enum_value with
  | Some p => first_such (λ e, bool_decide (enum_number e = p.2)) enum_all
  | None => None
  end.

(** What makes the tables of an enumeration coherent, as a computation. *)
Definition enum_coherent (E : Type) `{ProtoEnum E, EqDecision E} : bool :=
  bool_decide (Forall (λ e, enum_of_name (enum_String e) = Some e) enum_all) &&
  bool_decide (enum_name =@{list (Z * string)} (λ p, (p.2, p.1)) <$> enum_value) &&
  bool_decide (enum_name.*1 =@{list Z} enum_number <$> enum_all).


Inductive RpcKindProto :=
| RpcKindProto_RPC_BUILTIN
| RpcKindProto_RPC_WRITABLE
| RpcKindProto_RPC_PROTOCOL_BUFFER.

#[global] Instance RpcKindProto_eq_dec : EqDecision RpcKindProto.
Proof. solve_decision. Defined.

Definition RpcKindProto_number (x : RpcKindProto) : Z :=
  match x with
  | RpcKindProto_RPC_BUILTIN => 0
  | RpcKindProto_RPC_WRITABLE => 1
  | RpcKindProto_RPC_PROTOCOL_BUFFER => 2
  end%Z.

Definition RpcKindProto_name : list (Z * string) :=
  [ (0, "RPC_BUILTIN");
    (1, "RPC_WRITABLE");
    (2, "RPC_PROTOCOL_BUFFER") ]%Z.

Definition RpcKindProto_value : list (string * Z) :=
  [ ("RPC_BUILTIN", 0);
    ("RPC_WRITABLE", 1);
    ("RPC_PROTOCOL_BUFFER", 2) ]%Z.

#[global] Instance RpcKindProto_enum : ProtoEnum RpcKindProto :=
  {| enum_all := [RpcKindProto_RPC_BUILTIN; RpcKindProto_RPC_WRITABLE; RpcKindProto_RPC_PROTOCOL_BUFFER];
     enum_number := RpcKindProto_number;
     enum_name := RpcKindProto_name;
     enum_value := RpcKindProto_value |}.

Inductive RpcRequestHeaderProto_OperationProto :=
| RpcRequestHeaderProto_RPC_FINAL_PACKET
| RpcRequestHeaderProto_RPC_CONTINUATION_PACKET
| RpcRequestHeaderProto_RPC_CLOSE_CONNECTION.

#[global] Instance RpcRequestHeaderProto_OperationProto_eq_dec : EqDecision RpcRequestHeaderProto_OperationProto.
Proof. solve_decision. Defined.

Definition RpcRequestHeaderProto_OperationProto_number (x : RpcRequestHeaderProto_OperationProto) : Z :=
  match x with
  | RpcRequestHeaderProto_RPC_FINAL_PACKET => 0
  | RpcRequestHeaderProto_RPC_CONTINUATION_PACKET => 1
  | RpcRequestHeaderProto_RPC_CLOSE_CONNECTION => 2
  end%Z.

Definition RpcRequestHeaderProto_OperationProto_name : list (Z * string) :=
  [ (0, "RPC_FINAL_PACKET");
    (1, "RPC_CONTINUATION_PACKET");
    (2, "RPC_CLOSE_CONNECTION") ]%Z.

Definition RpcRequestHeaderProto_OperationProto_value : list (string * Z) :=
  [ ("RPC_FINAL_PACKET", 0);
    ("RPC_CONTINUATION_PACKET", 1);
    ("RPC_CLOSE_CONNECTION", 2) ]%Z.

#[global] Instance RpcRequestHeaderProto_OperationProto_enum : ProtoEnum RpcRequestHeaderProto_OperationProto :=
  {| enum_all := [RpcRequestHeaderProto_RPC_FINAL_PACKET; RpcRequestHeaderProto_RPC_CONTINUATION_PACKET; RpcRequestHeaderProto_RPC_CLOSE_CONNECTION];
     enum_number := RpcRequestHeaderProto_OperationProto_number;
     enum_name := RpcRequestHeaderProto_OperationProto_name;
     enum_value := RpcRequestHeaderProto_OperationProto_value |}.

Inductive RpcResponseHeaderProto_RpcStatusProto :=
| RpcResponseHeaderProto_SUCCESS
| RpcResponseHeaderProto_ERROR
| RpcResponseHeaderProto_FATAL.

#[global] Instance RpcResponseHeaderProto_RpcStatusProto_eq_dec : EqDecision RpcResponseHeaderProto_RpcStatusProto.
Proof. solve_decision. Defined.

Definition RpcResponseHeaderProto_RpcStatusProto_number (x : RpcResponseHeaderProto_RpcStatusProto) : Z :=
  match x with
  | RpcResponseHeaderProto_SUCCESS => 0
  | RpcResponseHeaderProto_ERROR => 1
  | RpcResponseHeaderProto_FATAL => 2
  end%Z.

Definition RpcResponseHeaderProto_RpcStatusProto_name : list (Z * string) :=
  [ (0, "SUCCESS");
    (1, "ERROR");
    (2, "FATAL") ]%Z.

Definition RpcResponseHeaderProto_RpcStatusProto_value : list (string * Z) :=
  [ ("SUCCESS", 0);
    ("ERROR", 1);
    ("FATAL", 2) ]%Z.

#[global] Instance RpcResponseHeaderProto_RpcStatusProto_enum : ProtoEnum RpcResponseHeaderProto_RpcStatusProto :=
  {| enum_all := [RpcResponseHeaderProto_SUCCESS; RpcResponseHeaderProto_ERROR; RpcResponseHeaderProto_FATAL];
     enum_number := RpcResponseHeaderProto_RpcStatusProto_number;
     enum_name := RpcResponseHeaderProto_RpcStatusProto_name;
     enum_value := RpcResponseHeaderProto_RpcStatusProto_value |}.

Inductive RpcResponseHeaderProto_RpcErrorCodeProto :=
| RpcResponseHeaderProto_ERROR_APPLICATION
| RpcResponseHeaderProto_ERROR_NO_SUCH_METHOD
| RpcResponseHeaderProto_ERROR_NO_SUCH_PROTOCOL
| RpcResponseHeaderProto_ERROR_RPC_SERVER
| RpcResponseHeaderProto_ERROR_SERIALIZING_RESPONSE
| RpcResponseHeaderProto_ERROR_RPC_VERSION_MISMATCH
| RpcResponseHeaderProto_FATAL_UNKNOWN
| RpcResponseHeaderProto_FATAL_UNSUPPORTED_SERIALIZATION
| RpcResponseHeaderProto_FATAL_INVALID_RPC_HEADER
| RpcResponseHeaderProto_FATAL_DESERIALIZING_REQUEST
| RpcResponseHeaderProto_FATAL_VERSION_MISMATCH
| RpcResponseHeaderProto_FATAL_UNAUTHORIZED.

#[global] Instance RpcResponseHeaderProto_RpcErrorCodeProto_eq_dec : EqDecision RpcResponseHeaderProto_RpcErrorCodeProto.
Proof. solve_decision. Defined.

Definition RpcResponseHeaderProto_RpcErrorCodeProto_number (x : RpcResponseHeaderProto_RpcErrorCodeProto) : Z :=
  match x with
  | RpcResponseHeaderProto_ERROR_APPLICATION => 1
  | RpcResponseHeaderProto_ERROR_NO_SUCH_METHOD => 2
  | RpcResponseHeaderProto_ERROR_NO_SUCH_PROTOCOL => 3
  | RpcResponseHeaderProto_ERROR_RPC_SERVER => 4
  | RpcResponseHeaderProto_ERROR_SERIALIZING_RESPONSE => 5
  | RpcResponseHeaderProto_ERROR_RPC_VERSION_MISMATCH => 6
  | RpcResponseHeaderProto_FATAL_UNKNOWN => 10
  | RpcResponseHeaderProto_FATAL_UNSUPPORTED_SERIALIZATION => 11
  | RpcResponseHeaderProto_FATAL_INVALID_RPC_HEADER => 12
  | RpcResponseHeaderProto_FATAL_DESERIALIZING_REQUEST => 13
  | RpcResponseHeaderProto_FATAL_VERSION_MISMATCH => 14
  | RpcResponseHeaderProto_FATAL_UNAUTHORIZED => 15
  end%Z.

Definition RpcResponseHeaderProto_RpcErrorCodeProto_name : list (Z * string) :=
  [ (1, "ERROR_APPLICATION");
    (2, "ERROR_NO_SUCH_METHOD");
    (3, "ERROR_NO_SUCH_PROTOCOL");
    (4, "ERROR_RPC_SERVER");
    (5, "ERROR_SERIALIZING_RESPONSE");
    (6, "ERROR_RPC_VERSION_MISMATCH");
    (10, "FATAL_UNKNOWN");
    (11, "FATAL_UNSUPPORTED_SERIALIZATION");
    (12, "FATAL_INVALID_RPC_HEADER");
    (13, "FATAL_DESERIALIZING_REQUEST");
    (14, "FATAL_VERSION_MISMATCH");
    (15, "FATAL_UNAUTHORIZED") ]%Z.

Definition RpcResponseHeaderProto_RpcErrorCodeProto_value : list (string * Z) :=
  [ ("ERROR_APPLICATION", 1);
    ("ERROR_NO_SUCH_METHOD", 2);
    ("ERROR_NO_SUCH_PROTOCOL", 3);
    ("ERROR_RPC_SERVER", 4);
    ("ERROR_SERIALIZING_RESPONSE", 5);
    ("ERROR_RPC_VERSION_MISMATCH", 6);
    ("FATAL_UNKNOWN", 10);
    ("FATAL_UNSUPPORTED_SERIALIZATION", 11);
    ("FATAL_INVALID_RPC_HEADER", 12);
    ("FATAL_DESERIALIZING_REQUEST", 13);
    ("FATAL_VERSION_MISMATCH", 14);
    ("FATAL_UNAUTHORIZED", 15) ]%Z.

#[global] Instance RpcResponseHeaderProto_RpcErrorCodeProto_enum : ProtoEnum RpcResponseHeaderProto_RpcErrorCodeProto :=
  {| enum_all := [RpcResponseHeaderProto_ERROR_APPLICATION; RpcResponseHeaderProto_ERROR_NO_SUCH_METHOD; RpcResponseHeaderProto_ERROR_NO_SUCH_PROTOCOL; RpcResponseHeaderProto_ERROR_RPC_SERVER; RpcResponseHeaderProto_ERROR_SERIALIZING_RESPONSE; RpcResponseHeaderProto_ERROR_RPC_VERSION_MISMATCH; RpcResponseHeaderProto_FATAL_UNKNOWN; RpcResponseHeaderProto_FATAL_UNSUPPORTED_SERIALIZATION; RpcResponseHeaderProto_FATAL_INVALID_RPC_HEADER; RpcResponseHeaderProto_FATAL_DESERIALIZING_REQUEST; RpcResponseHeaderProto_FATAL_VERSION_MISMATCH; RpcResponseHeaderProto_FATAL_UNAUTHORIZED];
     enum_number := RpcResponseHeaderProto_RpcErrorCodeProto_number;
     enum_name := RpcResponseHeaderProto_RpcErrorCodeProto_name;
     enum_value := RpcResponseHeaderProto_RpcErrorCodeProto_value |}.

Inductive RpcSaslProto_SaslState :=
| RpcSaslProto_SUCCESS
| RpcSaslProto_NEGOTIATE
| RpcSaslProto_INITIATE
| RpcSaslProto_CHALLENGE
| RpcSaslProto_RESPONSE
| RpcSaslProto_WRAP.

#[global] Instance RpcSaslProto_SaslState_eq_dec : EqDecision RpcSaslProto_SaslState.
Proof. solve_decision. Defined.

Definition RpcSaslProto_SaslState_number (x : RpcSaslProto_SaslState) : Z :=
  match x with
  | RpcSaslProto_SUCCESS => 0
  | RpcSaslProto_NEGOTIATE => 1
  | RpcSaslProto_INITIATE => 2
  | RpcSaslProto_CHALLENGE => 3
  | RpcSaslProto_RESPONSE => 4
  | RpcSaslProto_WRAP => 5
  end%Z.

Definition RpcSaslProto_SaslState_name : list (Z * string) :=
  [ (0, "SUCCESS");
    (1, "NEGOTIATE");
    (2, "INITIATE");
    (3, "CHALLENGE");
    (4, "RESPONSE");
    (5, "WRAP") ]%Z.

Definition RpcSaslProto_SaslState_value : list (string * Z) :=
  [ ("SUCCESS", 0);
    ("NEGOTIATE", 1);
    ("INITIATE", 2);
    ("CHALLENGE", 3);
    ("RESPONSE", 4);
    ("WRAP", 5) ]%Z.

#[global] Instance RpcSaslProto_SaslState_enum : ProtoEnum RpcSaslProto_SaslState :=
  {| enum_all := [RpcSaslProto_SUCCESS; RpcSaslProto_NEGOTIATE; RpcSaslProto_INITIATE; RpcSaslProto_CHALLENGE; RpcSaslProto_RESPONSE; RpcSaslProto_WRAP];
     enum_number := RpcSaslProto_SaslState_number;
     enum_name := RpcSaslProto_SaslState_name;
     enum_value := RpcSaslProto_SaslState_value |}.

Inductive HAServiceStateProto :=
| HAServiceStateProto_INITIALIZING
| HAServiceStateProto_ACTIVE
| HAServiceStateProto_STANDBY
| HAServiceStateProto_OBSERVER.

#[global] Instance HAServiceStateProto_eq_dec : EqDecision HAServiceStateProto.
Proof. solve_decision. Defined.

Definition HAServiceStateProto_number (x : HAServiceStateProto) : Z :=
  match x with
  | HAServiceStateProto_INITIALIZING => 0
  | HAServiceStateProto_ACTIVE => 1
  | HAServiceStateProto_STANDBY => 2
  | HAServiceStateProto_OBSERVER => 3
  end%Z.

Definition HAServiceStateProto_name : list (Z * string) :=
  [ (0, "INITIALIZING");
    (1, "ACTIVE");
    (2, "STANDBY");
    (3, "OBSERVER") ]%Z.

Definition HAServiceStateProto_value : list (string * Z) :=
  [ ("INITIALIZING", 0);
    ("ACTIVE", 1);
    ("STANDBY", 2);
    ("OBSERVER", 3) ]%Z.

#[global] Instance HAServiceStateProto_enum : ProtoEnum HAServiceStateProto :=
  {| enum_all := [HAServiceStateProto_INITIALIZING; HAServiceStateProto_ACTIVE; HAServiceStateProto_STANDBY; HAServiceStateProto_OBSERVER];
     enum_number := HAServiceStateProto_number;
     enum_name := HAServiceStateProto_name;
     enum_value := HAServiceStateProto_value |}.

Inductive ResourceTypesProto :=
| ResourceTypesProto_COUNTABLE.

#[global] Instance ResourceTypesProto_eq_dec : EqDecision ResourceTypesProto.
Proof. solve_decision. Defined.

Definition ResourceTypesProto_number (x : ResourceTypesProto) : Z :=
  match x with
  | ResourceTypesProto_COUNTABLE => 0
  end%Z.

Definition ResourceTypesProto_name : list (Z * string) :=
  [ (0, "COUNTABLE") ]%Z.

Definition ResourceTypesProto_value : list (string * Z) :=
  [ ("COUNTABLE", 0) ]%Z.

#[global] Instance ResourceTypesProto_enum : ProtoEnum ResourceTypesProto :=
  {| enum_all := [ResourceTypesProto_COUNTABLE];
     enum_number := ResourceTypesProto_number;
     enum_name := ResourceTypesProto_name;
     enum_value := ResourceTypesProto_value |}.

Inductive NodeStateProto :=
| NodeStateProto_NS_NEW
| NodeStateProto_NS_RUNNING
| NodeStateProto_NS_UNHEALTHY
| NodeStateProto_NS_DECOMMISSIONED
| NodeStateProto_NS_LOST
| NodeStateProto_NS_REBOOTED
| NodeStateProto_NS_DECOMMISSIONING
| NodeStateProto_NS_SHUTDOWN.

#[global] Instance NodeStateProto_eq_dec : EqDecision NodeStateProto.
Proof. solve_decision. Defined.

Definition NodeStateProto_number (x : NodeStateProto) : Z :=
  match x with
  | NodeStateProto_NS_NEW => 1
  | NodeStateProto_NS_RUNNING => 2
  | NodeStateProto_NS_UNHEALTHY => 3
  | NodeStateProto_NS_DECOMMISSIONED => 4
  | NodeStateProto_NS_LOST => 5
  | NodeStateProto_NS_REBOOTED => 6
  | NodeStateProto_NS_DECOMMISSIONING => 7
  | NodeStateProto_NS_SHUTDOWN => 8
  end%Z.

Definition NodeStateProto_name : list (Z * string) :=
  [ (1, "NS_NEW");
    (2, "NS_RUNNING");
    (3, "NS_UNHEALTHY");
    (4, "NS_DECOMMISSIONED");
    (5, "NS_LOST");
    (6, "NS_REBOOTED");
    (7, "NS_DECOMMISSIONING");
    (8, "NS_SHUTDOWN") ]%Z.

Definition NodeStateProto_value : list (string * Z) :=
  [ ("NS_NEW", 1);
    ("NS_RUNNING", 2);
    ("NS_UNHEALTHY", 3);
    ("NS_DECOMMISSIONED", 4);
    ("NS_LOST", 5);
    ("NS_REBOOTED", 6);
    ("NS_DECOMMISSIONING", 7);
    ("NS_SHUTDOWN", 8) ]%Z.

#[global] Instance NodeStateProto_enum : ProtoEnum NodeStateProto :=
  {| enum_all := [NodeStateProto_NS_NEW; NodeStateProto_NS_RUNNING; NodeStateProto_NS_UNHEALTHY; NodeStateProto_NS_DECOMMISSIONED; NodeStateProto_NS_LOST; NodeStateProto_NS_REBOOTED; NodeStateProto_NS_DECOMMISSIONING; NodeStateProto_NS_SHUTDOWN];
     enum_number := NodeStateProto_number;
     enum_name := NodeStateProto_name;
     enum_value := NodeStateProto_value |}.

Inductive NodeUpdateTypeProto :=
| NodeUpdateTypeProto_NODE_USABLE
| NodeUpdateTypeProto_NODE_UNUSABLE
| NodeUpdateTypeProto_NODE_DECOMMISSIONING.

#[global] Instance NodeUpdateTypeProto_eq_dec : EqDecision NodeUpdateTypeProto.
Proof. solve_decision. Defined.

Definition NodeUpdateTypeProto_number (x : NodeUpdateTypeProto) : Z :=
  match x with
  | NodeUpdateTypeProto_NODE_USABLE => 0
  | NodeUpdateTypeProto_NODE_UNUSABLE => 1
  | NodeUpdateTypeProto_NODE_DECOMMISSIONING => 2
  end%Z.

Definition NodeUpdateTypeProto_name : list (Z * string) :=
  [ (0, "NODE_USABLE");
    (1, "NODE_UNUSABLE");
    (2, "NODE_DECOMMISSIONING") ]%Z.

Definition NodeUpdateTypeProto_value : list (string * Z) :=
  [ ("NODE_USABLE", 0);
    ("NODE_UNUSABLE", 1);
    ("NODE_DECOMMISSIONING", 2) ]%Z.

#[global] Instance NodeUpdateTypeProto_enum : ProtoEnum NodeUpdateTypeProto :=
  {| enum_all := [NodeUpdateTypeProto_NODE_USABLE; NodeUpdateTypeProto_NODE_UNUSABLE; NodeUpdateTypeProto_NODE_DECOMMISSIONING];
     enum_number := NodeUpdateTypeProto_number;
     enum_name := NodeUpdateTypeProto_name;
     enum_value := NodeUpdateTypeProto_value |}.

Inductive NodeAttributeTypeProto :=
| NodeAttributeTypeProto_STRING.

#[global] Instance NodeAttributeTypeProto_eq_dec : EqDecision NodeAttributeTypeProto.
Proof. solve_decision. Defined.

Definition NodeAttributeTypeProto_number (x : NodeAttributeTypeProto) : Z :=
  match x with
  | NodeAttributeTypeProto_STRING => 1
  end%Z.

Definition NodeAttributeTypeProto_name : list (Z * string) :=
  [ (1, "STRING") ]%Z.

Definition NodeAttributeTypeProto_value : list (string * Z) :=
  [ ("STRING", 1) ]%Z.

#[global] Instance NodeAttributeTypeProto_enum : ProtoEnum NodeAttributeTypeProto :=
  {| enum_all := [NodeAttributeTypeProto_STRING];
     enum_number := NodeAttributeTypeProto_number;
     enum_name := NodeAttributeTypeProto_name;
     enum_value := NodeAttributeTypeProto_value |}.

Record RPCTraceInfoProto := mkRPCTraceInfoProto {
  RPCTraceInfoProto_TraceId : option Z;
  RPCTraceInfoProto_ParentId : option Z
}.

Definition RPCTraceInfoProto_GetTraceId (x : option RPCTraceInfoProto) : Z :=
  match x with Some x => default 0%Z (RPCTraceInfoProto_TraceId x) | None => 0%Z end.

Definition RPCTraceInfoProto_GetParentId (x : option RPCTraceInfoProto) : Z :=
  match x with Some x => default 0%Z (RPCTraceInfoProto_ParentId x) | None => 0%Z end.

Record RPCCallerContextProto := mkRPCCallerContextProto {
  RPCCallerContextProto_Context : option string;
  RPCCallerContextProto_Signature : option (list Byte.byte)
}.

Definition RPCCallerContextProto_GetContext (x : option RPCCallerContextProto) : string :=
  match x with Some x => default "" (RPCCallerContextProto_Context x) | None => "" end.

Definition RPCCallerContextProto_GetSignature (x : option RPCCallerContextProto) : option (list Byte.byte) :=
  match x with Some x => RPCCallerContextProto_Signature x | None => None end.

Record RpcRequestHeaderProto := mkRpcRequestHeaderProto {
  RpcRequestHeaderProto_RpcKind : option RpcKindProto;
  RpcRequestHeaderProto_RpcOp : option RpcRequestHeaderProto_OperationProto;
  RpcRequestHeaderProto_CallId : option Z;
  RpcRequestHeaderProto_ClientId : option (list Byte.byte);
  RpcRequestHeaderProto_RetryCount : option Z;
  RpcRequestHeaderProto_TraceInfo : option RPCTraceInfoProto;
  RpcRequestHeaderProto_CallerContext : option RPCCallerContextProto;
  RpcRequestHeaderProto_StateId : option Z
}.

Definition RpcRequestHeaderProto_GetRpcKind (x : option RpcRequestHeaderProto) : RpcKindProto :=
  match x with Some x => default RpcKindProto_RPC_BUILTIN (RpcRequestHeaderProto_RpcKind x) | None => RpcKindProto_RPC_BUILTIN end.

Definition RpcRequestHeaderProto_GetRpcOp (x : option RpcRequestHeaderProto) : RpcRequestHeaderProto_OperationProto :=
  match x with Some x => default RpcRequestHeaderProto_RPC_FINAL_PACKET (RpcRequestHeaderProto_RpcOp x) | None => RpcRequestHeaderProto_RPC_FINAL_PACKET end.

Definition RpcRequestHeaderProto_GetCallId (x : option RpcRequestHeaderProto) : Z :=
  match x with Some x => default 0%Z (RpcRequestHeaderProto_CallId x) | None => 0%Z end.

Definition RpcRequestHeaderProto_GetClientId (x : option RpcRequestHeaderProto) : option (list Byte.byte) :=
  match x with Some x => RpcRequestHeaderProto_ClientId x | None => None end.

Definition RpcRequestHeaderProto_GetRetryCount (x : option RpcRequestHeaderProto) : Z :=
  match x with Some x => default (-1)%Z (RpcRequestHeaderProto_RetryCount x) | None => (-1)%Z end.

Definition RpcRequestHeaderProto_GetTraceInfo (x : option RpcRequestHeaderProto) : option RPCTraceInfoProto :=
  match x with Some x => RpcRequestHeaderProto_TraceInfo x | None => None end.

Definition RpcRequestHeaderProto_GetCallerContext (x : option RpcRequestHeaderProto) : option RPCCallerContextProto :=
  match x with Some x => RpcRequestHeaderProto_CallerContext x | None => None end.

Definition RpcRequestHeaderProto_GetStateId (x : option RpcRequestHeaderProto) : Z :=
  match x with Some x => default 0%Z (RpcRequestHeaderProto_StateId x) | None => 0%Z end.

Record RpcResponseHeaderProto := mkRpcResponseHeaderProto {
  RpcResponseHeaderProto_CallId : option Z;
  RpcResponseHeaderProto_Status : option RpcResponseHeaderProto_RpcStatusProto;
  RpcResponseHeaderProto_ServerIpcVersionNum : option Z;
  RpcResponseHeaderProto_ExceptionClassName : option string;
  RpcResponseHeaderProto_ErrorMsg : option string;
  RpcResponseHeaderProto_ErrorDetail : option RpcResponseHeaderProto_RpcErrorCodeProto;
  RpcResponseHeaderProto_ClientId : option (list Byte.byte);
  RpcResponseHeaderProto_RetryCount : option Z;
  RpcResponseHeaderProto_StateId : option Z
}.

Definition RpcResponseHeaderProto_GetCallId (x : option RpcResponseHeaderProto) : Z :=
  match x with Some x => default 0%Z (RpcResponseHeaderProto_CallId x) | None => 0%Z end.

Definition RpcResponseHeaderProto_GetStatus (x : option RpcResponseHeaderProto) : RpcResponseHeaderProto_RpcStatusProto :=
  match x with Some x => default RpcResponseHeaderProto_SUCCESS (RpcResponseHeaderProto_Status x) | None => RpcResponseHeaderProto_SUCCESS end.

Definition RpcResponseHeaderProto_GetServerIpcVersionNum (x : option RpcResponseHeaderProto) : Z :=
  match x with Some x => default 0%Z (RpcResponseHeaderProto_ServerIpcVersionNum x) | None => 0%Z end.

Definition RpcResponseHeaderProto_GetExceptionClassName (x : option RpcResponseHeaderProto) : string :=
  match x with Some x => default "" (RpcResponseHeaderProto_ExceptionClassName x) | None => "" end.

Definition RpcResponseHeaderProto_GetErrorMsg (x : option RpcResponseHeaderProto) : string :=
  match x with Some x => default "" (RpcResponseHeaderProto_ErrorMsg x) | None => "" end.

Definition RpcResponseHeaderProto_GetErrorDetail (x : option RpcResponseHeaderProto) : RpcResponseHeaderProto_RpcErrorCodeProto :=
  match x with Some x => default RpcResponseHeaderProto_ERROR_APPLICATION (RpcResponseHeaderProto_ErrorDetail x) | None => RpcResponseHeaderProto_ERROR_APPLICATION end.

Definition RpcResponseHeaderProto_GetClientId (x : option RpcResponseHeaderProto) : option (list Byte.byte) :=
  match x with Some x => RpcResponseHeaderProto_ClientId x | None => None end.

Definition RpcResponseHeaderProto_GetRetryCount (x : option RpcResponseHeaderProto) : Z :=
  match x with Some x => default (-1)%Z (RpcResponseHeaderProto_RetryCount x) | None => (-1)%Z end.

Definition RpcResponseHeaderProto_GetStateId (x : option RpcResponseHeaderProto) : Z :=
  match x with Some x => default 0%Z (RpcResponseHeaderProto_StateId x) | None => 0%Z end.

Record RpcSaslProto_SaslAuth := mkRpcSaslProto_SaslAuth {
  RpcSaslProto_SaslAuth_Method : option string;
  RpcSaslProto_SaslAuth_Mechanism : option string;
  RpcSaslProto_SaslAuth_Protocol : option string;
  RpcSaslProto_SaslAuth_ServerId : option string;
  RpcSaslProto_SaslAuth_Challenge : option (list Byte.byte)
}.

Definition RpcSaslProto_SaslAuth_GetMethod (x : option RpcSaslProto_SaslAuth) : string :=
  match x with Some x => default "" (RpcSaslProto_SaslAuth_Method x) | None => "" end.

Definition RpcSaslProto_SaslAuth_GetMechanism (x : option RpcSaslProto_SaslAuth) : string :=
  match x with Some x => default "" (RpcSaslProto_SaslAuth_Mechanism x) | None => "" end.

Definition RpcSaslProto_SaslAuth_GetProtocol (x : option RpcSaslProto_SaslAuth) : string :=
  match x with Some x => default "" (RpcSaslProto_SaslAuth_Protocol x) | None => "" end.

Definition RpcSaslProto_SaslAuth_GetServerId (x : option RpcSaslProto_SaslAuth) : string :=
  match x with Some x => default "" (RpcSaslProto_SaslAuth_ServerId x) | None => "" end.

Definition RpcSaslProto_SaslAuth_GetChallenge (x : option RpcSaslProto_SaslAuth) : option (list Byte.byte) :=
  match x with Some x => RpcSaslProto_SaslAuth_Challenge x | None => None end.

Record RpcSaslProto := mkRpcSaslProto {
  RpcSaslProto_Version : option Z;
  RpcSaslProto_State : option RpcSaslProto_SaslState;
  RpcSaslProto_Token : option (list Byte.byte);
  RpcSaslProto_Auths : list RpcSaslProto_SaslAuth
}.

Definition RpcSaslProto_GetVersion (x : option RpcSaslProto) : Z :=
  match x with Some x => default 0%Z (RpcSaslProto_Version x) | None => 0%Z end.

Definition RpcSaslProto_GetState (x : option RpcSaslProto) : RpcSaslProto_SaslState :=
  match x with Some x => default RpcSaslProto_SUCCESS (RpcSaslProto_State x) | None => RpcSaslProto_SUCCESS end.

Definition RpcSaslProto_GetToken (x : option RpcSaslProto) : option (list Byte.byte) :=
  match x with Some x => RpcSaslProto_Token x | None => None end.

Definition RpcSaslProto_GetAuths (x : option RpcSaslProto) : list RpcSaslProto_SaslAuth :=
  match x with Some x => RpcSaslProto_Auths x | None => [] end.

Record RequestHeaderProto := mkRequestHeaderProto {
  RequestHeaderProto_MethodName : option string;
  RequestHeaderProto_DeclaringClassProtocolName : option string;
  RequestHeaderProto_ClientProtocolVersion : option Z
}.

Definition RequestHeaderProto_GetMethodName (x : option RequestHeaderProto) : string :=
  match x with Some x => default "" (RequestHeaderProto_MethodName x) | None => "" end.

Definition RequestHeaderProto_GetDeclaringClassProtocolName (x : option RequestHeaderProto) : string :=
  match x with Some x => default "" (RequestHeaderProto_DeclaringClassProtocolName x) | None => "" end.

Definition RequestHeaderProto_GetClientProtocolVersion (x : option RequestHeaderProto) : Z :=
  match x with Some x => default 0%Z (RequestHeaderProto_ClientProtocolVersion x) | None => 0%Z end.

Record UserInformationProto := mkUserInformationProto {
  UserInformationProto_EffectiveUser : option string;
  UserInformationProto_RealUser : option string
}.

Definition UserInformationProto_GetEffectiveUser (x : option UserInformationProto) : string :=
  match x with Some x => default "" (UserInformationProto_EffectiveUser x) | None => "" end.

Definition UserInformationProto_GetRealUser (x : option UserInformationProto) : string :=
  match x with Some x => default "" (UserInformationProto_RealUser x) | None => "" end.

Record IpcConnectionContextProto := mkIpcConnectionContextProto {
  IpcConnectionContextProto_UserInfo : option UserInformationProto;
  IpcConnectionContextProto_Protocol : option string
}.

Definition IpcConnectionContextProto_GetUserInfo (x : option IpcConnectionContextProto) : option UserInformationProto :=
  match x with Some x => IpcConnectionContextProto_UserInfo x | None => None end.

Definition IpcConnectionContextProto_GetProtocol (x : option IpcConnectionContextProto) : string :=
  match x with Some x => default "" (IpcConnectionContextProto_Protocol x) | None => "" end.

Record TokenProto := mkTokenProto {
  TokenProto_Identifier : option (list Byte.byte);
  TokenProto_Password : option (list Byte.byte);
  TokenProto_Kind : option string;
  TokenProto_Service : option string
}.

Definition TokenProto_GetIdentifier (x : option TokenProto) : option (list Byte.byte) :=
  match x with Some x => TokenProto_Identifier x | None => None end.

Definition TokenProto_GetPassword (x : option TokenProto) : option (list Byte.byte) :=
  match x with Some x => TokenProto_Password x | None => None end.

Definition TokenProto_GetKind (x : option TokenProto) : string :=
  match x with Some x => default "" (TokenProto_Kind x) | None => "" end.

Definition TokenProto_GetService (x : option TokenProto) : string :=
  match x with Some x => default "" (TokenProto_Service x) | None => "" end.

Record GetServiceStatusRequestProto := mkGetServiceStatusRequestProto { }.

Record GetServiceStatusResponseProto := mkGetServiceStatusResponseProto {
  GetServiceStatusResponseProto_State : option HAServiceStateProto;
  GetServiceStatusResponseProto_ReadyToBecomeActive : option bool;
  GetServiceStatusResponseProto_NotReadyReason : option string
}.

Definition GetServiceStatusResponseProto_GetState (x : option GetServiceStatusResponseProto) : HAServiceStateProto :=
  match x with Some x => default HAServiceStateProto_INITIALIZING (GetServiceStatusResponseProto_State x) | None => HAServiceStateProto_INITIALIZING end.

Definition GetServiceStatusResponseProto_GetReadyToBecomeActive (x : option GetServiceStatusResponseProto) : bool :=
  match x with Some x => default false (GetServiceStatusResponseProto_ReadyToBecomeActive x) | None => false end.

Definition GetServiceStatusResponseProto_GetNotReadyReason (x : option GetServiceStatusResponseProto) : string :=
  match x with Some x => default "" (GetServiceStatusResponseProto_NotReadyReason x) | None => "" end.

Record NodeIdProto := mkNodeIdProto {
  NodeIdProto_Host : option string;
  NodeIdProto_Port : option Z
}.

Definition NodeIdProto_GetHost (x : option NodeIdProto) : string :=
  match x with Some x => default "" (NodeIdProto_Host x) | None => "" end.

Definition NodeIdProto_GetPort (x : option NodeIdProto) : Z :=
  match x with Some x => default 0%Z (NodeIdProto_Port x) | None => 0%Z end.

Record ResourceInformationProto := mkResourceInformationProto {
  ResourceInformationProto_Key : option string;
  ResourceInformationProto_Value : option Z;
  ResourceInformationProto_Units : option string;
  ResourceInformationProto_Type : option ResourceTypesProto
}.

Definition ResourceInformationProto_GetKey (x : option ResourceInformationProto) : string :=
  match x with Some x => default "" (ResourceInformationProto_Key x) | None => "" end.

Definition ResourceInformationProto_GetValue (x : option ResourceInformationProto) : Z :=
  match x with Some x => default 0%Z (ResourceInformationProto_Value x) | None => 0%Z end.

Definition ResourceInformationProto_GetUnits (x : option ResourceInformationProto) : string :=
  match x with Some x => default "" (ResourceInformationProto_Units x) | None => "" end.

Definition ResourceInformationProto_GetType (x : option ResourceInformationProto) : ResourceTypesProto :=
  match x with Some x => default ResourceTypesProto_COUNTABLE (ResourceInformationProto_Type x) | None => ResourceTypesProto_COUNTABLE end.

Record ResourceProto := mkResourceProto {
  ResourceProto_Memory : option Z;
  ResourceProto_VirtualCores : option Z;
  ResourceProto_ResourceValueMap : list ResourceInformationProto
}.

Definition ResourceProto_GetMemory (x : option ResourceProto) : Z :=
  match x with Some x => default 0%Z (ResourceProto_Memory x) | None => 0%Z end.

Definition ResourceProto_GetVirtualCores (x : option ResourceProto) : Z :=
  match x with Some x => default 0%Z (ResourceProto_VirtualCores x) | None => 0%Z end.

Definition ResourceProto_GetResourceValueMap (x : option ResourceProto) : list ResourceInformationProto :=
  match x with Some x => ResourceProto_ResourceValueMap x | None => [] end.

Record ResourceOptionProto := mkResourceOptionProto {
  ResourceOptionProto_Resource : option ResourceProto;
  ResourceOptionProto_OverCommitTimeout : option Z
}.

Definition ResourceOptionProto_GetResource (x : option ResourceOptionProto) : option ResourceProto :=
  match x with Some x => ResourceOptionProto_Resource x | None => None end.

Definition ResourceOptionProto_GetOverCommitTimeout (x : option ResourceOptionProto) : Z :=
  match x with Some x => default 0%Z (ResourceOptionProto_OverCommitTimeout x) | None => 0%Z end.

Record NodeResourceMapProto := mkNodeResourceMapProto {
  NodeResourceMapProto_NodeId : option NodeIdProto;
  NodeResourceMapProto_ResourceOption : option ResourceOptionProto
}.

Definition NodeResourceMapProto_GetNodeId (x : option NodeResourceMapProto) : option NodeIdProto :=
  match x with Some x => NodeResourceMapProto_NodeId x | None => None end.

Definition NodeResourceMapProto_GetResourceOption (x : option NodeResourceMapProto) : option ResourceOptionProto :=
  match x with Some x => NodeResourceMapProto_ResourceOption x | None => None end.

Record UpdateNodeResourceRequestProto := mkUpdateNodeResourceRequestProto {
  UpdateNodeResourceRequestProto_NodeResourceMap : list NodeResourceMapProto
}.

Definition UpdateNodeResourceRequestProto_GetNodeResourceMap (x : option UpdateNodeResourceRequestProto) : list NodeResourceMapProto :=
  match x with Some x => UpdateNodeResourceRequestProto_NodeResourceMap x | None => [] end.

Record UpdateNodeResourceResponseProto := mkUpdateNodeResourceResponseProto { }.

Record GetClusterNodesRequestProto := mkGetClusterNodesRequestProto {
  GetClusterNodesRequestProto_NodeStates : list NodeStateProto
}.

Definition GetClusterNodesRequestProto_GetNodeStates (x : option GetClusterNodesRequestProto) : list NodeStateProto :=
  match x with Some x => GetClusterNodesRequestProto_NodeStates x | None => [] end.

Record ResourceUtilizationProto := mkResourceUtilizationProto {
  ResourceUtilizationProto_Pmem : option Z;
  ResourceUtilizationProto_Vmem : option Z;
  ResourceUtilizationProto_Cpu : option Z
}.

Definition ResourceUtilizationProto_GetPmem (x : option ResourceUtilizationProto) : Z :=
  match x with Some x => default 0%Z (ResourceUtilizationProto_Pmem x) | None => 0%Z end.

Definition ResourceUtilizationProto_GetVmem (x : option ResourceUtilizationProto) : Z :=
  match x with Some x => default 0%Z (ResourceUtilizationProto_Vmem x) | None => 0%Z end.

Definition ResourceUtilizationProto_GetCpu (x : option ResourceUtilizationProto) : Z :=
  match x with Some x => default 0%Z (ResourceUtilizationProto_Cpu x) | None => 0%Z end.

Record NodeAttributeKeyProto := mkNodeAttributeKeyProto {
  NodeAttributeKeyProto_AttributePrefix : option string;
  NodeAttributeKeyProto_AttributeName : option string
}.

Definition NodeAttributeKeyProto_GetAttributePrefix (x : option NodeAttributeKeyProto) : string :=
  match x with Some x => default "rm.yarn.io" (NodeAttributeKeyProto_AttributePrefix x) | None => "rm.yarn.io" end.

Definition NodeAttributeKeyProto_GetAttributeName (x : option NodeAttributeKeyProto) : string :=
  match x with Some x => default "" (NodeAttributeKeyProto_AttributeName x) | None => "" end.

Record NodeAttributeProto := mkNodeAttributeProto {
  NodeAttributeProto_AttributeKey : option NodeAttributeKeyProto;
  NodeAttributeProto_AttributeType : option NodeAttributeTypeProto;
  NodeAttributeProto_AttributeValue : option string
}.

Definition NodeAttributeProto_GetAttributeKey (x : option NodeAttributeProto) : option NodeAttributeKeyProto :=
  match x with Some x => NodeAttributeProto_AttributeKey x | None => None end.

Definition NodeAttributeProto_GetAttributeType (x : option NodeAttributeProto) : NodeAttributeTypeProto :=
  match x with Some x => default NodeAttributeTypeProto_STRING (NodeAttributeProto_AttributeType x) | None => NodeAttributeTypeProto_STRING end.

Definition NodeAttributeProto_GetAttributeValue (x : option NodeAttributeProto) : string :=
  match x with Some x => default "" (NodeAttributeProto_AttributeValue x) | None => "" end.

Record NodeReportProto := mkNodeReportProto {
  NodeReportProto_NodeId : option NodeIdProto;
  NodeReportProto_HttpAddress : option string;
  NodeReportProto_RackName : option string;
  NodeReportProto_Used : option ResourceProto;
  NodeReportProto_Capability : option ResourceProto;
  NodeReportProto_NumContainers : option Z;
  NodeReportProto_NodeState : option NodeStateProto;
  NodeReportProto_HealthReport : option string;
  NodeReportProto_LastHealthReportTime : option Z;
  NodeReportProto_NodeLabels : list string;
  NodeReportProto_ContainersUtilization : option ResourceUtilizationProto;
  NodeReportProto_NodeUtilization : option ResourceUtilizationProto;
  NodeReportProto_DecommissioningTimeout : option Z;
  NodeReportProto_NodeUpdateType : option NodeUpdateTypeProto;
  NodeReportProto_NodeAttributes : list NodeAttributeProto
}.

Definition NodeReportProto_GetNodeId (x : option NodeReportProto) : option NodeIdProto :=
  match x with Some x => NodeReportProto_NodeId x | None => None end.

Definition NodeReportProto_GetHttpAddress (x : option NodeReportProto) : string :=
  match x with Some x => default "" (NodeReportProto_HttpAddress x) | None => "" end.

Definition NodeReportProto_GetRackName (x : option NodeReportProto) : string :=
  match x with Some x => default "" (NodeReportProto_RackName x) | None => "" end.

Definition NodeReportProto_GetUsed (x : option NodeReportProto) : option ResourceProto :=
  match x with Some x => NodeReportProto_Used x | None => None end.

Definition NodeReportProto_GetCapability (x : option NodeReportProto) : option ResourceProto :=
  match x with Some x => NodeReportProto_Capability x | None => None end.

Definition NodeReportProto_GetNumContainers (x : option NodeReportProto) : Z :=
  match x with Some x => default 0%Z (NodeReportProto_NumContainers x) | None => 0%Z end.

Definition NodeReportProto_GetNodeState (x : option NodeReportProto) : NodeStateProto :=
  match x with Some x => default NodeStateProto_NS_NEW (NodeReportProto_NodeState x) | None => NodeStateProto_NS_NEW end.

Definition NodeReportProto_GetHealthReport (x : option NodeReportProto) : string :=
  match x with Some x => default "" (NodeReportProto_HealthReport x) | None => "" end.

Definition NodeReportProto_GetLastHealthReportTime (x : option NodeReportProto) : Z :=
  match x with Some x => default 0%Z (NodeReportProto_LastHealthReportTime x) | None => 0%Z end.

Definition NodeReportProto_GetNodeLabels (x : option NodeReportProto) : list string :=
  match x with Some x => NodeReportProto_NodeLabels x | None => [] end.

Definition NodeReportProto_GetContainersUtilization (x : option NodeReportProto) : option ResourceUtilizationProto :=
  match x with Some x => NodeReportProto_ContainersUtilization x | None => None end.

Definition NodeReportProto_GetNodeUtilization (x : option NodeReportProto) : option ResourceUtilizationProto :=
  match x with Some x => NodeReportProto_NodeUtilization x | None => None end.

Definition NodeReportProto_GetDecommissioningTimeout (x : option NodeReportProto) : Z :=
  match x with Some x => default 0%Z (NodeReportProto_DecommissioningTimeout x) | None => 0%Z end.

Definition NodeReportProto_GetNodeUpdateType (x : option NodeReportProto) : NodeUpdateTypeProto :=
  match x with Some x => default NodeUpdateTypeProto_NODE_USABLE (NodeReportProto_NodeUpdateType x) | None => NodeUpdateTypeProto_NODE_USABLE end.

Definition NodeReportProto_GetNodeAttributes (x : option NodeReportProto) : list NodeAttributeProto :=
  match x with Some x => NodeReportProto_NodeAttributes x | None => [] end.

Record GetClusterNodesResponseProto := mkGetClusterNodesResponseProto {
  GetClusterNodesResponseProto_NodeReports : list NodeReportProto
}.

Definition GetClusterNodesResponseProto_GetNodeReports (x : option GetClusterNodesResponseProto) : list NodeReportProto :=
  match x with Some x => GetClusterNodesResponseProto_NodeReports x | None => [] end.

(** ** The tables are coherent *)

Section EnumLemmas.
Context (E : Type) `{ProtoEnum E, EqDecision E}.

Lemma enum_coherent_roundtrip :
  enum_coherent E = true → ∀ e, e ∈ enum_all → enum_of_name (enum_String e) = Some e.
Proof.
  unfold enum_coherent. intros [[Hall _]%andb_prop _]%andb_prop e He.
  apply bool_decide_eq_true in Hall. rewrite list.Forall_forall in Hall. auto.
Qed.
End EnumLemmas.
