(* ===== verification/NodeResource.v ===== *)
(** * Node annotations: [src/pkg/controller/noderesource/yarn_resource.go]

    The operator keeps what YARN has allocated on a node in a JSON annotation of
    the Kubernetes node, and reads the batch resources of the node from another.
    This file models both annotations and the unit conversions.

    Code outside the repository enters as classes: [QuantityApi] is
    [k8s.io/apimachinery/pkg/api/resource], [KoordinatorApi] the constants of
    [koordinator/apis/extension], [Json] the encoder and decoder of a struct that
    contains quantities.  Their laws are separate classes. *)

From S2P Require Import Prelude GoStrings.

Local Open Scope string_scope.

(** ** Code the operator calls *)

(** [resource.Format]. *)
Inductive Format := DecimalExponent | BinarySI | DecimalSI.

(** [resource.Quantity]; a quantity is a fixed-point number of at most nine
    decimals, [amount] is its value in units of 10^-9. *)
Class QuantityApi (Q : Type) := {
  NewQuantity : Z → Format → Q;
  NewMilliQuantity : Z → Format → Q;
  ScaledValue : Q → Z → Z;
  amount : Q → Z
}.

(** [ScaledValue] "returns the value of ceil(q / 10^scale)"; the constructors
    build the number they are given.  Only non-negative quantities whose scaled
    value fits an [int64] are constrained. *)
Class QuantityLaws (Q : Type) {QA : QuantityApi Q} := {
  amount_NewQuantity v f : in_int64 v → amount (NewQuantity v f) = (v * 10 ^ 9)%Z;
  amount_NewMilliQuantity v f : in_int64 v → amount (NewMilliQuantity v f) = (v * 10 ^ 6)%Z;
  ScaledValue_ceil q s :
    (0 ≤ s)%Z → (0 ≤ amount q)%Z →
    ((amount q + 10 ^ (9 + s) - 1) `div` 10 ^ (9 + s) < 2 ^ 63)%Z →
    ScaledValue q s = ((amount q + 10 ^ (9 + s) - 1) `div` 10 ^ (9 + s))%Z
}.

(** [quotav1.Add] of [k8s.io/apiserver/pkg/quota/v1]. *)
Class QuotaApi (Q : Type) := {
  quota_Add : option (gmap string Q) → option (gmap string Q) → option (gmap string Q)
}.

(** The amount a resource list has of a named resource, if it names it. *)
Definition amount_of `{QuantityApi Q} (name : string) (r : option (gmap string Q)) : option Z :=
  amount <$> nil_lookup name r.

Definition add_opt (x y : option Z) : option Z :=
  match x, y with
  | Some a, Some b => Some (a + b)%Z
  | Some a, None => Some a
  | None, _ => y
  end.

(** "Add returns the result of a + b for each named resource". *)
Class QuotaLaws (Q : Type) {QA : QuantityApi Q} {UA : QuotaApi Q} := {
  amount_of_quota_Add name a b :
    amount_of name (quota_Add a b) = add_opt (amount_of name a) (amount_of name b)
}.

(** [resource.Kilo], [resource.Mega]. *)
Definition Kilo : Z := 3.
Definition Mega : Z := 6.

(** [extension.BatchCPU], [extension.BatchMemory], [extension.PriorityBatch]. *)
Class KoordinatorApi := {
  BatchCPU : string;
  BatchMemory : string;
  PriorityBatch : string
}.
Class KoordinatorLaws {KA : KoordinatorApi} := {
  batch_names_differ : BatchCPU ≠ BatchMemory;
  koordinator_text_ok :
    ValidString BatchCPU = true ∧ ValidString BatchMemory = true ∧ ValidString PriorityBatch = true
}.

Class Json (T : Type) := {
  Marshal : T → outcome string;
  Unmarshal : string → outcome T
}.

(** ** Constants *)

Definition PodYarnClusterIDAnnotationKey := "yarn.hadoop.apache.org/cluster-id".
Definition YARNAllocationName := "hadoop-yarn".
Definition NodeOriginExtendedAllocatableAnnotationKey :=
  "node.koordinator.sh/originExtendedAllocatable".
Definition NodeThirdPartyAllocationsAnnotationKey :=
  "node.koordinator.sh/thirdPartyAllocations".
Definition YarnNMComponentLabel := "app.kubernetes.io/component".
Definition YarnNMComponentValue := "node-manager".
Definition YarnNodeIdAnnotation := "yarn.hadoop.apache.org/node-id".

(** A Go [map[string]string] that may be nil. *)
Abbreviation annotations_t := (option (gmap string string)) (only parsing).

(** ** Data *)

Section Data.
Context (Q : Type).

(** [corev1.ResourceList]: a map that may be nil. *)
Definition ResourceList : Type := option (gmap string Q).

Record OriginAllocatable := mkOriginAllocatable {
  OriginAllocatable_Resources : ResourceList
}.

Record ThirdPartyAllocation := mkThirdPartyAllocation {
  ThirdPartyAllocation_Name : string;
  ThirdPartyAllocation_Priority : string;
  ThirdPartyAllocation_Resources : ResourceList
}.

Record ThirdPartyAllocations := mkThirdPartyAllocations {
  Allocations : option (list ThirdPartyAllocation)
}.
End Data.
Arguments mkOriginAllocatable {Q}.
Arguments OriginAllocatable_Resources {Q}.
Arguments mkThirdPartyAllocation {Q}.
Arguments ThirdPartyAllocation_Name {Q}.
Arguments ThirdPartyAllocation_Priority {Q}.
Arguments ThirdPartyAllocation_Resources {Q}.
Arguments mkThirdPartyAllocations {Q}.
Arguments Allocations {Q}.

(** ** Operations *)

Section Operations.
Context {Q : Type} {QA : QuantityApi Q} {UA : QuotaApi Q} {KA : KoordinatorApi}.
Context {JO : Json (OriginAllocatable Q)} {JT : Json (ThirdPartyAllocations Q)}.

Definition calculate (batchCPU batchMemory : Q) : Z * Z :=
  (ScaledValue batchCPU Kilo, ScaledValue batchMemory Mega).

(** [nil, nil] when the annotation does not exist. *)
Definition GetOriginExtendedAllocatable (annotations : annotations_t)
  : outcome (option (OriginAllocatable Q)) :=
  match nil_lookup NodeOriginExtendedAllocatableAnnotationKey annotations with
  | None => Ok None
  | Some originAllocatableStr =>
      originAllocatable ← Unmarshal originAllocatableStr;
      mret (Some originAllocatable)
  end.

Definition GetOriginExtendedAllocatableRes (annotations : annotations_t)
  : outcome (ResourceList Q) :=
  originAllocatable ← GetOriginExtendedAllocatable annotations;
  match originAllocatable with
  | None => Ok None
  | Some o => Ok (OriginAllocatable_Resources o)
  end.

(** Returns the map the caller holds afterwards.  When the caller's map is nil
    the function assigns into a map of its own, and the caller's stays nil. *)
Definition SetOriginExtendedAllocatableRes (annotations : annotations_t)
    (extendedAllocatable : ResourceList Q) : outcome annotations_t :=
  let set (old : OriginAllocatable Q) : outcome annotations_t :=
    let oldResources := default ∅ (OriginAllocatable_Resources old) in
    newStr ← Marshal (mkOriginAllocatable (Some (default ∅ extendedAllocatable ∪ oldResources)));
    mret ((λ m, <[NodeOriginExtendedAllocatableAnnotationKey := newStr]> m) <$> annotations) in
  match GetOriginExtendedAllocatable annotations with
  | Ok (Some old) => set old
  | Ok None | Err _ => set (mkOriginAllocatable None)
  | Panic w => Panic w
  end.

Definition GetThirdPartyAllocations (annotations : annotations_t)
  : outcome (option (ThirdPartyAllocations Q)) :=
  match nil_lookup NodeThirdPartyAllocationsAnnotationKey annotations with
  | None => Ok None
  | Some valueStr => object ← Unmarshal valueStr; mret (Some object)
  end.

(** The loop [for i := range oldAllocations.Allocations]: the first entry with
    the name is overwritten; the flag is [exist]. *)
Fixpoint update_alloc (name : string) (newAlloc : ThirdPartyAllocation Q)
    (l : list (ThirdPartyAllocation Q)) : bool * list (ThirdPartyAllocation Q) :=
  match l with
  | [] => (false, [])
  | a :: l' =>
      if bool_decide (ThirdPartyAllocation_Name a = name) then (true, newAlloc :: l')
      else let '(found, r) := update_alloc name newAlloc l' in (found, a :: r)
  end.

Definition set_alloc (name : string) (newAlloc : ThirdPartyAllocation Q)
    (l : list (ThirdPartyAllocation Q)) : list (ThirdPartyAllocation Q) :=
  let '(found, l') := update_alloc name newAlloc l in
  if found then l' else l' ++ [newAlloc].

Definition SetThirdPartyAllocation (annotations : annotations_t) (name priority : string)
    (resource : ResourceList Q) : outcome annotations_t :=
  let set (old : ThirdPartyAllocations Q) : outcome annotations_t :=
    let newAlloc := mkThirdPartyAllocation name priority resource in
    newStr ← Marshal (mkThirdPartyAllocations
                        (Some (set_alloc name newAlloc (default [] (Allocations old)))));
    mret ((λ m, <[NodeThirdPartyAllocationsAnnotationKey := newStr]> m) <$> annotations) in
  match GetThirdPartyAllocations annotations with
  | Ok (Some old) => set old
  | Ok None | Err _ => set (mkThirdPartyAllocations None)
  | Panic w => Panic w
  end.

(** [vcores*1000] is an [int32] product and [memoryMB*1024*1024] an [int64] one. *)
Definition yarn_resources (vcores memoryMB : Z) : gmap string Q :=
  {[ BatchCPU := NewQuantity (int64 (int32 (vcores * 1000))) DecimalSI;
     BatchMemory := NewQuantity (int64 (int64 (memoryMB * 1024) * 1024)) BinarySI ]}.

Definition SetYARNAllocatedResource (annotations : annotations_t) (vcores memoryMB : Z)
  : outcome annotations_t :=
  SetThirdPartyAllocation annotations YARNAllocationName PriorityBatch
    (Some (yarn_resources vcores memoryMB)).

Definition GetYARNAllocatedResource (annotations : annotations_t) : outcome (ResourceList Q) :=
  thirdPartyAllocation ← GetThirdPartyAllocations annotations;
  match thirdPartyAllocation with
  | None => Ok None
  | Some t =>
      match first_such (λ a, bool_decide (ThirdPartyAllocation_Name a = YARNAllocationName))
              (default [] (Allocations t)) with
      | Some alloc => Ok (ThirdPartyAllocation_Resources alloc)
      | None => Ok None
      end
  end.

Definition GetThirdPartyAllocatedResByPriority (annotations : annotations_t)
    (priority : string) : outcome (ResourceList Q) :=
  allocations ← GetThirdPartyAllocations annotations;
  match allocations with
  | None => Ok None
  | Some t =>
      Ok (foldl (λ result alloc,
                   if bool_decide (ThirdPartyAllocation_Priority alloc = priority)
                   then quota_Add result (ThirdPartyAllocation_Resources alloc)
                   else result)
                (Some ∅) (default [] (Allocations t)))
  end.
End Operations.

(** ** What the annotation says

    Two encodings of the same allocations are told apart by Go only through nil
    maps, nil slices and the format a quantity prints in.  [allocs_view] is what
    remains: the entries in order, each with its name, priority and amounts. *)

Section Views.
Context {Q : Type} `{QuantityApi Q}.

Definition rl_view (r : ResourceList Q) : gmap string Z := amount <$> default ∅ r.

Definition alloc_view (a : ThirdPartyAllocation Q) : string * string * gmap string Z :=
  (ThirdPartyAllocation_Name a, ThirdPartyAllocation_Priority a,
   rl_view (ThirdPartyAllocation_Resources a)).

Definition allocs_view (t : ThirdPartyAllocations Q) : list (string * string * gmap string Z) :=
  alloc_view <$> default [] (Allocations t).

#[global] Instance allocs_equiv : Equiv (ThirdPartyAllocations Q) :=
  λ t1 t2, allocs_view t1 = allocs_view t2.
#[global] Instance allocs_equivalence : Equivalence (≡@{ThirdPartyAllocations Q}).
Proof. split; unfold equiv, allocs_equiv; repeat intro; congruence. Qed.

(** Strings the JSON encoder reproduces: it replaces invalid UTF-8. *)
Definition alloc_text_ok (a : ThirdPartyAllocation Q) : bool :=
  ValidString (ThirdPartyAllocation_Name a) && ValidString (ThirdPartyAllocation_Priority a) &&
  bool_decide (map_Forall (λ k _, ValidString k = true)
                 (default ∅ (ThirdPartyAllocation_Resources a))).
Definition allocs_text_ok (t : ThirdPartyAllocations Q) : Prop :=
  Forall (λ a, alloc_text_ok a = true) (default [] (Allocations t)).
End Views.

(** [encoding/json] on [ThirdPartyAllocations] and [OriginAllocatable]: decoding
    an encoding gives the same names, priorities and amounts; [omitempty] turns
    an empty map into a missing, hence nil, one; decoded text and produced
    documents are valid UTF-8. *)
Class JsonLaws (Q : Type) {QA : QuantityApi Q}
    {JO : Json (OriginAllocatable Q)} {JT : Json (ThirdPartyAllocations Q)} := {
  json_allocs_roundtrip (t : ThirdPartyAllocations Q) :
    allocs_text_ok t →
    ∃ s t', Marshal t = Ok s ∧ Unmarshal s = Ok t' ∧ t' ≡ t;
  json_allocs_decoded s (t : ThirdPartyAllocations Q) :
    Unmarshal s = Ok t → allocs_text_ok t;
  json_origin_roundtrip (o : OriginAllocatable Q) :
    map_Forall (λ k _, ValidString k = true) (default ∅ (OriginAllocatable_Resources o)) →
    ∃ s o', Marshal o = Ok s ∧ Unmarshal s = Ok o' ∧
      rl_view (OriginAllocatable_Resources o') = rl_view (OriginAllocatable_Resources o) ∧
      (OriginAllocatable_Resources o' = None ↔ rl_view (OriginAllocatable_Resources o) = ∅);
  json_origin_decoded s (o : OriginAllocatable Q) :
    Unmarshal s = Ok o →
    map_Forall (λ k _, ValidString k = true) (default ∅ (OriginAllocatable_Resources o));
  json_allocs_utf8 (t : ThirdPartyAllocations Q) s :
    Marshal t = Ok s → ValidString s = true;
  json_no_panic s w : Unmarshal (T:=ThirdPartyAllocations Q) s ≠ Panic w
}.
