(* ===== verification/ReferenceApi.v ===== *)
(** * Concrete instances of the interfaces to Kubernetes and Koordinator

    The theorems of this development are about any implementation that meets the
    documented laws.  This file gives one: a quantity is its amount in units of
    10^-9, and JSON documents are replaced by an injective encoding of the
    contents.  It shows the laws can be met together, and it is what the
    concrete runs evaluate. *)

From S2P Require Import Prelude GoStrings NodeResource.

Local Open Scope string_scope.

Module Reference.

Abbreviation Qty := Z (only parsing).

#[global] Instance ref_quantity : QuantityApi Qty := {|
NewQuantity v _ := (v * 10 ^ 9)%Z;
NewMilliQuantity v _ := (v * 10 ^ 6)%Z;
ScaledValue q s := ((q + 10 ^ (9 + s) - 1) `div` 10 ^ (9 + s))%Z;
amount q := q
|}.

#[global] Instance ref_quantity_laws : QuantityLaws Qty.
Proof. by split. Qed.

#[global] Instance ref_quota : QuotaApi Qty := {|
quota_Add a b := Some (union_with (λ x y, Some (x + y)%Z) (default ∅ a) (default ∅ b))
|}.

Lemma nil_lookup_default {A} k (m : option (gmap string A)) :
nil_lookup k m = default ∅ m !! k.
Proof. by destruct m. Qed.

#[global] Instance ref_quota_laws : QuotaLaws Qty.
Proof.
split. intros name a b. unfold amount_of, quota_Add, ref_quota. cbn [amount ref_quantity].
rewrite nil_lookup_Some, lookup_union_with, !nil_lookup_default.
by destruct (default ∅ a !! name), (default ∅ b !! name).
Qed.

(** The values of the constants in the repository's tests. *)
#[global] Instance ref_koordinator : KoordinatorApi := {|
BatchCPU := "kubernetes.io/batch-cpu";
BatchMemory := "kubernetes.io/batch-memory";
PriorityBatch := "koord-batch"
|}.

#[global] Instance ref_koordinator_laws : KoordinatorLaws.
Proof. by split. Qed.

(** Documents as bit strings. *)
Fixpoint pos_to_doc (p : positive) : string :=
match p with
| xH => ""
| xO p => String "0" (pos_to_doc p)
| xI p => String "1" (pos_to_doc p)
end.

Fixpoint doc_to_pos (s : string) : option positive :=
match s with
| "" => Some xH
| String a s' =>
    p ← doc_to_pos s';
    if Ascii.eqb a "0" then Some (xO p) else if Ascii.eqb a "1" then Some (xI p) else None
end.

Lemma doc_to_pos_to_doc p : doc_to_pos (pos_to_doc p) = Some p.
Proof. induction p as [p IH|p IH|]; simpl; by rewrite ?IH. Qed.

Lemma pos_to_doc_valid p : ValidString (pos_to_doc p) = true.
Proof. induction p as [p IH|p IH|]; simpl; done. Qed.

Definition doc_decode {A} `{Countable A} (s : string) : outcome A :=
match doc_to_pos s ≫= decode with
| Some a => Ok a
| None => Err "json: cannot unmarshal"
end.

Lemma doc_decode_encode {A} `{Countable A} (a : A) :
doc_decode (pos_to_doc (encode a)) = Ok a.
Proof.
unfold doc_decode. rewrite doc_to_pos_to_doc. simpl. by rewrite decode_encode.
Qed.

(** [omitempty] on a map. *)
Definition omit (m : gmap string Z) : ResourceList Qty :=
if bool_decide (m = ∅) then None else Some m.

Lemma rl_view_omit m : rl_view (omit m) = m.
Proof.
unfold rl_view, omit. case_bool_decide as Hm; cbn; [by rewrite fmap_empty|].
apply map_eq. intros i. rewrite lookup_fmap. by destruct (m !! i).
Qed.

Definition of_view (l : list (string * string * gmap string Z)) : ThirdPartyAllocations Qty :=
mkThirdPartyAllocations (Some ((λ '(n, p, m), mkThirdPartyAllocation n p (omit m)) <$> l)).

Lemma allocs_view_of_view l : allocs_view (of_view l) = l.
Proof.
unfold allocs_view, of_view. cbn. rewrite <- list_fmap_compose.
rewrite <- (list_fmap_id l) at 2. apply list_fmap_ext. intros _ [[n p] m] _.
apply (f_equal (pair (n, p))), rl_view_omit.
Qed.

#[global] Instance allocs_text_ok_dec (t : ThirdPartyAllocations Qty) : Decision (allocs_text_ok t).
Proof. unfold allocs_text_ok. apply _. Defined.

#[global] Instance ref_json_allocs : Json (ThirdPartyAllocations Qty) := {|
Marshal t := Ok (pos_to_doc (encode (allocs_view t)));
Unmarshal s :=
  l ← doc_decode s;
  if decide (allocs_text_ok (of_view l)) then Ok (of_view l) else Err "json: invalid text"
|}.

#[global] Instance ref_json_origin : Json (OriginAllocatable Qty) := {|
Marshal o := Ok (pos_to_doc (encode (rl_view (OriginAllocatable_Resources o))));
Unmarshal s :=
  m ← doc_decode s;
  if decide (map_Forall (λ k _, ValidString k = true) (m : gmap string Z))
  then Ok (mkOriginAllocatable (omit m)) else Err "json: invalid text"
|}.

Lemma default_omit_view (r : ResourceList Z) : default ∅ (omit (rl_view r)) = default ∅ r.
Proof.
assert (rl_view r = default ∅ r) as ->.
{ unfold rl_view. apply map_eq. intros i. rewrite lookup_fmap. by destruct (default ∅ r !! i). }
unfold omit. by case_bool_decide.
Qed.

Lemma text_ok_view (t : ThirdPartyAllocations Z) :
allocs_text_ok t → allocs_text_ok (of_view (allocs_view t)).
Proof.
unfold allocs_text_ok, of_view, allocs_view. cbn [Allocations default from_option id].
rewrite <- list_fmap_compose. intros Ht. apply list.Forall_fmap.
eapply list.Forall_impl; [exact Ht|]. intros [n p r] Ha.
unfold compose, alloc_view, alloc_text_ok in *.
cbn [ThirdPartyAllocation_Name ThirdPartyAllocation_Priority ThirdPartyAllocation_Resources] in *.
by rewrite default_omit_view.
Qed.

#[global] Instance ref_json_laws : JsonLaws Qty.
Proof.
split.
- intros t Ht. exists (pos_to_doc (encode (allocs_view t))), (of_view (allocs_view t)).
  split; [done|]. split; [|unfold equiv, allocs_equiv; apply allocs_view_of_view].
  cbn. rewrite doc_decode_encode. cbn. by rewrite decide_True by by apply text_ok_view.
- intros s t. cbn. destruct (doc_decode s) as [l| |]; cbn; [|done..].
  case_decide; intros; by simplify_eq.
- intros o Ho. set (v := rl_view (OriginAllocatable_Resources o)).
  exists (pos_to_doc (encode v)), (mkOriginAllocatable (omit v)).
  assert (map_Forall (λ k _, ValidString k = true) v).
  { unfold v, rl_view. apply map_Forall_fmap. eapply map_Forall_impl; [exact Ho|]. done. }
  split; [done|]. split; [|split].
  + cbn [Unmarshal ref_json_origin]. rewrite doc_decode_encode.
    unfold mbind, outcome_bind. by rewrite decide_True.
  + apply rl_view_omit.
  + cbn [OriginAllocatable_Resources]. unfold omit. by case_bool_decide.
- intros s o. cbn. destruct (doc_decode s) as [m| |]; cbn; [|done..].
  case_decide as Hm; intros; simplify_eq. cbn. unfold omit. case_bool_decide; [|done].
  apply map_Forall_empty.
- intros t s [= <-]. apply pos_to_doc_valid.
- intros s w. cbn. unfold doc_decode. case_match; cbn; [case_decide|]; done.
Qed.

End Reference.
