(* ===== verification/NodeResourceProofs.v ===== *)
(** * Correctness of the node annotations

    The specification of the allocation annotation ([AllocSpec]), the proof that
    [SetThirdPartyAllocation] and the readers of [NodeResource] implement it, and
    the behaviour of the unit conversions. *)

From S2P Require Import Prelude GoStrings NodeResource ReferenceApi.

Local Open Scope string_scope.

(** ** The specification of the allocation annotation

    An ordered list of entries; setting overwrites the first entry of that name
    or appends one. *)
Module AllocSpec.
Definition entry : Type := string * string * gmap string Z.
Definition ename (e : entry) : string := e.1.1.

Fixpoint set (e : entry) (l : list entry) : list entry :=
  match l with
  | [] => [e]
  | x :: l' => if bool_decide (ename x = ename e) then e :: l' else x :: set e l'
  end.

Definition get (name : string) (l : list entry) : option entry :=
  first_such (λ x, bool_decide (ename x = name)) l.

Lemma get_set_same e l : get (ename e) (set e l) = Some e.
Proof.
  unfold get. induction l as [|x l IH]; simpl; [by rewrite bool_decide_eq_true_2|].
  case_bool_decide as Hx; simpl.
  - by rewrite bool_decide_eq_true_2.
  - by rewrite bool_decide_eq_false_2.
Qed.

Lemma get_set_same' n p v l : get n (set (n, p, v) l) = Some (n, p, v).
Proof. exact (get_set_same (n, p, v) l). Qed.

Lemma set_not_nil e l : set e l ≠ [].
Proof. destruct l; cbn; [done|]. by case_bool_decide. Qed.

Lemma get_set_other e l name : name ≠ ename e → get name (set e l) = get name l.
Proof.
  intros Hne. unfold get. induction l as [|x l IH]; simpl.
  - by rewrite bool_decide_eq_false_2.
  - case_bool_decide as Hx; simpl.
    + rewrite Hx. by rewrite bool_decide_eq_false_2.
    + by rewrite IH.
Qed.

Lemma set_set e l : set e (set e l) = set e l.
Proof.
  induction l as [|x l IH]; simpl; [by rewrite bool_decide_eq_true_2|].
  case_bool_decide as Hx; simpl.
  - by rewrite bool_decide_eq_true_2.
  - rewrite bool_decide_eq_false_2 by done. by rewrite IH.
Qed.

Lemma elem_of_set_names e l n :
  n ∈ ename <$> set e l → n = ename e ∨ n ∈ ename <$> l.
Proof.
  induction l as [|y l IH]; cbn [set fmap list_fmap].
  - rewrite list_elem_of_singleton. auto.
  - case_bool_decide; cbn [fmap list_fmap]; rewrite !elem_of_cons; tauto.
Qed.

Lemma set_names e l : NoDup (ename <$> l) → NoDup (ename <$> set e l).
Proof.
  induction l as [|x l IH]; intros Hnd; [apply NoDup_singleton|].
  cbn [fmap list_fmap] in Hnd. apply list.NoDup_cons in Hnd as [Hx Hnd].
  cbn [set]. case_bool_decide as Hxe; cbn [fmap list_fmap]; apply list.NoDup_cons.
  - by rewrite <- Hxe.
  - split; [|by apply IH]. intros [?|?]%elem_of_set_names; auto.
Qed.
End AllocSpec.

(** ** The operations refine the specification *)

Section Correctness.
Context {Q : Type} {QA : QuantityApi Q} {QL : QuantityLaws Q}.
Context {UA : QuotaApi Q} {UL : QuotaLaws Q} {KA : KoordinatorApi} {KL : KoordinatorLaws}.
Context {JO : Json (OriginAllocatable Q)} {JT : Json (ThirdPartyAllocations Q)}.
Context {JL : JsonLaws Q}.

(** What the annotation says now; a malformed or missing one says nothing. *)
Definition current_view (annotations : annotations_t) : list AllocSpec.entry :=
  match GetThirdPartyAllocations annotations with
  | Ok (Some t) => allocs_view t
  | _ => []
  end.

Lemma set_alloc_view name (a : ThirdPartyAllocation Q) l :
  ThirdPartyAllocation_Name a = name →
  alloc_view <$> set_alloc name a l = AllocSpec.set (alloc_view a) (alloc_view <$> l).
Proof.
  intros <-. unfold set_alloc. induction l as [|x l IH]; [done|].
  cbn [update_alloc fmap list_fmap AllocSpec.set].
  change (AllocSpec.ename (alloc_view x)) with (ThirdPartyAllocation_Name x).
  change (AllocSpec.ename (alloc_view a)) with (ThirdPartyAllocation_Name a).
  case_bool_decide as Hx; [done|].
  destruct (update_alloc _ a l) as [[] r]; cbn in *; by rewrite <- IH.
Qed.

(** The setter respects equality of contents. *)
#[global] Instance set_alloc_proper name (a : ThirdPartyAllocation Q) :
  ThirdPartyAllocation_Name a = name →
  Proper ((≡) ==> (≡)) (λ t : ThirdPartyAllocations Q,
    mkThirdPartyAllocations (Some (set_alloc name a (default [] (Allocations t))))).
Proof.
  intros Hn t1 t2 Ht. unfold equiv, allocs_equiv, allocs_view in *. cbn.
  by rewrite !set_alloc_view, Ht by done.
Qed.

Lemma set_alloc_text_ok name (a : ThirdPartyAllocation Q) l :
  alloc_text_ok a = true → Forall (λ a, alloc_text_ok a = true) l →
  Forall (λ a, alloc_text_ok a = true) (set_alloc name a l).
Proof.
  intros Ha Hl. unfold set_alloc.
  assert (Forall (λ a, alloc_text_ok a = true) (update_alloc name a l).2) as Hu.
  { induction Hl as [|x l Hx Hl IH]; cbn; [constructor|].
    case_bool_decide; cbn; [by constructor|].
    destruct (update_alloc name a l); cbn in *. by constructor. }
  destruct (update_alloc name a l) as [[] l']; cbn in *; [done|].
  apply list.Forall_app. split; [done|by constructor].
Qed.

Lemma set_allocs_step annotations m (t : ThirdPartyAllocations Q) name priority res :
  annotations = Some m →
  allocs_text_ok t → alloc_text_ok (mkThirdPartyAllocation name priority res) = true →
  let set := newStr ← Marshal (mkThirdPartyAllocations (Some (set_alloc name
               (mkThirdPartyAllocation name priority res) (default [] (Allocations t)))));
             mret ((λ m, <[NodeThirdPartyAllocationsAnnotationKey := newStr]> m) <$> annotations) in
  ∃ s, set = Ok (Some (<[NodeThirdPartyAllocationsAnnotationKey := s]> m)) ∧
    ValidString s = true ∧
    current_view (Some (<[NodeThirdPartyAllocationsAnnotationKey := s]> m)) =
    AllocSpec.set (name, priority, rl_view res) (allocs_view t).
Proof.
  intros -> Ht Ha set.
  destruct (json_allocs_roundtrip (mkThirdPartyAllocations (Some (set_alloc name
    (mkThirdPartyAllocation name priority res) (default [] (Allocations t))))))
    as (s & t' & Hm & Hu & Hequiv); [by apply set_alloc_text_ok|].
  exists s. unfold set. rewrite Hm. split; [done|].
  split; [exact (json_allocs_utf8 _ _ Hm)|]. unfold current_view, GetThirdPartyAllocations. cbn [nil_lookup].
  rewrite nil_lookup_Some, lookup_insert_eq, Hu. cbn.
  rewrite Hequiv. unfold allocs_view at 1. cbn. by rewrite set_alloc_view.
Qed.

Lemma set_third_party_refines m name priority (res : ResourceList Q) :
  alloc_text_ok (mkThirdPartyAllocation name priority res) = true →
  ∃ s, SetThirdPartyAllocation (Some m) name priority res
       = Ok (Some (<[NodeThirdPartyAllocationsAnnotationKey := s]> m)) ∧
    ValidString s = true ∧
    current_view (Some (<[NodeThirdPartyAllocationsAnnotationKey := s]> m)) =
    AllocSpec.set (name, priority, rl_view res) (current_view (Some m)).
Proof.
  intros Ha. unfold SetThirdPartyAllocation.
  destruct (GetThirdPartyAllocations (Some m)) as [[t|]|e|w] eqn:E.
  - assert (allocs_text_ok t) as Ht.
    { unfold GetThirdPartyAllocations in E. destruct (nil_lookup _ _) as [v|]; [|done].
      destruct (Unmarshal v) eqn:Hu; unfold_M; simplify_eq.
      exact (json_allocs_decoded _ _ Hu). }
    unfold current_view at 2. rewrite E. by apply set_allocs_step.
  - unfold current_view at 2. rewrite E. apply (set_allocs_step _ _ (mkThirdPartyAllocations None));
      [done|constructor|done].
  - unfold current_view at 2. rewrite E. apply (set_allocs_step _ _ (mkThirdPartyAllocations None));
      [done|constructor|done].
  - exfalso. unfold GetThirdPartyAllocations in E.
    destruct (nil_lookup _ _) as [v|]; [|done].
    destruct (Unmarshal _) eqn:Hu; cbn in E; simplify_eq; by apply json_no_panic in Hu.
Qed.

(** C5 Writing an allocation into a node's annotations implements the
    specification: the call succeeds, changes no other annotation, and the
    annotation then says what [AllocSpec.set] says. *)
Theorem set_third_party_allocation_refines m name priority (res : ResourceList Q) :
  alloc_text_ok (mkThirdPartyAllocation name priority res) = true →
  ∃ m', SetThirdPartyAllocation (Some m) name priority res = Ok (Some m') ∧
    (∀ k, k ≠ NodeThirdPartyAllocationsAnnotationKey → m' !! k = m !! k) ∧
    current_view (Some m') = AllocSpec.set (name, priority, rl_view res) (current_view (Some m)).
Proof.
  intros Ha. destruct (set_third_party_refines m name priority res Ha) as (s & Hs & Hu & Hv).
  exists (<[NodeThirdPartyAllocationsAnnotationKey := s]> m). split; [done|]. split; [|done].
  intros k Hk. by rewrite lookup_insert_ne.
Qed.

(** ** Reading back *)

Lemma first_such_view name (l : list (ThirdPartyAllocation Q)) :
  alloc_view <$> first_such (λ a, bool_decide (ThirdPartyAllocation_Name a = name)) l
  = AllocSpec.get name (alloc_view <$> l).
Proof.
  unfold AllocSpec.get. induction l as [|a l IH]; [done|]. cbn [first_such fmap list_fmap].
  change (AllocSpec.ename (alloc_view a)) with (ThirdPartyAllocation_Name a).
  by case_bool_decide.
Qed.

(** [GetYARNAllocatedResource] reads the first entry named [hadoop-yarn]. *)
Lemma get_yarn_view annotations (r : ResourceList Q) :
  GetYARNAllocatedResource annotations = Ok r →
  rl_view r = match AllocSpec.get YARNAllocationName (current_view annotations) with
              | Some e => e.2
              | None => ∅
              end.
Proof.
  unfold GetYARNAllocatedResource, current_view.
  destruct (GetThirdPartyAllocations annotations) as [[t|]|e|w]; cbn; [|by intros [= <-]|done|done].
  unfold allocs_view. rewrite <- first_such_view.
  destruct (first_such _ _) as [a|]; cbn; intros [= <-]; [done|]. apply fmap_empty.
Qed.

Lemma get_yarn_total annotations :
  (∃ t, GetThirdPartyAllocations annotations = Ok t) →
  ∃ r, GetYARNAllocatedResource annotations = Ok (r : ResourceList Q).
Proof.
  intros [t Ht]. unfold GetYARNAllocatedResource. rewrite Ht. cbn.
  destruct t as [t|]; [|by eexists]. destruct (first_such _ _); by eexists.
Qed.

Lemma yarn_resources_text_ok vcores memoryMB :
  alloc_text_ok (mkThirdPartyAllocation YARNAllocationName PriorityBatch
    (Some (yarn_resources (Q:=Q) vcores memoryMB))) = true.
Proof.
  destruct koordinator_text_ok as (Hc & Hm & Hp).
  unfold alloc_text_ok. cbn -[ValidString yarn_resources]. rewrite Hp.
  change (ValidString YARNAllocationName) with true. cbn [andb].
  apply bool_decide_eq_true_2. unfold yarn_resources.
  apply map_Forall_insert_2; [done|]. by apply map_Forall_singleton.
Qed.

Lemma rl_view_yarn_resources vcores memoryMB :
  rl_view (Some (yarn_resources (Q:=Q) vcores memoryMB)) =
  {[ BatchCPU := (int64 (int32 (vcores * 1000)) * 10 ^ 9)%Z;
     BatchMemory := (int64 (int64 (memoryMB * 1024) * 1024) * 10 ^ 9)%Z ]}.
Proof.
  unfold rl_view, yarn_resources. cbn [default from_option id].
  rewrite fmap_insert, map_fmap_singleton.
  by rewrite !amount_NewQuantity by apply swrap64_range.
Qed.

(** Reading after writing, before any assumption on the sizes. *)
Lemma set_yarn_readback m vcores memoryMB :
  ∃ s r, SetYARNAllocatedResource (Q:=Q) (Some m) vcores memoryMB
      = Ok (Some (<[NodeThirdPartyAllocationsAnnotationKey := s]> m)) ∧
    ValidString s = true ∧
    GetYARNAllocatedResource (Some (<[NodeThirdPartyAllocationsAnnotationKey := s]> m)) = Ok r ∧
    rl_view (r : ResourceList Q) = rl_view (Some (yarn_resources (Q:=Q) vcores memoryMB)).
Proof.
  destruct (set_third_party_refines m YARNAllocationName PriorityBatch
              (Some (yarn_resources (Q:=Q) vcores memoryMB))) as (s & Hs & Hu & Hv);
    [apply yarn_resources_text_ok|].
  set (m' := <[NodeThirdPartyAllocationsAnnotationKey := s]> m) in *.
  destruct (get_yarn_total (Some m')) as [r Hr].
  { unfold current_view in Hv. destruct (GetThirdPartyAllocations (Some m')) as [t|e|w];
      [by eexists|..]; by destruct (AllocSpec.set_not_nil _ _ (eq_sym Hv)). }
  exists s, r. do 3 (split; [done|]).
  by rewrite (get_yarn_view _ _ Hr), Hv, AllocSpec.get_set_same'.
Qed.

(** The reader looks at one annotation only. *)
Lemma get_yarn_ext a1 a2 :
  nil_lookup NodeThirdPartyAllocationsAnnotationKey a1 =
  nil_lookup NodeThirdPartyAllocationsAnnotationKey a2 →
  GetYARNAllocatedResource (Q:=Q) a1 = GetYARNAllocatedResource a2.
Proof. intros H. unfold GetYARNAllocatedResource, GetThirdPartyAllocations. by rewrite H. Qed.

(** C24 The allocation the operator writes is the allocation it reads back: for
    core and megabyte counts whose products fit their integer widths, reading
    after writing gives [vcores * 1000] milli-cores and [memoryMB * 2^20] bytes. *)
Theorem yarn_allocation_roundtrip m vcores memoryMB :
  in_int32 (vcores * 1000) → in_int64 (memoryMB * 1024 * 1024) →
  ∃ m' r, SetYARNAllocatedResource (Q:=Q) (Some m) vcores memoryMB = Ok (Some m') ∧
    GetYARNAllocatedResource (Some m') = Ok r ∧
    rl_view (r : ResourceList Q) =
      {[ BatchCPU := (vcores * 1000 * 10 ^ 9)%Z;
         BatchMemory := (memoryMB * 2 ^ 20 * 10 ^ 9)%Z ]}.
Proof.
  intros Hc Hm. destruct (set_yarn_readback m vcores memoryMB) as (s & r & Hs & _ & Hr & Hv).
  eexists _, r. split; [exact Hs|]. split; [done|].
  rewrite Hv, rl_view_yarn_resources. unfold in_int32, in_int64 in *.
  rewrite (swrap32_id (vcores * 1000)) by (unfold in_int32; lia).
  rewrite (swrap64_id (vcores * 1000)) by (unfold in_int64; lia).
  rewrite (swrap64_id (memoryMB * 1024)) by (unfold in_int64; lia).
  rewrite swrap64_id by (unfold in_int64; lia). do 2 f_equal. lia.
Qed.

(** C25 The operator's write leaves every other scheduler's allocation as it
    was, keeps entry names unique, and is idempotent. *)
Theorem yarn_allocation_frame m vcores memoryMB :
  ∃ m', SetYARNAllocatedResource (Q:=Q) (Some m) vcores memoryMB = Ok (Some m') ∧
    (∀ name, name ≠ YARNAllocationName →
       AllocSpec.get name (current_view (Some m')) = AllocSpec.get name (current_view (Some m))) ∧
    (NoDup (AllocSpec.ename <$> current_view (Some m)) →
       NoDup (AllocSpec.ename <$> current_view (Some m'))) ∧
    (∀ m'', SetYARNAllocatedResource (Q:=Q) (Some m') vcores memoryMB = Ok (Some m'') →
       current_view (Some m'') = current_view (Some m')).
Proof.
  pose proof (yarn_resources_text_ok vcores memoryMB) as Hok.
  destruct (set_third_party_refines m _ _ _ Hok) as (s & Hs & Hu & Hv).
  eexists. split; [exact Hs|]. rewrite Hv. split; [|split].
  - intros name Hne. by rewrite AllocSpec.get_set_other.
  - apply AllocSpec.set_names.
  - intros m'' Hm''.
    destruct (set_third_party_refines (<[NodeThirdPartyAllocationsAnnotationKey := s]> m) _ _ _ Hok)
      as (s2 & Hs2 & _ & Hv2).
    unfold SetYARNAllocatedResource in Hm''. rewrite Hs2 in Hm''. injection Hm'' as <-.
    rewrite Hv2, Hv. apply AllocSpec.set_set.
Qed.

(** The [int32] product [vcores*1000] is exact precisely when it fits: the
    CPU amount recorded is the intended one if and only if
    [-2^31 <= vcores * 1000 < 2^31], that is up to 2147483 cores. *)
Theorem yarn_cpu_amount_exact_iff vcores memoryMB :
  in_int32 vcores →
  rl_view (Some (yarn_resources (Q:=Q) vcores memoryMB)) !! BatchCPU
    = Some (vcores * 1000 * 10 ^ 9)%Z
  ↔ in_int32 (vcores * 1000).
Proof.
  intros Hv. rewrite rl_view_yarn_resources, lookup_insert_eq.
  rewrite (swrap64_id (int32 _)).
  2: { pose proof (swrap32_range (vcores * 1000)). unfold in_int32, in_int64 in *. lia. }
  split.
  - intros [= Heq]. pose proof (swrap32_range (vcores * 1000)) as Hr.
    replace (vcores * 1000)%Z with (int32 (vcores * 1000)); [done|].
    apply (Z.mul_reg_r _ _ (10 ^ 9)%Z); [lia|done].
  - intros H. by rewrite swrap32_id.
Qed.

(** Writing through a nil annotation map reports success and records
    nothing: the caller's map stays nil, and reading it finds no allocation.
    [updateYARNAllocatedResource] therefore allocates the map first. *)
Theorem set_on_nil_annotations_is_lost name priority (res : ResourceList Q) :
  alloc_text_ok (mkThirdPartyAllocation name priority res) = true →
  SetThirdPartyAllocation None name priority res = Ok None ∧
  GetThirdPartyAllocations (Q:=Q) None = Ok None.
Proof.
  intros Ha. split; [|done]. unfold SetThirdPartyAllocation. cbn [GetThirdPartyAllocations].
  change (GetThirdPartyAllocations None) with (@Ok (option (ThirdPartyAllocations Q)) None).
  destruct (json_allocs_roundtrip (mkThirdPartyAllocations (Some (set_alloc name
    (mkThirdPartyAllocation name priority res) [])))) as (s & t' & Hm & _).
  { apply set_alloc_text_ok; [done|constructor]. }
  cbn [Allocations default from_option id]. by rewrite Hm.
Qed.

(** A malformed annotation is not an error for the writer: it is replaced
    by an annotation that holds the new entry alone. *)
Theorem set_replaces_malformed m name priority (res : ResourceList Q) e :
  alloc_text_ok (mkThirdPartyAllocation name priority res) = true →
  GetThirdPartyAllocations (Q:=Q) (Some m) = Err e →
  ∃ m', SetThirdPartyAllocation (Some m) name priority res = Ok (Some m') ∧
    current_view (Some m') = [(name, priority, rl_view res)].
Proof.
  intros Ha He. destruct (set_third_party_refines m name priority res Ha) as (s & Hs & Hu & Hv).
  eexists. split; [exact Hs|]. rewrite Hv. unfold current_view. by rewrite He.
Qed.

(** ** Totals by priority *)

(** The sum of the amounts of one resource over the entries of a priority. *)
Fixpoint total_by_priority (priority rname : string) (l : list AllocSpec.entry) : option Z :=
  match l with
  | [] => None
  | (_, p, v) :: l' =>
      let rest := total_by_priority priority rname l' in
      if bool_decide (p = priority) then add_opt (v !! rname) rest else rest
  end.

Lemma add_opt_assoc x y z : add_opt (add_opt x y) z = add_opt x (add_opt y z).
Proof. destruct x, y, z; cbn; f_equal; lia. Qed.

Lemma amount_of_view rname (r : ResourceList Q) : amount_of rname r = rl_view r !! rname.
Proof. unfold amount_of, rl_view. rewrite lookup_fmap. by destruct r. Qed.

Lemma amount_of_empty rname : amount_of (Q:=Q) rname (Some ∅) = None.
Proof. unfold amount_of. by rewrite nil_lookup_Some, lookup_empty. Qed.

Lemma fold_by_priority priority rname (l : list (ThirdPartyAllocation Q)) acc :
  amount_of rname (foldl (λ result alloc,
      if bool_decide (ThirdPartyAllocation_Priority alloc = priority)
      then quota_Add result (ThirdPartyAllocation_Resources alloc) else result) acc l)
  = add_opt (amount_of rname acc) (total_by_priority priority rname (alloc_view <$> l)).
Proof.
  revert acc. induction l as [|a l IH]; intros acc; cbn [foldl fmap list_fmap].
  { cbn. by destruct (amount_of rname acc). }
  rewrite IH. cbn [total_by_priority alloc_view]. case_bool_decide; [|done].
  by rewrite amount_of_quota_Add, add_opt_assoc, (amount_of_view _ (ThirdPartyAllocation_Resources a)).
Qed.

(** [GetThirdPartyAllocatedResByPriority] returns, for each resource name,
    the sum of the amounts of the entries with that priority; a resource no such
    entry names is absent. *)
Theorem allocated_by_priority_is_total annotations priority t :
  GetThirdPartyAllocations (Q:=Q) annotations = Ok (Some t) →
  ∃ r, GetThirdPartyAllocatedResByPriority annotations priority = Ok r ∧
    ∀ rname, amount_of rname (r : ResourceList Q) =
             total_by_priority priority rname (current_view annotations).
Proof.
  intros Ht. unfold GetThirdPartyAllocatedResByPriority, current_view. rewrite Ht. cbn -[foldl].
  eexists. split; [done|]. intros rname. by rewrite fold_by_priority, amount_of_empty.
Qed.

(** ** Units *)

Lemma scaled_ceil_bounds (q : Q) v s :
  amount q = (v * 10 ^ 9)%Z → (0 ≤ v < 2 ^ 63)%Z → (0 ≤ s)%Z →
  ((ScaledValue q s - 1) * 10 ^ s < v ≤ ScaledValue q s * 10 ^ s)%Z.
Proof.
  intros Hq Hv Hs.
  assert (0 < 10 ^ s)%Z by (apply Z.pow_pos_nonneg; lia).
  assert (10 ^ (9 + s) = 10 ^ s * 10 ^ 9)%Z as Hpow by (rewrite Z.pow_add_r by lia; lia).
  pose proof (Z.div_mod (amount q + 10 ^ (9 + s) - 1) (10 ^ (9 + s)) ltac:(lia)) as Hdm.
  pose proof (Z.mod_pos_bound (amount q + 10 ^ (9 + s) - 1) (10 ^ (9 + s)) ltac:(lia)) as Hb.
  rewrite ScaledValue_ceil; [|lia|lia|]; rewrite Hq in *; rewrite Hpow in *; nia.
Qed.

(** [calculate] rounds up: the cores it reports are the least number of
    whole cores that hold the batch milli-cores, and the megabytes the least
    number of units of 10^6 bytes that hold the batch memory. *)
Theorem calculate_rounds_up cpu mem milli bytes :
  amount (cpu : Q) = (milli * 10 ^ 9)%Z → amount (mem : Q) = (bytes * 10 ^ 9)%Z →
  (0 ≤ milli < 2 ^ 63)%Z → (0 ≤ bytes < 2 ^ 63)%Z →
  let '(vcores, memoryMB) := calculate cpu mem in
  ((vcores - 1) * 1000 < milli ≤ vcores * 1000)%Z ∧
  ((memoryMB - 1) * 1000000 < bytes ≤ memoryMB * 1000000)%Z.
Proof.
  intros Hc Hm Hmilli Hbytes. unfold calculate.
  split; [apply (scaled_ceil_bounds cpu milli 3)|apply (scaled_ceil_bounds mem bytes 6)]; done || lia.
Qed.

(** C30 The two directions use different megabytes.  The operator tells YARN the
    node has [ceil(bytes / 10^6)] MB and records what YARN uses at 2^20 bytes per
    MB, so a node whose reported memory is fully used is recorded with more
    bytes than its batch memory, by a factor of at least 2^20 / 10^6. *)
Theorem reported_memory_overcommits (cpu mem : Q) bytes vcores memoryMB :
  amount mem = (bytes * 10 ^ 9)%Z → (0 < bytes < 2 ^ 62)%Z →
  calculate cpu mem = (vcores, memoryMB) →
  ∃ recorded, rl_view (Some (yarn_resources (Q:=Q) 0 memoryMB)) !! BatchMemory = Some recorded ∧
    (amount mem < recorded)%Z ∧ (amount mem * 2 ^ 20 ≤ recorded * 10 ^ 6)%Z.
Proof.
  intros Hm Hb. unfold calculate. intros [= _ HMB].
  pose proof (scaled_ceil_bounds mem bytes 6 Hm ltac:(lia) ltac:(lia)) as Hceil.
  change Mega with 6%Z in HMB. rewrite HMB in Hceil.
  rewrite rl_view_yarn_resources, lookup_insert_ne by apply batch_names_differ.
  rewrite lookup_singleton_eq. eexists. split; [done|].
  rewrite (swrap64_id (memoryMB * 1024)) by (unfold in_int64; lia).
  rewrite swrap64_id by (unfold in_int64; lia). rewrite Hm. lia.
Qed.
End Correctness.

(** ** Concrete runs *)

Section Witnesses.
Local Open Scope Z_scope.
Import Reference.

Definition demo_mem : Z := 10000000000 * 10 ^ 9.

Lemma set_third_party_allocation_refines_witness :
  ∃ m', SetThirdPartyAllocation (Some ∅) "other" "koord-mid"
          (Some {[ "cpu" := 5 ]}) = Ok (Some m') ∧
    (∀ k, k ≠ NodeThirdPartyAllocationsAnnotationKey →
          m' !! k = (∅ : gmap string string) !! k) ∧
    current_view (Some m') =
      AllocSpec.set ("other", "koord-mid", rl_view (Some {[ "cpu" := 5 ]}))
        (current_view (Q:=Z) (Some ∅)).
Proof. apply (set_third_party_allocation_refines (Q:=Z) ∅). vm_compute. reflexivity. Defined.

Lemma yarn_allocation_roundtrip_witness :
  ∃ m' r, SetYARNAllocatedResource (Q:=Z) (Some ∅) 8 16384 = Ok (Some m') ∧
    GetYARNAllocatedResource (Some m') = Ok r ∧
    rl_view (r : ResourceList Z) =
      {[ BatchCPU := 8 * 1000 * 10 ^ 9; BatchMemory := 16384 * 2 ^ 20 * 10 ^ 9 ]}.
Proof. apply (yarn_allocation_roundtrip (Q:=Z) ∅ 8 16384); unfold in_int32, in_int64; lia. Defined.

(** A node on which another scheduler has recorded an allocation: its entry stays. *)
Definition other_entry : gmap string string :=
  match SetThirdPartyAllocation (Some ∅) "other" "koord-mid" (Some {[ "cpu" := 5 ]}) with
  | Ok (Some m) => m
  | _ => ∅
  end.

Lemma yarn_allocation_frame_witness :
  AllocSpec.get "other" (current_view (Q:=Z) (Some other_entry)) ≠ None ∧
  ∃ m', SetYARNAllocatedResource (Q:=Z) (Some other_entry) 8 16384 = Ok (Some m') ∧
    AllocSpec.get "other" (current_view (Q:=Z) (Some m'))
    = AllocSpec.get "other" (current_view (Q:=Z) (Some other_entry)).
Proof.
  split; [by vm_compute|].
  destruct (yarn_allocation_frame (Q:=Z) other_entry 8 16384) as (m' & Hset & Hframe & _).
  exists m'. split; [exact Hset|]. by apply Hframe.
Defined.

Lemma yarn_cpu_amount_exact_iff_witness :
  rl_view (Some (yarn_resources (Q:=Z) 2147484 0)) !! BatchCPU
    ≠ Some (2147484 * 1000 * 10 ^ 9).
Proof.
  rewrite (yarn_cpu_amount_exact_iff (Q:=Z) 2147484 0) by (unfold in_int32; lia).
  unfold in_int32. lia.
Defined.

Lemma set_on_nil_annotations_is_lost_witness :
  SetThirdPartyAllocation None "hadoop-yarn" "koord-batch" (Some {[ "cpu" := 5 ]}) = Ok None ∧
  GetThirdPartyAllocations (Q:=Z) None = Ok None.
Proof. apply (set_on_nil_annotations_is_lost (Q:=Z)). vm_compute. reflexivity. Defined.

Lemma set_replaces_malformed_witness :
  ∃ m', SetThirdPartyAllocation
          (Some {[ NodeThirdPartyAllocationsAnnotationKey := "bad-format" ]})
          "hadoop-yarn" "koord-batch" (Some {[ "cpu" := 5 ]}) = Ok (Some m') ∧
    current_view (Some m') = [("hadoop-yarn", "koord-batch", rl_view (Some {[ "cpu" := 5 ]}))].
Proof.
  apply (set_replaces_malformed (Q:=Z) _ _ _ _ "json: cannot unmarshal");
    vm_compute; reflexivity.
Defined.

Definition demo_allocs : ThirdPartyAllocations Z :=
  of_view [("a", "koord-batch", {[ "cpu" := 3 ]}); ("b", "koord-mid", {[ "cpu" := 5 ]});
           ("c", "koord-batch", {[ "cpu" := 4 ]})].
Definition demo_annotations : gmap string string :=
  {[ NodeThirdPartyAllocationsAnnotationKey := pos_to_doc (encode (allocs_view demo_allocs)) ]}.

Lemma allocated_by_priority_is_total_witness :
  ∃ r, GetThirdPartyAllocatedResByPriority (Some demo_annotations) "koord-batch" = Ok r ∧
    ∀ rname, amount_of rname (r : ResourceList Z) =
             total_by_priority "koord-batch" rname (current_view (Q:=Z) (Some demo_annotations)).
Proof.
  apply (allocated_by_priority_is_total (Q:=Z) _ _ demo_allocs). vm_compute. reflexivity.
Defined.

Lemma calculate_rounds_up_witness :
  let '(vcores, memoryMB) := calculate (1500 * 10 ^ 9) demo_mem in
  (vcores - 1) * 1000 < 1500 ≤ vcores * 1000 ∧
  (memoryMB - 1) * 1000000 < 10000000000 ≤ memoryMB * 1000000.
Proof. apply (calculate_rounds_up (Q:=Z) (1500 * 10 ^ 9) demo_mem); done || lia. Defined.

Lemma reported_memory_overcommits_witness :
  ∃ recorded, rl_view (Some (yarn_resources (Q:=Z) 0 10000)) !! BatchMemory = Some recorded ∧
    amount demo_mem < recorded ∧ amount demo_mem * 2 ^ 20 ≤ recorded * 10 ^ 6.
Proof.
  apply (reported_memory_overcommits (Q:=Z) 0 demo_mem 10000000000 0 10000);
    [done|lia|vm_compute; reflexivity].
Defined.
End Witnesses.
