(* ===== verification/YarnApi.v ===== *)
(** * The interface between the operator and its YARN clients

    The Go interfaces [YarnClient] and [YarnClientFactory] of
    [src/pkg/yarn/client] as type classes.  [C] is the type of references to
    client objects and [W] the state they live in (their fields and the network),
    so a method can change the object it is called on.  The node cache and the
    reconciler are written and proved against these classes; [YarnClient.v]
    provides the implementation of the repository. *)

From S2P Require Import Prelude Proto.

Class YarnClient (W C : Type) := {
  Initialize : C → M W unit;
  Reinitialize : C → M W unit;
  Close : C → M W unit;
  (** A nil error comes with a response, which the code never inspects. *)
  UpdateNodeResource : C → UpdateNodeResourceRequestProto → M W UpdateNodeResourceResponseProto;
  (** The response pointer may be nil even when the error is. *)
  GetClusterNodes : C → GetClusterNodesRequestProto → M W (option GetClusterNodesResponseProto)
}.

Class YarnClientFactory (W C : Type) := {
  CreateDefaultYarnClient : M W C;
  CreateYarnClientByClusterID : string → M W C;
  CreateAllYarnClients : M W (gmap string C)
}.

(** The cluster of the configuration without a prefix. *)
Definition DefaultClusterID : string := "__default_yarn_cluster__".

(** [range] over a Go map visits every entry once, in an order Go leaves open. *)
Class MapRange := {
  map_range : ∀ {A : Type}, gmap string A → list (string * A);
  map_range_perm {A : Type} (m : gmap string A) : map_range m ≡ₚ map_to_list m
}.

(** One admissible order, for concrete runs. *)
#[export] Instance default_range : MapRange := {|
  map_range A m := map_to_list m;
  map_range_perm A m := reflexivity _
|}.

Section MapRangeLemmas.
Context {MR : MapRange} {A : Type}.
Implicit Types m : gmap string A.

Lemma elem_of_map_range m k x : (k, x) ∈ map_range m ↔ m !! k = Some x.
Proof. rewrite map_range_perm. apply elem_of_map_to_list. Qed.

Lemma NoDup_map_range m : NoDup (map_range m).*1.
Proof. rewrite map_range_perm. apply NoDup_fst_map_to_list. Qed.

End MapRangeLemmas.

(** Go maps are references: two fields that were assigned the same map share it. *)
Abbreviation mapref := positive (only parsing).

(** The maps of clients the operator's objects refer to, and the world the
    clients act on. *)
Record Heap (W C : Type) := mkHeap {
  heap_maps : gmap mapref (gmap string C);
  heap_world : W
}.
Arguments mkHeap {W C}.
Arguments heap_maps {W C}.
Arguments heap_world {W C}.

(** Reading through a reference that may be nil. *)
Definition deref_map {W C} (r : option mapref) (h : Heap W C) : gmap string C :=
  default ∅ (r ≫= λ p, heap_maps h !! p).

(** Run a client computation on the world of the heap. *)
Definition on_world {W C A} (c : M W A) : M (Heap W C) A :=
  zoom heap_world (λ w h, mkHeap (heap_maps h) w) c.

(** [fmt.Sprintf] with [%v] on an error that may be nil. *)
Definition fmt_err {A} (r : A + error) : string :=
  match r with inl _ => "<nil>"%string | inr e => e end.
