(* ===== verification/NodesSyncer.v ===== *)
(** * The node cache: [src/pkg/yarn/cache]

    [NodesSyncer] polls every resource manager once a second, keeps the latest
    node reports per cluster, and answers lookups by node name and port. *)

From S2P Require Import Prelude GoStrings Proto YarnApi.

Local Open Scope string_scope.

(** ** Data *)

Record YarnNode := mkYarnNode {
  YarnNode_Name : string;
  YarnNode_Port : Z;
  YarnNode_ClusterID : string
}.

Abbreviation ClusterCache := (gmap string NodeReportProto) (only parsing).

Record NodesSyncer := mkNodesSyncer {
  yarnClients : option mapref;
  started : bool;
  cache : gmap string (gmap string NodeReportProto)
}.

Definition NewNodesSyncer (clients : option mapref) : NodesSyncer :=
  mkNodesSyncer clients false ∅.

(** ** Operations *)

Definition getKey (yarnNodeName : string) (yarnNodePort : Z) : string :=
  yarnNodeName +:+ "-" +:+ Itoa yarnNodePort.

Definition GetNodeResource (r : NodesSyncer) (yarnNode : option YarnNode)
  : option NodeReportProto :=
  match yarnNode with
  | None => None
  | Some n =>
      let key := getKey (YarnNode_Name n) (YarnNode_Port n) in
      match cache r !! YarnNode_ClusterID n with
      | None => None
      | Some clusterCache => clusterCache !! key
      end
  end.

Definition Started (r : NodesSyncer) : bool := started r.

Definition nil_deref : string := "invalid memory address or nil pointer dereference".

(** The body of the loop over [nodes.GetNodeReports()]. *)
Definition add_report (clusterCache : ClusterCache) (reportProto : NodeReportProto)
  : outcome ClusterCache :=
  match NodeReportProto_NodeId reportProto with
  | None => Panic nil_deref
  | Some nid =>
      match NodeIdProto_Host nid, NodeIdProto_Port nid with
      | Some host, Some port => Ok (<[getKey host port := reportProto]> clusterCache)
      | _, _ => Ok clusterCache
      end
  end.

Fixpoint add_reports (clusterCache : ClusterCache) (l : list NodeReportProto)
  : outcome ClusterCache :=
  match l with
  | [] => Ok clusterCache
  | r :: l' => clusterCache' ← add_report clusterCache r; add_reports clusterCache' l'
  end.

Definition running_nodes : GetClusterNodesRequestProto :=
  mkGetClusterNodesRequestProto [NodeStateProto_NS_RUNNING].

Section Sync.
Context {W C : Type} {YC : YarnClient W C} {MR : MapRange}.

(** One iteration of [for id, yarnClient := range r.yarnClients]. *)
Definition sync_cluster (res : gmap string ClusterCache) (p : string * C)
  : M W (gmap string ClusterCache) :=
  let '(id, yarnClient) := p in
  nodes ← try (GetClusterNodes yarnClient running_nodes);
  match nodes with
  | inr err =>
      initErr ← try (Reinitialize yarnClient);
      throw ("GetClusterNodes error " +:+ err +:+ ", reinitialize error " +:+ fmt_err initErr)
  | inl None => mret res
  | inl (Some nodes) =>
      clusterCache ← lift_out (add_reports ∅ (GetClusterNodesResponseProto_GetNodeReports (Some nodes)));
      mret (<[id := clusterCache]> res)
  end.

Definition syncYARNNodeAllocatedResource : M (NodesSyncer * Heap W C) unit := λ '(r, h),
  match on_world (fold_m (map_range (deref_map (yarnClients r) h)) sync_cluster ∅) h with
  | (Ok res, h') => (Ok tt, (mkNodesSyncer (yarnClients r) (started r) res, h'))
  | (Err e, h') => (Err e, (r, h'))
  | (Panic w, h') => (Panic w, (r, h'))
  end.

(** [debug] dereferences four optional fields of every cached report. *)
Definition debug_report (value : NodeReportProto) : outcome unit :=
  match NodeReportProto_Used value, NodeReportProto_Capability value with
  | Some used, Some capability =>
      match ResourceProto_VirtualCores used, ResourceProto_Memory used,
            ResourceProto_VirtualCores capability, ResourceProto_Memory capability with
      | Some _, Some _, Some _, Some _ => Ok tt
      | _, _, _, _ => Panic nil_deref
      end
  | _, _ => Panic nil_deref
  end.

Fixpoint debug_all (l : list NodeReportProto) : outcome unit :=
  match l with
  | [] => Ok tt
  | v :: l' => _ ← debug_report v; debug_all l'
  end.

Definition debug (r : NodesSyncer) : outcome unit :=
  debug_all (map_range (cache r) ≫= λ '(_, clusterCache), (map_range clusterCache).*2).

Definition GetYarnNodeInfo (r : NodesSyncer) : gmap string (list NodeReportProto) :=
  (λ clusterCache, (map_range clusterCache).*2) <$> cache r.

(** The goroutine of [Start]: one step per channel event.  A panic in it ends
    the process. *)
Inductive SyncEvent := TickSync | TickDebug | CtxDone.

Inductive SyncerProc :=
| Running (r : NodesSyncer) (h : Heap W C)
| Stopped (r : NodesSyncer) (h : Heap W C)
| Crashed (why : string).

Definition start_step (p : SyncerProc) (e : SyncEvent) : SyncerProc :=
  match p with
  | Running r h =>
      match e with
      | TickSync =>
          match syncYARNNodeAllocatedResource (r, h) with
          | (Ok _, (r', h')) => Running (mkNodesSyncer (yarnClients r') true (cache r')) h'
          | (Err _, (r', h')) => Running r' h'
          | (Panic w, _) => Crashed w
          end
      | TickDebug =>
          match debug r with
          | Panic w => Crashed w
          | _ => Running r h
          end
      | CtxDone => Stopped r h
      end
  | _ => p
  end.

Definition Start (clients : option mapref) (h : Heap W C) (events : list SyncEvent) : SyncerProc :=
  foldl start_step (Running (NewNodesSyncer clients) h) events.
End Sync.
Arguments SyncerProc : clear implicits.
