(* ===== verification/NodesSyncerProofs.v ===== *)
(** * Correctness of the node cache *)

From S2P Require Import Prelude GoStrings Proto YarnApi NodesSyncer.

Local Open Scope string_scope.

(** ** Keys *)

Lemma last_sep_inj (c : ascii) a b d1 d2 :
  contains_byte c d1 = false → contains_byte c d2 = false →
  a +:+ String c d1 = b +:+ String c d2 → a = b ∧ d1 = d2.
Proof.
  intros H1 H2. revert b. induction a as [|x a IH]; intros [|y b] Heq; simpl in Heq.
  - by injection Heq.
  - injection Heq as <- ->. rewrite contains_byte_app in H1. simpl in H1.
    rewrite Ascii.eqb_refl, orb_true_r in H1. done.
  - injection Heq as -> <-. rewrite contains_byte_app in H2. simpl in H2.
    rewrite Ascii.eqb_refl, orb_true_r in H2. done.
  - injection Heq as -> Heq. destruct (IH _ Heq). by subst.
Qed.

Lemma getKey_inj n1 p1 n2 p2 :
  (0 ≤ p1)%Z → (0 ≤ p2)%Z → getKey n1 p1 = getKey n2 p2 → n1 = n2 ∧ p1 = p2.
Proof.
  intros H1 H2 Heq. unfold getKey in Heq.
  destruct (last_sep_inj "-" n1 n2 (Itoa p1) (Itoa p2)) as [-> Hp]; [..|done|].
  - by apply all_digits_no_byte; [done|apply Itoa_digits].
  - by apply all_digits_no_byte; [done|apply Itoa_digits].
  - split; [done|]. by apply (inj pretty).
Qed.

(** The cache key identifies a node: two nodes with non-negative ports get the
    same key only if their names and ports agree.  The bound is needed, since
    [getKey("nm", -1)] and [getKey("nm-", 1)] are the same key. *)
Theorem getKey_identifies_node n1 p1 n2 p2 :
  (0 ≤ p1)%Z → (0 ≤ p2)%Z →
  (getKey n1 p1 = getKey n2 p2 ↔ n1 = n2 ∧ p1 = p2) ∧ getKey "nm" (-1) = getKey "nm-" 1.
Proof. intros H1 H2. split; [|done]. split; [by apply getKey_inj|by intros [-> ->]]. Qed.

(** ** Building one cluster's cache *)

Definition has_node_id (r : NodeReportProto) : bool :=
  match NodeReportProto_NodeId r with Some _ => true | None => false end.

(** The key a report is stored under, if it has a host and a port. *)
Definition report_key (r : NodeReportProto) : option (string * Z) :=
  nid ← NodeReportProto_NodeId r;
  host ← NodeIdProto_Host nid;
  port ← NodeIdProto_Port nid;
  Some (host, port).

Definition keyed (r : NodeReportProto) : option (string * NodeReportProto) :=
  (λ '(h, p), (getKey h p, r)) <$> report_key r.

Lemma add_reports_ok m l :
  Forall (λ r, has_node_id r = true) l → add_reports m l = Ok (insert_all (omap keyed l) m).
Proof.
  intros Hl. revert m. induction Hl as [|r l Hr Hl IH]; intros m; [done|].
  cbn [add_reports]. unfold add_report. cbn [omap list_omap].
  unfold keyed at 1, report_key. unfold has_node_id in Hr.
  destruct (NodeReportProto_NodeId r) as [nid|]; [|done]. cbn.
  destruct (NodeIdProto_Host nid) as [host|]; cbn; [|apply IH].
  destruct (NodeIdProto_Port nid) as [port|]; cbn; [|apply IH]. apply IH.
Qed.

Lemma add_reports_panic_iff m l :
  (∃ w, add_reports m l = Panic w) ↔ Exists (λ r, has_node_id r = false) l.
Proof.
  revert m. induction l as [|r l IH]; intros m; cbn [add_reports].
  { split; [by intros [w ?]|intros H; inversion H]. }
  unfold add_report. rewrite List.Exists_cons. unfold has_node_id at 1.
  destruct (NodeReportProto_NodeId r) as [nid|]; cbn.
  - destruct (NodeIdProto_Host nid), (NodeIdProto_Port nid); cbn; rewrite IH;
      (split; [by right|by intros [?|?]]).
  - split; [by left|eauto].
Qed.

Lemma add_reports_no_err m l e : add_reports m l ≠ Err e.
Proof.
  revert m. induction l as [|r l IH]; intros m; [done|]. cbn [add_reports]. unfold add_report.
  destruct (NodeReportProto_NodeId r) as [nid|]; [|done].
  destruct (NodeIdProto_Host nid), (NodeIdProto_Port nid); apply IH.
Qed.

(** What one response contributes to the cache. *)
Definition response_cache (resp : GetClusterNodesResponseProto) : gmap string NodeReportProto :=
  insert_all (omap keyed (GetClusterNodesResponseProto_NodeReports resp)) ∅.

Definition response_ok (resp : GetClusterNodesResponseProto) : Prop :=
  Forall (λ r, has_node_id r = true) (GetClusterNodesResponseProto_NodeReports resp).

(** The last report of a response for a given host and port. *)
Definition last_report (host : string) (port : Z) (resp : GetClusterNodesResponseProto)
  : option NodeReportProto :=
  first_such (λ r, bool_decide (report_key r = Some (host, port)))
    (reverse (GetClusterNodesResponseProto_NodeReports resp)).

Lemma lookup_keyed host port l m :
  (0 ≤ port)%Z →
  Forall (λ r, match report_key r with Some (_, p) => (0 ≤ p)%Z | None => True end) l →
  insert_all (omap keyed l) m !! getKey host port =
  match first_such (λ r, bool_decide (report_key r = Some (host, port))) (reverse l) with
  | Some r => Some r
  | None => m !! getKey host port
  end.
Proof.
  intros Hp Hl. revert m. induction l as [|r l IH] using rev_ind; intros m; [done|].
  apply list.Forall_app in Hl as [Hl Hr]. inversion Hr as [|? ? Hr1 _]; subst.
  rewrite omap_app, insert_all_app, reverse_app.
  change (reverse [r] ++ reverse l)%list with (r :: reverse l). cbn [first_such].
  assert (omap keyed [r] = match report_key r with
                           | Some (h, p) => [(getKey h p, r)] | None => [] end) as ->.
  { cbn. unfold keyed. by destruct (report_key r) as [[h p]|]. }
  destruct (report_key r) as [[h p]|] eqn:Hk; cbn -[reverse first_such].
  - case_bool_decide as Heq.
    + simplify_eq. by rewrite lookup_insert_eq.
    + rewrite lookup_insert_ne; [by apply IH|].
      intros Hkey. apply getKey_inj in Hkey as [-> ->]; [done|done|done].
  - by apply IH.
Qed.

(** ** One synchronisation round *)

Section SyncProofs.
Context {W C : Type} {YC : YarnClient W C} {MR : MapRange}.

(** A client computation never panics. *)
Definition no_panic {S A} (c : M S A) : Prop := ∀ s w s', c s ≠ (Panic w, s').

(** What answers put into the cache. *)
Definition contributions (ans : C → option GetClusterNodesResponseProto) (l : list (string * C))
  : list (string * gmap string NodeReportProto) :=
  omap (λ p, (λ resp, (p.1, response_cache resp)) <$> ans p.2) l.

(** A round whose requests are all answered, in worlds that satisfy [I]. *)
Lemma fold_sync_ok (I : W → Prop) (ans : C → option GetClusterNodesResponseProto) l res w :
  (∀ p w, p ∈ l → I w → ∃ w', GetClusterNodes p.2 running_nodes w = (Ok (ans p.2), w') ∧ I w') →
  (∀ p resp, p ∈ l → ans p.2 = Some resp → response_ok resp) →
  I w →
  ∃ w', fold_m l sync_cluster res w =
    (Ok (insert_all (contributions ans l) res), w') ∧ I w'.
Proof.
  revert res w. induction l as [|[id c] l IH]; intros res w Hans Hok HI; [by exists w|].
  destruct (Hans (id, c) w ltac:(by left) HI) as (w1 & Hw1 & HI1). simpl in Hw1.
  assert (∀ res1, ∃ w', fold_m l sync_cluster res1 w1 =
    (Ok (insert_all (contributions ans l) res1), w') ∧ I w')
    as Hrest.
  { intros res1. apply IH; [|intros p resp Hp; apply Hok; by right|done].
    intros p w0 Hp. apply Hans. by right. }
  cbn [fold_m sync_cluster]. rewrite M_bind_assoc.
  erewrite M_bind_ok by (by apply try_ok). cbn [contributions omap list_omap fst snd].
  destruct (ans c) as [resp|] eqn:Hc; cbn [fmap option_fmap option_map]; [|apply Hrest].
  assert (response_ok resp) as Hr by (apply (Hok (id, c)); [by left|done]).
  rewrite M_bind_assoc. erewrite M_bind_ok
    by (unfold lift_out; by rewrite (add_reports_ok ∅ _ Hr)).
  apply Hrest.
Qed.

(** The cache a round of answers describes. *)
Definition snapshot (ans : C → option GetClusterNodesResponseProto) (m : gmap string C)
  : gmap string (gmap string NodeReportProto) :=
  omap (λ c, response_cache <$> ans c) m.

Lemma insert_all_snapshot ans (m : gmap string C) :
  insert_all (contributions ans (map_range m)) ∅ = snapshot ans m.
Proof.
  apply map_eq. intros k. rewrite lookup_insert_all, lookup_empty. unfold snapshot.
  rewrite lookup_omap.
  set (l := contributions ans (map_range m)).
  assert (∀ v, (k, v) ∈ l ↔ m !! k ≫= (λ c, response_cache <$> ans c) = Some v) as Hl.
  { intros v. unfold l, contributions. rewrite list_elem_of_omap. split.
    - intros ([k' c] & Hin & Hv). apply elem_of_map_range in Hin. cbn in Hv.
      destruct (ans c) as [resp|] eqn:Hc; cbn in Hv; simplify_eq. rewrite Hin. cbn. by rewrite Hc.
    - intros Hv. destruct (m !! k) as [c|] eqn:Hk; [|done]. cbn in Hv.
      destruct (ans c) as [resp|] eqn:Hc; cbn in Hv; simplify_eq.
      exists (k, c). split; [by apply elem_of_map_range|]. cbn. by rewrite Hc. }
  destruct (last_value k l) as [v|] eqn:Hlast.
  - symmetry. apply Hl. by apply last_value_Some.
  - apply last_value_None in Hlast.
    destruct (m !! k ≫= _) as [v|] eqn:Hv; [|done].
    destruct Hlast. apply list_elem_of_fmap. exists (k, v). split; [done|]. by apply Hl.
Qed.

Lemma sync_ok r (h : Heap W C) ans :
  (∀ id c, deref_map (yarnClients r) h !! id = Some c →
     (∀ w, ∃ w', GetClusterNodes c running_nodes w = (Ok (ans c), w')) ∧
     (∀ resp, ans c = Some resp → response_ok resp)) →
  ∃ w', syncYARNNodeAllocatedResource (r, h) =
    (Ok tt, (mkNodesSyncer (yarnClients r) (started r) (snapshot ans (deref_map (yarnClients r) h)),
             mkHeap (heap_maps h) w')).
Proof.
  intros Hans.
  destruct (fold_sync_ok (λ _, True) ans (map_range (deref_map (yarnClients r) h)) ∅ (heap_world h))
    as (w' & Hw' & _); [| |done|].
  { intros [id c] w Hin _. apply elem_of_map_range in Hin.
    destruct (proj1 (Hans id c Hin) w) as [w1 Hw1]. by exists w1. }
  { intros [id c] resp Hin. apply elem_of_map_range in Hin. apply (Hans id c Hin). }
  exists w'. unfold syncYARNNodeAllocatedResource, on_world, zoom.
  by rewrite Hw', insert_all_snapshot.
Qed.

(** C22 When every resource manager answers and every report names its node (the round
    panics on one that does not), one round replaces the cache by exactly the snapshot of
    the answers (clusters that answered nil are absent), whatever order Go visits the
    clients in, and changes nothing else of the cache's state: the map of clients, its
    contents and the flag that says whether the cache was started stay. *)
Theorem sync_builds_snapshot r (h : Heap W C) ans :
  (∀ id c, deref_map (yarnClients r) h !! id = Some c →
     (∀ w, ∃ w', GetClusterNodes c running_nodes w = (Ok (ans c), w')) ∧
     (∀ resp, ans c = Some resp → response_ok resp)) →
  ∃ w', syncYARNNodeAllocatedResource (r, h) =
    (Ok tt, (mkNodesSyncer (yarnClients r) (started r) (snapshot ans (deref_map (yarnClients r) h)),
             mkHeap (heap_maps h) w')).
Proof.
  intros Hans. destruct (sync_ok r h ans Hans) as [w' ->]. by exists w'.
Qed.

(** Clients that answer [ans], with reports whose nodes are named and whose ports are
    not negative. *)
Definition answering (ans : C → option GetClusterNodesResponseProto) (m : gmap string C) : Prop :=
  ∀ id c, m !! id = Some c →
    (∀ w, ∃ w', GetClusterNodes c running_nodes w = (Ok (ans c), w')) ∧
    (∀ resp, ans c = Some resp → response_ok resp ∧
       Forall (λ rep, match report_key rep with Some (_, p) => (0 ≤ p)%Z | None => True end)
         (GetClusterNodesResponseProto_NodeReports resp)).

Lemma lookup_answered r (h : Heap W C) ans r' h' n :
  answering ans (deref_map (yarnClients r) h) →
  syncYARNNodeAllocatedResource (r, h) = (Ok tt, (r', h')) →
  (0 ≤ YarnNode_Port n)%Z →
  GetNodeResource r' (Some n) =
    (c ← deref_map (yarnClients r) h !! YarnNode_ClusterID n;
     resp ← ans c;
     last_report (YarnNode_Name n) (YarnNode_Port n) resp).
Proof.
  intros Hans Hrun Hport.
  destruct (sync_ok r h ans) as [w' Hw'].
  { intros id c Hc. destruct (Hans id c Hc) as [H1 H2]. split; [done|]. intros. by apply H2. }
  rewrite Hw' in Hrun. simplify_eq. unfold GetNodeResource. cbn [cache].
  unfold snapshot. rewrite lookup_omap.
  destruct (deref_map (yarnClients r) h !! YarnNode_ClusterID n) as [c|] eqn:Hc; [|done].
  cbn [mbind option_bind]. destruct (ans c) as [resp|] eqn:Hresp; [|done]. cbn.
  destruct (Hans _ _ Hc) as [_ H2]. destruct (H2 resp Hresp) as [_ Hports].
  unfold response_cache. rewrite lookup_keyed by done. unfold last_report.
  destruct (first_such _ _); [done|]. apply lookup_empty.
Qed.

(** After such a round a lookup answers from the resource manager's reply:
    for a cluster that answered, [GetNodeResource] returns the last report with
    the node's host and port, and for an unknown cluster nothing. *)
Theorem lookup_after_sync r (h : Heap W C) ans r' h' n :
  (∀ id c, deref_map (yarnClients r) h !! id = Some c →
     (∀ w, ∃ w', GetClusterNodes c running_nodes w = (Ok (ans c), w')) ∧
     (∀ resp, ans c = Some resp → response_ok resp ∧
        Forall (λ rep, match report_key rep with Some (_, p) => (0 ≤ p)%Z | None => True end)
          (GetClusterNodesResponseProto_NodeReports resp))) →
  syncYARNNodeAllocatedResource (r, h) = (Ok tt, (r', h')) →
  (0 ≤ YarnNode_Port n)%Z →
  GetNodeResource r' (Some n) =
    (c ← deref_map (yarnClients r) h !! YarnNode_ClusterID n;
     resp ← ans c;
     last_report (YarnNode_Name n) (YarnNode_Port n) resp).
Proof. apply lookup_answered. Qed.

Lemma sync_cluster_err res id c w e w' :
  sync_cluster res (id, c) w = (Err e, w') →
  ∃ err w2 init, GetClusterNodes c running_nodes w = (Err err, w2) ∧
    try (Reinitialize c) w2 = (Ok init, w').
Proof.
  intros Hrun. cbn [sync_cluster] in Hrun.
  apply M_bind_err_inv in Hrun as [[]%try_no_err|(nodes & w1 & Htry & Hrun)].
  unfold try in Htry.
  destruct (GetClusterNodes c running_nodes w) as [[o|err|why] w1'] eqn:Hget; simplify_eq.
  - destruct o as [resp|]; [|done].
    apply M_bind_err_inv in Hrun as [Hrun|(cc & w2 & _ & ?)]; [|done].
    unfold lift_out in Hrun. injection Hrun as Hadd _. by apply add_reports_no_err in Hadd.
  - apply M_bind_err_inv in Hrun as [[]%try_no_err|(init & w2 & Hinit & Hrun)].
    unfold throw in Hrun. simplify_eq. eauto.
Qed.

Lemma fold_sync_err l res w e w' :
  fold_m l sync_cluster res w = (Err e, w') →
  ∃ id c w1 err w2 init, (id, c) ∈ l ∧ GetClusterNodes c running_nodes w1 = (Err err, w2) ∧
    try (Reinitialize c) w2 = (Ok init, w').
Proof.
  revert res w. induction l as [|[id c] l IH]; intros res w Hrun; [done|].
  cbn [fold_m] in Hrun. apply M_bind_err_inv in Hrun as [Hrun|(res' & w1 & _ & Hrun)].
  - apply sync_cluster_err in Hrun as (err & w2 & init & ? & ?).
    exists id, c, w, err, w2, init. split; [by left|done].
  - destruct (IH _ _ Hrun) as (id' & c' & w2 & err & w3 & init & ? & ?).
    exists id', c', w2, err, w3, init. split; [by right|done].
Qed.

(** A failed round keeps the previous cache: the error comes from one client
    whose request failed, that client has been reinitialised, and the syncer
    (cache, started flag, client map) is unchanged. *)
Theorem sync_error_keeps_cache r (h : Heap W C) e r' h' :
  syncYARNNodeAllocatedResource (r, h) = (Err e, (r', h')) →
  r' = r ∧ heap_maps h' = heap_maps h ∧
  ∃ id c w1 err w2 init, deref_map (yarnClients r) h !! id = Some c ∧
    GetClusterNodes c running_nodes w1 = (Err err, w2) ∧
    try (Reinitialize c) w2 = (Ok init, heap_world h').
Proof.
  unfold syncYARNNodeAllocatedResource, on_world, zoom.
  destruct (fold_m _ _ _ _) as [[res|e'|why] w'] eqn:Hrun; intros Heq; simplify_eq.
  destruct (fold_sync_err _ _ _ _ _ Hrun) as (id & c & w1 & err & w2 & init & Hin & H1 & H2).
  split; [done|]. split; [done|]. apply elem_of_map_range in Hin. cbn. eauto 10.
Qed.

(** ** The polling loop *)

Definition complete_resource (o : option ResourceProto) : bool :=
  match o with
  | Some r => match ResourceProto_VirtualCores r, ResourceProto_Memory r with
              | Some _, Some _ => true | _, _ => false end
  | None => false
  end.
Definition complete_report (r : NodeReportProto) : bool :=
  has_node_id r && complete_resource (NodeReportProto_Used r) &&
  complete_resource (NodeReportProto_Capability r).

(** The fields [debug] dereferences are there. *)
Definition printable (r : NodeReportProto) : bool :=
  complete_resource (NodeReportProto_Used r) && complete_resource (NodeReportProto_Capability r).

Definition cached (r : NodesSyncer) (rep : NodeReportProto) : Prop :=
  ∃ id cc k, cache r !! id = Some cc ∧ cc !! k = Some rep.

Lemma debug_report_spec rep :
  debug_report rep = if printable rep then Ok tt else Panic nil_deref.
Proof.
  unfold debug_report, printable, complete_resource.
  destruct (NodeReportProto_Used rep) as [u|]; [|done].
  destruct (NodeReportProto_Capability rep) as [c|]; [|by rewrite andb_false_r].
  by destruct (ResourceProto_VirtualCores u), (ResourceProto_Memory u),
    (ResourceProto_VirtualCores c), (ResourceProto_Memory c).
Qed.

Lemma debug_all_spec l :
  debug_all l = if bool_decide (Forall (λ rep, printable rep = true) l) then Ok tt else Panic nil_deref.
Proof.
  induction l as [|rep l IH]; cbn [debug_all]; [by rewrite bool_decide_eq_true_2 by constructor|].
  rewrite debug_report_spec. destruct (printable rep) eqn:Hr; cbn.
  - rewrite IH. case_bool_decide as Hl.
    + rewrite bool_decide_eq_true_2; [done|by constructor].
    + rewrite bool_decide_eq_false_2; [done|]. contradict Hl. by inversion Hl.
  - rewrite bool_decide_eq_false_2; [done|]. inversion 1. congruence.
Qed.

Lemma elem_of_debug_list r rep :
  rep ∈ (map_range (cache r) ≫= λ '(_, cc), (map_range cc).*2) ↔ cached r rep.
Proof.
  rewrite list_elem_of_bind. split.
  - intros ([id cc] & Hin & Hr). apply elem_of_map_range in Hr.
    apply list_elem_of_fmap in Hin as ([k rep'] & -> & Hk). apply elem_of_map_range in Hk.
    by exists id, cc, k.
  - intros (id & cc & k & H1 & H2). exists (id, cc). split; [|by apply elem_of_map_range].
    apply list_elem_of_fmap. exists (k, rep). split; [done|]. by apply elem_of_map_range.
Qed.

Lemma debug_ok_iff r : debug r = Ok tt ↔ ∀ rep, cached r rep → printable rep = true.
Proof.
  unfold debug. rewrite debug_all_spec. setoid_rewrite <- elem_of_debug_list.
  rewrite <- list.Forall_forall. by case_bool_decide.
Qed.

(** The debug printer of the polling goroutine panics exactly when the cache
    holds a report without [used] or [capability] figures: one such report, whose
    fields are optional in the protocol, ends the operator process. *)
Theorem debug_panics_iff r :
  (debug r = Panic nil_deref ↔ ∃ rep, cached r rep ∧ printable rep = false) ∧
  (debug r = Ok tt ↔ ∀ rep, cached r rep → printable rep = true).
Proof.
  split; [|apply debug_ok_iff]. unfold debug. rewrite debug_all_spec.
  setoid_rewrite <- elem_of_debug_list. case_bool_decide as Hall.
  - split; [done|]. intros (rep & Hc & Hp). rewrite list.Forall_forall in Hall.
    specialize (Hall rep Hc). congruence.
  - split; [intros _|done]. apply list.not_Forall_Exists in Hall; [|apply _].
    apply list.Exists_exists in Hall as (rep & Hin & Hp).
    exists rep. split; [done|]. exact (not_true_is_false _ Hp).
Qed.

(** ** Invariants of the goroutine *)

(** Every state the loop reaches keeps the client map, and has a cache only
    after a first successful round. *)
Definition syncer_inv (clients : option mapref) (maps : gmap mapref (gmap string C))
    (p : SyncerProc W C) : Prop :=
  match p with
  | Running r h | Stopped r h =>
      yarnClients r = clients ∧ heap_maps h = maps ∧ (started r = false → cache r = ∅)
  | Crashed _ => True
  end.

Lemma sync_frame r (h : Heap W C) o r' h' :
  syncYARNNodeAllocatedResource (r, h) = (o, (r', h')) →
  yarnClients r' = yarnClients r ∧ heap_maps h' = heap_maps h ∧ started r' = started r ∧
  (o ≠ Ok tt → r' = r).
Proof.
  unfold syncYARNNodeAllocatedResource, on_world, zoom.
  destruct (fold_m _ _ _ _) as [[res|e'|why] w']; intros; by simplify_eq.
Qed.

Lemma start_step_inv clients maps p e :
  syncer_inv clients maps p → syncer_inv clients maps (start_step p e).
Proof.
  destruct p as [r h|r h|w]; [|done..]. intros (Hc & Hm & Hs). destruct e; cbn [start_step].
  - destruct (syncYARNNodeAllocatedResource (r, h)) as [[[]|e|w] [r' h']] eqn:Hrun;
      apply sync_frame in Hrun as (H1 & H2 & H3 & H4); cbn; [by rewrite H1, H2| |done].
    rewrite H4 by done. by rewrite H2.
  - by destruct (debug r).
  - done.
Qed.

(** For every sequence of ticks, the syncer reports [Started] only after a
    successful round: until then its cache is empty, and it never changes which
    clients it polls. *)
Theorem started_only_after_sync clients (h : Heap W C) events :
  syncer_inv clients (heap_maps h) (Start clients h events).
Proof.
  unfold Start.
  assert (syncer_inv clients (heap_maps h) (Running (NewNodesSyncer clients) h)) as H0 by done.
  enough (∀ p, syncer_inv clients (heap_maps h) p →
    syncer_inv clients (heap_maps h) (foldl start_step p events)) as Hall by by apply Hall.
  induction events as [|e events IH]; intros p Hp; [done|]. cbn. by apply IH, start_step_inv.
Qed.

(** Clients that do not panic and report complete figures. *)
Definition good_clients : Prop :=
  ∀ c, no_panic (GetClusterNodes c running_nodes) ∧ no_panic (Reinitialize c) ∧
    ∀ w resp w', GetClusterNodes c running_nodes w = (Ok (Some resp), w') →
      Forall (λ rep, complete_report rep = true) (GetClusterNodesResponseProto_NodeReports resp).

Definition all_printable (m : gmap string (gmap string NodeReportProto)) : Prop :=
  map_Forall (λ _ cc, map_Forall (λ _ rep, printable rep = true) cc) m.

Lemma response_cache_printable resp :
  Forall (λ rep, complete_report rep = true) (GetClusterNodesResponseProto_NodeReports resp) →
  response_ok resp ∧ map_Forall (λ _ rep, printable rep = true) (response_cache resp).
Proof.
  intros Hall. split.
  - eapply list.Forall_impl; [exact Hall|]. intros rep. unfold complete_report.
    by intros [[? _]%andb_prop _]%andb_prop.
  - intros k rep Hk. unfold response_cache in Hk. rewrite lookup_insert_all, lookup_empty in Hk.
    destruct (last_value _ _) as [rep'|] eqn:Hl; simplify_eq.
    apply last_value_Some, list_elem_of_omap in Hl as (rep' & Hin & Hkey).
    unfold keyed in Hkey. destruct (report_key rep') as [[h p]|]; cbn in Hkey; simplify_eq.
    rewrite list.Forall_forall in Hall. specialize (Hall _ Hin).
    unfold complete_report in Hall. unfold printable.
    by apply andb_prop in Hall as [[_ ->]%andb_prop ->].
Qed.

Lemma sync_cluster_good res p w :
  good_clients → all_printable res →
  match sync_cluster res p w with
  | (Ok res', _) => all_printable res'
  | (Err _, _) => True
  | (Panic _, _) => False
  end.
Proof.
  intros Hgood Hres. destruct p as [id c]. destruct (Hgood c) as (Hg & Hi & Hr).
  cbn [sync_cluster]. unfold mbind at 1, M_bind, try at 1.
  destruct (GetClusterNodes c running_nodes w) as [[[resp|]|err|why] w1] eqn:Hget.
  - destruct (response_cache_printable resp (Hr _ _ _ Hget)) as [Hok Hp].
    unfold mbind, M_bind, lift_out. cbn [GetClusterNodesResponseProto_GetNodeReports].
    rewrite (add_reports_ok ∅ _ Hok). by apply map_Forall_insert_2.
  - done.
  - unfold mbind, M_bind, try. destruct (Reinitialize c w1) as [[[]|e|why] w2] eqn:Hinit; [done..|].
    by apply Hi in Hinit.
  - by apply Hg in Hget.
Qed.

Lemma fold_sync_good l res w :
  good_clients → all_printable res →
  match fold_m l sync_cluster res w with
  | (Ok res', _) => all_printable res'
  | (Err _, _) => True
  | (Panic _, _) => False
  end.
Proof.
  intros Hgood. revert res w. induction l as [|p l IH]; intros res w Hres; [done|].
  cbn [fold_m]. unfold mbind, M_bind.
  pose proof (sync_cluster_good res p w Hgood Hres) as Hp.
  destruct (sync_cluster res p w) as [[res'|e|why] w']; [|done..]. by apply IH.
Qed.

Definition safe_proc (p : SyncerProc W C) : Prop :=
  match p with
  | Running r _ | Stopped r _ => all_printable (cache r)
  | Crashed _ => False
  end.

Lemma start_step_safe p e : good_clients → safe_proc p → safe_proc (start_step p e).
Proof.
  intros Hgood. destruct p as [r h|r h|w]; [|done..]. intros Hr. destruct e; cbn [start_step].
  - unfold syncYARNNodeAllocatedResource, on_world, zoom.
    pose proof (fold_sync_good (map_range (deref_map (yarnClients r) h)) ∅ (heap_world h)
                  Hgood (map_Forall_empty _)) as Hf.
    by destruct (fold_m _ _ _ _) as [[res|e|why] w'].
  - destruct (debug r) as [[]|e|w] eqn:Hd; [done..|].
    assert (debug r = Ok tt) as Hd'; [|congruence].
    apply debug_ok_iff. intros rep (id & cc & k & H1 & H2).
    exact (Hr _ _ H1 _ _ H2).
  - done.
Qed.

(** C29 With clients that do not panic and resource managers that send complete
    reports, the polling goroutine never ends the process, whatever the ticks. *)
Theorem polling_never_crashes clients (h : Heap W C) events :
  good_clients → ∀ why, Start clients h events ≠ Crashed why.
Proof.
  intros Hgood why.
  assert (∀ p, safe_proc p → safe_proc (foldl start_step p events)) as Hall.
  { induction events as [|e events IH]; intros p Hp; [done|]. cbn. by apply IH, start_step_safe. }
  specialize (Hall (Running (NewNodesSyncer clients) h) (map_Forall_empty _)).
  unfold Start. by intros Heq; rewrite Heq in Hall.
Qed.
End SyncProofs.

(** ** Concrete runs

    Scripted clients, as the repository's generated mocks are used in its tests:
    a client always answers the same, and the world counts reinitialisations. *)
Module MockYarn.

Inductive MockClient :=
| Answers (resp : option GetClusterNodesResponseProto)
| Fails (e : error).

#[export] Instance mock_yarn_client : YarnClient nat MockClient := {|
Initialize _ := mret tt;
Reinitialize _ := modify S;
Close _ := mret tt;
UpdateNodeResource c _ :=
  match c with Answers _ => mret mkUpdateNodeResourceResponseProto | Fails e => throw e end;
GetClusterNodes c _ :=
  match c with Answers resp => mret resp | Fails e => throw e end
|}.

Definition some_resource (cores mb : Z) : ResourceProto := mkResourceProto (Some mb) (Some cores) [].

Definition report (host : string) (port : Z) (used : option ResourceProto) : NodeReportProto :=
mkNodeReportProto (Some (mkNodeIdProto (Some host) (Some port))) None None used
  (Some (some_resource 32 65536)) None None None None [] None None None None [].

Definition reply : GetClusterNodesResponseProto :=
mkGetClusterNodesResponseProto
  [ report "nm-1" 8041 (Some (some_resource 4 8192));
    report "nm-2" 8041 (Some (some_resource 2 2048));
    report "nm-1" 8041 (Some (some_resource 6 9216)) ].

Definition clients : gmap string MockClient :=
{[ "cluster-a" := Answers (Some reply); "cluster-b" := Answers None ]}.

Definition heap : Heap nat MockClient := mkHeap {[ 1%positive := clients ]} 0.

Definition ans (c : MockClient) : option GetClusterNodesResponseProto :=
match c with Answers r => r | Fails _ => None end.

Definition nm1 : YarnNode := mkYarnNode "nm-1" 8041 "cluster-a".

Lemma clients_cases id c : clients !! id = Some c → c = Answers (Some reply) ∨ c = Answers None.
Proof.
unfold clients. rewrite lookup_insert. case_decide; [intros [= <-]; by left|].
intros [_ <-]%lookup_singleton_Some. by right.
Qed.

Lemma heap_answers id c :
deref_map (Some 1%positive) heap !! id = Some c →
(∀ w, ∃ w', GetClusterNodes c running_nodes w = (Ok (ans c), w')) ∧
(∀ resp, ans c = Some resp → response_ok resp ∧
   Forall (λ rep, match report_key rep with Some (_, p) => (0 ≤ p)%Z | None => True end)
     (GetClusterNodesResponseProto_NodeReports resp)).
Proof.
intros Hc. assert (clients !! id = Some c) as Hc' by exact Hc.
apply clients_cases in Hc' as [->| ->]; (split; [intros w; by eexists|]); intros resp [= <-].
split; repeat constructor; done.
Qed.
End MockYarn.

Section Witnesses.
Import MockYarn.

Lemma getKey_identifies_node_witness :
  (getKey "nm-1" 8041 = getKey "nm-1" 8042 ↔ "nm-1" = "nm-1" ∧ 8041%Z = 8042%Z) ∧
  getKey "nm" (-1) = getKey "nm-" 1.
Proof. apply getKey_identifies_node; lia. Defined.

Lemma sync_builds_snapshot_witness :
  ∃ w', syncYARNNodeAllocatedResource (NewNodesSyncer (Some 1%positive), heap) =
    (Ok tt, (mkNodesSyncer (Some 1%positive) false (snapshot ans (deref_map (Some 1%positive) heap)),
             mkHeap (heap_maps heap) w')).
Proof.
  apply (sync_builds_snapshot (NewNodesSyncer (Some 1%positive)) heap ans).
  intros id c Hc. destruct (heap_answers id c Hc) as [H1 H2]. split; [exact H1|].
  intros resp Hr. exact (proj1 (H2 resp Hr)).
Defined.

Lemma lookup_after_sync_witness :
  GetNodeResource
    (mkNodesSyncer (Some 1%positive) false (snapshot ans (deref_map (Some 1%positive) heap)))
    (Some nm1) =
    (c ← deref_map (Some 1%positive) heap !! "cluster-a"; resp ← ans c; last_report "nm-1" 8041 resp).
Proof.
  apply (lookup_after_sync (NewNodesSyncer (Some 1%positive)) heap ans _ heap nm1 heap_answers).
  - vm_compute. reflexivity.
  - cbn. lia.
Defined.

Definition failing : Heap nat MockClient :=
  mkHeap {[ 1%positive := {[ "cluster-a" := Fails "connection refused" ]} ]} 0.

Lemma sync_error_keeps_cache_witness :
  let h' := mkHeap (heap_maps failing) 1 in
  NewNodesSyncer (Some 1%positive) = NewNodesSyncer (Some 1%positive) ∧
  heap_maps h' = heap_maps failing ∧
  ∃ id c w1 err w2 init, deref_map (Some 1%positive) failing !! id = Some c ∧
    GetClusterNodes c running_nodes w1 = (Err err, w2) ∧
    try (Reinitialize c) w2 = (Ok init, heap_world h').
Proof.
  apply (sync_error_keeps_cache (NewNodesSyncer (Some 1%positive)) failing
           "GetClusterNodes error connection refused, reinitialize error <nil>").
  vm_compute. reflexivity.
Defined.

Definition idle : Heap nat MockClient := mkHeap ∅ 0.

#[local] Instance always_reply : YarnClient nat unit := {|
  Initialize _ := mret tt; Reinitialize _ := modify S; Close _ := mret tt;
  UpdateNodeResource _ _ := mret mkUpdateNodeResourceResponseProto;
  GetClusterNodes _ _ := mret (Some reply)
|}.

Lemma polling_never_crashes_witness :
  Start (Some 1%positive) (mkHeap {[ 1%positive := {[ "c" := tt ]} ]} 0)
    [TickSync; TickDebug; TickSync; TickDebug; CtxDone] ≠ Crashed nil_deref.
Proof.
  apply polling_never_crashes. intros []. split; [|split].
  - intros s w s' H. discriminate H.
  - intros s w s' H. discriminate H.
  - intros w resp w' H. injection H as <- _. repeat constructor.
Defined.
End Witnesses.
