(* ===== verification/Mocks.v ===== *)
(** * The generated test doubles: [src/pkg/yarn/client/mockclient]

    A mock forwards every call to a [gomock.Controller] and converts what comes back; its
    recorder registers the calls a test expects.  [gomock] itself is a parameter.  A mocked
    client is one more implementation of the interface the node cache and the reconciler
    are proved against. *)

From S2P Require Import Prelude GoStrings Proto YarnApi NodesSyncer NodesSyncerProofs.

Local Open Scope string_scope.

(** The values that travel through [interface{}] here; pointers may be nil, and [AnyNil]
    is the nil interface. *)
Inductive any (C : Type) :=
| AnyNil
| AnyError (e : error)
| AnyNodesRequest (r : GetClusterNodesRequestProto)
| AnyNodesResponse (r : option GetClusterNodesResponseProto)
| AnyUpdateRequest (r : UpdateNodeResourceRequestProto)
| AnyUpdateResponse (r : option UpdateNodeResourceResponseProto)
| AnyString (s : string)
| AnyClient (c : C)
| AnyClients (m : option (gmap string C)).
Arguments AnyNil {C}.
Arguments AnyError {C}.
Arguments AnyNodesRequest {C}.
Arguments AnyNodesResponse {C}.
Arguments AnyUpdateRequest {C}.
Arguments AnyUpdateResponse {C}.
Arguments AnyString {C}.
Arguments AnyClient {C}.
Arguments AnyClients {C}.

(** [gomock.Controller]: [Call] answers a call on a mock from the expectations, or ends the
    test; [RecordCallWithMethodType] adds one. *)
Class Gomock (W C : Type) := {
  Controller : Type;
  GomockCall : Type;
  T_Helper : Controller → M W unit;
  ctrl_Call : Controller → positive → string → list (any C) → M W (list (any C));
  RecordCallWithMethodType : Controller → positive → string → list (any C) → M W GomockCall
}.

Section Mocks.
Context {W C : Type} {GM : Gomock W C}.

(** ** Mocks and recorders *)

(** The structs, which point at each other; those of the factory have the same fields. *)
Record MockYarnClient := mkMock { mock_ctrl : Controller; mock_recorder : option positive }.
Record MockYarnClientMockRecorder := mkRecorder { recorder_mock : positive }.

Record MockState := mkMockState {
  ms_mocks : gmap positive MockYarnClient;
  ms_recorders : gmap positive MockYarnClientMockRecorder;
  ms_world : W
}.
#[local] Abbreviation MM := (M MockState).

Definition in_gomock {A} (c : M W A) : MM A :=
  zoom ms_world (λ w s, mkMockState (ms_mocks s) (ms_recorders s) w) c.
Definition load {A} (heap : MockState → gmap positive A) (p : positive) : MM A :=
  s ← get_st; match heap s !! p with Some x => mret x | None => gopanic "nil pointer dereference" end.

(** [&MockYarnClient{ctrl: ctrl}], then [mock.recorder = &MockYarnClientMockRecorder{mock}]. *)
Definition new_mock (ctrl : Controller) : MM positive := λ s,
  let m := fresh (dom (ms_mocks s)) in
  let r := fresh (dom (ms_recorders s)) in
  (Ok m, mkMockState (<[m := mkMock ctrl (Some r)]> (ms_mocks s)) (<[r := mkRecorder m]> (ms_recorders s))
                     (ms_world s)).
Definition expect (m : positive) : MM (option positive) := mock ← load ms_mocks m; mret (mock_recorder mock).

(** [ret[i]]. *)
Definition ret_at (ret : list (any C)) (i : nat) : outcome (any C) :=
  match ret !! i with Some x => Ok x | None => Panic "index out of range" end.

(** The type assertions [v, _ := x.(T)]: the zero value for anything else. *)
Definition as_error (x : any C) : option error := match x with AnyError e => Some e | _ => None end.
Definition as_nodes (x : any C) : option GetClusterNodesResponseProto :=
  match x with AnyNodesResponse r => r | _ => None end.
Definition as_update (x : any C) : option UpdateNodeResourceResponseProto :=
  match x with AnyUpdateResponse r => r | _ => None end.
Definition as_client (x : any C) : option C := match x with AnyClient c => Some c | _ => None end.
Definition as_clients (x : any C) : option (gmap string C) :=
  match x with AnyClients m => m | _ => None end.

(** What the methods of a mock, and those of a recorder, share. *)
Definition mock_call (m : positive) (method : string) (args : list (any C)) : MM (list (any C)) :=
  mock ← load ms_mocks m;
  _ ← in_gomock (T_Helper (mock_ctrl mock));
  in_gomock (ctrl_Call (mock_ctrl mock) m method args).
Definition mock_call1 (m : positive) (method : string) : MM (option error) :=
  ret ← mock_call m method [];
  ret0 ← lift_out (ret_at ret 0);
  mret (as_error ret0).
Definition mock_call2 {A} (as_type : any C → A) (m : positive) (method : string) (args : list (any C))
  : MM (A * option error) :=
  ret ← mock_call m method args;
  ret0 ← lift_out (ret_at ret 0);
  ret1 ← lift_out (ret_at ret 1);
  mret (as_type ret0, as_error ret1).
Definition mock_record (mr : positive) (method : string) (args : list (any C)) : MM GomockCall :=
  rec ← load ms_recorders mr;
  mock ← load ms_mocks (recorder_mock rec);
  _ ← in_gomock (T_Helper (mock_ctrl mock));
  in_gomock (RecordCallWithMethodType (mock_ctrl mock) (recorder_mock rec) method args).

(** ** [mock_client.go] *)

Definition NewMockYarnClient (ctrl : Controller) : MM positive := new_mock ctrl.
Definition EXPECT (m : positive) : MM (option positive) := expect m.

Definition mock_Close (m : positive) : MM unit := _ ← mock_call m "Close" []; mret tt.
Definition mock_GetClusterNodes (m : positive) (request : GetClusterNodesRequestProto)
  : MM (option GetClusterNodesResponseProto * option error) :=
  mock_call2 as_nodes m "GetClusterNodes" [AnyNodesRequest request].
Definition mock_Initialize (m : positive) : MM (option error) := mock_call1 m "Initialize".
Definition mock_Reinitialize (m : positive) : MM (option error) := mock_call1 m "Reinitialize".
Definition mock_UpdateNodeResource (m : positive) (request : UpdateNodeResourceRequestProto)
  : MM (option UpdateNodeResourceResponseProto * option error) :=
  mock_call2 as_update m "UpdateNodeResource" [AnyUpdateRequest request].

Definition recorder_Close (mr : positive) : MM GomockCall := mock_record mr "Close" [].
Definition recorder_GetClusterNodes (mr : positive) (request : any C) : MM GomockCall :=
  mock_record mr "GetClusterNodes" [request].
Definition recorder_Initialize (mr : positive) : MM GomockCall := mock_record mr "Initialize" [].
Definition recorder_Reinitialize (mr : positive) : MM GomockCall := mock_record mr "Reinitialize" [].
Definition recorder_UpdateNodeResource (mr : positive) (request : any C) : MM GomockCall :=
  mock_record mr "UpdateNodeResource" [request].

(** ** [mock_factory.go] *)

Definition NewMockYarnClientFactory (ctrl : Controller) : MM positive := new_mock ctrl.
Definition factory_EXPECT (m : positive) : MM (option positive) := expect m.

Definition mock_CreateAllYarnClients (m : positive) : MM (option (gmap string C) * option error) :=
  mock_call2 as_clients m "CreateAllYarnClients" [].
Definition mock_CreateDefaultYarnClient (m : positive) : MM (option C * option error) :=
  mock_call2 as_client m "CreateDefaultYarnClient" [].
Definition mock_CreateYarnClientByClusterID (m : positive) (clusterID : string)
  : MM (option C * option error) :=
  mock_call2 as_client m "CreateYarnClientByClusterID" [AnyString clusterID].

Definition recorder_CreateAllYarnClients (mr : positive) : MM GomockCall :=
  mock_record mr "CreateAllYarnClients" [].
Definition recorder_CreateDefaultYarnClient (mr : positive) : MM GomockCall :=
  mock_record mr "CreateDefaultYarnClient" [].
Definition recorder_CreateYarnClientByClusterID (mr : positive) (clusterID : any C) : MM GomockCall :=
  mock_record mr "CreateYarnClientByClusterID" [clusterID].

(** ** As clients *)

(** [(v, err)] as the callers see it: they look at the error first. *)
Definition result_of {A} (c : MM (A * option error)) : MM A :=
  '(a, err) ← c; match err with Some e => throw e | None => mret a end.
Definition error_of (c : MM (option error)) : MM unit :=
  err ← c; match err with Some e => throw e | None => mret tt end.

#[local] Instance mock_client : YarnClient MockState positive := {|
  Initialize m := error_of (mock_Initialize m);
  Reinitialize m := error_of (mock_Reinitialize m);
  Close := mock_Close;
  UpdateNodeResource m req :=
    _ ← result_of (mock_UpdateNodeResource m req); mret mkUpdateNodeResourceResponseProto;
  GetClusterNodes m req := result_of (mock_GetClusterNodes m req)
|}.

(** A recorder registers expectations on the mock it came from, under its controller, and
    leaves earlier mocks alone. *)
Lemma recorder_of_new ctrl s m s' method args :
  NewMockYarnClient ctrl s = (Ok m, s') →
  ∃ mr, EXPECT m s' = (Ok (Some mr), s') ∧
    mock_record mr method args s' =
      (in_gomock (_ ← T_Helper ctrl; RecordCallWithMethodType ctrl m method args)) s' ∧
    (∀ m', m' ∈ dom (ms_mocks s) → ms_mocks s' !! m' = ms_mocks s !! m').
Proof.
  intros [= <- <-]. set (m := fresh _). exists (fresh (dom (ms_recorders s))). split_and!.
  - unfold EXPECT, expect, load, get_st. unfold_M. cbn. by rewrite lookup_insert_eq.
  - unfold mock_record, load, get_st, in_gomock, zoom. unfold_M. cbn. rewrite !lookup_insert_eq. cbn.
    rewrite lookup_insert_eq. cbn. destruct (T_Helper ctrl (ms_world s)) as [[] w1]; reflexivity.
  - intros m' Hm'. apply lookup_insert_ne. intros <-. by apply (is_fresh (dom (ms_mocks s))).
Qed.

(** What a test has the controller of a mock answer to a poll. *)
Definition polls (ctrl : Controller) (m : positive) (ret : list (any C)) : Prop :=
  ∀ w, ∃ w', (_ ← T_Helper ctrl; ctrl_Call ctrl m "GetClusterNodes" [AnyNodesRequest running_nodes]) w
             = (Ok ret, w').

(** Mocks are never overwritten by the calls on them. *)
Definition same_mocks (s s' : MockState) : Prop :=
  ms_mocks s' = ms_mocks s ∧ ms_recorders s' = ms_recorders s.

(** A mock answers what the test recorded; a value of another type in the place of the
    response counts as nil, and one in the place of the error as no error. *)
Lemma mock_answers m mock x y ret s :
  ms_mocks s !! m = Some mock → polls (mock_ctrl mock) m (x :: y :: ret) → as_error y = None →
  ∃ s', GetClusterNodes m running_nodes s = (Ok (as_nodes x), s') ∧ same_mocks s s'.
Proof.
  intros Hm Hp Hy. destruct (Hp (ms_world s)) as [w' Hw].
  exists (mkMockState (ms_mocks s) (ms_recorders s) w'). split; [|done].
  apply M_bind_inv in Hw as ([] & w1 & H1 & H2).
  cbn [GetClusterNodes mock_client].
  unfold result_of, mock_GetClusterNodes, mock_call2, mock_call, load, get_st, in_gomock, zoom. unfold_M.
  rewrite Hm. cbn. rewrite H1. cbn. rewrite H2. cbn. by rewrite Hy.
Qed.

(** A polling round over mocks caches what the test recorded. *)
Lemma mocked_round {MR : MapRange} r (h : Heap MockState positive) ans :
  (∀ id m, deref_map (yarnClients r) h !! id = Some m →
     (∃ mock x y ret, ms_mocks (heap_world h) !! m = Some mock ∧ polls (mock_ctrl mock) m (x :: y :: ret) ∧
        as_error y = None ∧ as_nodes x = ans m) ∧
     ∀ resp, ans m = Some resp → response_ok resp) →
  ∃ w', syncYARNNodeAllocatedResource (r, h) =
    (Ok tt, (mkNodesSyncer (yarnClients r) (started r) (snapshot ans (deref_map (yarnClients r) h)),
             mkHeap (heap_maps h) w')).
Proof.
  intros Hm.
  destruct (fold_sync_ok (λ w, ms_mocks w = ms_mocks (heap_world h)) ans
              (map_range (deref_map (yarnClients r) h)) ∅ (heap_world h)) as (w' & Hw' & _); [| |done|].
  - intros [id m] w Hin Hw. apply elem_of_map_range in Hin.
    destruct (Hm id m Hin) as [(mock & x & y & ret & Hk & Hp & Hy & Ha) _]. rewrite <- Hw in Hk.
    destruct (mock_answers m mock x y ret w Hk Hp Hy) as (w1 & Hg & He & _). exists w1. cbn. rewrite <- Ha. split; [exact Hg|by rewrite He].
  - intros [id m] resp Hin. apply elem_of_map_range in Hin. apply (Hm id m Hin).
  - exists w'. unfold syncYARNNodeAllocatedResource, on_world, zoom. by rewrite Hw', insert_all_snapshot.
Qed.
End Mocks.
