(* ===== verification/Metrics.v ===== *)
(** * Prometheus metrics: [src/pkg/controller/metrics]

    The collector turns the node cache into gauges.  A metric is its descriptor's
    name, the integer that is converted to a [float64], and its label values. *)

From S2P Require Import Prelude GoStrings Proto YarnApi NodesSyncer NodesSyncerProofs.

Local Open Scope string_scope.

Definition yarnNodeCPUResource := "yarn_node_cpu_resource".
Definition yarnNodeMemoryResource := "yarn_node_memory_resource".
Definition yarnNodeCPUAllocatedResource := "yarn_node_cpu_allocated_resource".
Definition yarnNodeMemoryAllocatedResource := "yarn_node_memory_allocated_resource".

(** [prometheus.Desc]: name, help text and variable labels. *)
Record Desc := mkDesc {
  fqName : string;
  help : string;
  variableLabels : list string
}.

Definition yarnNodeCPUMetric : Desc :=
  mkDesc yarnNodeCPUResource "yarn node cpu resource" ["instance"; "cluster"].
Definition yarnNodeMemoryMetric : Desc :=
  mkDesc yarnNodeMemoryResource "yarn node memory resource" ["instance"; "cluster"].
Definition yarnNodeCPUAllocatedMetric : Desc :=
  mkDesc yarnNodeCPUAllocatedResource "yarn node cpu resource" ["instance"; "cluster"].
Definition yarnNodeMemoryAllocatedMetric : Desc :=
  mkDesc yarnNodeMemoryAllocatedResource "yarn node memory resource" ["instance"; "cluster"].

Record Metric := mkMetric {
  metric_desc : Desc;
  metric_value : Z;
  metric_labels : list string
}.

Definition Describe : list Desc :=
  [yarnNodeCPUMetric; yarnNodeMemoryMetric; yarnNodeCPUAllocatedMetric; yarnNodeMemoryAllocatedMetric].

(** The body of the inner loop of [Collect]. *)
Definition node_metrics (clusterID : string) (node : NodeReportProto) : list Metric :=
  let host := NodeIdProto_GetHost (NodeReportProto_NodeId node) in
  let capability := NodeReportProto_Capability node in
  let used := NodeReportProto_Used node in
  [ mkMetric yarnNodeCPUMetric (ResourceProto_GetVirtualCores capability) [host; clusterID];
    mkMetric yarnNodeMemoryMetric
      (int64 (int64 (ResourceProto_GetMemory capability * 1024) * 1024)) [host; clusterID];
    mkMetric yarnNodeCPUAllocatedMetric (ResourceProto_GetVirtualCores used) [host; clusterID];
    mkMetric yarnNodeMemoryAllocatedMetric
      (int64 (int64 (ResourceProto_GetMemory used * 1024) * 1024)) [host; clusterID] ].

Section Collect.
Context {MR : MapRange}.

Definition Collect (c : NodesSyncer) : list Metric :=
  map_range (GetYarnNodeInfo c) ≫= λ '(clusterID, nodes), nodes ≫= node_metrics clusterID.

(** ** Properties *)

Lemma elem_of_Collect c m :
  m ∈ Collect c ↔
  ∃ id cc k rep, cache c !! id = Some cc ∧ cc !! k = Some rep ∧ m ∈ node_metrics id rep.
Proof.
  unfold Collect, GetYarnNodeInfo. rewrite list_elem_of_bind. split.
  - intros ([id nodes] & Hm & Hin). apply elem_of_map_range in Hin.
    rewrite lookup_fmap in Hin. destruct (cache c !! id) as [cc|] eqn:Hc; simplify_eq/=.
    apply list_elem_of_bind in Hm as (rep & Hm & Hin).
    apply list_elem_of_fmap in Hin as ([k rep'] & -> & Hk). apply elem_of_map_range in Hk. eauto 10.
  - intros (id & cc & k & rep & Hc & Hk & Hm).
    exists (id, (map_range cc).*2). split.
    + apply list_elem_of_bind. exists rep. split; [done|].
      apply list_elem_of_fmap. exists (k, rep). split; [done|]. by apply elem_of_map_range.
    + apply elem_of_map_range. by rewrite lookup_fmap, Hc.
Qed.

(** The collector exposes the whole cache and nothing else: a metric is
    collected exactly when some cached node report of some cluster yields it, and
    each metric carries a described descriptor with the right number of labels,
    so building it cannot panic. *)
Theorem collect_exposes_cache c m :
  (m ∈ Collect c ↔
     ∃ id cc k rep, cache c !! id = Some cc ∧ cc !! k = Some rep ∧ m ∈ node_metrics id rep) ∧
  (m ∈ Collect c → metric_desc m ∈ Describe ∧
     length (metric_labels m) = length (variableLabels (metric_desc m))).
Proof.
  split; [apply elem_of_Collect|].
  rewrite elem_of_Collect. intros (id & cc & k & rep & _ & _ & Hm).
  unfold node_metrics in Hm. rewrite !elem_of_cons in Hm. unfold Describe.
  destruct Hm as [->|[->|[->|[->|Hm]]]]; [| | | |by apply elem_of_nil in Hm];
    (split; [rewrite !elem_of_cons; tauto|done]).
Qed.

(** What Prometheus identifies a sample by. *)
Definition metric_id (m : Metric) : Desc * list string := (metric_desc m, metric_labels m).

Lemma map_range_delete {A} (m : gmap string A) k x :
  m !! k = Some x → map_range m ≡ₚ (k, x) :: map_range (delete k m).
Proof.
  intros Hk. rewrite !map_range_perm. rewrite <- map_to_list_insert by apply lookup_delete_eq.
  by rewrite insert_delete_id.
Qed.

Lemma node_metrics_ids id rep1 rep2 :
  NodeIdProto_GetHost (NodeReportProto_NodeId rep1) = NodeIdProto_GetHost (NodeReportProto_NodeId rep2) →
  metric_id <$> node_metrics id rep1 = metric_id <$> node_metrics id rep2.
Proof. intros Hh. unfold node_metrics. cbn. by rewrite Hh. Qed.

(** C40 Metrics are labelled by host, not by host and port: as soon as two cached
    node managers of one cluster share a host, the collected metrics contain
    duplicates (same descriptor, same label values), which Prometheus rejects. *)
Theorem same_host_metrics_collide c id cc k1 k2 rep1 rep2 :
  cache c !! id = Some cc → cc !! k1 = Some rep1 → cc !! k2 = Some rep2 → k1 ≠ k2 →
  NodeIdProto_GetHost (NodeReportProto_NodeId rep1) = NodeIdProto_GetHost (NodeReportProto_NodeId rep2) →
  ¬ NoDup (metric_id <$> Collect c).
Proof.
  intros Hc H1 H2 Hne Hhost Hnd.
  assert (map_range cc ≡ₚ (k1, rep1) :: (k2, rep2) :: map_range (delete k2 (delete k1 cc))) as Hcc.
  { rewrite (map_range_delete cc k1 rep1 H1). f_equiv.
    apply map_range_delete. by rewrite lookup_delete_ne. }
  unfold Collect in Hnd. rewrite (map_range_delete _ id ((map_range cc).*2)) in Hnd
    by (unfold GetYarnNodeInfo; by rewrite lookup_fmap, Hc).
  cbn [mbind list_bind] in Hnd. rewrite fmap_app in Hnd. apply list.NoDup_app in Hnd as (Hnd & _).
  rewrite Hcc in Hnd. cbn [fmap list_fmap snd mbind list_bind] in Hnd.
  rewrite !fmap_app in Hnd. apply list.NoDup_app in Hnd as (_ & Hdisj & _).
  apply (Hdisj (metric_id (mkMetric yarnNodeCPUMetric
    (ResourceProto_GetVirtualCores (NodeReportProto_Capability rep1))
    [NodeIdProto_GetHost (NodeReportProto_NodeId rep1); id]))); [by left|].
  apply elem_of_app. left. rewrite <- (node_metrics_ids id rep1 rep2 Hhost). by left.
Qed.
End Collect.

Definition two_on_one_host : NodesSyncer :=
  mkNodesSyncer None true
    {[ "c" := {[ "nm-8041" := MockYarn.report "nm" 8041 None;
                 "nm-8042" := MockYarn.report "nm" 8042 None ]} ]}.

Lemma same_host_metrics_collide_witness : ¬ NoDup (metric_id <$> Collect two_on_one_host).
Proof.
  apply (same_host_metrics_collide two_on_one_host "c"
           {[ "nm-8041" := MockYarn.report "nm" 8041 None;
              "nm-8042" := MockYarn.report "nm" 8042 None ]}
           "nm-8041" "nm-8042" (MockYarn.report "nm" 8041 None) (MockYarn.report "nm" 8042 None));
    [vm_compute; reflexivity..|discriminate|reflexivity].
Defined.
