(* ===== verification/Reconciler.v ===== *)
(** * The reconciler: [src/pkg/controller/noderesource/resource_sync_controller.go]

    For every event on a Kubernetes node the reconciler reports the node's batch
    resources to the resource manager of the node manager that runs there, and
    records what YARN has allocated in an annotation of the node.

    The Kubernetes API is the class [K8sClient] on the same world [W] the YARN
    clients act on. *)

From S2P Require Import Prelude GoStrings Proto NodeResource YarnApi NodesSyncer.

Local Open Scope string_scope.

(** ** Kubernetes objects, as far as they are read *)

Section Objects.
Context (Q : Type).

Record Node := mkNode {
  Node_Name : string;
  Node_Annotations : option (gmap string string);
  Node_Allocatable : ResourceList Q
}.
End Objects.
Arguments mkNode {Q}.
Arguments Node_Name {Q}.
Arguments Node_Annotations {Q}.
Arguments Node_Allocatable {Q}.

Record Pod := mkPod {
  Pod_Namespace : string;
  Pod_Name : string;
  Pod_Annotations : option (gmap string string)
}.

(** [client.Client], the JSON encoder of nodes and [strategicpatch], on world [W].
    [k8s_Get] answers [None] when [errors.IsNotFound] holds of the error. *)
Class K8sClient (W Q : Type) := {
  k8s_Get : string → M W (option (Node Q));
  k8s_ListPods (label : string * string) (nodeName : string) : M W (list Pod);
  k8s_Patch : Node Q → string → M W unit;
  node_Marshal : Node Q → outcome string;
  CreateTwoWayMergePatch : string → string → outcome string
}.

(** The metrics registry and the controller manager, as far as [Add] calls them;
    [SetupWithManager] is the controller builder's [Complete]. *)
Class OperatorManager (W : Type) := {
  registry_Register : M W unit;
  mgr_Add : M W unit;
  SetupWithManager : M W unit
}.

(** ** State *)

(** [YARNResourceSyncReconciler]; the embedded Kubernetes client is the class
    above and the node cache is the syncer in [RState]. *)
Record Reconciler (C : Type) := mkReconciler {
  rec_yarnClient : option C;
  rec_yarnClients : option mapref
}.
Arguments mkReconciler {C}.
Arguments rec_yarnClient {C}.
Arguments rec_yarnClients {C}.

Record RState (W C : Type) := mkRState {
  rs_rec : Reconciler C;
  rs_syncer : NodesSyncer;
  rs_heap : Heap W C
}.
Arguments mkRState {W C}.
Arguments rs_rec {W C}.
Arguments rs_syncer {W C}.
Arguments rs_heap {W C}.

Section Reconcile.
Context {W C Q : Type} {QA : QuantityApi Q} {UA : QuotaApi Q} {KA : KoordinatorApi}.
Context {JO : Json (OriginAllocatable Q)} {JT : Json (ThirdPartyAllocations Q)}.
Context {YC : YarnClient W C} {YF : YarnClientFactory W C} {KC : K8sClient W Q}.

Abbreviation RM := (M (RState W C)).

(** Run a computation on the world. *)
Definition in_world {A} (c : M W A) : RM A :=
  zoom rs_heap (λ h s, mkRState (rs_rec s) (rs_syncer s) h) (on_world c).

(** ** Reading the node *)

(** [getNodeBatchResource]: on an unreadable annotation the error is returned. *)
Definition getNodeBatchResource (node : option (Node Q)) : outcome (Q * Q) :=
  match node with
  | None => Ok (NewQuantity 0 DecimalSI, NewQuantity 0 BinarySI)
  | Some node =>
      let read (l : ResourceList Q) :=
        (default (NewQuantity 0 DecimalSI) (nil_lookup BatchCPU l),
         default (NewQuantity 0 BinarySI) (nil_lookup BatchMemory l)) in
      originAllocatableRes ← GetOriginExtendedAllocatableRes (Node_Annotations node);
      match originAllocatableRes with
      | None => Ok (read (Node_Allocatable node))
      | Some _ => Ok (read originAllocatableRes)
      end
  end.

(** ** Finding the node manager *)

Definition getYARNNodeManagerPod (node : option (Node Q)) : RM (option Pod) :=
  match node with
  | None => mret None
  | Some node =>
      podList ← try (in_world (k8s_ListPods (YarnNMComponentLabel, YarnNMComponentValue) (Node_Name node)));
      match podList with
      | inr err => throw ("get node manager pod failed on node " +:+ Node_Name node
                            +:+ " with error " +:+ err)
      | inl [] => mret None
      | inl (pod :: _) => mret (Some pod)
      end
  end.

(** The part of [getYARNNode] after the pod has been found. *)
Definition parse_nm_pod (nmPod : Pod) : outcome YarnNode :=
  match nil_lookup YarnNodeIdAnnotation (Pod_Annotations nmPod) with
  | None => Err ("yarn nm id " +:+ YarnNodeIdAnnotation +:+ " not exist in node annotation")
  | Some podAnnoNodeId =>
      match Split podAnnoNodeId ":" with
      | [host; portStr] =>
          match Atoi portStr with
          | Ok port =>
              Ok (mkYarnNode host (int32 port)
                    (default DefaultClusterID
                       (nil_lookup PodYarnClusterIDAnnotationKey (Pod_Annotations nmPod))))
          | _ => Err ("yarn nm id port " +:+ podAnnoNodeId +:+ " format is illegal")
          end
      | _ => Err ("yarn nm id " +:+ podAnnoNodeId +:+ " format is illegal")
      end
  end.

Definition getYARNNode (node : option (Node Q)) : RM (option YarnNode) :=
  match node with
  | None => mret None
  | Some _ =>
      nmPod ← getYARNNodeManagerPod node;
      match nmPod with
      | None => mret None
      | Some nmPod => yarnNode ← lift_out (parse_nm_pod nmPod); mret (Some yarnNode)
      end
  end.

(** ** Talking to YARN *)

(** Allocate a new map object on the heap. *)
Definition new_map (m : gmap string C) (h : Heap W C) : mapref * Heap W C :=
  let p := fresh (dom (heap_maps h)) in
  (p, mkHeap (<[p := m]> (heap_maps h)) (heap_world h)).

(** [r.yarnClients[id] = c], creating the map when it is nil. *)
Definition remember_client (id : string) (c : C) : RM unit := modify (λ s,
  let '(p, h) := match rec_yarnClients (rs_rec s) with
                 | Some p => (p, rs_heap s)
                 | None => new_map ∅ (rs_heap s)
                 end in
  let m := default ∅ (heap_maps h !! p) in
  mkRState (mkReconciler (rec_yarnClient (rs_rec s)) (Some p)) (rs_syncer s)
    (mkHeap (<[p := <[id := c]> m]> (heap_maps h)) (heap_world h))).

Definition getYARNClient (yarnNode : option YarnNode) : RM (option C) :=
  match yarnNode with
  | None => mret None
  | Some n =>
      s ← get_st;
      if bool_decide (YarnNode_ClusterID n = "") then
        match rec_yarnClient (rs_rec s) with
        | Some c => mret (Some c)
        | None =>
            yarnClient ← in_world CreateDefaultYarnClient;
            _ ← modify (λ s, mkRState (mkReconciler (Some yarnClient) (rec_yarnClients (rs_rec s)))
                               (rs_syncer s) (rs_heap s));
            mret (Some yarnClient)
        end
      else
        match deref_map (rec_yarnClients (rs_rec s)) (rs_heap s) !! YarnNode_ClusterID n with
        | Some clusterClient => mret (Some clusterClient)
        | None =>
            clusterClient ← in_world (CreateYarnClientByClusterID (YarnNode_ClusterID n));
            _ ← remember_client (YarnNode_ClusterID n) clusterClient;
            mret (Some clusterClient)
        end
  end.

Definition update_request (n : YarnNode) (vcores memoryMB : Z) : UpdateNodeResourceRequestProto :=
  mkUpdateNodeResourceRequestProto
    [ mkNodeResourceMapProto
        (Some (mkNodeIdProto (Some (YarnNode_Name n)) (Some (YarnNode_Port n))))
        (Some (mkResourceOptionProto
           (Some (mkResourceProto (Some memoryMB) (Some (int32 vcores)) [])) None)) ].

Definition updateYARNNodeResource (yarnNode : option YarnNode) (vcores memoryMB : Z) : RM unit :=
  match yarnNode with
  | None => mret tt
  | Some n =>
      yarnClient ← getYARNClient yarnNode;
      match yarnClient with
      | None => mret tt
      | Some c =>
          resp ← try (in_world (UpdateNodeResource c (update_request n vcores memoryMB)));
          match resp with
          | inl _ => mret tt
          | inr err =>
              initErr ← try (in_world (Reinitialize c));
              throw ("UpdateNodeResource resp <nil>, error " +:+ err
                       +:+ ", reinitialize error " +:+ fmt_err initErr)
          end
      end
  end.

(** [nodeResource.Used.VirtualCores] panics when [Used] is nil. *)
Definition getYARNNodeAllocatedResource (yarnNode : option YarnNode) : RM (Z * Z) :=
  match yarnNode with
  | None => mret (0, 0)%Z
  | Some _ =>
      s ← get_st;
      match GetNodeResource (rs_syncer s) yarnNode with
      | None => mret (0, 0)%Z
      | Some nodeResource =>
          match NodeReportProto_Used nodeResource with
          | None => gopanic nil_deref
          | Some used => mret (default 0%Z (ResourceProto_VirtualCores used),
                               default 0%Z (ResourceProto_Memory used))
          end
      end
  end.

(** ** Recording the allocation *)

Definition with_annotations (node : Node Q) (a : option (gmap string string)) : Node Q :=
  mkNode (Node_Name node) a (Node_Allocatable node).

(** Prefix the error of a pure call; the [%#v] rendering of the object in the
    source's messages is left out. *)
Definition wrap_err {A} (msg : string) (x : outcome A) : outcome A :=
  match x with Err e => Err (msg +:+ e) | _ => x end.

Definition updateYARNAllocatedResource (node : option (Node Q)) (vcores memoryMB : Z) : RM unit :=
  match node with
  | None => mret tt
  | Some node =>
      let annotations := match Node_Annotations node with None => Some ∅ | a => a end in
      newAnnotations ← lift_out (SetYARNAllocatedResource annotations vcores memoryMB);
      let newNode := with_annotations node newAnnotations in
      oldData ← lift_out (wrap_err "failed to marshal the existing node: " (node_Marshal node));
      newData ← lift_out (wrap_err "failed to marshal the new node: " (node_Marshal newNode));
      patchBytes ← lift_out (wrap_err "failed to create a two-way merge patch: "
                               (CreateTwoWayMergePatch oldData newData));
      in_world (k8s_Patch node patchBytes)
  end.

(** ** The handler *)

(** [(Result{Requeue}, error)]. *)
Definition ReconcileResult : Type := bool * option error.

(** [if err := c; err != nil { return Result{Requeue: true}, err }; k] *)
Definition or_requeue (c : RM unit) (k : RM ReconcileResult) : RM ReconcileResult :=
  r ← try c;
  match r with
  | inl _ => k
  | inr err => mret (true, Some err)
  end.

(** The part after the node manager has been identified. *)
Definition reconcile_yarn_node (node : Node Q) (n : YarnNode) : RM ReconcileResult :=
  batch ← try (lift_out (getNodeBatchResource (Some node)));
  match batch with
  | inr err => mret (true, Some err)
  | inl (batchCPU, batchMemory) =>
      let '(vcores, memoryMB) := calculate batchCPU batchMemory in
      or_requeue (updateYARNNodeResource (Some n) vcores memoryMB) (
        '(core, mb) ← getYARNNodeAllocatedResource (Some n);
        or_requeue (updateYARNAllocatedResource (Some node) core mb) (mret (false, None)))
  end.

Definition Reconcile (name : string) : RM ReconcileResult :=
  got ← try (in_world (k8s_Get name));
  match got with
  | inr err => mret (true, Some err)
  | inl None => mret (false, None)
  | inl (Some node) =>
      yarnNode ← try (getYARNNode (Some node));
      match yarnNode with
      | inr _ => mret (false, None)
      | inl yarnNode =>
          if match yarnNode with
             | None => true
             | Some n => bool_decide (YarnNode_Name n = "") || bool_decide (YarnNode_Port n = 0%Z)
             end
          then or_requeue (updateYARNAllocatedResource (Some node) 0 0) (mret (false, None))
          else match yarnNode with
               | Some n => reconcile_yarn_node node n
               | None => mret (false, None)
               end
      end
  end.

(** ** Wiring *)

(** [Add]: the map of clients is created once and shared by the node cache and
    the reconciler.  The first error of the registrations is returned. *)
Definition Add {OM : OperatorManager W} : M W (RState W C) :=
  clients ← CreateAllYarnClients;
  let p := 1%positive in
  let yarnNodesSyncer := NewNodesSyncer (Some p) in
  _ ← registry_Register;
  let r := mkReconciler None (Some p) in
  _ ← mgr_Add;
  _ ← SetupWithManager;
  w ← get_st;
  mret (mkRState r yarnNodesSyncer (mkHeap {[ p := clients ]} w)).
End Reconcile.
