(* ===== verification/ReconcilerProofs.v ===== *)
(** * Correctness of the reconciler

    What one run of [Reconcile] does to the Kubernetes node, to the resource
    manager and to the operator's own state. *)

From S2P Require Import Prelude GoStrings Proto NodeResource ReferenceApi NodeResourceProofs.
From S2P Require Import YarnApi NodesSyncer NodesSyncerProofs Reconciler.

Local Open Scope string_scope.

(** ** What the Kubernetes API promises

    [stored w name] is the node the API server holds.  A strategic merge patch
    made from two nodes changes exactly the annotations the two differ in.
    Reading the server, listing pods and talking to YARN change no node. *)

Definition anno {Q} (n : Node Q) (k : string) : option string := nil_lookup k (Node_Annotations n).

(** JSON reproduces valid UTF-8 only. *)
Definition node_text_ok {Q} (n : Node Q) : Prop :=
  map_Forall (λ k v, ValidString k = true ∧ ValidString v = true) (default ∅ (Node_Annotations n)).

Class K8sLaws (W C Q : Type) {KC : K8sClient W Q} {YC : YarnClient W C}
    {YF : YarnClientFactory W C} := {
  stored : W → string → option (Node Q);
  stored_name w name n : stored w name = Some n → Node_Name n = name;
  stored_text w name n : stored w name = Some n → node_text_ok n;
  Get_stored name w r w' :
    k8s_Get name w = (r, w') → stored w' = stored w ∧ ∀ x, r = Ok x → x = stored w name;
  ListPods_stored l name w r w' : k8s_ListPods l name w = (r, w') → stored w' = stored w;
  Update_stored (c : C) req w r w' : UpdateNodeResource c req w = (r, w') → stored w' = stored w;
  Reinitialize_stored (c : C) w r w' : Reinitialize c w = (r, w') → stored w' = stored w;
  CreateDefault_stored w r w' : CreateDefaultYarnClient (C:=C) w = (r, w') → stored w' = stored w;
  CreateCluster_stored id w r w' :
    CreateYarnClientByClusterID (C:=C) id w = (r, w') → stored w' = stored w;
  Patch_stored old a oldData newData patch w w' cur :
    node_text_ok old → node_text_ok (with_annotations old a) →
    node_Marshal old = Ok oldData → node_Marshal (with_annotations old a) = Ok newData →
    CreateTwoWayMergePatch oldData newData = Ok patch →
    stored w (Node_Name old) = Some cur →
    k8s_Patch old patch w = (Ok tt, w') →
    ∃ cur', stored w' (Node_Name old) = Some cur' ∧
      ∀ k, anno cur' k = if decide (anno old k = nil_lookup k a) then anno cur k else nil_lookup k a
}.

Section Runs.
Context {W C : Type}.
Implicit Types s : RState W C.

Definition world s : W := heap_world (rs_heap s).
Definition set_world (w : W) s : RState W C :=
  mkRState (rs_rec s) (rs_syncer s) (mkHeap (heap_maps (rs_heap s)) w).

Lemma in_world_run {A} (c : M W A) s :
  in_world c s = ((c (world s)).1, set_world (c (world s)).2 s).
Proof. unfold in_world, on_world, zoom, world. by destruct (c _). Qed.

Lemma in_world_inv {A} (c : M W A) s r s' :
  in_world c s = (r, s') → ∃ w', c (world s) = (r, w') ∧ s' = set_world w' s.
Proof. rewrite in_world_run. destruct (c _) as [r' w']. cbn. intros [= -> <-]. eauto. Qed.

Lemma in_world_ok {A} (c : M W A) s r w' :
  c (world s) = (r, w') → in_world c s = (r, set_world w' s).
Proof. rewrite in_world_run. by intros ->. Qed.

Lemma world_set w s : world (set_world w s) = w.
Proof. done. Qed.
End Runs.
#[export] Hint Rewrite @world_set : copilot.

Section Reconcile.
Context {W C Q : Type} {QA : QuantityApi Q} {QL : QuantityLaws Q} {UA : QuotaApi Q}.
Context {KA : KoordinatorApi} {KL : KoordinatorLaws}.
Context {JO : Json (OriginAllocatable Q)} {JT : Json (ThirdPartyAllocations Q)}.
Context {JL : JsonLaws Q}.
Context {YC : YarnClient W C} {YF : YarnClientFactory W C} {KC : K8sClient W Q}.
Implicit Types s : RState W C.

(** ** The result *)

(** A result of the handler: requeue exactly when there is an error. *)
Definition coherent (r : ReconcileResult) : Prop := r.1 = true ↔ r.2 ≠ None.

Definition always_coherent (c : M (RState W C) ReconcileResult) : Prop :=
  ∀ s, match c s with
       | (Ok r, _) => coherent r
       | (Err _, _) => False
       | (Panic _, _) => True
       end.

Lemma coherent_try {A} (c : M (RState W C) A) f :
  (∀ r, always_coherent (f r)) → always_coherent (try c ≫= f).
Proof.
  intros Hf s. unfold mbind, M_bind, try. destruct (c s) as [[a|e|w] s']; [apply Hf..|done].
Qed.

Lemma coherent_or_requeue c k : always_coherent k → always_coherent (or_requeue c k).
Proof. intros Hk. apply coherent_try. by intros [[]|err]. Qed.

Lemma getYARNNodeAllocatedResource_no_err n s e s' :
  getYARNNodeAllocatedResource n s ≠ (Err e, s').
Proof.
  destruct n as [n|]; [|done]. unfold getYARNNodeAllocatedResource. unfold_M.
  destruct (GetNodeResource _ _) as [rep|]; [|done]. by destruct (NodeReportProto_Used rep).
Qed.

Lemma coherent_Reconcile name : always_coherent (Reconcile name).
Proof.
  apply coherent_try. intros [[node|]|err]; [|done|done].
  apply coherent_try. intros [yarnNode|err]; [|done].
  case_match; [by apply coherent_or_requeue|].
  destruct yarnNode as [n|]; [|done].
  apply coherent_try. intros [[cpu mem]|err]; [|done].
  apply coherent_or_requeue. intros s. unfold mbind, M_bind.
  destruct (getYARNNodeAllocatedResource (Some n) s) as [[[core mb]|e|w] s1] eqn:E; [|..|done].
  - by apply coherent_or_requeue.
  - by apply getYARNNodeAllocatedResource_no_err in E.
Qed.

(** The handler asks for a retry exactly when it reports an error: every
    completed run returns [Requeue: true] with an error or neither. *)
Theorem reconcile_requeues_iff_error name s rq err s' :
  Reconcile name s = (Ok (rq, err), s') → (rq = true ↔ err ≠ None).
Proof. intros H. pose proof (coherent_Reconcile name s) as Hc. by rewrite H in Hc. Qed.

(** ** The client of a node *)

Definition client_of s (n : YarnNode) : option C :=
  if bool_decide (YarnNode_ClusterID n = "") then rec_yarnClient (rs_rec s)
  else deref_map (rec_yarnClients (rs_rec s)) (rs_heap s) !! YarnNode_ClusterID n.

(** What the reconciler may do to its own state: it never touches the node
    cache, and it only adds clients. *)
Definition extends s s' : Prop :=
  rs_syncer s' = rs_syncer s ∧
  (∀ id c, deref_map (rec_yarnClients (rs_rec s)) (rs_heap s) !! id = Some c →
     deref_map (rec_yarnClients (rs_rec s')) (rs_heap s') !! id = Some c) ∧
  (∀ p, rec_yarnClients (rs_rec s) = Some p → rec_yarnClients (rs_rec s') = Some p).

#[global] Instance extends_preorder : PreOrder extends.
Proof.
  split; [by repeat split|]. intros s1 s2 s3 (H1 & H2 & H3) (H4 & H5 & H6).
  split; [by rewrite H4|]. split; auto.
Qed.

Lemma extends_set_world w s : extends s (set_world w s).
Proof. by repeat split. Qed.

Lemma client_of_set_world w s n : client_of (set_world w s) n = client_of s n.
Proof. done. Qed.

Lemma remember_client_spec id c s :
  ∃ s', remember_client id c s = (Ok tt, s') ∧
    world s' = world s ∧ rs_syncer s' = rs_syncer s ∧
    rec_yarnClient (rs_rec s') = rec_yarnClient (rs_rec s) ∧
    (∀ p, rec_yarnClients (rs_rec s) = Some p → rec_yarnClients (rs_rec s') = Some p) ∧
    deref_map (rec_yarnClients (rs_rec s')) (rs_heap s') =
      <[id := c]> (deref_map (rec_yarnClients (rs_rec s)) (rs_heap s)).
Proof.
  eexists. split; [done|]. unfold deref_map, new_map, world.
  destruct s as [[d [p|]] syn [maps w]]; cbn.
  - do 4 (split; [done|]). by rewrite lookup_insert_eq.
  - do 4 (split; [done|]). by rewrite !lookup_insert_eq.
Qed.

Lemma getYARNClient_ok n s oc s' :
  getYARNClient (Some n) s = (Ok oc, s') →
  ∃ c, oc = Some c ∧ client_of s' n = Some c ∧ extends s s' ∧
    (client_of s n = Some c ∧ s' = s ∨
     client_of s n = None ∧ ∃ w',
       (if bool_decide (YarnNode_ClusterID n = "") then CreateDefaultYarnClient
        else CreateYarnClientByClusterID (YarnNode_ClusterID n)) (world s) = (Ok c, w') ∧
       world s' = w').
Proof.
  unfold getYARNClient, client_of. intros H. inv_bind. unfold get_st in *. simplify_eq.
  case_bool_decide as Hid.
  - destruct (rec_yarnClient _) as [c|] eqn:Hc.
    + inv_bind. exists c. repeat split; auto.
    + inv_bind. match goal with H : in_world _ _ = _ |- _ =>
        apply in_world_inv in H as (w' & Hw & ->) end.
      unfold modify in *. simplify_eq. eexists. split; [done|]. split; [done|].
      split; [by repeat split|]. right. split; [done|]. exists w'. done.
  - destruct (deref_map _ _ !! _) as [c|] eqn:Hc.
    + inv_bind. exists c. repeat split; auto.
    + inv_bind. match goal with H : in_world _ _ = _ |- _ =>
        apply in_world_inv in H as (w' & Hw & ->) end.
      match goal with H : remember_client ?id ?c ?s0 = _ |- _ =>
        destruct (remember_client_spec id c s0) as (s2 & Hr & Hww & Hsyn & _ & Hp & Hm);
        rewrite Hr in H; simplify_eq end.
      eexists. split; [done|]. rewrite Hm, lookup_insert_eq. split; [done|]. split.
      * split; [done|]. split; [|exact Hp]. intros id c' Hc'. rewrite Hm.
        rewrite lookup_insert_ne; [exact Hc'|]. intros <-.
        unfold set_world in Hc. cbn in Hc. by rewrite Hc in Hc'.
      * right. split; [done|]. exists w'. by rewrite Hww.
Qed.

(** The clients of the other clusters are as before. *)
Lemma getYARNClient_others n s oc s' :
  getYARNClient (Some n) s = (Ok oc, s') →
  ∀ id, id ≠ YarnNode_ClusterID n →
    deref_map (rec_yarnClients (rs_rec s')) (rs_heap s') !! id =
    deref_map (rec_yarnClients (rs_rec s)) (rs_heap s) !! id.
Proof.
  unfold getYARNClient. intros H id Hid. inv_bind. unfold get_st in *. simplify_eq.
  case_bool_decide.
  - destruct (rec_yarnClient _); inv_bind; [done|]. match goal with H : in_world _ _ = _ |- _ =>
      apply in_world_inv in H as (w' & Hw & ->) end. unfold modify in *. by simplify_eq.
  - destruct (deref_map _ _ !! YarnNode_ClusterID n); inv_bind; [done|].
    match goal with H : in_world _ _ = _ |- _ => apply in_world_inv in H as (w' & Hw & ->) end.
    match goal with H : remember_client ?id ?c ?s0 = _ |- _ =>
      destruct (remember_client_spec id c s0) as (s2 & Hr & _ & _ & _ & _ & Hm);
      rewrite Hr in H; simplify_eq end.
    rewrite Hm. by apply lookup_insert_ne.
Qed.

(** ** Effects on the cluster *)

Context {K8L : K8sLaws W C Q}.

(** The node's annotation says YARN has [core] cores and [mb] megabytes, and no
    other annotation differs from the ones of [before]. *)
Definition recorded (w : W) (before : Node Q) (core mb : Z) : Prop :=
  ∃ n r, stored w (Node_Name before) = Some n ∧
    GetYARNAllocatedResource (Node_Annotations n) = Ok r ∧
    rl_view (r : ResourceList Q) = rl_view (Some (yarn_resources (Q:=Q) core mb)) ∧
    (∀ k, k ≠ NodeThirdPartyAllocationsAnnotationKey → anno n k = anno before k).

Lemma wrap_err_ok {A} msg (x : outcome A) a : wrap_err msg x = Ok a → x = Ok a.
Proof. by destruct x. Qed.

Lemma node_text_ok_insert (node : Node Q) k v :
  node_text_ok node → ValidString k = true → ValidString v = true →
  node_text_ok (with_annotations node (Some (<[k := v]> (default ∅ (Node_Annotations node))))).
Proof. intros Hn Hk Hv. unfold node_text_ok. cbn. by apply map_Forall_insert_2. Qed.

Lemma updateYARNAllocatedResource_ok node core mb s s' :
  stored (world s) (Node_Name node) = Some node →
  updateYARNAllocatedResource (Some node) core mb s = (Ok tt, s') →
  recorded (world s') node core mb ∧ extends s s'.
Proof.
  intros Hstored. unfold updateYARNAllocatedResource.
  set (m := default ∅ (Node_Annotations node)).
  replace (match Node_Annotations node with None => Some ∅ | a => a end) with (Some m)
    by (unfold m; by destruct (Node_Annotations node)).
  destruct (set_yarn_readback m core mb) as (v & r & Hs & Hv & Hr & Hview).
  rewrite Hs. intros H. inv_bind.
  repeat match goal with H : wrap_err _ _ = Ok _ |- _ => apply wrap_err_ok in H end.
  match goal with H : in_world _ _ = _ |- _ => apply in_world_inv in H as (w' & Hp & ->) end.
  edestruct Patch_stored as (cur' & Hc' & Hanno); [..|exact Hp|]; try done.
  { by eapply stored_text. }
  { by apply node_text_ok_insert; [eapply stored_text| |]. }
  split; [|apply extends_set_world]. exists cur', r. split; [done|].
  assert (anno node = λ k, m !! k) as Ha.
  { unfold anno, m. by destruct (Node_Annotations node). }
  split; [|split; [done|]].
  - rewrite <- Hr. apply get_yarn_ext. fold (anno cur' NodeThirdPartyAllocationsAnnotationKey).
    rewrite Hanno. case_decide as Hd; [|done]. exact Hd.
  - intros k Hk. rewrite Hanno, nil_lookup_Some, lookup_insert_ne by done.
    rewrite Ha. by rewrite decide_True.
Qed.

(** The pods the selector finds on the node. *)
Definition nm_pods (node : Node Q) (w : W) : outcome (list Pod) :=
  (k8s_ListPods (YarnNMComponentLabel, YarnNMComponentValue) (Node_Name node) w).1.

(** The node manager on a node: none, or the one the first pod names. *)
Definition nm_of (pods : list Pod) : outcome (option YarnNode) :=
  match pods with
  | [] => Ok None
  | pod :: _ => Some <$> parse_nm_pod pod
  end.

Lemma getYARNNode_run node s :
  ∃ w', stored w' = stored (world s) ∧
    match nm_pods node (world s) with
    | Ok pods => getYARNNode (Some node) s = (nm_of pods, set_world w' s)
    | Err _ => ∃ e, getYARNNode (Some node) s = (Err e, set_world w' s)
    | Panic why => getYARNNode (Some node) s = (Panic why, set_world w' s)
    end.
Proof.
  unfold nm_pods, getYARNNode, getYARNNodeManagerPod.
  destruct (k8s_ListPods _ _ _) as [r w'] eqn:Hl. exists w'.
  split; [by eapply ListPods_stored|]. cbn [fst].
  apply in_world_ok in Hl. unfold_M. rewrite Hl.
  destruct r as [[|pod pods]|e|why]; cbn; [done| |by eexists|done].
  by destruct (parse_nm_pod pod).
Qed.

Lemma updateYARNNodeResource_ok n vcores mb s s' :
  updateYARNNodeResource (Some n) vcores mb s = (Ok tt, s') →
  extends s s' ∧ stored (world s') = stored (world s) ∧
  ∃ c w1 resp, client_of s' n = Some c ∧
    UpdateNodeResource c (update_request n vcores mb) w1 = (Ok resp, world s').
Proof.
  unfold updateYARNNodeResource. intros (oc & s1 & Hc & H)%M_bind_inv.
  apply getYARNClient_ok in Hc as (c & -> & Hof & Hext & Hcase). cbn -[try in_world] in H.
  apply try_bind_inv in H as [(resp & s2 & Hu & [= <-])|(e & s2 & _ & H)].
  2: { by apply M_bind_inv in H as (? & ? & _ & H). }
  apply in_world_inv in Hu as (w' & Hu & ->).
  split; [etrans; [done|apply extends_set_world]|]. split.
  - rewrite world_set. rewrite (Update_stored _ _ _ _ _ Hu).
    destruct Hcase as [[_ ->]|(_ & w & Hw & <-)]; [done|].
    case_bool_decide; [by eapply CreateDefault_stored|by eapply CreateCluster_stored].
  - exists c, (world s1), resp. by rewrite client_of_set_world.
Qed.

(** What the cache says YARN uses on a node: nothing when the node is unknown,
    no answer when the report carries no figures. *)
Definition used_of (r : NodesSyncer) (n : YarnNode) : option (Z * Z) :=
  match GetNodeResource r (Some n) with
  | None => Some (0, 0)%Z
  | Some rep =>
      used ← NodeReportProto_Used rep;
      Some (default 0%Z (ResourceProto_VirtualCores used), default 0%Z (ResourceProto_Memory used))
  end.

Lemma getYARNNodeAllocatedResource_run n s :
  getYARNNodeAllocatedResource (Some n) s =
  (match used_of (rs_syncer s) n with Some p => Ok p | None => Panic nil_deref end, s).
Proof.
  unfold getYARNNodeAllocatedResource, used_of. unfold_M.
  destruct (GetNodeResource _ _) as [rep|]; [|done]. by destruct (NodeReportProto_Used rep).
Qed.

Definition usable (n : YarnNode) : bool :=
  negb (bool_decide (YarnNode_Name n = "") || bool_decide (YarnNode_Port n = 0%Z)).

(** ** The specification of one reconciliation

    [ReconcileSpec name s s'] lists the four things a run that ends without an
    error may have done. *)
Inductive ReconcileSpec (name : string) s s' : Prop :=
| NodeGone :
    stored (world s) name = None → stored (world s') = stored (world s) →
    ReconcileSpec name s s'
| NotIdentified node w :
    stored (world s) name = Some node →
    (∀ pods yn, nm_pods node w = Ok pods → nm_of pods ≠ Ok yn) →
    stored (world s') = stored (world s) →
    ReconcileSpec name s s'
| NoNodeManager node w pods yn :
    stored (world s) name = Some node → nm_pods node w = Ok pods → nm_of pods = Ok yn →
    (∀ n, yn = Some n → usable n = false) →
    recorded (world s') node 0 0 →
    ReconcileSpec name s s'
| Synced node w pods n c cpu mem w1 w2 resp core mb :
    stored (world s) name = Some node → nm_pods node w = Ok pods → nm_of pods = Ok (Some n) →
    usable n = true →
    getNodeBatchResource (Some node) = Ok (cpu, mem) →
    client_of s' n = Some c →
    UpdateNodeResource c (update_request n (calculate cpu mem).1 (calculate cpu mem).2) w1
      = (Ok resp, w2) →
    used_of (rs_syncer s) n = Some (core, mb) →
    recorded (world s') node core mb →
    ReconcileSpec name s s'.

Lemma or_requeue_done_inv c k s s' :
  or_requeue c k s = (Ok (false, None), s') →
  ∃ s1, c s = (Ok tt, s1) ∧ k s1 = (Ok (false, None), s').
Proof.
  intros [([] & s1 & Hc & Hk)|(e & s1 & _ & [=])]%try_bind_inv. eauto.
Qed.

Lemma updateYARNAllocatedResource_frame node core mb s s' r :
  updateYARNAllocatedResource (Some node) core mb s = (r, s') → ∃ w', s' = set_world w' s.
Proof.
  assert (s = set_world (world s) s) as Hid by (by destruct s as [? ? []]).
  unfold updateYARNAllocatedResource. unfold_M.
  destruct (SetYARNAllocatedResource _ _ _); [|intros [= <- <-]; eauto..].
  destruct (wrap_err _ _); [|intros [= <- <-]; eauto..].
  destruct (wrap_err _ _); [|intros [= <- <-]; eauto..].
  destruct (wrap_err _ _); [|intros [= <- <-]; eauto..].
  intros (w' & _ & ->)%in_world_inv. eauto.
Qed.

Lemma client_of_get s n c :
  client_of s n = Some c → getYARNClient (Some n) s = (Ok (Some c), s).
Proof.
  unfold client_of, getYARNClient. unfold_M. by case_bool_decide; intros ->.
Qed.

(** An error-free run with a known client, in the worlds it goes through. *)
Lemma reconcile_yarn_node_client node n s s' c :
  client_of s n = Some c → reconcile_yarn_node node n s = (Ok (false, None), s') →
  ∃ cpu mem core mb resp w, getNodeBatchResource (Some node) = Ok (cpu, mem) ∧
    UpdateNodeResource c (update_request n (calculate cpu mem).1 (calculate cpu mem).2) (world s)
      = (Ok resp, w) ∧
    used_of (rs_syncer s) n = Some (core, mb) ∧
    updateYARNAllocatedResource (Some node) core mb (set_world w s) = (Ok tt, s').
Proof.
  intros Hc. unfold reconcile_yarn_node.
  intros [([cpu mem] & s1 & Hb & H)|(e & s1 & _ & [=])]%try_bind_inv.
  unfold lift_out in Hb. injection Hb as Hb <-. destruct (calculate cpu mem) as [vcores memoryMB] eqn:Hcalc.
  apply or_requeue_done_inv in H as (s2 & Hu & H).
  unfold updateYARNNodeResource in Hu. erewrite M_bind_ok in Hu by (by apply client_of_get).
  cbn beta iota in Hu. apply try_bind_inv in Hu as [(resp & s3 & Hu & [= <-])|(e & s3 & _ & H')].
  2: { by apply M_bind_inv in H' as (? & ? & _ & H'). }
  apply in_world_inv in Hu as (w & Hu & ->).
  unfold mbind, M_bind in H. rewrite getYARNNodeAllocatedResource_run in H.
  change (rs_syncer (set_world w s)) with (rs_syncer s) in H.
  destruct (used_of (rs_syncer s) n) as [[core mb]|]; [|done].
  apply or_requeue_done_inv in H as (s4 & Ha & [= <-]).
  exists cpu, mem, core, mb, resp, w. by rewrite Hcalc.
Qed.

Lemma reconcile_yarn_node_done node n s s' :
  stored (world s) (Node_Name node) = Some node →
  reconcile_yarn_node node n s = (Ok (false, None), s') →
  extends s s' ∧ ∃ cpu mem c w1 w2 resp core mb,
    getNodeBatchResource (Some node) = Ok (cpu, mem) ∧ client_of s' n = Some c ∧
    UpdateNodeResource c (update_request n (calculate cpu mem).1 (calculate cpu mem).2) w1
      = (Ok resp, w2) ∧
    used_of (rs_syncer s) n = Some (core, mb) ∧ recorded (world s') node core mb.
Proof.
  intros Hst. unfold reconcile_yarn_node.
  intros [([cpu mem] & s1 & Hb & H)|(e & s1 & _ & [=])]%try_bind_inv.
  unfold lift_out in Hb. injection Hb as Hb <-. destruct (calculate cpu mem) as [vcores memoryMB] eqn:Hcalc.
  apply or_requeue_done_inv in H as (s2 & Hu & H).
  apply updateYARNNodeResource_ok in Hu as (Hext & Hst2 & c & w1 & resp & Hof & Hrpc).
  unfold mbind, M_bind in H. rewrite getYARNNodeAllocatedResource_run in H.
  rewrite (proj1 Hext) in H.
  destruct (used_of (rs_syncer s) n) as [[core mb]|] eqn:Hused; [|done].
  apply or_requeue_done_inv in H as (s3 & Ha & [= <-]).
  pose proof (updateYARNAllocatedResource_frame _ _ _ _ _ _ Ha) as [w3 Hs3].
  apply updateYARNAllocatedResource_ok in Ha as [Hrec Hext3]; [|by rewrite Hst2].
  split; [by etrans|]. exists cpu, mem, c, w1, (world s2), resp, core, mb.
  rewrite Hcalc. split; [done|]. split; [|by repeat split].
  by rewrite Hs3, client_of_set_world.
Qed.

Lemma Reconcile_spec name s s' :
  Reconcile name s = (Ok (false, None), s') → ReconcileSpec name s s' ∧ extends s s'.
Proof.
  intros [(got & s1 & Hget & H)|(e & s1 & _ & [=])]%try_bind_inv.
  apply in_world_inv in Hget as (w1 & [Hw1 Hgot]%Get_stored & ->).
  specialize (Hgot _ eq_refl). subst got.
  destruct (stored (world s) name) as [node|] eqn:Hnode.
  2: { injection H as <-. split; [by apply NodeGone|apply extends_set_world]. }
  pose proof (stored_name _ _ _ Hnode) as Hname.
  destruct (getYARNNode_run node (set_world w1 s)) as (w2 & Hw2 & Hrun).
  rewrite world_set in *. cbn beta iota in H.
  assert (stored w2 = stored (world s)) as Hst by congruence.
  apply try_bind_inv in H as [(yn & s2 & Hyn & H)|(e & s2 & He & [= <-])]; swap 1 2.
  { assert (s2 = set_world w2 s ∧ ∀ pods yn, nm_pods node w1 = Ok pods → nm_of pods ≠ Ok yn)
      as [-> Hno].
    { destruct (nm_pods node w1) as [pods|e0|why].
      - rewrite Hrun in He. injection He as He <-. split; [done|]. intros ? ? [= <-]. congruence.
      - destruct Hrun as [e1 Hrun]. rewrite Hrun in He. by injection He as _ <-.
      - by rewrite Hrun in He. }
    split; [by eapply NotIdentified|apply extends_set_world]. }
  destruct (nm_pods node w1) as [pods|e0|why] eqn:Hpods;
    [|by destruct Hrun as [e1 Hrun]; rewrite Hrun in Hyn|by rewrite Hrun in Hyn].
  rewrite Hrun in Hyn. injection Hyn as Hyn <-.
  change (set_world w2 (set_world w1 s)) with (set_world w2 s) in H.
  destruct yn as [n|].
  - destruct (_ || _) eqn:Hus.
    + apply or_requeue_done_inv in H as (s3 & Ha & [= <-]).
      apply updateYARNAllocatedResource_ok in Ha as [Hrec Hext]; [|by rewrite world_set, Hst, Hname].
      split; [|etrans; [apply extends_set_world|exact Hext]].
      eapply NoNodeManager; [done..| |done]. intros ? [= <-]. unfold usable. by rewrite Hus.
    + apply reconcile_yarn_node_done in H as [Hext (cpu & mem & c & w3 & w4 & resp & core & mb & H)];
        [|by rewrite world_set, Hst, Hname].
      split; [|etrans; [apply extends_set_world|exact Hext]].
      destruct H as (? & ? & ? & ? & ?). eapply Synced; try done. unfold usable. by rewrite Hus.
  - apply or_requeue_done_inv in H as (s3 & Ha & [= <-]).
    apply updateYARNAllocatedResource_ok in Ha as [Hrec Hext]; [|by rewrite world_set, Hst, Hname].
    split; [|etrans; [apply extends_set_world|exact Hext]]. by eapply NoNodeManager.
Qed.

(** C1 Every run of the handler that ends without an error did one of four
    things: the node is gone and nothing changed; no node manager could be
    identified and nothing changed; there is no usable node manager and the
    node records an allocation of zero; or the resource manager of the node's
    cluster accepted the node's rounded-up batch resources and the node records
    what the cache says YARN uses there.  In every case only that annotation
    changes, the node cache is untouched and clients are only added. *)
Theorem reconcile_refines_spec name s s' :
  Reconcile name s = (Ok (false, None), s') → ReconcileSpec name s s' ∧ extends s s'.
Proof. apply Reconcile_spec. Qed.

(** ** Runs that reach the resource manager *)

Section Reached.
Context (name : string) (s : RState W C) (node : Node Q) (pod : Pod) (pods : list Pod).
Context (n : YarnNode) (w1 w2 : W) (c : C) (s2 : RState W C) (cpu mem : Q).
Hypothesis Hget : k8s_Get name (world s) = (Ok (Some node), w1).
Hypothesis Hpods : k8s_ListPods (YarnNMComponentLabel, YarnNMComponentValue) (Node_Name node) w1
                   = (Ok (pod :: pods), w2).
Hypothesis Hparse : parse_nm_pod pod = Ok n.
Hypothesis Husable : usable n = true.
Hypothesis Hbatch : getNodeBatchResource (Some node) = Ok (cpu, mem).
(** The client of the node's cluster, known before or made now. *)
Hypothesis Hclient : getYARNClient (Some n) (set_world w2 s) = (Ok (Some c), s2).

Abbreviation request := (update_request n (calculate cpu mem).1 (calculate cpu mem).2).

Lemma reached_yarn_node :
  Reconcile name s = reconcile_yarn_node node n (set_world w2 s).
Proof using Hget Hpods Hparse Husable.
  unfold Reconcile. erewrite try_bind_ok by (by apply in_world_ok). cbn beta iota.
  assert (getYARNNode (Some node) (set_world w1 s) = (Ok (Some n), set_world w2 s)) as Hy.
  { unfold getYARNNode, getYARNNodeManagerPod. unfold_M.
    rewrite (in_world_ok _ (set_world w1 s) _ _ Hpods). by rewrite Hparse. }
  rewrite (try_bind_ok _ _ _ _ _ Hy). unfold usable in Husable.
  by destruct (_ || _).
Qed.

Lemma reached_update :
  Reconcile name s =
  or_requeue (updateYARNNodeResource (Some n) (calculate cpu mem).1 (calculate cpu mem).2)
    ('(core, mb) ← getYARNNodeAllocatedResource (Some n);
     or_requeue (updateYARNAllocatedResource (Some node) core mb) (mret (false, None)))
    (set_world w2 s).
Proof using Hget Hpods Hparse Husable Hbatch.
  rewrite reached_yarn_node. unfold reconcile_yarn_node. rewrite Hbatch.
  erewrite try_bind_ok by reflexivity. cbn beta iota. by destruct (calculate cpu mem).
Qed.

Lemma reached_stored : stored (world s2) = stored (world s).
Proof using Hget Hpods Hclient K8L.
  rewrite <- (proj1 (Get_stored _ _ _ _ Hget)), <- (ListPods_stored _ _ _ _ _ Hpods).
  apply getYARNClient_ok in Hclient as (c' & _ & _ & _ & [[_ ->]|(_ & w & Hw & <-)]); [done|].
  rewrite world_set in Hw. case_bool_decide; [by eapply CreateDefault_stored|by eapply CreateCluster_stored].
Qed.

(** C27 When the resource manager rejects or does not answer the update, the handler
    reinitialises that client, returns the error with a retry, and neither the nodes
    stored by the API server nor the node cache have changed; the clients are as before,
    except that the client of a cluster met for the first time is remembered. *)
Theorem rejected_update_is_retried err w3 init w4 :
  UpdateNodeResource c request (world s2) = (Err err, w3) →
  try (Reinitialize c) w3 = (Ok init, w4) →
  Reconcile name s =
    (Ok (true, Some ("UpdateNodeResource resp <nil>, error " +:+ err
                       +:+ ", reinitialize error " +:+ fmt_err init)), set_world w4 s2) ∧
  stored w4 = stored (world s) ∧ rs_syncer s2 = rs_syncer s ∧ client_of s2 n = Some c ∧
  (∀ id, id ≠ YarnNode_ClusterID n →
     deref_map (rec_yarnClients (rs_rec s2)) (rs_heap s2) !! id =
     deref_map (rec_yarnClients (rs_rec s)) (rs_heap s) !! id) ∧
  (client_of s n = Some c ∧ s2 = set_world w2 s ∨ client_of s n = None).
Proof.
  intros Hu Hi. split; [|split].
  - rewrite reached_update. unfold or_requeue. erewrite try_bind_err; [reflexivity|].
    unfold updateYARNNodeResource. erewrite M_bind_ok by exact Hclient. cbn beta iota.
    erewrite try_bind_err by (by apply in_world_ok). unfold_M.
    rewrite in_world_run, world_set. by destruct (Reinitialize c w3) as [[]]; simplify_eq.
  - rewrite <- reached_stored, <- (Update_stored _ _ _ _ _ Hu). unfold try in Hi.
    destruct (Reinitialize c w3) as [r w] eqn:Hr. apply Reinitialize_stored in Hr.
    by destruct r; simplify_eq.
  - pose proof (getYARNClient_others _ _ _ _ Hclient) as Ho.
    apply getYARNClient_ok in Hclient as (c' & [= <-] & Hof & [Hsyn _] & Hcase).
    split; [done|]. split; [done|]. split; [done|].
    destruct Hcase as [[? ?]|[? _]]; [by left|by right].
Qed.

(** The API server's client and the JSON library return. *)
Hypothesis marshal_returns : ∀ (x : Node Q) why, node_Marshal x ≠ Panic why.
Hypothesis merge_returns : ∀ a b why, CreateTwoWayMergePatch a b ≠ Panic why.
Hypothesis patch_returns : ∀ x b w why, (k8s_Patch x b w).1 ≠ Panic why.

Lemma wrap_returns {A} msg (x : outcome A) :
  (∀ why, x ≠ Panic why) → ∀ why, wrap_err msg x ≠ Panic why.
Proof using. destruct x as [a|e|w]; [done..|]. intros H. by destruct (H w). Qed.

Lemma record_returns core mb s1 why s1' :
  or_requeue (updateYARNAllocatedResource (Some node) core mb) (mret (false, None)) s1 ≠ (Panic why, s1').
Proof using QL KL JL marshal_returns merge_returns patch_returns.
  unfold or_requeue, updateYARNAllocatedResource. set (m := default ∅ (Node_Annotations node)).
  replace (match Node_Annotations node with None => Some ∅ | a => a end) with (Some m)
    by (unfold m; by destruct (Node_Annotations node)).
  destruct (set_yarn_readback m core mb) as (v & r & Hs & _). rewrite Hs.
  unfold mbind, M_bind, try, lift_out.
  pose proof (wrap_returns "failed to marshal the existing node: " (node_Marshal node) (marshal_returns _)) as H1.
  destruct (wrap_err _ (node_Marshal node)) as [old|e|w]; [|done|by destruct (H1 w)].
  pose proof (wrap_returns "failed to marshal the new node: " _
    (marshal_returns (with_annotations node (Some (<[NodeThirdPartyAllocationsAnnotationKey := v]> m))))) as H2.
  destruct (wrap_err _ (node_Marshal (with_annotations _ _))) as [new|e|w]; [|done|by destruct (H2 w)].
  pose proof (wrap_returns "failed to create a two-way merge patch: " _ (merge_returns old new)) as H3.
  destruct (wrap_err _ (CreateTwoWayMergePatch _ _)) as [p|e|w]; [|done|by destruct (H3 w)].
  rewrite in_world_run. pose proof (patch_returns node p (world s1)) as H4.
  destruct (k8s_Patch _ _ _) as [[u|e|w] w']; [done|done|by destruct (H4 w)].
Qed.

(** C28 When the resource manager accepts the update, the client known before or made
    now, and the calls to the API server and the JSON library return, the handler panics
    exactly when the cache holds a report of the node without a [Used] part; otherwise it
    goes on to record the values of [used_of], without a panic. *)
Theorem accepted_update_panics_iff resp w3 :
  UpdateNodeResource c request (world s2) = (Ok resp, w3) →
  ((∃ why s', Reconcile name s = (Panic why, s')) ↔
   ∃ rep, GetNodeResource (rs_syncer s) (Some n) = Some rep ∧ NodeReportProto_Used rep = None) ∧
  (∀ core mb, used_of (rs_syncer s) n = Some (core, mb) →
   Reconcile name s =
   or_requeue (updateYARNAllocatedResource (Some node) core mb) (mret (false, None))
     (set_world w3 s2)).
Proof.
  intros Hu.
  assert (Reconcile name s =
    ('(core, mb) ← getYARNNodeAllocatedResource (Some n);
     or_requeue (updateYARNAllocatedResource (Some node) core mb) (mret (false, None)))
    (set_world w3 s2)) as Hrun.
  { rewrite reached_update. unfold or_requeue at 1. erewrite try_bind_ok; [reflexivity|].
    unfold updateYARNNodeResource. erewrite M_bind_ok by exact Hclient.
    cbn beta iota. by erewrite try_bind_ok by (by apply in_world_ok). }
  unfold mbind at 1, M_bind at 1 in Hrun. rewrite getYARNNodeAllocatedResource_run in Hrun.
  assert (rs_syncer (set_world w3 s2) = rs_syncer s) as Hsyn.
  { apply getYARNClient_ok in Hclient as (_ & _ & _ & [Hsyn _] & _). exact Hsyn. }
  rewrite Hsyn in Hrun.
  assert ((∃ rep, GetNodeResource (rs_syncer s) (Some n) = Some rep ∧ NodeReportProto_Used rep = None) ↔
          used_of (rs_syncer s) n = None) as Hiff.
  { unfold used_of. destruct (GetNodeResource _ _) as [rep|]; [|split; [by intros (? & [=] & _)|done]].
    split; [intros (? & [= <-] & ->); done|]. destruct (NodeReportProto_Used rep) eqn:Hused; [done|].
    intros _. by exists rep. }
  rewrite Hiff. destruct (used_of (rs_syncer s) n) as [[core mb]|]; rewrite Hrun.
  - split; [|by intros ? ? [= <- <-]]. split; [|done]. intros (why & s' & Hp).
    by apply record_returns in Hp.
  - split; [|done]. split; [done|]. by eexists _, _.
Qed.
End Reached.
End Reconcile.

(** ** Identifying the node manager *)

(** The node-id annotation of the node manager pod is read back as written:
    [host:port] with no colon in the host gives that host, the port reduced to
    an [int32] (so exactly the port when it fits), and the pod's cluster or the
    default one. *)
Theorem node_id_annotation_roundtrip pod host port :
  contains_byte ":" host = false → in_int64 port →
  nil_lookup YarnNodeIdAnnotation (Pod_Annotations pod) = Some (host +:+ ":" +:+ Itoa port) →
  parse_nm_pod pod = Ok (mkYarnNode host (int32 port)
    (default DefaultClusterID (nil_lookup PodYarnClusterIDAnnotationKey (Pod_Annotations pod)))) ∧
  (int32 port = port ↔ in_int32 port).
Proof.
  intros Hh Hp Ha. split.
  - unfold parse_nm_pod. rewrite Ha. change (":" +:+ Itoa port) with (String ":" (Itoa port)).
    rewrite Split_app by done. rewrite Split_no_sep by by apply Itoa_no_byte.
    by rewrite Atoi_Itoa.
  - split; [intros <-; apply swrap32_range|apply swrap32_id].
Qed.

(** ** The operator as a whole

    [op_step]: a reconciliation, or a polling round of the node cache, in any
    order.  The two share the map of clients. *)
Section Operator.
Context {W C Q : Type} {QA : QuantityApi Q} {UA : QuotaApi Q} {KA : KoordinatorApi}.
Context {JO : Json (OriginAllocatable Q)} {JT : Json (ThirdPartyAllocations Q)}.
Context {YC : YarnClient W C} {YF : YarnClientFactory W C} {KC : K8sClient W Q}.
Context {MR : MapRange} {OM : OperatorManager W}.

Inductive op_step : RState W C → RState W C → Prop :=
| StepReconcile name s r s' : Reconcile name s = (r, s') → op_step s s'
| StepSync s r syn h :
    syncYARNNodeAllocatedResource (rs_syncer s, rs_heap s) = (r, (syn, h)) →
    op_step s (mkRState (rs_rec s) syn h).

(** A preorder that the calls to the outside and the choice of a client respect is
    respected by a whole reconciliation. *)
Section Preserved.
Context (R : relation (RState W C)) `{!PreOrder R}.
Hypothesis R_world : ∀ w s, R s (set_world w s).
Hypothesis R_client : ∀ n, preserves R (getYARNClient n).

Lemma preserves_in_world {A} (c : M W A) : preserves R (in_world c).
Proof using R_world. intros s r s' (w & _ & ->)%in_world_inv. apply R_world. Qed.

#[local] Hint Resolve preserves_in_world R_client : copilot.

Lemma preserves_getYARNNodeAllocatedResource n : preserves R (getYARNNodeAllocatedResource n).
Proof using PreOrder0.
  destruct n as [n|]; (apply preserves_state; [apply _|]); [|done].
  intros s. unfold getYARNNodeAllocatedResource. unfold_M. by repeat case_match.
Qed.

Lemma preserves_updateYARNNodeResource n v m : preserves R (updateYARNNodeResource n v m).
Proof using PreOrder0 R_world R_client. unfold updateYARNNodeResource. solve_preserves. Qed.

Lemma preserves_updateYARNAllocatedResource (node : option (Node Q)) v m :
  preserves R (updateYARNAllocatedResource node v m).
Proof using PreOrder0 R_world. unfold updateYARNAllocatedResource. solve_preserves. Qed.

Lemma preserves_getYARNNode (node : option (Node Q)) : preserves R (getYARNNode node).
Proof using PreOrder0 R_world. unfold getYARNNode, getYARNNodeManagerPod. solve_preserves. Qed.

#[local] Hint Resolve preserves_getYARNNodeAllocatedResource preserves_updateYARNNodeResource
  preserves_updateYARNAllocatedResource preserves_getYARNNode : copilot.

Lemma preserves_Reconcile name : preserves R (Reconcile name).
Proof using PreOrder0 R_world R_client. unfold Reconcile, reconcile_yarn_node, or_requeue. solve_preserves. Qed.
End Preserved.

(** The two ways a client is obtained without success leave only the world changed. *)
Lemma getYARNClient_fails n s r s' :
  getYARNClient (Some n) s = (r, s') → is_ok r = false → ∃ w, s' = set_world w s.
Proof.
  unfold getYARNClient. unfold_M. intros H Hr.
  case_bool_decide; [destruct (rec_yarnClient _)|destruct (deref_map _ _ !! _)];
    rewrite ?in_world_run in H; repeat case_match; simplify_eq; eauto.
Qed.

Lemma extends_getYARNClient n : preserves extends (getYARNClient n).
Proof.
  destruct n as [n|]; [|by apply preserves_state; [apply _|]].
  intros s r s' H. destruct (is_ok r) eqn:Hr.
  - destruct r as [oc| |]; [|done..]. by apply getYARNClient_ok in H as (c & _ & _ & Hext & _).
  - apply getYARNClient_fails in H as [w ->]; [|done]. apply extends_set_world.
Qed.

Lemma extends_Reconcile name : preserves extends (Reconcile name).
Proof. apply preserves_Reconcile; [apply _|auto using extends_set_world|apply extends_getYARNClient]. Qed.

Definition shared (s : RState W C) : Prop :=
  ∃ p, yarnClients (rs_syncer s) = Some p ∧ rec_yarnClients (rs_rec s) = Some p.

Lemma op_step_extends s s' : op_step s s' →
  yarnClients (rs_syncer s') = yarnClients (rs_syncer s) ∧
  (∀ id c, deref_map (rec_yarnClients (rs_rec s)) (rs_heap s) !! id = Some c →
     deref_map (rec_yarnClients (rs_rec s')) (rs_heap s') !! id = Some c) ∧
  (∀ p, rec_yarnClients (rs_rec s) = Some p → rec_yarnClients (rs_rec s') = Some p).
Proof.
  intros [name s0 r s1 H|s0 r syn h H].
  - apply extends_Reconcile in H as (Hsyn & H1 & H2). by rewrite Hsyn.
  - apply sync_frame in H as (Hc & Hm & _). cbn. split; [done|]. unfold deref_map. by rewrite Hm.
Qed.

Lemma op_step_shared s s' : op_step s s' → shared s → shared s'.
Proof.
  intros (H1 & _ & H3)%op_step_extends (p & Hp & Hr). exists p. split; [congruence|auto].
Qed.

Lemma op_steps s s' : rtc op_step s s' → shared s →
  shared s' ∧ ∀ id c, deref_map (rec_yarnClients (rs_rec s)) (rs_heap s) !! id = Some c →
     deref_map (rec_yarnClients (rs_rec s')) (rs_heap s') !! id = Some c.
Proof.
  induction 1 as [s|s1 s2 s3 Hstep _ IH]; intros Hs; [done|].
  destruct (IH (op_step_shared _ _ Hstep Hs)) as [Hs3 Hm]. split; [done|].
  intros id c Hc. apply Hm. by eapply op_step_extends.
Qed.

Lemma Add_shared w s w' : Add w = (Ok s, w') → shared s.
Proof. unfold Add. intros H. inv_bind. by exists 1%positive. Qed.

(** C9 Once the reconciler has made a client for a cluster, that client stays in the
    list that every later polling round of the node cache goes through: in every state
    reachable from [Add], through any interleaving of reconciliations and polling rounds,
    it is in the map the cache polls and is never dropped or replaced.  (A round stops at
    the first cluster that fails, so a single round may end before it asks this one.) *)
Theorem known_clusters_stay_polled w w0 s0 s s' n c :
  Add w = (Ok s0, w0) → rtc op_step s0 s → rtc op_step s s' →
  YarnNode_ClusterID n ≠ "" → client_of s n = Some c →
  (YarnNode_ClusterID n, c) ∈ map_range (deref_map (yarnClients (rs_syncer s')) (rs_heap s')).
Proof.
  intros Hadd H1 H2 Hid Hc.
  destruct (op_steps _ _ H1 (Add_shared _ _ _ Hadd)) as [Hs _].
  destruct (op_steps _ _ H2 Hs) as [(p & Hp & Hr) Hm].
  apply elem_of_map_range. rewrite Hp, <- Hr. apply Hm.
  unfold client_of in Hc. by rewrite bool_decide_eq_false_2 in Hc.
Qed.
End Operator.

(** ** Concrete runs

    An API server that stores nodes with valid text, merge patches that carry the
    annotations that changed, and YARN clients that log the updates they accept. *)
Module MockKube.
Import Reference.

Record KubeWorld := mkKubeWorld {
  kw_nodes : gmap string (Node Z);
  kw_pods : list (string * Pod);
  kw_sent : list (string * UpdateNodeResourceRequestProto);
  kw_reinits : nat
}.

#[local] Instance node_text_ok_dec (n : Node Z) : Decision (node_text_ok n).
Proof. unfold node_text_ok. apply _. Defined.

Definition valid_node (name : string) (n : Node Z) : Prop := Node_Name n = name ∧ node_text_ok n.
#[local] Instance valid_node_dec name n : Decision (valid_node name n).
Proof. unfold valid_node. apply _. Defined.

Definition kube_stored (w : KubeWorld) (name : string) : option (Node Z) :=
  n ← kw_nodes w !! name; if decide (valid_node name n) then Some n else None.

Definition annos (n : Node Z) : gmap string string := default ∅ (Node_Annotations n).

Definition diff (old new : gmap string string) : gmap string (option string) :=
  merge (λ x y, if decide (x = y) then None else Some y) old new.
Definition apply_diff (d : gmap string (option string)) (cur : gmap string string)
  : gmap string string := merge (λ x y, match x with Some v => v | None => y end) d cur.

#[export] Instance kube_client : K8sClient KubeWorld Z := {|
  k8s_Get name := gets (λ w, kube_stored w name);
  k8s_ListPods _ name := gets (λ w, (filter (λ p, p.1 = name) (kw_pods w)).*2);
  k8s_Patch n patch := λ w,
    match doc_decode patch, kube_stored w (Node_Name n) with
    | Ok d, Some cur =>
        let new := with_annotations cur (Some (apply_diff d (annos cur))) in
        if decide (node_text_ok new)
        then (Ok tt, mkKubeWorld (<[Node_Name n := new]> (kw_nodes w)) (kw_pods w) (kw_sent w) (kw_reinits w))
        else (Err "invalid", w)
    | _, _ => (Err "not found", w)
    end;
  node_Marshal n := Ok (pos_to_doc (encode (annos n)));
  CreateTwoWayMergePatch a b :=
    x ← doc_decode a; y ← doc_decode b; Ok (pos_to_doc (encode (diff x y)))
|}.

(** A client is named after its cluster; the one called [down] never answers. *)
#[export] Instance kube_yarn_client : YarnClient KubeWorld string := {|
  Initialize _ := mret tt;
  Reinitialize _ := modify (λ w, mkKubeWorld (kw_nodes w) (kw_pods w) (kw_sent w) (S (kw_reinits w)));
  Close _ := mret tt;
  UpdateNodeResource c req :=
    if decide (c = "down") then throw "connection refused"
    else _ ← modify (λ w, mkKubeWorld (kw_nodes w) (kw_pods w) ((c, req) :: kw_sent w) (kw_reinits w));
         mret mkUpdateNodeResourceResponseProto;
  GetClusterNodes _ _ := mret (Some MockYarn.reply)
|}.

#[export] Instance kube_yarn_factory : YarnClientFactory KubeWorld string := {|
  CreateDefaultYarnClient := mret "default";
  CreateYarnClientByClusterID id := mret id;
  CreateAllYarnClients := mret {[ "cluster-a" := "cluster-a" ]}
|}.

#[export] Instance kube_manager : OperatorManager KubeWorld :=
  {| registry_Register := mret tt; mgr_Add := mret tt; SetupWithManager := mret tt |}.

Lemma anno_annos (n : Node Z) k : anno n k = annos n !! k.
Proof. unfold anno, annos. by destruct (Node_Annotations n). Qed.

Lemma kube_stored_Some w name n :
  kube_stored w name = Some n → kw_nodes w !! name = Some n ∧ valid_node name n.
Proof.
  unfold kube_stored. destruct (kw_nodes w !! name); cbn; [|done].
  case_decide; intros; by simplify_eq.
Qed.

Lemma kube_patch old a oldData newData patch w w' cur :
  node_Marshal old = Ok oldData → node_Marshal (with_annotations old a) = Ok newData →
  CreateTwoWayMergePatch oldData newData = Ok patch →
  kube_stored w (Node_Name old) = Some cur →
  k8s_Patch old patch w = (Ok tt, w') →
  ∃ cur', kube_stored w' (Node_Name old) = Some cur' ∧
    ∀ k, anno cur' k = if decide (anno old k = nil_lookup k a) then anno cur k else nil_lookup k a.
Proof.
  intros [= <-] [= <-]. cbn [CreateTwoWayMergePatch kube_client].
  rewrite !doc_decode_encode. intros [= <-] Hcur. cbn [k8s_Patch kube_client].
  rewrite doc_decode_encode, Hcur.
  set (new := with_annotations cur _). case_decide as Hok; [|done]. intros [= <-].
  destruct (kube_stored_Some _ _ _ Hcur) as [_ [Hname _]].
  exists new. split.
  - unfold kube_stored. cbn. rewrite lookup_insert_eq. cbn. by rewrite decide_True.
  - intros k. unfold new. rewrite anno_annos. unfold annos at 1. cbn [Node_Annotations with_annotations].
    cbn [default from_option]. unfold id, apply_diff, diff.
    change (nil_lookup k a) with (anno (with_annotations old a) k).
    rewrite !lookup_merge, !anno_annos. unfold diag_None.
    by destruct (annos old !! k), (annos (with_annotations old a) !! k), (annos cur !! k);
      repeat (case_decide; cbn).
Qed.

#[export] Instance kube_laws : K8sLaws KubeWorld string Z.
Proof.
  refine {| stored := kube_stored |}.
  - by intros w name n (_ & ? & _)%kube_stored_Some.
  - by intros w name n (_ & _ & ?)%kube_stored_Some.
  - intros name w r w' [= <- <-]. split; [done|]. by intros x [= <-].
  - by intros l name w r w' [= _ <-].
  - intros c req w r w'. cbn. case_decide; by intros [= _ <-].
  - by intros c w r w' [= _ <-].
  - by intros w r w' [= _ <-].
  - by intros id w r w' [= _ <-].
  - intros. by eapply kube_patch.
Defined.

Lemma kube_marshal_returns (x : Node Z) why : node_Marshal x ≠ Panic why.
Proof. done. Qed.
Lemma kube_merge_returns a b why : CreateTwoWayMergePatch a b ≠ Panic why.
Proof.
  cbn. unfold doc_decode. repeat case_match; done.
Qed.
Lemma kube_patch_returns (x : Node Z) b w why : (k8s_Patch x b w).1 ≠ Panic why.
Proof. cbn. repeat case_match; done. Qed.
End MockKube.

Section Witnesses.
Import Reference MockKube.

Definition nm_pod : Pod := mkPod "yarn" "nm-0"
  (Some {[ YarnNodeIdAnnotation := "nm-1:8041"; PodYarnClusterIDAnnotationKey := "cluster-a" ]}).

Definition node1 : Node Z := mkNode "node-1" None
  (Some {[ BatchCPU := (12500 * 10 ^ 9)%Z; BatchMemory := (2 ^ 34 * 10 ^ 9)%Z ]}).

Definition world1 : KubeWorld := mkKubeWorld {[ "node-1" := node1 ]} [("node-1", nm_pod)] [] 0.

(** A state with one polled cluster whose client is [c]. *)
Definition op_state (c : string) (used : option ResourceProto) : RState KubeWorld string :=
  mkRState (mkReconciler None (Some 1%positive))
    (mkNodesSyncer (Some 1%positive) true
       {[ "cluster-a" := {[ getKey "nm-1" 8041 := MockYarn.report "nm-1" 8041 used ]} ]})
    (mkHeap {[ 1%positive := {[ "cluster-a" := c ]} ]} world1).
Definition s_ok := op_state "cluster-a" (Some (MockYarn.some_resource 4 8192)).
Definition s_done := (Reconcile "node-1" s_ok).2.

Lemma reconcile_requeues_iff_error_witness :
  (false = true ↔ (None : option error) ≠ None).
Proof.
  apply (reconcile_requeues_iff_error "node-1" s_ok false None s_done). vm_compute. reflexivity.
Defined.

Lemma reconcile_refines_spec_witness : ReconcileSpec "node-1" s_ok s_done ∧ extends s_ok s_done.
Proof. apply (reconcile_refines_spec "node-1" s_ok s_done). vm_compute. reflexivity. Defined.

Definition nm1 : YarnNode := mkYarnNode "nm-1" 8041 "cluster-a".
Definition s_down := op_state "down" (Some (MockYarn.some_resource 4 8192)).
Definition cpu1 : Z := 12500 * 10 ^ 9.
Definition mem1 : Z := 2 ^ 34 * 10 ^ 9.

(** The first time the cluster called [down] is met. *)
Definition pod_down : Pod := mkPod "yarn" "nm-0"
  (Some {[ YarnNodeIdAnnotation := "nm-1:8041"; PodYarnClusterIDAnnotationKey := "down" ]}).
Definition world_down (k : nat) : KubeWorld := mkKubeWorld {[ "node-1" := node1 ]} [("node-1", pod_down)] [] k.
Definition s_first (m : gmap string string) : RState KubeWorld string :=
  mkRState (mkReconciler None (Some 1%positive)) (NewNodesSyncer (Some 1%positive))
    (mkHeap {[ 1%positive := m ]} (world_down 0)).
Definition nm_down : YarnNode := mkYarnNode "nm-1" 8041 "down".

(** A known cluster, and one met for the first time. *)
Lemma rejected_update_is_retried_witness :
  Reconcile "node-1" s_down =
    (Ok (true, Some "UpdateNodeResource resp <nil>, error connection refused, reinitialize error <nil>"),
     set_world (mkKubeWorld {[ "node-1" := node1 ]} [("node-1", nm_pod)] [] 1) s_down) ∧
  Reconcile "node-1" (s_first ∅) =
    (Ok (true, Some "UpdateNodeResource resp <nil>, error connection refused, reinitialize error <nil>"),
     set_world (world_down 1) (s_first {[ "down" := "down" ]})).
Proof.
  split.
  - refine (proj1 (rejected_update_is_retried "node-1" s_down node1 nm_pod [] nm1 world1 world1 "down"
              s_down cpu1 mem1 _ _ _ _ _ _ "connection refused" world1 (inl tt) _ _ _));
      vm_compute; reflexivity.
  - refine (proj1 (rejected_update_is_retried "node-1" (s_first ∅) node1 pod_down [] nm_down (world_down 0)
              (world_down 0) "down" (s_first {[ "down" := "down" ]}) cpu1 mem1 _ _ _ _ _ _
              "connection refused" (world_down 0) (inl tt) _ _ _)); vm_compute; reflexivity.
Defined.

Definition s_nil := op_state "cluster-a" None.

Definition world_sent : KubeWorld :=
  (UpdateNodeResource "cluster-a" (update_request nm1 (calculate cpu1 mem1).1 (calculate cpu1 mem1).2) world1).2.

(** A cached report without figures, and one with. *)
Lemma accepted_update_panics_iff_witness :
  (∃ why s', Reconcile "node-1" s_nil = (Panic why, s')) ∧
  ¬ (∃ why s', Reconcile "node-1" s_ok = (Panic why, s')).
Proof.
  split.
  - refine (proj2 (proj1 (accepted_update_panics_iff "node-1" s_nil node1 nm_pod [] nm1 world1 world1
      "cluster-a" s_nil cpu1 mem1 _ _ _ _ _ _ kube_marshal_returns kube_merge_returns kube_patch_returns
      mkUpdateNodeResourceResponseProto world_sent _)) _).
    1-7: vm_compute; reflexivity.
    eexists. split; vm_compute; reflexivity.
  - refine (λ H, match proj1 (proj1 (accepted_update_panics_iff "node-1" s_ok node1 nm_pod [] nm1 world1 world1
      "cluster-a" s_ok cpu1 mem1 _ _ _ _ _ _ kube_marshal_returns kube_merge_returns kube_patch_returns
      mkUpdateNodeResourceResponseProto world_sent _)) H with ex_intro _ rep (conj Hrep Hu) => _ end).
    1-7: vm_compute; reflexivity.
    vm_compute in Hrep. injection Hrep as <-. vm_compute in Hu. discriminate Hu.
Defined.

Lemma node_id_annotation_roundtrip_witness :
  parse_nm_pod nm_pod = Ok (mkYarnNode "nm-1" (int32 8041)
    (default DefaultClusterID (nil_lookup PodYarnClusterIDAnnotationKey (Pod_Annotations nm_pod)))) ∧
  (int32 8041 = 8041%Z ↔ in_int32 8041).
Proof.
  apply (node_id_annotation_roundtrip nm_pod "nm-1" 8041); [reflexivity| |reflexivity].
  unfold in_int64. lia.
Defined.

Definition s_start : RState KubeWorld string :=
  mkRState (mkReconciler None (Some 1%positive)) (NewNodesSyncer (Some 1%positive))
    (mkHeap {[ 1%positive := {[ "cluster-a" := "cluster-a" ]} ]} world1).

Lemma known_clusters_stay_polled_witness :
  (YarnNode_ClusterID nm1, "cluster-a")
    ∈ map_range (deref_map (yarnClients (rs_syncer (Reconcile "node-1" s_start).2))
                   (rs_heap (Reconcile "node-1" s_start).2)).
Proof.
  apply (known_clusters_stay_polled world1 world1 s_start s_start (Reconcile "node-1" s_start).2
           nm1 "cluster-a").
  - reflexivity.
  - apply rtc_refl.
  - apply rtc_once. eapply (StepReconcile "node-1"). apply surjective_pairing.
  - discriminate.
  - vm_compute. reflexivity.
Defined.
End Witnesses.
