(* ===== verification/Interleaving.v ===== *)
(** * The operator's goroutines, interleaved inside a polling round

    [op_step] of [ReconcilerProofs] takes a polling round as one step.  In the
    program a round ranges over the map of clients and talks to one resource manager
    after the other, while reconciliations run in their own goroutine and may add
    an entry to the same map.  No lock protects the map: Go leaves a write during an
    iteration undefined, and its run time usually ends the process ("concurrent map
    iteration and map write").

    Here a round is one step per resource manager, a reconciliation is a step that
    may fall between any two of them, and a write to the map during an iteration is
    recorded as a conflict. *)

From S2P Require Import Prelude GoStrings Proto NodeResource ReferenceApi NodeResourceProofs.
From S2P Require Import YarnApi NodesSyncer NodesSyncerProofs Reconciler ReconcilerProofs.

Local Open Scope string_scope.

Section Interleaving.
Context {W C Q : Type} {QA : QuantityApi Q} {UA : QuotaApi Q} {KA : KoordinatorApi}.
Context {JO : Json (OriginAllocatable Q)} {JT : Json (ThirdPartyAllocations Q)}.
Context {YC : YarnClient W C} {YF : YarnClientFactory W C} {KC : K8sClient W Q}.
Context {MR : MapRange} {OM : OperatorManager W}.

(** A round under way: the clients still to be visited and [res]. *)
Record Round := mkRound {
  round_todo : list (string * C);
  round_res : gmap string (gmap string NodeReportProto)
}.

Record OpState := mkOpState {
  os_state : RState W C;
  os_round : option Round;
  os_conflict : bool
}.

(** The map the node cache ranges over. *)
Definition polled (s : RState W C) : gmap string C :=
  deref_map (yarnClients (rs_syncer s)) (rs_heap s).

Definition with_cache (s : RState W C) (res : gmap string (gmap string NodeReportProto)) : RState W C :=
  mkRState (rs_rec s) (mkNodesSyncer (yarnClients (rs_syncer s)) true res) (rs_heap s).

(** The polling goroutine: entering the loop of [syncYARNNodeAllocatedResource], one
    iteration, an iteration that fails, and the assignment of the cache, after which
    [Start] stores [started]. *)
Inductive poll_step : OpState → OpState → Prop :=
| PollBegin s cf :
    poll_step (mkOpState s None cf) (mkOpState s (Some (mkRound (map_range (polled s)) ∅)) cf)
| PollVisit s p todo res res' w cf :
    sync_cluster res p (world s) = (Ok res', w) →
    poll_step (mkOpState s (Some (mkRound (p :: todo) res)) cf)
              (mkOpState (set_world w s) (Some (mkRound todo res')) cf)
| PollFail s p todo res e w cf :
    sync_cluster res p (world s) = (Err e, w) →
    poll_step (mkOpState s (Some (mkRound (p :: todo) res)) cf) (mkOpState (set_world w s) None cf)
| PollEnd s res cf :
    poll_step (mkOpState s (Some (mkRound [] res)) cf) (mkOpState (with_cache s res) None cf).

(** The worker goroutine.  A reconciliation that changes the maps while a round is
    under way conflicts with it. *)
Inductive work_step : OpState → OpState → Prop :=
| WorkReads name s r s' round cf :
    Reconcile name s = (r, s') → heap_maps (rs_heap s') = heap_maps (rs_heap s) →
    work_step (mkOpState s round cf) (mkOpState s' round cf)
| WorkWrites name s r s' round cf :
    Reconcile name s = (r, s') → heap_maps (rs_heap s') ≠ heap_maps (rs_heap s) →
    work_step (mkOpState s round cf) (mkOpState s' round (cf || bool_decide (is_Some round))).

Definition op_fine (s s' : OpState) : Prop := poll_step s s' ∨ work_step s s'.

Definition op_init (s : RState W C) : OpState := mkOpState s None false.

(** ** When a reconciliation writes the map *)

(** Nothing of the operator's own state changes but the world. *)
Definition quiet (s s' : RState W C) : Prop :=
  rs_syncer s' = rs_syncer s ∧ rec_yarnClients (rs_rec s') = rec_yarnClients (rs_rec s) ∧
  heap_maps (rs_heap s') = heap_maps (rs_heap s).

#[global] Instance quiet_preorder : PreOrder quiet.
Proof.
  split; [done|]. intros s1 s2 s3 (H1 & H2 & H3) (H4 & H5 & H6). unfold quiet. by rewrite H4, H5, H6.
Qed.

Lemma quiet_world w s : quiet s (set_world w s).
Proof. done. Qed.

Lemma quiet_in_world {A} (c : M W A) : preserves quiet (in_world c).
Proof. apply preserves_in_world, quiet_world. Qed.

#[local] Hint Resolve quiet_in_world : copilot.

Lemma quiet_updateYARNAllocatedResource (node : option (Node Q)) v m :
  preserves quiet (updateYARNAllocatedResource node v m).
Proof. apply preserves_updateYARNAllocatedResource; [apply _|apply quiet_world]. Qed.

Lemma quiet_getYARNNodeAllocatedResource n : preserves quiet (getYARNNodeAllocatedResource n).
Proof. apply preserves_getYARNNodeAllocatedResource, _. Qed.

Lemma quiet_getYARNNode (node : option (Node Q)) : preserves quiet (getYARNNode node).
Proof. apply preserves_getYARNNode; [apply _|apply quiet_world]. Qed.

#[local] Hint Resolve quiet_updateYARNAllocatedResource quiet_getYARNNodeAllocatedResource
  quiet_getYARNNode : copilot.

Lemma quiet_or_requeue c k : preserves quiet c → preserves quiet k → preserves quiet (or_requeue c k).
Proof. intros Hc Hk. unfold or_requeue. solve_preserves. Qed.
#[local] Hint Resolve quiet_or_requeue : copilot.

Lemma quiet_deref s s' : quiet s s' →
  deref_map (rec_yarnClients (rs_rec s')) (rs_heap s') = deref_map (rec_yarnClients (rs_rec s)) (rs_heap s).
Proof. intros (_ & H1 & H2). unfold deref_map. by rewrite H1, H2. Qed.

(** [id] is new in the reconciler's map: it was absent and a client was made for it. *)
Definition added (id : string) (s s' : RState W C) : Prop :=
  id ≠ "" ∧ deref_map (rec_yarnClients (rs_rec s)) (rs_heap s) !! id = None ∧
  ∃ c w w', deref_map (rec_yarnClients (rs_rec s')) (rs_heap s') !! id = Some c ∧
    CreateYarnClientByClusterID id w = (Ok c, w').

Lemma added_quiet id s1 s2 s3 s4 : quiet s1 s2 → added id s2 s3 → quiet s3 s4 → added id s1 s4.
Proof.
  intros H1%quiet_deref (Hid & H2 & c & w & w' & H3 & Hc) H4%quiet_deref.
  split; [done|]. rewrite H1 in H2. split; [done|]. exists c, w, w'. by rewrite H4.
Qed.

Lemma getYARNClient_writes n s r s' :
  getYARNClient (Some n) s = (r, s') → quiet s s' ∨ added (YarnNode_ClusterID n) s s'.
Proof.
  unfold getYARNClient. unfold_M. case_bool_decide as Hid.
  - destruct (rec_yarnClient (rs_rec s)); [by intros [= <- <-]; left|].
    rewrite in_world_run. destruct (CreateDefaultYarnClient _) as [[c|e|w] w']; cbn;
      intros [= <- <-]; by left.
  - destruct (deref_map _ _ !! _) as [c|] eqn:Hno; [by intros [= <- <-]; left|].
    rewrite in_world_run.
    destruct (CreateYarnClientByClusterID _ _) as [[c|e|w] w'] eqn:Hc; cbn [fst snd];
      [|intros [= <- <-]; by left..].
    destruct (remember_client_spec (YarnNode_ClusterID n) c (set_world w' s))
      as (s2 & -> & _ & _ & _ & _ & Hm).
    intros [= <- <-]. right. split; [done|]. split; [done|]. exists c, (world s), w'.
    by rewrite Hm, lookup_insert_eq.
Qed.

Lemma updateYARNNodeResource_writes n v m s r s' :
  updateYARNNodeResource (Some n) v m s = (r, s') → quiet s s' ∨ added (YarnNode_ClusterID n) s s'.
Proof.
  unfold updateYARNNodeResource. unfold mbind at 1, M_bind at 1.
  destruct (getYARNClient (Some n) s) as [r1 s1] eqn:Hg.
  apply getYARNClient_writes in Hg.
  assert (∀ c, preserves quiet (resp ← try (in_world (UpdateNodeResource c (update_request n v m)));
            match resp with
            | inl _ => mret tt
            | inr err => initErr ← try (in_world (Reinitialize c));
                throw ("UpdateNodeResource resp <nil>, error " +:+ err
                         +:+ ", reinitialize error " +:+ fmt_err initErr)
            end)) as Hrest.
  { intros c. solve_preserves. }
  destruct r1 as [[c|]|e|w]; intros H.
  - apply Hrest in H. destruct Hg as [Hg|Hg]; [left; by etrans|right]. by eapply added_quiet.
  - by injection H as <- <-.
  - by injection H as <- <-.
  - by injection H as <- <-.
Qed.

(** The clusters the pods of a node can name. *)
Definition pod_cluster (id : string) : Prop :=
  ∃ l nodeName w pods w' pod n, k8s_ListPods l nodeName w = (Ok pods, w') ∧ pod ∈ pods ∧
    parse_nm_pod pod = Ok n ∧ YarnNode_ClusterID n = id.

Lemma getYARNNode_pod (node : Node Q) (s : RState W C) n s' :
  getYARNNode (Some node) s = (Ok (Some n), s') → pod_cluster (YarnNode_ClusterID n).
Proof.
  unfold getYARNNode, getYARNNodeManagerPod. unfold_M. rewrite in_world_run.
  destruct (k8s_ListPods _ _ _) as [[[|pod pods]|e|w] w'] eqn:Hl; cbn [fst snd]; try done.
  destruct (parse_nm_pod pod) as [n'| |] eqn:Hp; [|done..]. intros [= <- _].
  repeat eexists; [exact Hl| |exact Hp]. by left.
Qed.

Definition reconcile_writes (s s' : RState W C) : Prop :=
  quiet s s' ∨ ∃ id, added id s s' ∧ pod_cluster id.

Lemma quiet_writes s1 s2 s3 : quiet s1 s2 → reconcile_writes s2 s3 → reconcile_writes s1 s3.
Proof.
  intros H1 [H2|(id & H2 & Hp)]; [left; by etrans|right]. exists id. split; [|done].
  by eapply added_quiet.
Qed.

Lemma writes_after {A B} (c : M (RState W C) A) (k : A → M (RState W C) B) s r s' :
  preserves quiet c →
  (∀ a s1, c s = (Ok a, s1) → k a s1 = (r, s') → reconcile_writes s1 s') →
  (c ≫= k) s = (r, s') → reconcile_writes s s'.
Proof.
  intros Hc Hk. unfold mbind, M_bind. destruct (c s) as [[a|e|w] s1] eqn:E;
    [|intros [= <- <-]; left; by eapply Hc..].
  intros H. eapply quiet_writes; [by eapply Hc|by eapply Hk].
Qed.

Lemma writes_then {B} n v m (k : () + error → M (RState W C) B) s r s' :
  pod_cluster (YarnNode_ClusterID n) → (∀ x, preserves quiet (k x)) →
  (try (updateYARNNodeResource (Some n) v m) ≫= k) s = (r, s') → reconcile_writes s s'.
Proof.
  intros Hp Hk. unfold mbind, M_bind, try.
  destruct (updateYARNNodeResource (Some n) v m s) as [r1 s1] eqn:Hu.
  apply updateYARNNodeResource_writes in Hu. intros H.
  assert (quiet s1 s') as Hq by (destruct r1; [by eapply Hk..|by simplify_eq]).
  destruct Hu as [Hu|Hu]; [left; by etrans|right]. exists (YarnNode_ClusterID n).
  split; [|done]. by eapply added_quiet.
Qed.

(** A reconciliation writes the map only to add a cluster that a node manager pod
    names and the map does not have. *)
Lemma Reconcile_writes name s r s' : Reconcile name s = (r, s') → reconcile_writes s s'.
Proof.
  apply writes_after; [by apply preserves_try, quiet_in_world|].
  intros [[node|]|e] s1 _; [|intros [= <- <-]; by left..].
  apply writes_after; [by apply preserves_try, quiet_getYARNNode|].
  intros [yn|e] s2 Hn; [|intros [= <- <-]; by left]. case_match.
  { intros Hrun. left. eapply quiet_or_requeue; [..|exact Hrun]; auto with copilot. }
  destruct yn as [n|]; [|intros [= <- <-]; by left].
  apply writes_after; [by apply preserves_try, preserves_state; [apply _|]|].
  intros [[cpu mem]|e] s3 _; [|intros [= <- <-]; by left]. destruct (calculate cpu mem) as [v m].
  apply writes_then.
  - unfold try in Hn. destruct (getYARNNode _ _) as [[yn| |] s4] eqn:Hy; simplify_eq.
    by eapply getYARNNode_pod.
  - intros x. solve_preserves.
Qed.

(** ** A round on its own *)

Lemma visits_are_steps s todo res cf :
  match fold_m todo sync_cluster res (world s) with
  | (Ok res', w) =>
      rtc poll_step (mkOpState s (Some (mkRound todo res)) cf)
                    (mkOpState (set_world w s) (Some (mkRound [] res')) cf)
  | (Err _, w) =>
      rtc poll_step (mkOpState s (Some (mkRound todo res)) cf) (mkOpState (set_world w s) None cf)
  | (Panic _, _) => True
  end.
Proof.
  revert s res. induction todo as [|p todo IH]; intros s res; cbn [fold_m].
  { cbn. destruct s as [rc syn [maps w]]. apply rtc_refl. }
  unfold mbind, M_bind. destruct (sync_cluster res p (world s)) as [[res1|e|why] w1] eqn:Hv; [|..|done].
  - specialize (IH (set_world w1 s) res1). rewrite world_set in IH.
    destruct (fold_m _ _ _ _) as [[res'|e|why] w2]; [..|done];
      (eapply rtc_l; [by apply PollVisit|exact IH]).
  - by apply rtc_once, (PollFail _ _ _ _ e).
Qed.

(** The steps of a round that nothing interrupts do what
    [syncYARNNodeAllocatedResource] does; a successful one also sets [started]. *)
Lemma round_is_steps s cf :
  match syncYARNNodeAllocatedResource (rs_syncer s, rs_heap s) with
  | (Ok _, (syn, h)) =>
      rtc poll_step (mkOpState s None cf)
        (mkOpState (with_cache (mkRState (rs_rec s) syn h) (cache syn)) None cf)
  | (Err _, (syn, h)) =>
      rtc poll_step (mkOpState s None cf) (mkOpState (mkRState (rs_rec s) syn h) None cf)
  | (Panic _, _) => True
  end.
Proof.
  pose proof (visits_are_steps s (map_range (polled s)) ∅ cf) as H.
  unfold syncYARNNodeAllocatedResource, on_world, zoom. fold (polled s). fold (world s).
  destruct (fold_m _ _ _ _) as [[res|e|why] w]; [| |done].
  - eapply rtc_l; [apply PollBegin|]. eapply rtc_r; [exact H|].
    exact (PollEnd (set_world w s) res cf).
  - eapply rtc_l; [apply PollBegin|]. exact H.
Qed.

(** ** Conflicts *)

Section FromStart.
Context (m0 : gmap string C).

Definition race_inv (f : OpState) : Prop :=
  shared (os_state f) ∧ m0 ⊆ polled (os_state f) ∧
  (os_conflict f = true →
   ∃ id c, pod_cluster id ∧ m0 !! id = None ∧ polled (os_state f) !! id = Some c).

Lemma polled_shared s : shared s → polled s = deref_map (rec_yarnClients (rs_rec s)) (rs_heap s).
Proof using. intros (p & H1 & H2). unfold polled. by rewrite H1, H2. Qed.

Lemma extends_shared (s s' : RState W C) : extends s s' → shared s → shared s'.
Proof using. intros (H1 & _ & H2) (p & Hp & Hr). exists p. rewrite H1. auto. Qed.

Lemma extends_polled s s' : extends s s' → shared s → polled s ⊆ polled s'.
Proof using.
  intros He Hs. pose proof (extends_shared _ _ He Hs) as Hs'.
  rewrite !polled_shared by done. apply map_subseteq_spec. apply He.
Qed.

Lemma race_inv_work f f' : work_step f f' → race_inv f → race_inv f'.
Proof using All.
  intros Hstep (Hs & Hm & Hc).
  assert (extends (os_state f) (os_state f')) as He
    by (destruct Hstep; by eapply extends_Reconcile).
  pose proof (extends_shared _ _ He Hs) as Hs'. pose proof (extends_polled _ _ He Hs) as Hp.
  split; [done|]. split; [by etrans|].
  assert (os_conflict f = true → ∃ id c, pod_cluster id ∧ m0 !! id = None ∧
            polled (os_state f') !! id = Some c) as Hold.
  { intros (id & c & H1 & H2 & H3)%Hc. exists id, c. by eauto using lookup_weaken. }
  destruct Hstep as [name s r s' rd cf H Heq|name s r s' rd cf H Hne]; cbn in *; [done|].
  intros [Hcf|_]%orb_prop; [auto|].
  apply Reconcile_writes in H as [(_ & _ & H)|(id & (_ & Hno & c & _ & _ & Hc' & _) & Hpod)]; [done|].
  exists id, c. rewrite (polled_shared s) in Hm by done. rewrite polled_shared by done.
  split; [done|]. split; [|done]. destruct (m0 !! id) eqn:E; [|done].
  by rewrite (lookup_weaken _ _ _ _ E Hm) in Hno.
Qed.

Lemma race_inv_poll f f' : poll_step f f' → race_inv f → race_inv f'.
Proof using. by destruct 1. Qed.
End FromStart.

(** C12 However the goroutines interleave, also inside a polling round, the clients
    known at the start stay in the map the cache ranges over, and a write to that map
    during an iteration (undefined in Go, and usually fatal) happens only for a
    cluster that was unknown when the operator started and is named by a node
    manager pod.  Such a run exists, as the example of this theorem shows; when every
    cluster in use is configured at the start, no interleaving has one. *)
Theorem map_race_needs_new_cluster w w0 s0 f :
  Add w = (Ok s0, w0) → rtc op_fine (op_init s0) f →
  polled s0 ⊆ polled (os_state f) ∧
  (os_conflict f = true →
   ∃ id c, pod_cluster id ∧ polled s0 !! id = None ∧ polled (os_state f) !! id = Some c).
Proof.
  intros Hadd Hrun. enough (race_inv (polled s0) f) as (_ & ? & ?) by done.
  assert (race_inv (polled s0) (op_init s0)) as H0 by (split; [by eapply Add_shared|done]).
  revert H0. generalize (op_init s0) Hrun. clear Hrun.
  intros f0. induction 1 as [f|f1 f2 f3 [H|H] _ IH]; eauto using race_inv_poll, race_inv_work.
Qed.
End Interleaving.

(** ** A conflicting run

    The operator starts with one cluster; while a round asks its resource manager, a
    node is reconciled whose node manager belongs to another. *)
Section Witness.
Import Reference MockKube.

Definition pod_b : Pod := mkPod "yarn" "nm-0"
  (Some {[ YarnNodeIdAnnotation := "nm-1:8041"; PodYarnClusterIDAnnotationKey := "cluster-b" ]}).
Definition world_b : KubeWorld := mkKubeWorld {[ "node-1" := node1 ]} [("node-1", pod_b)] [] 0.
Definition start_b : RState KubeWorld string :=
  mkRState (mkReconciler None (Some 1%positive)) (NewNodesSyncer (Some 1%positive))
    (mkHeap {[ 1%positive := {[ "cluster-a" := "cluster-a" ]} ]} world_b).
Definition round_b : Round := mkRound (map_range (polled start_b)) ∅.
Definition raced_b : OpState := mkOpState (Reconcile "node-1" start_b).2 (Some round_b) true.

Lemma raced_b_reachable : rtc op_fine (op_init start_b) raced_b.
Proof.
  eapply rtc_l; [left; apply PollBegin|]. apply rtc_once. right.
  apply (WorkWrites "node-1" start_b (Reconcile "node-1" start_b).1 (Reconcile "node-1" start_b).2
           (Some round_b) false).
  - apply surjective_pairing.
  - intros H. apply (f_equal (λ m, (m !! 1%positive) ≫= lookup "cluster-b")) in H.
    vm_compute in H. discriminate.
Qed.

Lemma map_race_needs_new_cluster_witness :
  polled start_b ⊆ polled (os_state raced_b) ∧
  ∃ id c, pod_cluster (W:=KubeWorld) (Q:=Z) id ∧ polled start_b !! id = None ∧
    polled (os_state raced_b) !! id = Some c.
Proof.
  assert (Add (W:=KubeWorld) (C:=string) world_b = (Ok start_b, world_b)) as Hadd by reflexivity.
  destruct (map_race_needs_new_cluster world_b world_b start_b raced_b Hadd raced_b_reachable)
    as [H1 H2].
  split; [exact H1|]. apply H2. reflexivity.
Defined.
End Witness.
