(* ===== verification/Convergence.v ===== *)
(** * From the resource manager's report to the node's annotation

    The path of one figure through the operator: a polling round puts the resource
    manager's reports in the node cache, and the reconciliations until the next round
    write them on the nodes. *)

From S2P Require Import Prelude GoStrings Proto NodeResource ReferenceApi NodeResourceProofs.
From S2P Require Import YarnApi NodesSyncer NodesSyncerProofs Reconciler ReconcilerProofs Interleaving.

Local Open Scope string_scope.

Section Convergence.
Context {W C Q : Type} {QA : QuantityApi Q} {QL : QuantityLaws Q} {UA : QuotaApi Q}.
Context {KA : KoordinatorApi} {KL : KoordinatorLaws}.
Context {JO : Json (OriginAllocatable Q)} {JT : Json (ThirdPartyAllocations Q)}.
Context {JL : JsonLaws Q}.
Context {YC : YarnClient W C} {YF : YarnClientFactory W C} {KC : K8sClient W Q}.
Context {MR : MapRange} {K8L : K8sLaws W C Q}.
Implicit Types s : RState W C.

(** What the clients' answers say YARN uses on a node: the figures of the last report
    for its host and port, zero when its resource manager does not list it. *)
Definition reported_usage (ans : C → option GetClusterNodesResponseProto) (m : gmap string C)
    (n : YarnNode) : option (Z * Z) :=
  match c ← m !! YarnNode_ClusterID n; resp ← ans c;
        last_report (YarnNode_Name n) (YarnNode_Port n) resp with
  | None => Some (0, 0)%Z
  | Some rep =>
      used ← NodeReportProto_Used rep;
      Some (default 0%Z (ResourceProto_VirtualCores used), default 0%Z (ResourceProto_Memory used))
  end.

(** Any number of reconciliations, by any worker, whatever their results. *)
Definition reconciled s s' : Prop := rtc (λ s1 s2, ∃ name r, Reconcile name s1 = (r, s2)) s s'.

Lemma reconciled_extends s s' : reconciled s s' → extends s s'.
Proof.
  induction 1 as [|s1 s2 s3 (name & r & H) _ IH]; [done|].
  etrans; [exact (extends_Reconcile name _ _ _ H)|done].
Qed.

Lemma used_after_round r (h : Heap W C) ans r' h' n :
  answering ans (deref_map (yarnClients r) h) →
  syncYARNNodeAllocatedResource (r, h) = (Ok tt, (r', h')) → (0 ≤ YarnNode_Port n)%Z →
  used_of r' n = reported_usage ans (deref_map (yarnClients r) h) n.
Proof.
  intros Ha Hs Hp. unfold used_of, reported_usage. by rewrite (lookup_answered _ _ _ _ _ _ Ha Hs Hp).
Qed.

(** What YARN uses reaches the annotation: after a polling round in which the
    resource managers answer, and any reconciliations since, a reconciliation without
    an error of a node with a node manager leaves in the node's annotation exactly the
    usage its resource manager reported last in that round, zero when it did not list
    the node; the resource manager has accepted the node's batch resources, no other
    annotation has changed, and the client used is the one polled. *)
Theorem usage_reaches_annotation s ans syn h s1 s2 name node w1 w2 pod pods n :
  answering ans (polled s) →
  syncYARNNodeAllocatedResource (rs_syncer s, rs_heap s) = (Ok tt, (syn, h)) →
  reconciled (mkRState (rs_rec s) syn h) s1 →
  k8s_Get name (world s1) = (Ok (Some node), w1) →
  k8s_ListPods (YarnNMComponentLabel, YarnNMComponentValue) (Node_Name node) w1
    = (Ok (pod :: pods), w2) →
  parse_nm_pod pod = Ok n → usable n = true → (0 ≤ YarnNode_Port n)%Z →
  Reconcile name s1 = (Ok (false, None), s2) →
  ∃ core mb c cpu mem v1 v2 resp,
    reported_usage ans (polled s) n = Some (core, mb) ∧ recorded (world s2) node core mb ∧
    client_of s2 n = Some c ∧ getNodeBatchResource (Some node) = Ok (cpu, mem) ∧
    UpdateNodeResource c (update_request n (calculate cpu mem).1 (calculate cpu mem).2) v1 = (Ok resp, v2).
Proof.
  intros Hans Hsync Hrec Hget Hpods Hparse Hus Hport Hrun.
  rewrite (reached_yarn_node name s1 node pod pods n w1 w2 Hget Hpods Hparse Hus) in Hrun.
  destruct (Get_stored _ _ _ _ Hget) as [Hst1 Hnode]. specialize (Hnode _ eq_refl).
  pose proof (ListPods_stored _ _ _ _ _ Hpods) as Hst2. symmetry in Hnode.
  apply reconcile_yarn_node_done in Hrun
    as [Hext (cpu & mem & c & v1 & v2 & resp & core & mb & Hb & Hc & Hu & Hused & Hr)].
  2: { rewrite world_set, Hst2, Hst1. by rewrite (stored_name _ _ _ Hnode). }
  exists core, mb, c, cpu, mem, v1, v2, resp. split; [|done].
  rewrite <- Hused. change (rs_syncer (set_world w2 s1)) with (rs_syncer s1).
  rewrite (proj1 (reconciled_extends _ _ Hrec)). cbn [rs_syncer]. symmetry.
  by eapply used_after_round.
Qed.

(** ** Progress *)

(** The API server takes any change of the node's annotations to valid text. *)
Definition accepts_patches (node : Node Q) (w : W) : Prop := ∀ a,
  node_text_ok (with_annotations node a) → ∃ od nd patch w',
  node_Marshal node = Ok od ∧ node_Marshal (with_annotations node a) = Ok nd ∧
  CreateTwoWayMergePatch od nd = Ok patch ∧ k8s_Patch node patch w = (Ok tt, w').

Lemma allocation_written node core mb s :
  stored (world s) (Node_Name node) = Some node → accepts_patches node (world s) →
  ∃ s', updateYARNAllocatedResource (Some node) core mb s = (Ok tt, s') ∧ recorded (world s') node core mb.
Proof.
  intros Hst Hacc.
  enough (∃ s', updateYARNAllocatedResource (Some node) core mb s = (Ok tt, s')) as [s' Hs'].
  { exists s'. split; [done|]. by eapply updateYARNAllocatedResource_ok. }
  unfold updateYARNAllocatedResource. set (m := default ∅ (Node_Annotations node)).
  replace (match Node_Annotations node with None => Some ∅ | a => a end) with (Some m)
    by (unfold m; by destruct (Node_Annotations node)).
  destruct (set_yarn_readback (Q:=Q) m core mb) as (v & r & Hs & Hv & _). rewrite Hs.
  destruct (Hacc (Some (<[NodeThirdPartyAllocationsAnnotationKey := v]> m)))
    as (od & nd & patch & w' & H1 & H2 & H3 & H4).
  { apply node_text_ok_insert; [by eapply stored_text|done|done]. }
  eexists. erewrite M_bind_ok by reflexivity.
  erewrite M_bind_ok by (unfold lift_out; rewrite H1; reflexivity).
  erewrite M_bind_ok by (unfold lift_out; rewrite H2; reflexivity).
  erewrite M_bind_ok by (unfold lift_out; rewrite H3; reflexivity).
  by apply in_world_ok.
Qed.

(** C2 The operator does its job when everyone answers: if the resource managers answer a
    polling round, the round succeeds; and if afterwards, with any reconciliations in between,
    the API server answers and the manager of the node's cluster accepts the update, then the
    reconciliation of the node ends without an error or a retry, and the node's annotation
    says what the round reported. *)
Theorem usage_is_recorded s ans s1 name node w1 w2 pod pods n c cpu mem resp w3 core mb :
  let round := syncYARNNodeAllocatedResource (rs_syncer s, rs_heap s) in
  answering ans (polled s) →
  reconciled (mkRState (rs_rec s) round.2.1 round.2.2) s1 →
  k8s_Get name (world s1) = (Ok (Some node), w1) →
  k8s_ListPods (YarnNMComponentLabel, YarnNMComponentValue) (Node_Name node) w1
    = (Ok (pod :: pods), w2) →
  parse_nm_pod pod = Ok n → usable n = true → (0 ≤ YarnNode_Port n)%Z →
  client_of s1 n = Some c → getNodeBatchResource (Some node) = Ok (cpu, mem) →
  UpdateNodeResource c (update_request n (calculate cpu mem).1 (calculate cpu mem).2) w2
    = (Ok resp, w3) →
  reported_usage ans (polled s) n = Some (core, mb) →
  accepts_patches node w3 →
  round.1 = Ok tt ∧
  ∃ s2, Reconcile name s1 = (Ok (false, None), s2) ∧ recorded (world s2) node core mb.
Proof.
  intros round Hans Hrec Hget Hpods Hparse Hus Hport Hc Hb Hu Hrep Hacc.
  destruct (sync_ok (rs_syncer s) (rs_heap s) ans) as [w0 Hw0].
  { intros id c0 H0. destruct (Hans id c0 H0) as [H1 H2]. split; [done|]. intros. by apply H2. }
  assert (used_of (rs_syncer s1) n = Some (core, mb)) as Hused.
  { rewrite (proj1 (reconciled_extends _ _ Hrec)). cbn [rs_syncer]. rewrite <- Hrep.
    eapply used_after_round; [done| |done]. unfold round. by rewrite Hw0. }
  split; [unfold round; by rewrite Hw0|].
  destruct (Get_stored _ _ _ _ Hget) as [Hst1 Hnode]. specialize (Hnode _ eq_refl). symmetry in Hnode.
  pose proof (ListPods_stored _ _ _ _ _ Hpods) as Hst2. pose proof (Update_stored _ _ _ _ _ Hu) as Hst3.
  destruct (allocation_written node core mb (set_world w3 s1)) as (s2 & Hwr & Hr).
  { rewrite world_set, Hst3, Hst2, Hst1. by rewrite (stored_name _ _ _ Hnode). }
  { by rewrite world_set. }
  exists s2. split; [|done].
  rewrite (reached_update name s1 node pod pods n w1 w2 cpu mem Hget Hpods Hparse Hus Hb).
  unfold or_requeue at 1. erewrite try_bind_ok.
  2: { unfold updateYARNNodeResource. erewrite M_bind_ok by (by apply client_of_get).
       cbn beta iota. erewrite try_bind_ok by (by apply in_world_ok). reflexivity. }
  cbn beta iota. unfold mbind at 1, M_bind at 1. rewrite getYARNNodeAllocatedResource_run.
  change (rs_syncer (set_world w3 (set_world w2 s1))) with (rs_syncer s1). rewrite Hused.
  change (set_world w3 (set_world w2 s1)) with (set_world w3 s1).
  unfold or_requeue. by erewrite try_bind_ok by exact Hwr.
Qed.
End Convergence.

(** ** A run

    A round, a reconciliation of another node, then the node of [nm-1]: its annotation
    gets the six cores and 9216 megabytes of the last report. *)
Section Witness.
Import Reference MockKube.

Definition s_polled : RState KubeWorld string :=
  let '(_, (syn, h)) := syncYARNNodeAllocatedResource (rs_syncer s_start, rs_heap s_start) in
  mkRState (rs_rec s_start) syn h.
Definition s_other : RState KubeWorld string := (Reconcile "node-2" s_polled).2.
Definition s_recorded : RState KubeWorld string := (Reconcile "node-1" s_other).2.

Lemma start_answers : answering (λ _, Some MockYarn.reply) (polled s_start).
Proof.
  intros id c _. split; [intros w; by eexists|]. intros resp [= <-]. split; repeat constructor; done.
Qed.

Lemma usage_reaches_annotation_witness :
  reported_usage (λ _, Some MockYarn.reply) (polled s_start) nm1 = Some (6, 9216)%Z ∧
  ∃ core mb c cpu mem v1 v2 resp,
    reported_usage (λ _, Some MockYarn.reply) (polled s_start) nm1 = Some (core, mb) ∧
    recorded (world s_recorded) node1 core mb ∧
    client_of s_recorded nm1 = Some c ∧ getNodeBatchResource (Some node1) = Ok (cpu, mem) ∧
    UpdateNodeResource c (update_request nm1 (calculate cpu mem).1 (calculate cpu mem).2) v1
      = (Ok resp, v2).
Proof.
  split; [vm_compute; reflexivity|].
  apply (usage_reaches_annotation s_start (λ _, Some MockYarn.reply) (rs_syncer s_polled)
           (rs_heap s_polled) s_other s_recorded "node-1" node1 world1 world1 nm_pod [] nm1).
  - exact start_answers.
  - vm_compute. reflexivity.
  - apply rtc_once. exists "node-2", (Reconcile "node-2" s_polled).1. apply surjective_pairing.
  - vm_compute. reflexivity.
  - vm_compute. reflexivity.
  - vm_compute. reflexivity.
  - vm_compute. reflexivity.
  - vm_compute. discriminate.
  - vm_compute. reflexivity.
Defined.

Lemma apply_diff_diff x y : apply_diff (diff x y) x = y.
Proof.
  apply map_eq. intros k. unfold apply_diff, diff. rewrite !lookup_merge. unfold diag_None.
  by destruct (x !! k), (y !! k); repeat (case_decide; cbn).
Qed.

Lemma kube_accepts (w : KubeWorld) node :
  kube_stored w (Node_Name node) = Some node → accepts_patches node w.
Proof.
  intros Hst a Ha. eexists _, _, _. eexists. split; [reflexivity|]. split; [reflexivity|].
  cbn [CreateTwoWayMergePatch kube_client]. rewrite !doc_decode_encode. split; [reflexivity|].
  cbn [k8s_Patch kube_client]. rewrite doc_decode_encode, Hst, apply_diff_diff.
  rewrite decide_True; [reflexivity|]. unfold node_text_ok, annos in *. cbn in *.
  by destruct a.
Qed.

Lemma usage_is_recorded_witness :
  (syncYARNNodeAllocatedResource (rs_syncer s_start, rs_heap s_start)).1 = Ok tt ∧
  ∃ s2, Reconcile "node-1" s_other = (Ok (false, None), s2) ∧ recorded (world s2) node1 6 9216.
Proof.
  eapply (usage_is_recorded s_start (λ _, Some MockYarn.reply) s_other "node-1" node1 world1 world1
           nm_pod [] nm1 "cluster-a" cpu1 mem1).
  - exact start_answers.
  - apply rtc_once. exists "node-2", (Reconcile "node-2" s_polled).1.
    change (mkRState _ _ _) with s_polled. apply surjective_pairing.
  - vm_compute. reflexivity.
  - vm_compute. reflexivity.
  - vm_compute. reflexivity.
  - vm_compute. reflexivity.
  - vm_compute. discriminate.
  - vm_compute. reflexivity.
  - vm_compute. reflexivity.
  - reflexivity.
  - vm_compute. reflexivity.
  - apply kube_accepts. vm_compute. reflexivity.
Defined.
End Witness.
