(* ===== verification/Recovery.v ===== *)
(** * The polling goroutine when resource managers fail

    A round stops at the first resource manager that does not answer and
    reinitialises its client, so one round repairs one client.  Here: how long the
    goroutine needs to have a fresh cache again when the clients can be repaired, and
    what happens to the other clusters when one cannot. *)

From S2P Require Import Prelude GoStrings Proto YarnApi NodesSyncer NodesSyncerProofs.

Local Open Scope string_scope.

Section Recovery.
Context {W C : Type} {YC : YarnClient W C} {MR : MapRange}.

(** ** Clients that reinitialisation repairs *)

(** What polling needs of the clients of a map.  [up k c w]: in the world [w] the manager of
    [c] answers the next [k] polls with [ans c].  [down k c w]: the next poll fails, and the
    reinitialisation that follows makes the client [up k].  What is done with one client
    changes nothing for the others. *)
Class Repairable (up down : nat → C → W → Prop) (ans : C → option GetClusterNodesResponseProto)
    (m : gmap string C) : Prop := {
  up_less k c w : up (S k) c w → up k c w;
  down_less k c w : down (S k) c w → down k c w;
  up_answers k id c w : m !! id = Some c → up (S k) c w →
    ∃ w', GetClusterNodes c running_nodes w = (Ok (ans c), w') ∧ up k c w' ∧
      ∀ id' c', m !! id' = Some c' → c' ≠ c →
        ∀ k', (up k' c' w → up k' c' w') ∧ (down k' c' w → down k' c' w');
  down_repaired k id c w : m !! id = Some c → down k c w →
    ∃ e w1 w2, GetClusterNodes c running_nodes w = (Err e, w1) ∧
      Reinitialize c w1 = (Ok tt, w2) ∧ up k c w2 ∧
      ∀ id' c', m !! id' = Some c' → c' ≠ c →
        ∀ k', (up k' c' w → up k' c' w2) ∧ (down k' c' w → down k' c' w2);
  own_client id id' c : m !! id = Some c → m !! id' = Some c → id = id';
  ans_complete id c resp : m !! id = Some c → ans c = Some resp →
    Forall (λ rep, complete_report rep = true) (GetClusterNodesResponseProto_NodeReports resp)
}.

Section Repair.
Context (up down : nat → C → W → Prop) (ans : C → option GetClusterNodesResponseProto).
Context (m : gmap string C) `{!Repairable up down ans m}.

(** The clients of the clusters in [D] are down, the others up, for [k] polls. *)
Definition condition (k : nat) (D : gset string) (w : W) : Prop :=
  ∀ id c, m !! id = Some c → if decide (id ∈ D) then down k c w else up k c w.

(** In the middle of a round: those of [l] are still to be polled. *)
Definition midway (k : nat) (D : gset string) (l : list (string * C)) (w : W) : Prop :=
  ∀ id c, m !! id = Some c →
    if decide (id ∈ D) then down (S k) c w
    else if decide (id ∈ l.*1) then up (S k) c w else up k c w.

Lemma midway_start k D w l : condition (S k) D w → midway k D l w.
Proof.
  intros H id c Hc. specialize (H id c Hc). repeat case_decide; try done. by apply up_less.
Qed.

Lemma midway_end k D w l :
  midway k D l w → condition k D w.
Proof.
  intros H id c Hc. specialize (H id c Hc). repeat case_decide; try done; [by apply down_less|by apply up_less].
Qed.

(** A poll that was answered. *)
Lemma midway_answered k D id c l w w' :
  m !! id = Some c → id ∉ D → id ∉ l.*1 → midway k D ((id, c) :: l) w → up k c w' →
  (∀ id' c', m !! id' = Some c' → c' ≠ c →
     ∀ k', (up k' c' w → up k' c' w') ∧ (down k' c' w → down k' c' w')) →
  midway k D l w'.
Proof.
  intros Hc HD Hl Hmid Hup Hframe id' c' Hc'. destruct (decide (id' = id)) as [->|Hne].
  - assert (c' = c) as -> by congruence. by rewrite !decide_False.
  - assert (c' ≠ c) as Hcc by (intros ->; apply Hne; by eapply own_client).
    specialize (Hmid id' c' Hc'). cbn [fmap list_fmap fst] in Hmid.
    destruct (Hframe id' c' Hc' Hcc (S k)) as [F1 F2], (Hframe id' c' Hc' Hcc k) as [F3 _].
    assert (id' ∈ id :: l.*1 ↔ id' ∈ l.*1) as Hiff 
      by (rewrite elem_of_cons; split; [by intros [?|?]|by right]).
    destruct (decide (id' ∈ D)); [by apply F2|]. destruct (decide (id' ∈ l.*1)) as [Hin|Hin].
    + rewrite decide_True in Hmid by by apply Hiff. by apply F1.
    + rewrite decide_False in Hmid by by rewrite Hiff. by apply F3.
Qed.

(** A poll that failed, and the reinitialisation after it. *)
Lemma midway_repaired k D id c l w w' :
  m !! id = Some c → id ∈ D → midway k D l w → up (S k) c w' →
  (∀ id' c', m !! id' = Some c' → c' ≠ c →
     ∀ k', (up k' c' w → up k' c' w') ∧ (down k' c' w → down k' c' w')) →
  condition k (D ∖ {[ id ]}) w'.
Proof.
  intros Hc HD Hmid Hup Hframe id' c' Hc'. destruct (decide (id' = id)) as [->|Hne].
  - assert (c' = c) as -> by congruence. rewrite decide_False by by intros [_ []%not_elem_of_singleton]%elem_of_difference. by apply up_less.
  - assert (c' ≠ c) as Hcc by (intros ->; apply Hne; by eapply own_client).
    specialize (Hmid id' c' Hc').
    destruct (Hframe id' c' Hc' Hcc (S k)) as [F1 F2], (Hframe id' c' Hc' Hcc k) as [F3 _].
    destruct (decide (id' ∈ D)) as [Hin|Hin].
    + rewrite decide_True by (apply elem_of_difference; by rewrite elem_of_singleton). by apply down_less, F2.
    + rewrite decide_False by by intros [? _]%elem_of_difference. case_decide; [by apply up_less, F1|by apply F3].
Qed.

(** A round gets every answer, or stops at a client that was down and repairs it. *)
Lemma fold_sync_repairs k D l res w :
  NoDup l.*1 → (∀ p, p ∈ l → m !! p.1 = Some p.2) → midway k D l w →
  ∃ w',
    fold_m l sync_cluster res w = (Ok (insert_all (contributions ans l) res), w') ∧
      (∀ id, id ∈ l.*1 → id ∉ D) ∧ condition k D w' ∨
    ∃ e id, fold_m l sync_cluster res w = (Err e, w') ∧ id ∈ D ∧ id ∈ l.*1 ∧
      condition k (D ∖ {[ id ]}) w'.
Proof.
  revert res w. induction l as [|[id c] l IH]; intros res w Hnd Hl Hmid.
  { exists w. left. split; [done|]. split; [by intros id ?%elem_of_nil|].
    by eapply midway_end. }
  pose proof (Hl (id, c) ltac:(by left)) as Hc. cbn in Hc. cbn [fold_m sync_cluster].
  cbn [fmap list_fmap fst] in Hnd. apply list.NoDup_cons in Hnd as [Hnot Hnd].
  pose proof (Hmid id c Hc) as Hst. destruct (decide (id ∈ D)) as [HD|HD].
  - destruct (down_repaired (S k) id c w Hc Hst) as (e & w1 & w2 & Hg & Hr & Hup & Hframe).
    exists w2. right. eexists _, id. split.
    + rewrite M_bind_assoc. erewrite M_bind_ok by (by apply try_err). cbn beta iota.
      rewrite M_bind_assoc. erewrite M_bind_ok by (by apply try_ok). reflexivity.
    + split; [done|]. split; [by left|]. by eapply midway_repaired.
  - rewrite decide_True in Hst by by left.
    destruct (up_answers k id c w Hc Hst) as (w1 & Hg & Hup & Hframe).
    assert (midway k D l w1) as Hmid1 by (by eapply midway_answered).
    assert (∀ p, p ∈ l → m !! p.1 = Some p.2) as Hl' by (intros p Hp; apply Hl; by right).
    assert (∀ res1, ∃ w',
      fold_m l sync_cluster res1 w1 = (Ok (insert_all (contributions ans l) res1), w') ∧
        (∀ id', id' ∈ ((id, c) :: l).*1 → id' ∉ D) ∧ condition k D w' ∨
      ∃ e id', fold_m l sync_cluster res1 w1 = (Err e, w') ∧ id' ∈ D ∧ id' ∈ ((id, c) :: l).*1 ∧
        condition k (D ∖ {[ id' ]}) w') as Hrest.
    { intros res1. destruct (IH res1 w1 Hnd Hl' Hmid1) as (w' & [(Hrun & HnD & Hc')|(e & id' & Hrun & Hin & Hin' & Hc')]);
        exists w'; [left|right].
      - split; [done|]. split; [|done]. intros id' [->|Hin]%elem_of_cons; [done|by apply HnD].
      - exists e, id'. split; [done|]. split; [done|]. split; [by right|done]. }
    rewrite M_bind_assoc. erewrite M_bind_ok by (by apply try_ok). cbn [contributions omap list_omap fst snd].
    destruct (ans c) as [resp|] eqn:Ha; cbn [fmap option_fmap option_map]; [|apply Hrest].
    destruct (response_cache_printable resp (ans_complete id c resp Hc Ha)) as [Hok _].
    rewrite M_bind_assoc. erewrite M_bind_ok
      by (unfold lift_out; by rewrite (add_reports_ok ∅ _ Hok)).
    apply Hrest.
Qed.

(** The goroutine with [n] synchronisation ticks to come: the clients are the ones it
    started with and can be polled [n] times, and either fewer than [n] of them are down, or
    none is and the cache is fresh. *)
Definition recovering (clients : option mapref) (n : nat) (p : SyncerProc W C) : Prop :=
  match p with
  | Running r h =>
      yarnClients r = clients ∧ deref_map clients h = m ∧ all_printable (cache r) ∧
      ∃ D, D ⊆ dom m ∧ condition n D (heap_world h) ∧
        ((size D < n)%nat ∨ D = ∅ ∧ started r = true ∧ cache r = snapshot ans m)
  | _ => False
  end.

Lemma snapshot_printable : all_printable (snapshot ans m).
Proof.
  intros id cc Hcc. unfold snapshot in Hcc. apply lookup_omap_Some in Hcc as (c & Hr & Hc).
  destruct (ans c) as [resp|] eqn:Ha; cbn in Hr; simplify_eq.
  by apply response_cache_printable, (ans_complete id c).
Qed.

Lemma recovering_sync clients n p :
  recovering clients (S n) p → recovering clients n (start_step p TickSync).
Proof.
  destruct p as [r h|r h|why]; [|done..]. intros (<- & Hm & Hpr & D & HDm & Hcond & Hd). cbn [start_step].
  unfold syncYARNNodeAllocatedResource, on_world, zoom. rewrite Hm.
  destruct (fold_sync_repairs n D (map_range m) ∅ (heap_world h))
    as (w' & [(-> & HnD & Hc')|(e & id & -> & HD & Hin & Hc')]).
  { apply NoDup_map_range. }
  { intros [id c] Hin. by apply elem_of_map_range. }
  { by apply midway_start. }
  - rewrite insert_all_snapshot. split; [done|]. split; [done|]. split; [apply snapshot_printable|].
    assert (D = ∅) as ->.
    { apply leibniz_equiv, elem_of_equiv_empty. intros id HD. apply (HnD id); [|done].
      apply HDm, elem_of_dom in HD as [c Hc]. apply list_elem_of_fmap. exists (id, c).
      split; [done|]. by apply elem_of_map_range. }
    exists ∅. split; [done|]. split; [done|]. right. done.
  - split; [done|]. split; [done|]. split; [done|]. exists (D ∖ {[ id ]}).
    split; [set_solver|]. split; [done|]. left. destruct Hd as [Hd|(-> & _)]; [|set_solver].
    rewrite size_difference by set_solver. rewrite size_singleton.
    assert (size D ≠ 0%nat) by (intros ?%size_empty_inv; set_solver). lia.
Qed.

Lemma recovering_debug clients n p :
  recovering clients n p → start_step p TickDebug = p.
Proof.
  destruct p as [r h|r h|why]; [|done..]. intros (_ & _ & Hpr & _). cbn [start_step].
  assert (debug r = Ok tt) as ->; [|done].
  apply debug_ok_iff. intros rep (id & cc & k & H1 & H2). exact (Hpr _ _ H1 _ _ H2).
Qed.

(** The number of synchronisation ticks among some events. *)
Fixpoint sync_ticks (events : list SyncEvent) : nat :=
  match events with
  | [] => 0
  | TickSync :: l => S (sync_ticks l)
  | _ :: l => sync_ticks l
  end.

Lemma recovering_run clients events p :
  CtxDone ∉ events → recovering clients (sync_ticks events) p →
  recovering clients 0 (foldl start_step p events).
Proof.
  revert p. induction events as [|e events IH]; intros p Hev Hp; [done|].
  apply not_elem_of_cons in Hev as [He Hev]. destruct e; cbn [foldl sync_ticks] in *; [| |done].
  - by apply IH, recovering_sync.
  - rewrite (recovering_debug _ _ _ Hp). by apply IH.
Qed.

(** With the clients of [D] down at the start, the cache is the snapshot of all the answers,
    and [Started] is reported, after more ticks than [D] has elements. *)
Lemma polling_recovers clients (h : Heap W C) D events :
  deref_map clients h = m → CtxDone ∉ events → D ⊆ dom m →
  condition (sync_ticks events) D (heap_world h) → (size D < sync_ticks events)%nat →
  ∃ r h', Start clients h events = Running r h' ∧ Started r = true ∧
    cache r = snapshot ans m ∧ condition 0 ∅ (heap_world h').
Proof.
  intros Hm Hev HD Hc Hn. unfold Start.
  assert (recovering clients (sync_ticks events) (Running (NewNodesSyncer clients) h)) as H0.
  { split; [done|]. split; [done|]. split; [apply map_Forall_empty|]. by exists D; auto. }
  apply recovering_run in H0; [|done].
  destruct (foldl start_step _ events) as [r h'|r h'|why]; [|done..].
  destruct H0 as (_ & _ & _ & D' & _ & Hc' & [Hlt|(-> & Hst & Hca)]); [lia|by exists r, h'].
Qed.
End Repair.

(** ** A client that cannot be repaired *)

(** While [down] holds requests of [c] fail, and no client's requests end that. *)
Class Unreachable (down : W → Prop) (c : C) : Prop := {
  down_fails w : down w → ∃ e w', GetClusterNodes c running_nodes w = (Err e, w');
  down_nodes c' : preserves (λ w w', down w → down w') (GetClusterNodes c' running_nodes);
  down_reinitialize c' : preserves (λ w w', down w → down w') (Reinitialize c')
}.

Section Starve.
Context (down : W → Prop) (c : C) `{!Unreachable down c}.

#[local] Instance down_preorder : PreOrder (λ w w', down w → down w').
Proof. split; [by intros w|intros w1 w2 w3 H1 H2 H; exact (H2 (H1 H))]. Qed.

Lemma down_sync_cluster res p : preserves (λ w w', down w → down w') (sync_cluster res p).
Proof.
  destruct p as [id' c']. unfold sync_cluster.
  solve_preserves; [exact (down_nodes c')|exact (down_reinitialize c')].
Qed.

Lemma down_fold l res w r w' id :
  (id, c) ∈ l → down w → fold_m l sync_cluster res w = (r, w') → (∀ res', r ≠ Ok res') ∧ down w'.
Proof.
  revert res w. induction l as [|p l IH]; intros res w Hin Hd; [by apply elem_of_nil in Hin|].
  cbn [fold_m]. unfold mbind, M_bind. destruct (sync_cluster res p w) as [[res1|e|why] w1] eqn:Hp;
    pose proof (down_sync_cluster res p _ _ _ Hp Hd) as Hd1; [|by intros [= <- <-]..].
  apply elem_of_cons in Hin as [<-|Hin]; [|by apply IH].
  destruct (down_fails w Hd) as (e & w2 & Hg). exfalso. revert Hp. cbn [sync_cluster].
  erewrite M_bind_ok by (by apply try_err). cbn beta iota. unfold mbind, M_bind, try.
  by destruct (Reinitialize c w2) as [[]].
Qed.

(** A step of the goroutine, or anything the rest of the operator does meanwhile that
    leaves the client in the map and its manager down. *)
Inductive polling_step (id : string) : SyncerProc W C → SyncerProc W C → Prop :=
| PollingOwn p e : polling_step id p (start_step p e)
| PollingOther r h h' :
    deref_map (yarnClients r) h' !! id = Some c → down (heap_world h') →
    polling_step id (Running r h) (Running r h').

Definition starved (id : string) (r0 : NodesSyncer) (p : SyncerProc W C) : Prop :=
  match p with
  | Running r h => r = r0 ∧ deref_map (yarnClients r) h !! id = Some c ∧ down (heap_world h)
  | Stopped r _ => r = r0
  | Crashed _ => True
  end.

Lemma starved_step id r0 p p' : polling_step id p p' → starved id r0 p → starved id r0 p'.
Proof.
  intros [p0 e|r h h' Hc Hd]; [|by intros (-> & _ & _)].
  destruct p0 as [r h|r h|why]; [|done..]. intros (-> & Hc & Hd). destruct e; cbn [start_step].
  - unfold syncYARNNodeAllocatedResource, on_world, zoom.
    destruct (fold_m _ _ _ _) as [o w'] eqn:Hrun.
    destruct (down_fold _ _ _ _ _ id ltac:(by apply elem_of_map_range) Hd Hrun) as [Hno Hd'].
    destruct o as [res|e|why]; [by destruct (Hno res)|done|done].
  - by destruct (debug r0).
  - done.
Qed.

Lemma starved_run id r (h : Heap W C) p :
  deref_map (yarnClients r) h !! id = Some c → down (heap_world h) →
  rtc (polling_step id) (Running r h) p →
  match p with
  | Running r' _ | Stopped r' _ => r' = r
  | Crashed _ => True
  end.
Proof.
  intros Hc Hd Hsteps.
  assert (starved id r p) as Hp.
  { assert (starved id r (Running r h)) as H0 by done.
    induction Hsteps as [|p1 p2 p3 Hstep _ IH]; [done|]. apply IH. by eapply starved_step. }
  destruct p; [by destruct Hp|done|done].
Qed.

(** C10 One cluster starves all: as long as the resource manager of one cluster does not
    answer, no tick changes the cache of any cluster, nor is [Started] ever reported if it
    was not before, whatever the other managers answer and whatever the operator does
    meanwhile; every round stops at that cluster and its other answers are dropped. *)
Theorem unreachable_cluster_starves_all id r (h : Heap W C) p :
  deref_map (yarnClients r) h !! id = Some c → down (heap_world h) →
  rtc (polling_step id) (Running r h) p →
  match p with
  | Running r' _ | Stopped r' _ => r' = r
  | Crashed _ => True
  end.
Proof. apply starved_run. Qed.
End Starve.
End Recovery.

(** ** Runs

    Two clusters; the world is the set of clients that are down. *)
Section Witnesses.
Import MockYarn.

Inductive FlakyClient := Flaky (n : nat) | Dead.
#[local] Instance flaky_client : YarnClient (list nat) FlakyClient := {|
Initialize _ := mret tt;
Reinitialize c := match c with Flaky n => modify (filter (λ k, k ≠ n)) | Dead => throw "no route to host" end;
Close _ := mret tt;
UpdateNodeResource _ _ := mret mkUpdateNodeResourceResponseProto;
GetClusterNodes c _ := λ w,
  match c with
  | Flaky n => if bool_decide (n ∈ w) then (Err "connection refused", w) else (Ok (Some reply), w)
  | Dead => (Err "connection refused", w)
  end
|}.

Definition two_down : gmap string FlakyClient := {[ "a" := Flaky 1; "b" := Flaky 2 ]}.

#[local] Instance dead_unreachable : Unreachable (λ _, True) Dead.
Proof. split; [intros w _; by eexists _, _|done|done]. Qed.

Lemma unreachable_cluster_starves_all_witness :
  ∃ r h', Start (Some 1%positive) (mkHeap {[ 1%positive := <["z" := Dead]> two_down ]} [])
      [TickSync; TickSync] = Running r h' ∧ r = NewNodesSyncer (Some 1%positive).
Proof.
  set (h := mkHeap {[ 1%positive := <["z" := Dead]> two_down ]} []).
  destruct (Start (Some 1%positive) h [TickSync; TickSync]) as [r h'|r h'|why] eqn:Hrun;
    [|vm_compute in Hrun; discriminate Hrun..].
  exists r, h'. split; [reflexivity|].
  apply (unreachable_cluster_starves_all (λ _, True) Dead "z" (NewNodesSyncer (Some 1%positive)) h
           (Running r h')).
  - reflexivity.
  - exact I.
  - rewrite <- Hrun. eapply rtc_l; [apply PollingOwn with (e := TickSync)|].
    apply rtc_once. apply PollingOwn with (e := TickSync).
Defined.
End Witnesses.
