(* ===== verification/Wire.v ===== *)
(** * Bytes on the wire: [src/pkg/yarn/apis/auth/auth.go], and the framing helpers
    of [src/pkg/yarn/client/ipc/client.go]

    Big-endian integers ([encoding/binary]), the constants of the Hadoop RPC
    protocol, and the interface to [protowire] and [proto]. *)

From Stdlib Require Export Strings.Byte.
From S2P Require Import Prelude GoStrings Proto.

Local Open Scope string_scope.

Abbreviation bytes := (list Byte.byte) (only parsing).

#[global] Instance byte_eq_dec : EqDecision Byte.byte := Byte.byte_eq_dec.

(** [[]byte(s)] and [string(b)]. *)
Abbreviation bytes_of := String.list_byte_of_string.
Abbreviation string_of := String.string_of_list_byte.

(** The length Go's [len] returns. *)
Definition len {A} (l : list A) : Z := Z.of_nat (length l).

(** ** Bytes and integers *)

Section Bytes.
Local Open Scope Z_scope.

Definition byte_of_Z (z : Z) : Byte.byte :=
  default Byte.x00 (Byte.of_N (Z.to_N (z mod 256))).
Definition Z_of_byte (b : Byte.byte) : Z := Z.of_N (Byte.to_N b).

Lemma Z_of_byte_of_Z z : Z_of_byte (byte_of_Z z) = z mod 256.
Proof.
  unfold Z_of_byte, byte_of_Z. pose proof (Z.mod_pos_bound z 256) as Hz.
  destruct (Byte.of_N (Z.to_N (z mod 256))) as [b|] eqn:E.
  - cbn. apply Byte.to_of_N in E. rewrite E. lia.
  - apply Byte.of_N_None_iff in E. lia.
Qed.

Lemma Z_of_byte_range b : 0 ≤ Z_of_byte b < 256.
Proof. unfold Z_of_byte. pose proof (Byte.to_N_bounded b). lia. Qed.

(** The low [n] bytes of [z], most significant first. *)
Fixpoint be_bytes (n : nat) (z : Z) : bytes :=
  match n with
  | O => []
  | S n' => byte_of_Z (Z.shiftr z (8 * Z.of_nat n')) :: be_bytes n' z
  end.

Definition be_value (b : bytes) : Z := foldl (λ acc x, acc * 256 + Z_of_byte x) 0 b.

Lemma length_be_bytes n z : length (be_bytes n z) = n.
Proof. induction n as [|n IH]; cbn; by rewrite ?IH. Qed.

Lemma be_value_acc acc b :
  foldl (λ acc x, acc * 256 + Z_of_byte x) acc b = acc * 2 ^ (8 * len b) + be_value b.
Proof.
  unfold be_value, len. revert acc. induction b as [|x b IH]; intros acc; [cbn; lia|].
  cbn [foldl length]. rewrite IH, (IH (0 * 256 + Z_of_byte x)).
  replace (8 * Z.of_nat (S (length b))) with (8 + 8 * Z.of_nat (length b)) by lia.
  rewrite Z.pow_add_r by lia. change (2 ^ 8) with 256. ring.
Qed.

Lemma be_value_be_bytes n z : be_value (be_bytes n z) = z mod 2 ^ (8 * Z.of_nat n).
Proof.
  induction n as [|n IH]; [by rewrite Z.mod_1_r|].
  unfold be_value. cbn [be_bytes foldl]. rewrite be_value_acc, IH, Z_of_byte_of_Z.
  unfold len. rewrite length_be_bytes, Z.mul_0_l, Z.add_0_l, Z.shiftr_div_pow2 by lia.
  replace (8 * Z.of_nat (S n)) with (8 * Z.of_nat n + 8) by lia.
  rewrite Z.pow_add_r by lia. change (2 ^ 8) with 256.
  rewrite (Z.rem_mul_r z (2 ^ (8 * Z.of_nat n)) 256) by lia. ring.
Qed.
End Bytes.

(** ** [ConvertFixedToBytes] and [ConvertBytesToFixed]

    [binary.Write] accepts fixed-size data only; the code passes a byte, an
    [AuthProtocol] and an [int32].  [binary.Read] of an [int32] fails on fewer
    than four bytes, and only an empty input is [EOF]. *)

Inductive Fixed := FixedByte (b : Byte.byte) | FixedInt32 (z : Z).

Definition ConvertFixedToBytes (data : Fixed) : outcome bytes :=
  match data with
  | FixedByte b => Ok [b]
  | FixedInt32 z => Ok (be_bytes 4 z)
  end.

Definition ConvertBytesToFixed (rawBytes : bytes) : outcome Z :=
  match rawBytes with
  | [] => Err "EOF"
  | a :: b :: c :: d :: _ => Ok (int32 (be_value [a; b; c; d]))
  | _ => Err "unexpected EOF"
  end.

(** ** Protocol constants *)

Definition RPC_HEADER : bytes := bytes_of "hrpc".
Definition VERSION : bytes := [Byte.x09].
Definition RPC_SERVICE_CLASS : Byte.byte := Byte.x00.
Definition RPC_PROTOCOL_BUFFFER : RpcKindProto := RpcKindProto_RPC_PROTOCOL_BUFFER.
Definition RPC_FINAL_PACKET : RpcRequestHeaderProto_OperationProto :=
  RpcRequestHeaderProto_RPC_FINAL_PACKET.
Definition RPC_DEFAULT_RETRY_COUNT : Z := -1.
Definition CLIENT_PROTOCOL_VERSION : Z := 1.

Abbreviation AuthMethod := Byte.byte (only parsing).
Definition AUTH_SIMPLE : AuthMethod := Byte.x50.
Definition AUTH_KERBEROS : AuthMethod := Byte.x51.
Definition AUTH_TOKEN : AuthMethod := Byte.x52.
Definition AUTH_PLAIN : AuthMethod := Byte.x53.

Definition AuthMethod_String (m : AuthMethod) : string :=
  if Byte.eqb m AUTH_SIMPLE then "SIMPLE"
  else if Byte.eqb m AUTH_KERBEROS then "GSSAPI"
  else if Byte.eqb m AUTH_TOKEN then "DIGEST-MD5"
  else if Byte.eqb m AUTH_PLAIN then "PLAIN"
  else "ERROR-UNKNOWN".

Abbreviation AuthProtocol := Byte.byte (only parsing).
Definition AUTH_PROTOCOL_NONE : AuthProtocol := Byte.x00.
Definition AUTH_PROTOCOL_SASL : AuthProtocol := Byte.xdf.

Definition AuthProtocol_String (p : AuthProtocol) : string :=
  if Byte.eqb p AUTH_PROTOCOL_NONE then "NONE"
  else if Byte.eqb p AUTH_PROTOCOL_SASL then "SASL"
  else "ERROR-UNKNOWN".

(** [unicode.ToLower] on the ASCII letters, the only ones Go method names of the
    service clients start with. *)
Definition to_lower (a : ascii) : ascii :=
  let n := Ascii.N_of_ascii a in
  if bool_decide (65 ≤ n ∧ n ≤ 90)%N then Ascii.ascii_of_N (n + 32) else a.

(** [fullName] is the name [runtime.FuncForPC] gives the caller. *)
Definition GetCalleeRPCRequestHeaderProto (fullName protocolName : string)
  : outcome RequestHeaderProto :=
  match List.last (Split fullName ".") "" with
  | "" => Panic "index out of range [0] with length 0"
  | String a rest =>
      Ok (mkRequestHeaderProto (Some (String (to_lower a) rest)) (Some protocolName)
            (Some CLIENT_PROTOCOL_VERSION))
  end.

(** ** The protobuf run time

    [protowire] encodes lengths; [proto.Marshal] and [proto.Unmarshal] the
    messages.  A negative second component of [ConsumeVarint] is an error. *)

Class Protowire := {
  AppendVarint : bytes → Z → bytes;
  ConsumeVarint : bytes → Z * Z
}.

Class ProtoMessage (T : Type) := {
  proto_Marshal : T → outcome bytes;
  proto_Unmarshal : bytes → outcome T
}.

(** The documented behaviour: an appended varint of a [uint64] has
    [1 + (bits.Len64(v)-1)/7] bytes, consuming it returns it with its size, and
    consuming anything else reports a negative size. *)
Class ProtowireLaws {PW : Protowire} := {
  AppendVarint_app b v : AppendVarint b v = (b ++ AppendVarint [] v)%list;
  AppendVarint_size v : (0 ≤ v < 2 ^ 64)%Z →
    len (AppendVarint [] v) = if bool_decide (v = 0%Z) then 1%Z else (Z.log2 v `div` 7 + 1)%Z;
  ConsumeVarint_append v rest : (0 ≤ v < 2 ^ 64)%Z →
    ConsumeVarint (AppendVarint [] v ++ rest)%list = (v, len (AppendVarint [] v));
  ConsumeVarint_result b :
    (0 ≤ (ConsumeVarint b).1 < 2 ^ 64)%Z ∧
    ((0 < (ConsumeVarint b).2 ≤ len b)%Z ∨ (ConsumeVarint b).2 < 0)%Z
}.

(** Marshalling then unmarshalling gives the message back. *)
Class ProtoMessageLaws (T : Type) {PM : ProtoMessage T} := {
  proto_roundtrip (m : T) b : proto_Marshal m = Ok b → proto_Unmarshal b = Ok m;
  proto_Unmarshal_no_panic b w : proto_Unmarshal b ≠ Panic w;
  proto_Marshal_no_panic (m : T) w : proto_Marshal m ≠ Panic w
}.
