(* ===== verification/Crypto.v ===== *)
(** * [crypto/md5], [encoding/base64] and [encoding/hex]

    The parts of the Go standard library the DIGEST-MD5 exchange computes with,
    as executable definitions on bytes. *)

From S2P Require Import Prelude GoStrings Wire.

Local Open Scope Z_scope.

(** ** Hexadecimal *)

Definition hex_digit (d : Z) : ascii :=
  Ascii.ascii_of_N (Z.to_N (if bool_decide (d < 10) then d + 48 else d + 87)).

(** [hex.EncodeToString]. *)
Fixpoint hex_EncodeToString (b : bytes) : string :=
  match b with
  | [] => ""%string
  | x :: b' =>
      let z := Z_of_byte x in
      String (hex_digit (z `div` 16)) (String (hex_digit (z mod 16)) (hex_EncodeToString b'))
  end.

(** ** Base64 *)

Definition b64_char (d : Z) : ascii :=
  Ascii.ascii_of_N (Z.to_N
    (if bool_decide (d < 26) then d + 65
     else if bool_decide (d < 52) then d + 71
     else if bool_decide (d < 62) then d - 4
     else if bool_decide (d = 62) then 43 else 47)).

(** [base64.StdEncoding.EncodeToString]. *)
Fixpoint base64_EncodeToString (b : bytes) : string :=
  match b with
  | [] => ""%string
  | [x] =>
      let v := Z_of_byte x * 2 ^ 16 in
      String (b64_char (v `div` 2 ^ 18)) (String (b64_char (v `div` 2 ^ 12 mod 64)) "=="%string)
  | [x; y] =>
      let v := Z_of_byte x * 2 ^ 16 + Z_of_byte y * 2 ^ 8 in
      String (b64_char (v `div` 2 ^ 18)) (String (b64_char (v `div` 2 ^ 12 mod 64))
        (String (b64_char (v `div` 2 ^ 6 mod 64)) "="%string))
  | x :: y :: z :: b' =>
      let v := Z_of_byte x * 2 ^ 16 + Z_of_byte y * 2 ^ 8 + Z_of_byte z in
      String (b64_char (v `div` 2 ^ 18)) (String (b64_char (v `div` 2 ^ 12 mod 64))
        (String (b64_char (v `div` 2 ^ 6 mod 64)) (String (b64_char (v mod 64))
          (base64_EncodeToString b'))))
  end.

(** ** MD5 (RFC 1321) *)

Definition md5_K : list Z :=
  [3614090360; 3905402710; 606105819; 3250441966; 4118548399; 1200080426; 2821735955; 4249261313;
   1770035416; 2336552879; 4294925233; 2304563134; 1804603682; 4254626195; 2792965006; 1236535329;
   4129170786; 3225465664; 643717713; 3921069994; 3593408605; 38016083; 3634488961; 3889429448;
   568446438; 3275163606; 4107603335; 1163531501; 2850285829; 4243563512; 1735328473; 2368359562;
   4294588738; 2272392833; 1839030562; 4259657740; 2763975236; 1272893353; 4139469664; 3200236656;
   681279174; 3936430074; 3572445317; 76029189; 3654602809; 3873151461; 530742520; 3299628645;
   4096336452; 1126891415; 2878612391; 4237533241; 1700485571; 2399980690; 4293915773; 2240044497;
   1873313359; 4264355552; 2734768916; 1309151649; 4149444226; 3174756917; 718787259; 3951481745].

Definition md5_S : list Z :=
  [7; 12; 17; 22; 7; 12; 17; 22; 7; 12; 17; 22; 7; 12; 17; 22;
   5; 9; 14; 20; 5; 9; 14; 20; 5; 9; 14; 20; 5; 9; 14; 20;
   4; 11; 16; 23; 4; 11; 16; 23; 4; 11; 16; 23; 4; 11; 16; 23;
   6; 10; 15; 21; 6; 10; 15; 21; 6; 10; 15; 21; 6; 10; 15; 21].

Abbreviation w32 := (uwrap 32).

Fixpoint le_bytes (n : nat) (z : Z) : bytes :=
  match n with O => [] | S n' => byte_of_Z z :: le_bytes n' (z `div` 256) end.

Fixpoint le_words (b : bytes) : list Z :=
  match b with
  | w0 :: w1 :: w2 :: w3 :: b' =>
      (Z_of_byte w0 + Z_of_byte w1 * 2 ^ 8 + Z_of_byte w2 * 2 ^ 16 + Z_of_byte w3 * 2 ^ 24)
        :: le_words b'
  | _ => []
  end.

(** The message, a one bit, zeros up to 56 modulo 64, and the length in bits. *)
Definition md5_pad (msg : bytes) : bytes :=
  (msg ++ Byte.x80 :: replicate (Z.to_nat ((55 - len msg) mod 64)) Byte.x00
       ++ le_bytes 8 (8 * len msg))%list.

Definition rotl32 (x c : Z) : Z := w32 (Z.lor (Z.shiftl x c) (Z.shiftr x (32 - c))).
Definition not32 (x : Z) : Z := 2 ^ 32 - 1 - x.

Definition md5_state : Type := Z * Z * Z * Z.

Definition md5_round (M : list Z) (st : md5_state) (i : nat) : md5_state :=
  let '(a, b, c, d) := st in
  let j := Z.of_nat i in
  let '(f, g) :=
    if bool_decide (j < 16) then (Z.lor (Z.land b c) (Z.land (not32 b) d), j)
    else if bool_decide (j < 32) then (Z.lor (Z.land d b) (Z.land (not32 d) c), (5 * j + 1) mod 16)
    else if bool_decide (j < 48) then (Z.lxor b (Z.lxor c d), (3 * j + 5) mod 16)
    else (Z.lxor c (Z.lor b (not32 d)), (7 * j) mod 16) in
  let f' := w32 (f + a + nth i md5_K 0 + nth (Z.to_nat g) M 0) in
  (d, w32 (b + rotl32 f' (nth i md5_S 0)), b, c).

Definition md5_block (st : md5_state) (M : list Z) : md5_state :=
  let '(a, b, c, d) := st in
  let '(a', b', c', d') := foldl (md5_round M) st (seq 0 64) in
  (w32 (a + a'), w32 (b + b'), w32 (c + c'), w32 (d + d')).

(** Blocks of sixteen words; [fuel] is the number of blocks. *)
Fixpoint md5_blocks (fuel : nat) (st : md5_state) (ws : list Z) : md5_state :=
  match fuel with
  | O => st
  | S fuel' => md5_blocks fuel' (md5_block st (take 16 ws)) (drop 16 ws)
  end.

(** [md5.Sum]. *)
Definition md5_Sum (msg : bytes) : bytes :=
  let ws := le_words (md5_pad msg) in
  let '(a, b, c, d) :=
    md5_blocks (length ws / 16) (1732584193, 4023233417, 2562383102, 271733878) ws in
  (le_bytes 4 a ++ le_bytes 4 b ++ le_bytes 4 c ++ le_bytes 4 d)%list.

(** ** Facts *)

Lemma length_le_bytes n z : length (le_bytes n z) = n.
Proof. revert z. induction n as [|n IH]; intros z; cbn; by rewrite ?IH. Qed.

(** A digest has sixteen bytes. *)
Lemma length_md5_Sum msg : length (md5_Sum msg) = 16%nat.
Proof.
  unfold md5_Sum. destruct (md5_blocks _ _ _) as [[[a b] c] d].
  by rewrite !length_app, !length_le_bytes.
Qed.

(** The padded message is a whole number of blocks. *)
Lemma md5_pad_blocks msg : len (md5_pad msg) mod 64 = 0.
Proof.
  unfold md5_pad, len. rewrite length_app. cbn [length].
  rewrite length_app, length_replicate, length_le_bytes.
  pose proof (Z.mod_pos_bound (55 - Z.of_nat (length msg)) 64) as Hb.
  rewrite Nat2Z.inj_add, Nat2Z.inj_succ, Nat2Z.inj_add, Z2Nat.id by lia.
  pose proof (Z.div_mod (55 - Z.of_nat (length msg)) 64) as Hd.
  replace (Z.of_nat (length msg) + Z.succ ((55 - Z.of_nat (length msg)) mod 64 + Z.of_nat 8))
    with (0 + (1 - (55 - Z.of_nat (length msg)) `div` 64) * 64) by lia.
  by rewrite Z.mod_add by lia.
Qed.

Lemma hex_length b : String.length (hex_EncodeToString b) = (2 * length b)%nat.
Proof. induction b as [|x b IH]; cbn; [done|]. rewrite IH. lia. Qed.

(** The test suite of RFC 1321 and of RFC 4648. *)
Example md5_test_empty :
  hex_EncodeToString (md5_Sum []) = "d41d8cd98f00b204e9800998ecf8427e"%string.
Proof. vm_compute. reflexivity. Qed.
Example md5_test_alphabet :
  hex_EncodeToString (md5_Sum (bytes_of "abcdefghijklmnopqrstuvwxyz"))
  = "c3fcd3d76192e4007dfb496cca67e13b"%string.
Proof. vm_compute. reflexivity. Qed.
Example md5_test_digits :
  hex_EncodeToString (md5_Sum (bytes_of
    "12345678901234567890123456789012345678901234567890123456789012345678901234567890"))
  = "57edf4a22be3c955ac49da2e2107b67a"%string.
Proof. vm_compute. reflexivity. Qed.
Example base64_test :
  base64_EncodeToString <$> [bytes_of "f"; bytes_of "fo"; bytes_of "foo"; bytes_of "foobar"]
  = ["Zg=="; "Zm8="; "Zm9v"; "Zm9vYmFy"]%string.
Proof. vm_compute. reflexivity. Qed.
