(* ===== verification/Security.v ===== *)
(** * Users, tokens and the DIGEST-MD5 response:
    [src/pkg/yarn/apis/security/ugi.go] and [digestmd5.go] *)

From S2P Require Import Prelude GoStrings Proto Wire Crypto.

Local Open Scope string_scope.

(** ** The environment

    [os/user] and [crypto/rand] answer from the operating system; [E] is its
    state. *)
Class UserApi (E : Type) := { user_Current : M E string }.
Class RandApi (E : Type) := { rand_Read : nat → M E bytes }.

(** ** User and group information *)

(** The map holds pointers, which may be nil when a caller supplied the map. *)
Record UserGroupInformation := mkUserGroupInformation {
  userInfo : option UserInformationProto;
  userTokens : gmap string (option TokenProto)
}.

Definition maxTokens : nat := 16.

(** [currentUserGroupInformation], allocated by the first call that needs it. *)
Record SecState (E : Type) := mkSecState {
  sec_current : option UserGroupInformation;
  sec_env : E
}.
Arguments mkSecState {E}.
Arguments sec_current {E}.
Arguments sec_env {E}.

Section Ugi.
Context {E : Type} {UA : UserApi E}.

Definition in_env {A} (c : M E A) : M (SecState E) A :=
  zoom sec_env (λ e s, mkSecState (sec_current s) e) c.

(** Also [CreateSimpleUGIProto] of [auth.go], which has the same body. *)
Definition CreateCurrentUserInfoProto : M E UserInformationProto :=
  username ← user_Current;
  mret (mkUserInformationProto None (Some username)).

Definition Allocate (ui : option UserInformationProto)
    (tokens : option (gmap string (option TokenProto))) : M E UserGroupInformation :=
  info ← match ui with
         | Some u => mret (Some u)
         | None => r ← try CreateCurrentUserInfoProto;
                   mret (match r with inl u => Some u | inr _ => None end)
         end;
  mret (mkUserGroupInformation info (default ∅ tokens)).

Definition initializeCurrentUser : M (SecState E) unit :=
  s ← get_st;
  match sec_current s with
  | Some _ => mret tt
  | None =>
      ugi ← in_env (Allocate None None);
      modify (λ s, mkSecState (Some ugi) (sec_env s))
  end.

Definition GetCurrentUser : M (SecState E) (option UserGroupInformation) :=
  _ ← initializeCurrentUser; gets sec_current.

Definition GetUserInformation (ugi : UserGroupInformation) : option UserInformationProto :=
  userInfo ugi.
Definition GetUserTokens (ugi : UserGroupInformation) : gmap string (option TokenProto) :=
  userTokens ugi.

Definition AddUserTokenWithAlias (ugi : UserGroupInformation) (alias : string)
    (token : option TokenProto) : UserGroupInformation :=
  match token with
  | None => ugi
  | Some t =>
      if bool_decide (size (userTokens ugi) < maxTokens)
      then mkUserGroupInformation (userInfo ugi) (<[alias := Some t]> (userTokens ugi))
      else ugi
  end.

Definition AddUserToken (ugi : UserGroupInformation) (token : option TokenProto)
  : UserGroupInformation :=
  match token with
  | None => ugi
  | Some _ => AddUserTokenWithAlias ugi (TokenProto_GetService token) token
  end.
End Ugi.

(** ** Challenges *)

(** [value[len(quote):]] then [value[:len(value)-len(quote)]]: the second slice
    panics when the value was a single quote. *)
Definition strip_quotes (value : string) : outcome string :=
  if HasPrefix value dquote && HasSuffix value dquote then
    match tail_str value with
    | "" => Panic "slice bounds out of range [:-1]"
    | v => Ok (drop_last v)
    end
  else Ok value.

Fixpoint collect_params (challengeParams : gmap string string) (splits : list string)
  : outcome (gmap string string) :=
  match splits with
  | [] => Ok challengeParams
  | split :: splits' =>
      match SplitN2 split "=" with
      | [key; value] =>
          v ← strip_quotes value;
          collect_params (<[key := v]> challengeParams) splits'
      | _ => Err ("found invalid param: " +:+ split)
      end
  end.

Definition getChallengeParams (challenge : string) : outcome (gmap string string) :=
  collect_params ∅ (Split challenge ",").

(** One message per parameter that is missing or has the wrong value. *)
Definition param_error (challengeParams : gmap string string) (key : string)
    (good : string → bool) (msg : string) : string :=
  match challengeParams !! key with
  | Some v => if good v then "" else msg
  | None => msg
  end.

Definition nonempty (s : string) : bool := negb (bool_decide (s = "")).

Definition validateChallengeParameters (challengeParams : gmap string string) : outcome unit :=
  let errString :=
    param_error challengeParams "realm" nonempty "missing or invalid realm. "
    +:+ param_error challengeParams "nonce" nonempty "missing or invalid nonce. "
    +:+ param_error challengeParams "qop" (λ v, bool_decide (v = "auth"))
          "missing, invalid or unsupported qop. "
    +:+ param_error challengeParams "charset" (λ v, bool_decide (v = "utf-8"))
          "missing, invalid or unsupported charset. "
    +:+ param_error challengeParams "algorithm" (λ v, bool_decide (v = "md5-sess"))
          "missing, invalid or unsupported algorithm. " in
  if nonempty errString then Err errString else Ok tt.

(** ** Responses *)

Definition md5_string (s : string) : bytes := md5_Sum (bytes_of s).

Section Digest.
Context {E : Type} {RA : RandApi E}.

Definition generateChallengeReponse (username password protocol serverId : string)
    (challengeParams : gmap string string) : M E string :=
  let charset := "charset=utf-8" in
  let quote := dquote in
  let comma := "," in
  let maxbuf := "maxbuf=65536" in
  let nonceCount := "nc=00000001" in
  let nonceCountHex := "00000001" in
  let realm := default "" (challengeParams !! "realm") in
  let nonce := default "" (challengeParams !! "nonce") in
  let qop := default "" (challengeParams !! "qop") in
  let digestUri := protocol +:+ "/" +:+ serverId in
  let method := "AUTHENTICATE" in
  nonceBuffer ← rand_Read 30;
  let encodedNonce := base64_EncodeToString nonceBuffer in
  let hashSize := 16%nat in
  let ha1Part1 := username +:+ ":" +:+ realm +:+ ":" +:+ password in
  let ha1Part2 := ":" +:+ nonce +:+ ":" +:+ encodedNonce in
  let ha1Part1md5 := md5_string ha1Part1 in
  let ha1Input := string_of (take hashSize ha1Part1md5) +:+ ha1Part2 in
  let HA1 := md5_string ha1Input in
  let HA2 := md5_string (method +:+ ":" +:+ digestUri) in
  let ha1Hex := hex_EncodeToString (take hashSize HA1) in
  let ha2Hex := hex_EncodeToString (take hashSize HA2) in
  let responseHashInput :=
    ha1Hex +:+ ":" +:+ nonce +:+ ":" +:+ nonceCountHex +:+ ":" +:+ encodedNonce
      +:+ ":" +:+ qop +:+ ":" +:+ ha2Hex in
  let responseHashHex := hex_EncodeToString (take hashSize (md5_string responseHashInput)) in
  let buffer := concat
    [ [charset; comma];
      ["username="; quote; username; quote; comma];
      ["realm="; quote; realm; quote; comma];
      ["nonce="; quote; nonce; quote; comma];
      [nonceCount; comma];
      ["cnonce="; quote; encodedNonce; quote; comma];
      ["digest-uri="; quote; digestUri; quote; comma];
      [maxbuf; comma];
      ["response="; responseHashHex; comma];
      ["qop="; qop] ] in
  mret (Join buffer "").

Definition GetDigestMD5ChallengeResponse (protocol serverId : string) (challenge : bytes)
    (userToken : option TokenProto) : M E string :=
  match challenge with
  | [] => throw "challenge cannot be empty!"
  | _ =>
      challengeParams ← lift_out (getChallengeParams (string_of challenge));
      _ ← lift_out (validateChallengeParameters challengeParams);
      let username := base64_EncodeToString (default [] (TokenProto_GetIdentifier userToken)) in
      let password := base64_EncodeToString (default [] (TokenProto_GetPassword userToken)) in
      generateChallengeReponse username password protocol serverId challengeParams
  end.
End Digest.
