(* ===== verification/SecurityProofs.v ===== *)
(** * Correctness of the token store and of the DIGEST-MD5 exchange *)

From S2P Require Import Prelude GoStrings Proto Wire Crypto Security.

Local Open Scope string_scope.

(** ** The token store *)

Definition ugi_ok (ugi : UserGroupInformation) : Prop :=
  (size (userTokens ugi) ≤ maxTokens)%nat ∧ map_Forall (λ _ t, t ≠ None) (userTokens ugi).

(** What adding a token does to a user: the identity stays, no alias is lost, and a
    full store is not changed at all, not even to renew a token it holds. *)
Definition ugi_le (ugi ugi' : UserGroupInformation) : Prop :=
  userInfo ugi' = userInfo ugi ∧ dom (userTokens ugi) ⊆ dom (userTokens ugi') ∧
  ((maxTokens ≤ size (userTokens ugi))%nat → userTokens ugi' = userTokens ugi).

#[global] Instance ugi_le_preorder : PreOrder ugi_le.
Proof.
  split; [by intros ugi|]. intros u1 u2 u3 (H1 & H2 & H3) (K1 & K2 & K3).
  split; [congruence|]. split; [by etrans|]. intros Hf.
  pose proof (H3 Hf) as Heq. rewrite <- Heq. apply K3. by rewrite Heq.
Qed.

Lemma fresh_ugi_ok info : ugi_ok (mkUserGroupInformation info ∅).
Proof. split; [cbn; rewrite map_size_empty; lia|apply map_Forall_empty]. Qed.

Lemma add_alias_ok ugi alias token :
  ugi_ok ugi → ugi_ok (AddUserTokenWithAlias ugi alias token).
Proof.
  intros [Hs Hn]. unfold AddUserTokenWithAlias.
  destruct token as [t|]; [|done]. case_bool_decide as Hlt; [|done]. split; cbn.
  - rewrite map_size_insert. case_match; unfold id, maxTokens in *; lia.
  - by apply map_Forall_insert_2.
Qed.

Lemma add_alias_le ugi alias token : ugi_le ugi (AddUserTokenWithAlias ugi alias token).
Proof.
  unfold AddUserTokenWithAlias. destruct token as [t|]; [|done]. case_bool_decide as Hlt; [|done].
  split; [done|]. cbn. split; [rewrite dom_insert; set_solver|lia].
Qed.

Lemma AddUserToken_alias ugi token :
  AddUserToken ugi token = AddUserTokenWithAlias ugi (TokenProto_GetService token) token.
Proof. by destruct token. Qed.

(** ** Reading a challenge *)

Lemma strip_quotes_quoted v : strip_quotes (dquote +:+ v +:+ dquote) = Ok v.
Proof.
  unfold strip_quotes. rewrite HasPrefix_app.
  assert (HasSuffix (dquote +:+ v +:+ dquote) dquote = true) as ->.
  { rewrite <- string_app_assoc. apply HasSuffix_app. }
  cbn [andb]. change (tail_str (dquote +:+ v +:+ dquote)) with (v +:+ dquote).
  assert (drop_last (v +:+ dquote) = v) as Hd by apply drop_last_app.
  destruct (v +:+ dquote) eqn:Hv; [by destruct v|]. by rewrite Hd.
Qed.

Lemma strip_quotes_plain v : HasPrefix v dquote = false → strip_quotes v = Ok v.
Proof. unfold strip_quotes. by intros ->. Qed.

Lemma strip_quotes_cases v :
  (∃ v', strip_quotes v = Ok v') ∨ v = dquote ∧ ∃ w, strip_quotes v = Panic w.
Proof.
  unfold strip_quotes. destruct (HasPrefix v dquote) eqn:Hp; [|by eauto].
  destruct (HasSuffix v dquote); [|by eauto]. cbn [andb].
  apply HasPrefix_inv in Hp as [r ->]. change (tail_str (dquote +:+ r)) with r.
  destruct r as [|a r]; [|by eauto]. right. by eauto.
Qed.

(** A parameter the parser accepts. *)
Definition param_ok (p : string) : Prop := ∃ k v, SplitN2 p "=" = [k; v] ∧ v ≠ dquote.

Lemma collect_ok m p l : param_ok p → ∃ m', collect_params m (p :: l) = collect_params m' l.
Proof.
  intros (k & v & Hs & Hv). cbn [collect_params]. rewrite Hs.
  destruct (strip_quotes_cases v) as [[v' ->]|[-> _]]; [|done]. cbn. eauto.
Qed.

Lemma param_ok_dec p :
  param_ok p ∨ (∃ e, ∀ m l, collect_params m (p :: l) = Err e) ∨
  (∃ k w, p = k +:+ String "=" dquote ∧ contains_byte "=" k = false ∧
          ∀ m l, collect_params m (p :: l) = Panic w).
Proof.
  cbn [collect_params]. unfold param_ok.
  destruct (SplitN2 p "=") as [|k [|v [|]]] eqn:Hs; try by eauto.
  destruct (strip_quotes_cases v) as [[v' Hv]|[-> [w Hw]]].
  - left. exists k, v. split; [done|]. by intros ->.
  - right. right. exists k, w. apply SplitN2_inv in Hs as [-> Hk]. by rewrite Hw.
Qed.

(** Parsing a challenge panics exactly when a well-formed prefix of parameters
    is followed by one whose value is a lone double quote. *)
Theorem challenge_panics_iff challenge :
  (∃ w, getChallengeParams challenge = Panic w) ↔
  ∃ l1 k l2, Split challenge "," = (l1 ++ (k +:+ String "=" dquote) :: l2)%list ∧
    contains_byte "=" k = false ∧ Forall param_ok l1.
Proof.
  unfold getChallengeParams. generalize (∅ : gmap string string).
  induction (Split challenge ",") as [|p l IH]; intros m.
  { split; [by intros [w [=]]|]. intros ([] & k & l2 & [=] & _). }
  destruct (param_ok_dec p) as [Hp|[[e He]|(k & w & -> & Hk & Hw)]].
  - destruct (collect_ok m p l Hp) as [m' ->]. rewrite IH. split.
    + intros (l1 & k & l2 & -> & ? & ?). exists (p :: l1), k, l2. auto.
    + intros ([|p' l1] & k & l2 & Heq & Hk & Hall).
      { injection Heq as -> ->. destruct Hp as (k' & v & Hs & Hv).
        rewrite SplitN2_app in Hs by done. congruence. }
      injection Heq as <- ->. inversion Hall; subst. eauto 10.
  - rewrite He. split; [by intros [w [=]]|]. intros ([|p' l1] & k & l2 & Heq & Hk & Hall).
    + injection Heq as -> ->. specialize (He ∅ []). cbn [collect_params] in He.
      by rewrite SplitN2_app in He.
    + injection Heq as <- ->. inversion Hall as [|? ? Hp]; subst.
      destruct (collect_ok ∅ p [] Hp) as [m' Hm]. by rewrite He in Hm.
  - rewrite Hw. split; [|by eauto]. intros _. by exists [], k, l.
Qed.

(** A challenge is accepted exactly when it names a realm and a nonce and asks for
    [auth], [utf-8] and [md5-sess]. *)
Lemma challenge_accepted (ps : gmap string string) :
  validateChallengeParameters ps = Ok tt ↔
  (∃ r, ps !! "realm" = Some r ∧ r ≠ "") ∧ (∃ n, ps !! "nonce" = Some n ∧ n ≠ "") ∧
  ps !! "qop" = Some "auth" ∧ ps !! "charset" = Some "utf-8" ∧ ps !! "algorithm" = Some "md5-sess".
Proof.
  assert (∀ key good a msg, param_error ps key good (String a msg) = "" ↔
            ∃ v, ps !! key = Some v ∧ good v = true) as Hpe.
  { intros key good a msg. unfold param_error. destruct (ps !! key) as [v|].
    - destruct (good v) eqn:Hg; split; [by eauto|done|done|]. intros (v' & [= <-] & ?). congruence.
    - split; [done|]. by intros (v & [=] & _). }
  assert (∀ a b, a +:+ b = "" ↔ a = "" ∧ b = "") as Happ.
  { intros [|] b; cbn; split; [done|by intros [_ ->]|done|by intros [? _]]. }
  assert (∀ key x, (∃ v, ps !! key = Some v ∧ bool_decide (v = x) = true) ↔ ps !! key = Some x) as Heq.
  { intros key x. split; [intros (v & Hv & Hd)|intros Hv; exists x].
    - apply bool_decide_eq_true in Hd. by subst.
    - by rewrite bool_decide_eq_true_2. }
  assert (∀ key, (∃ v, ps !! key = Some v ∧ nonempty v = true) ↔ ∃ r, ps !! key = Some r ∧ r ≠ "") as Hne.
  { intros key. unfold nonempty. f_equiv. intros v. by rewrite negb_true_iff, bool_decide_eq_false. }
  unfold validateChallengeParameters.
  transitivity (nonempty (param_error ps "realm" nonempty "missing or invalid realm. "
    +:+ param_error ps "nonce" nonempty "missing or invalid nonce. "
    +:+ param_error ps "qop" (λ v, bool_decide (v = "auth")) "missing, invalid or unsupported qop. "
    +:+ param_error ps "charset" (λ v, bool_decide (v = "utf-8"))
          "missing, invalid or unsupported charset. "
    +:+ param_error ps "algorithm" (λ v, bool_decide (v = "md5-sess"))
          "missing, invalid or unsupported algorithm. ") = false).
  { by destruct (nonempty _). }
  unfold nonempty at 1. rewrite negb_false_iff, bool_decide_eq_true.
  by rewrite !Happ, !Hpe, !Hne, !Heq.
Qed.

(** ** Writing a response *)

(** The formulas of RFC 2831 for the [md5-sess] algorithm and the [auth] quality
    of protection, without an authorization id. *)
Module RFC2831.
Definition H (s : string) : string := string_of (md5_Sum (bytes_of s)).
Definition HEX (s : string) : string := hex_EncodeToString (bytes_of s).
Definition KD (k s : string) : string := H (k +:+ ":" +:+ s).

Definition A1 (username realm passwd nonce cnonce : string) : string :=
  H (username +:+ ":" +:+ realm +:+ ":" +:+ passwd) +:+ ":" +:+ nonce +:+ ":" +:+ cnonce.
Definition A2 (digest_uri : string) : string := "AUTHENTICATE:" +:+ digest_uri.

Definition response (username realm passwd nonce nc cnonce qop digest_uri : string) : string :=
  HEX (KD (HEX (H (A1 username realm passwd nonce cnonce)))
         (nonce +:+ ":" +:+ nc +:+ ":" +:+ cnonce +:+ ":" +:+ qop +:+ ":"
            +:+ HEX (H (A2 digest_uri)))).
End RFC2831.

(** A field as it is written (key, value, quoted or not) *)
Definition render (f : string * string * bool) : string :=
  let '(k, v, quoted) := f in
  k +:+ String "=" (if quoted : bool then dquote +:+ v +:+ dquote else v).

Definition field_ok (f : string * string * bool) : bool :=
  let '(k, v, quoted) := f in
  negb (contains_byte "=" k) && negb (contains_byte "," (render f)) &&
  (quoted || negb (HasPrefix v dquote)).

Lemma collect_fields m l :
  Forall (λ f, field_ok f = true) l →
  collect_params m (render <$> l) = Ok (insert_all ((λ f, (f.1.1, f.1.2)) <$> l) m).
Proof.
  intros Hl. revert m. induction Hl as [|[[k v] q] l Hf Hl IH]; intros m; [done|].
  unfold field_ok in Hf. apply andb_prop in Hf as [[Hk%negb_true_iff _]%andb_prop Hq].
  cbn [fmap list_fmap collect_params].
  unfold render at 1. rewrite SplitN2_app by done.
  assert (strip_quotes (if q then dquote +:+ v +:+ dquote else v) = Ok v) as ->.
  { destruct q; [apply strip_quotes_quoted|]. apply strip_quotes_plain. by apply negb_true_iff in Hq. }
  cbn -[insert_all]. rewrite IH. unfold insert_all. done.
Qed.

Lemma read_fields l :
  l ≠ [] → Forall (λ f, field_ok f = true) l →
  getChallengeParams (Join (render <$> l) ",") = Ok (insert_all ((λ f, (f.1.1, f.1.2)) <$> l) ∅).
Proof.
  intros Hne Hl. unfold getChallengeParams. rewrite Split_Join.
  - by apply collect_fields.
  - by destruct l.
  - apply list.Forall_fmap. eapply list.Forall_impl; [exact Hl|]. intros [[k v] q].
    unfold field_ok, compose. by intros [[_ H%negb_true_iff]%andb_prop _]%andb_prop.
Qed.

(** Hexadecimal and base64 text has no comma and no quote. *)
Lemma range_check (P : Z → bool) n d :
  forallb P (seqZ 0 n) = true → (0 ≤ d < n)%Z → P d = true.
Proof.
  intros H Hd. rewrite forallb_forall in H. apply H, list_elem_of_In, elem_of_seqZ. lia.
Qed.

Definition plain_char (a : ascii) : bool := negb (Ascii.eqb a ",") && negb (Ascii.eqb a (Ascii.ascii_of_nat 34)).
Fixpoint plain (s : string) : bool :=
  match s with "" => true | String a s' => plain_char a && plain s' end.

Lemma plain_no_comma s : plain s = true → contains_byte "," s = false.
Proof.
  induction s as [|a s IH]; [done|]. cbn [plain contains_byte].
  intros [Ha Hs]%andb_prop. rewrite IH by done. unfold plain_char in Ha.
  apply andb_prop in Ha as [Ha%negb_true_iff _]. by rewrite Ha.
Qed.

Lemma plain_no_quote s : plain s = true → HasPrefix s dquote = false.
Proof.
  destruct s as [|a s]; [done|]. cbn [plain]. intros [[_ Ha%negb_true_iff]%andb_prop _]%andb_prop.
  unfold HasPrefix, dquote. cbn [String.prefix]. destruct (Ascii.ascii_dec _ a) as [<-|]; [|done].
  by rewrite Ascii.eqb_refl in Ha.
Qed.

Lemma hex_plain b : plain (hex_EncodeToString b) = true.
Proof.
  induction b as [|x b IH]; [done|]. cbn [hex_EncodeToString plain]. rewrite IH.
  pose proof (Z_of_byte_range x).
  rewrite !(range_check (λ d, plain_char (hex_digit d)) 16); [done|vm_compute; done| |vm_compute; done|].
  - apply Z.mod_pos_bound. lia.
  - split; [apply Z.div_pos; lia|apply Z.div_lt_upper_bound; lia].
Qed.

Lemma b64_char_plain d : (0 ≤ d < 64)%Z → plain_char (b64_char d) = true.
Proof. apply (range_check (λ d, plain_char (b64_char d))). vm_compute. done. Qed.

Lemma base64_plain b : plain (base64_EncodeToString b) = true.
Proof.
  assert (∀ v, (0 ≤ v < 2 ^ 24)%Z → (0 ≤ v `div` 2 ^ 18 < 64)%Z) as Hd.
  { intros v Hv. split; [apply Z.div_pos; lia|apply Z.div_lt_upper_bound; lia]. }
  assert (∀ v, (0 ≤ v mod 64 < 64)%Z) as Hm by (intros v; apply Z.mod_pos_bound; lia).
  remember (length b) as n eqn:Hn. revert b Hn.
  induction (lt_wf n) as [n _ IH]; intros b ->.
  destruct b as [|x [|y [|z b]]]; [done|..];
    try pose proof (Z_of_byte_range x); try pose proof (Z_of_byte_range y);
    try pose proof (Z_of_byte_range z);
    cbn [base64_EncodeToString plain]; rewrite !b64_char_plain by (apply Hm || apply Hd; lia); try done.
  cbn [andb]. eapply IH; [|done]. cbn. lia.
Qed.

Lemma md5_string_take s : take 16 (md5_string s) = md5_string s.
Proof. apply take_ge. unfold md5_string. by rewrite length_md5_Sum. Qed.

Lemma HEX_H s : RFC2831.HEX (RFC2831.H s) = hex_EncodeToString (md5_string s).
Proof. unfold RFC2831.HEX, RFC2831.H. by rewrite String.list_byte_of_string_of_list_byte. Qed.

Section Response.
Context {E : Type} {RA : RandApi E}.

(** The fields of the response to a challenge with these parameters. *)
Definition response_fields (username passwd realm nonce cnonce digestUri : string)
  : list (string * string * bool) :=
  [ ("charset", "utf-8", false); ("username", username, true); ("realm", realm, true);
    ("nonce", nonce, true); ("nc", "00000001", false); ("cnonce", cnonce, true);
    ("digest-uri", digestUri, true); ("maxbuf", "65536", false);
    ("response", RFC2831.response username realm passwd nonce "00000001" cnonce "auth" digestUri,
     false);
    ("qop", "auth", false) ].

Lemma response_rendered username passwd protocol serverId realm nonce ps e cn e' :
  rand_Read 30 e = (Ok cn, e') →
  ps !! "realm" = Some realm → ps !! "nonce" = Some nonce → ps !! "qop" = Some "auth" →
  generateChallengeReponse username passwd protocol serverId ps e =
  (Ok (Join (render <$> response_fields username passwd realm nonce (base64_EncodeToString cn)
              (protocol +:+ "/" +:+ serverId)) ","), e').
Proof.
  intros Hr H1 H2 H3. unfold generateChallengeReponse. rewrite H1, H2, H3.
  erewrite M_bind_ok by exact Hr. unfold mret, M_ret. apply (f_equal (λ x, (Ok x, e'))).
  unfold response_fields, RFC2831.response, RFC2831.KD, RFC2831.A1, RFC2831.A2.
  rewrite !HEX_H, !md5_string_take. unfold RFC2831.H. fold (md5_string).
  cbn -[md5_string hex_EncodeToString base64_EncodeToString String.append].
  unfold dquote. cbn [String.append]. rewrite ?string_app_assoc. cbn [String.append].
  rewrite ?string_app_assoc. cbn [String.append]. reflexivity.
Qed.

Lemma drop_last_no_byte c s : contains_byte c s = false → contains_byte c (drop_last s) = false.
Proof.
  induction s as [|a s IH]; [done|]. cbn [contains_byte drop_last].
  intros [Ha Hs]%orb_false_iff. destruct s; [done|].
  change (Ascii.eqb a c || contains_byte c (drop_last (String a0 s)) = false).
  by rewrite Ha, IH.
Qed.

Lemma strip_quotes_no_byte c v v' :
  strip_quotes v = Ok v' → contains_byte c v = false → contains_byte c v' = false.
Proof.
  unfold strip_quotes. destruct (_ && _); [|by intros [= <-]].
  destruct v as [|a v]; [done|]. cbn [tail_str].
  destruct v as [|b v]; [done|]. intros [= <-]. cbn [contains_byte].
  intros [_ H]%orb_false_iff. by apply (drop_last_no_byte c (String b v)).
Qed.

Lemma collect_no_byte c m l m' :
  collect_params m l = Ok m' → Forall (λ p, contains_byte c p = false) l →
  map_Forall (λ _ v, contains_byte c v = false) m →
  map_Forall (λ _ v, contains_byte c v = false) m'.
Proof.
  intros Hc Hl. revert m Hc. induction Hl as [|p l Hp _ IH]; intros m; [by intros [= <-]|].
  cbn [collect_params]. destruct (SplitN2 p "=") as [|k [|v [|]]] eqn:Hs; try done.
  unfold mbind, outcome_bind. destruct (strip_quotes v) as [v'| |] eqn:Hv; [|done..].
  intros Hc Hm. eapply IH; [done|]. apply map_Forall_insert_2; [|done].
  eapply strip_quotes_no_byte; [done|]. apply SplitN2_inv in Hs as [-> _].
  rewrite contains_byte_app in Hp. apply orb_false_iff in Hp as [_ Hp].
  cbn [contains_byte] in Hp. by apply orb_false_iff in Hp as [_ ?].
Qed.

Lemma challenge_no_comma challenge ps k v :
  getChallengeParams challenge = Ok ps → ps !! k = Some v → contains_byte "," v = false.
Proof.
  intros Hc Hv.
  exact (collect_no_byte "," ∅ _ ps Hc (Split_pieces challenge ",") (map_Forall_empty _) k v Hv).
Qed.

Lemma field_ok_quoted k v :
  contains_byte "=" k = false → contains_byte "," k = false → contains_byte "," v = false →
  field_ok (k, v, true) = true.
Proof.
  intros H1 H2 H3. unfold field_ok, render. rewrite H1. cbn [negb andb orb].
  rewrite contains_byte_app, H2. cbn -[contains_byte]. cbn [contains_byte].
  rewrite contains_byte_app, H3. done.
Qed.

Lemma field_ok_plain k v :
  contains_byte "=" k = false → contains_byte "," k = false → plain v = true →
  field_ok (k, v, false) = true.
Proof.
  intros H1 H2 H3. unfold field_ok, render. rewrite H1, plain_no_quote by done.
  rewrite contains_byte_app, H2. cbn [contains_byte]. by rewrite (plain_no_comma v H3).
Qed.

Lemma response_fields_ok username passwd realm nonce cnonce uri :
  contains_byte "," username = false → contains_byte "," realm = false →
  contains_byte "," nonce = false → contains_byte "," cnonce = false →
  contains_byte "," uri = false →
  Forall (λ f, field_ok f = true) (response_fields username passwd realm nonce cnonce uri).
Proof.
  intros. unfold response_fields.
  repeat constructor; try (by apply field_ok_quoted); apply field_ok_plain; try done.
  apply hex_plain.
Qed.

(** C15 The answer to an accepted challenge, for a service whose protocol and server id
    contain no comma, is well formed and right: it parses
    with the client's own parser, echoes realm and nonce, carries the token's
    identifier as user name, and its [response] field is the RFC 2831 value for
    the token's password, the fresh client nonce and the service. *)
Theorem digest_response_answers_challenge protocol serverId challenge tok ps e cn e' :
  getChallengeParams (string_of challenge) = Ok ps →
  validateChallengeParameters ps = Ok tt →
  rand_Read 30 e = (Ok cn, e') →
  contains_byte "," protocol = false → contains_byte "," serverId = false →
  let username := base64_EncodeToString (default [] (TokenProto_GetIdentifier tok)) in
  let passwd := base64_EncodeToString (default [] (TokenProto_GetPassword tok)) in
  ∃ resp realm nonce,
    GetDigestMD5ChallengeResponse protocol serverId challenge tok e = (Ok resp, e') ∧
    ps !! "realm" = Some realm ∧ ps !! "nonce" = Some nonce ∧
    getChallengeParams resp = Ok (insert_all ((λ f, (f.1.1, f.1.2)) <$>
      response_fields username passwd realm nonce (base64_EncodeToString cn)
        (protocol +:+ "/" +:+ serverId)) ∅).
Proof.
  intros Hps Hval Hr Hproto Hserver username passwd.
  destruct (proj1 (challenge_accepted ps) Hval) as ((realm & Hrealm & _) & (nonce & Hnonce & _) & Hqop & _).
  eexists _, realm, nonce. split.
  { unfold GetDigestMD5ChallengeResponse. destruct challenge as [|c0 cs]; [done|].
    erewrite M_bind_ok by (unfold lift_out; by rewrite Hps).
    erewrite M_bind_ok by (unfold lift_out; by rewrite Hval).
    by apply response_rendered. }
  split; [done|]. split; [done|]. apply read_fields; [done|].
  apply response_fields_ok; try (apply plain_no_comma, base64_plain);
    try (by eapply challenge_no_comma).
  by rewrite contains_byte_app, Hproto.
Qed.
End Response.

Section Witnesses.
#[local] Instance zero_rand : RandApi unit := {| rand_Read n := mret (replicate n Byte.x00) |}.

Definition tok : TokenProto := mkTokenProto (Some (bytes_of "id")) (Some (bytes_of "secret"))
  (Some "YARN_NM_TOKEN") (Some "10.0.0.1:8032").

Definition quoted (s : string) : string := dquote +:+ s +:+ dquote.
Definition challenge_text : string :=
  "realm=" +:+ quoted "default" +:+ ",nonce=" +:+ quoted "bm9uY2U=" +:+ ",qop="
    +:+ quoted "auth" +:+ ",charset=utf-8,algorithm=md5-sess".
Definition challenge_ps : gmap string string :=
  match getChallengeParams challenge_text with Ok m => m | _ => ∅ end.

Lemma digest_response_answers_challenge_witness :
  ∃ resp realm nonce,
    GetDigestMD5ChallengeResponse "yarn" "default" (bytes_of challenge_text) (Some tok) tt
      = (Ok resp, tt) ∧
    challenge_ps !! "realm" = Some realm ∧ challenge_ps !! "nonce" = Some nonce ∧
    getChallengeParams resp = Ok (insert_all ((λ f, (f.1.1, f.1.2)) <$>
      response_fields "aWQ=" "c2VjcmV0" realm nonce (base64_EncodeToString (replicate 30 Byte.x00))
        "yarn/default") ∅).
Proof.
  apply (digest_response_answers_challenge "yarn" "default" (bytes_of challenge_text) (Some tok)
           challenge_ps tt (replicate 30 Byte.x00) tt); vm_compute; reflexivity.
Defined.
End Witnesses.
