(* ===== verification/Net.v ===== *)
(** * The network: [net.Dialer] and [net.TCPConn]

    What the IPC client uses of Go's [net] package.  The behaviour of the peers is
    a script fixed in advance: for each address the outcomes of the successive
    dials, and for each connection the segments its reads return and the faults
    of its other operations.  A run of the client against any server is a run
    against the script of what that server did. *)

From S2P Require Import Prelude GoStrings Proto Wire Security.

Local Open Scope string_scope.

(** A read returns at least one byte or an error. *)
Inductive InEvent := Seg (b : Byte.byte) (bs : bytes) | ReadErr (e : error).

(** One entry per [Write], [SetDeadline] or [SetNoDelay]: [Some (n, e)] fails with
    [e] after [n] bytes.  After the script every operation succeeds. *)
Abbreviation fault := (option (nat * error)) (only parsing).

Record Socket := mkSocket {
  sock_addr : string;
  sock_out : bytes;
  sock_in : list InEvent;
  sock_faults : list fault;
  sock_open : bool
}.

Record Peer := mkPeer {
  peer_tcp : bool;
  peer_in : list InEvent;
  peer_faults : list fault
}.

(** The sockets the process has opened, the peers, and the state of the security
    package with the operating system behind it. *)
Record Net (E : Type) := mkNet {
  net_socks : gmap positive Socket;
  net_peers : gmap string (list (Peer + error));
  net_sec : SecState E
}.
Arguments mkNet {E}.
Arguments net_socks {E}.
Arguments net_peers {E}.
Arguments net_sec {E}.

Definition closed_err : error := "use of closed network connection".

Section Ops.
Context {E : Type}.

Definition put_sock (p : positive) (s : Socket) (n : Net E) : Net E :=
  mkNet (<[p := s]> (net_socks n)) (net_peers n) (net_sec n).

(** Run an operation on an open socket. *)
Definition on_sock {A} (p : positive) (f : Socket → outcome A * Socket) : M (Net E) A := λ n,
  match net_socks n !! p with
  | None => (Panic "invalid memory address or nil pointer dereference", n)
  | Some s =>
      if sock_open s
      then let '(r, s') := f s in (r, put_sock p s' n)
      else (Err closed_err, n)
  end.

(** An operation that sends [data] (nothing, for the setters). *)
Definition send_op (data : bytes) (s : Socket) : outcome unit * Socket :=
  let sent d t := mkSocket (sock_addr s) (sock_out s ++ d)%list (sock_in s) t (sock_open s) in
  match sock_faults s with
  | [] => (Ok tt, sent data [])
  | None :: t => (Ok tt, sent data t)
  | Some (n, e) :: t => (Err e, sent (take n data) t)
  end.

Definition conn_Write (p : positive) (data : bytes) : M (Net E) unit := on_sock p (send_op data).
Definition conn_SetDeadline (p : positive) : M (Net E) unit := on_sock p (send_op []).
Definition conn_SetNoDelay (p : positive) (noDelay : bool) : M (Net E) unit :=
  on_sock p (send_op []).

(** [con.Read(buf)] with a buffer of [n] bytes; an empty buffer reads nothing. *)
Definition read_op (n : nat) (s : Socket) : outcome bytes * Socket :=
  let left l := mkSocket (sock_addr s) (sock_out s) l (sock_faults s) (sock_open s) in
  match n with
  | O => (Ok [], s)
  | S n' =>
      match sock_in s with
      | [] => (Err "EOF", s)
      | ReadErr e :: t => (Err e, left t)
      | Seg b bs :: t =>
          (Ok (b :: take n' bs),
           left (match drop n' bs with [] => t | b' :: bs' => Seg b' bs' :: t end))
      end
  end.
Definition conn_Read (p : positive) (n : nat) : M (Net E) bytes := on_sock p (read_op n).

(** [io.ReadFull(bufio.NewReader(con), buf)]: segments are read until the buffer
    of [n] bytes is full.  What the buffered reader has read beyond that is lost
    with it. *)
Fixpoint read_full (n : nat) (got : bytes) (evs : list InEvent) : outcome bytes * list InEvent :=
  match n with
  | O => (Ok got, evs)
  | S n' =>
      match evs with
      | [] => (Err (match got with [] => "EOF" | _ => "unexpected EOF" end), [])
      | ReadErr e :: t => (Err e, t)
      | Seg b bs :: t => read_full (n' - length bs) (got ++ b :: take n' bs)%list t
      end
  end.
Definition conn_ReadFull (p : positive) (n : nat) : M (Net E) bytes :=
  on_sock p (λ s, let '(r, evs) := read_full n [] (sock_in s) in
                  (r, mkSocket (sock_addr s) (sock_out s) evs (sock_faults s) (sock_open s))).

Definition conn_Close (p : positive) : M (Net E) unit :=
  on_sock p (λ s, (Ok tt, mkSocket (sock_addr s) (sock_out s) (sock_in s) (sock_faults s) false)).

(** [d.Dial("tcp", addr)]; the flag says whether it is a [*net.TCPConn]. *)
Definition net_Dial (addr : string) : M (Net E) (positive * bool) := λ n,
  match net_peers n !! addr with
  | Some (inl peer :: rest) =>
      let p := fresh (dom (net_socks n)) in
      (Ok (p, peer_tcp peer),
       mkNet (<[p := mkSocket addr [] (peer_in peer) (peer_faults peer) true]> (net_socks n))
         (<[addr := rest]> (net_peers n)) (net_sec n))
  | Some (inr e :: rest) => (Err e, mkNet (net_socks n) (<[addr := rest]> (net_peers n)) (net_sec n))
  | _ => (Err ("dial tcp " +:+ addr +:+ ": connect: connection refused"), n)
  end.

Definition in_sec {A} (c : M (SecState E) A) : M (Net E) A :=
  zoom net_sec (λ s n, mkNet (net_socks n) (net_peers n) s) c.
Definition in_os {A} (c : M E A) : M (Net E) A := in_sec (in_env c).
End Ops.
