(* ===== verification/Ipc.v ===== *)
(** * The Hadoop IPC client: [src/pkg/yarn/client/ipc/client.go]

    One call dials, writes the connection header, negotiates SASL when the user
    holds a token for the server, writes the connection context and the request,
    and reads one response.  Messages travel in frames: a 32-bit big-endian
    length, then varint-delimited protobuf messages. *)

From S2P Require Import Prelude GoStrings Proto Wire Security Net.

Local Open Scope string_scope.

(** ** Data *)

Record Client := mkClient {
  ClientId : option bytes;
  Ugi : option UserInformationProto;
  ServerAddress : string;
  TCPNoDelay : bool
}.

Record connection_id := mkConnectionId {
  connid_user : string;
  connid_protocol : string;
  connid_address : string;
  connid_ClientId : bytes
}.

(** [Client.String], with the UUID library's rendering of the identity. *)
Definition Client_String (uuid_String : option bytes → string) (c : Client) : string :=
  "<clientId:" +:+ uuid_String (ClientId c) +:+ ", server:" +:+ ServerAddress c +:+ ">".

Definition SASL_RPC_DUMMY_CLIENT_ID : bytes := [].
Definition SASL_RPC_CALL_ID : Z := -33.
Definition SASL_RPC_INVALID_RETRY_COUNT : Z := -1.

(** ** Slices *)

Definition out_of_range : string := "slice bounds out of range".

(** [b[lo:hi]] on a slice whose capacity is its length. *)
Definition slice (b : bytes) (lo hi : Z) : outcome bytes :=
  if bool_decide (0 ≤ lo ∧ lo ≤ hi ∧ hi ≤ len b)%Z
  then Ok (take (Z.to_nat (hi - lo)) (drop (Z.to_nat lo) b))
  else Panic out_of_range.

(** [make([]byte, n)]. *)
Definition make_bytes (n : Z) : outcome nat :=
  if bool_decide (0 ≤ n)%Z then Ok (Z.to_nat n) else Panic "makeslice: len out of range".

(** Dereferencing a pointer. *)
Definition deref {A} (p : option A) : outcome A :=
  match p with
  | Some a => Ok a
  | None => Panic "invalid memory address or nil pointer dereference"
  end.

(** ** Frames *)

(** The loop of [sizeVarint] on an [int]; [None] when [fuel] is spent. *)
Fixpoint size_loop (fuel : nat) (n x : Z) : option Z :=
  match fuel with
  | O => None
  | S fuel' =>
      let n' := (n + 1)%Z in
      let x' := Z.shiftr x 7 in
      if bool_decide (x' = 0%Z) then Some n' else size_loop fuel' n' x'
  end.

(** Ten rounds shift out 70 bits; the argument is always a [len]. *)
Definition sizeVarint (x : Z) : Z := default 0%Z (size_loop 10 0 x).

Section Ipc.
Context {E : Type} {UA : UserApi E} {RA : RandApi E} {PW : Protowire}.
Context {P1 : ProtoMessage RpcRequestHeaderProto} {P2 : ProtoMessage RpcResponseHeaderProto}.
Context {P3 : ProtoMessage IpcConnectionContextProto} {P4 : ProtoMessage RequestHeaderProto}.
Context {P5 : ProtoMessage RpcSaslProto}.
(** The capacity the run time gives a byte field of this length when it is
    unmarshalled; the bytes past the length are zero. *)
Context (cap_of : nat → nat).

Definition writeDelimitedBytes (conn : positive) (data : bytes) : M (Net E) unit :=
  _ ← conn_Write conn (AppendVarint [] (uint64 (len data)));
  conn_Write conn data.

(** The size of a list of messages in a frame. *)
Definition delimited_size (msgs : list bytes) : Z :=
  foldr (λ m acc, (len m + sizeVarint (len m) + acc)%Z) 0%Z msgs.

(** The part the three senders share: the total length, then the messages. *)
Definition write_frame (conn : positive) (msgs : list bytes) : M (Net E) unit :=
  totalLengthBytes ← lift_out (ConvertFixedToBytes (FixedInt32 (int32 (delimited_size msgs))));
  _ ← conn_Write conn totalLengthBytes;
  for_each msgs (writeDelimitedBytes conn).

Definition readDelimited {T} {PM : ProtoMessage T} (rawData : bytes) (msg : T)
  : outcome (Z * T) :=
  let '(headerLength, off) := ConsumeVarint rawData in
  if bool_decide (off = 0%Z) then Ok ((-1)%Z, msg)
  else
    let hi := int64 (off + int64 headerLength) in
    b ← slice rawData off hi;
    m ← proto_Unmarshal b;
    mret (hi, m).

(** ** Connecting *)

Definition findUsableTokenForService (service : string) : M (Net E) (option TokenProto) :=
  user ← in_sec GetCurrentUser;
  ugi ← lift_out (deref user);
  let tokens := GetUserTokens ugi in
  if bool_decide (size tokens = 0%nat) then mret None
  else mret (tokens !! service ≫= id).

Definition setupConnection (c : Client) : M (Net E) positive :=
  '(conn, ok) ← net_Dial (ServerAddress c);
  if negb ok then throw "net.TCPConn type assert failed"
  else _ ← conn_SetNoDelay conn (TCPNoDelay c); mret conn.

Definition writeConnectionHeader (conn : positive) (authProtocol : AuthProtocol)
  : M (Net E) unit :=
  _ ← conn_SetDeadline conn;
  _ ← conn_Write conn RPC_HEADER;
  _ ← conn_Write conn VERSION;
  serviceClass ← lift_out (ConvertFixedToBytes (FixedByte RPC_SERVICE_CLASS));
  _ ← conn_Write conn serviceClass;
  authProtocolBytes ← lift_out (ConvertFixedToBytes (FixedByte authProtocol));
  conn_Write conn authProtocolBytes.

(** [CreateSimpleUGIProto] of [auth.go]. *)
Definition CreateSimpleUGIProto : M (Net E) UserInformationProto :=
  in_os CreateCurrentUserInfoProto.

Definition request_header (callId : Z) (clientId : bytes) (retryCount : Z)
  : RpcRequestHeaderProto :=
  mkRpcRequestHeaderProto (Some RPC_PROTOCOL_BUFFFER) (Some RPC_FINAL_PACKET) (Some callId)
    (Some clientId) (Some retryCount) None None None.

Definition writeConnectionContext (c : Client) (conn : positive) (connectionId : connection_id)
  : M (Net E) unit :=
  _ ← conn_SetDeadline conn;
  r ← try CreateSimpleUGIProto;
  let ugi := match r with inl u => Some u | inr _ => None end in
  let ipcCtxProto := mkIpcConnectionContextProto ugi (Some (connid_protocol connectionId)) in
  clientId ← lift_out (deref (ClientId c));
  rpcReqHeaderProtoBytes ← lift_out (proto_Marshal
    (request_header (-3) clientId RPC_DEFAULT_RETRY_COUNT));
  ipcCtxProtoBytes ← lift_out (proto_Marshal ipcCtxProto);
  write_frame conn [rpcReqHeaderProtoBytes; ipcCtxProtoBytes].

(** ** SASL *)

Definition sendSaslMessage (conn : positive) (message : RpcSaslProto) : M (Net E) unit :=
  saslRpcHeaderProtoBytes ← lift_out (proto_Marshal
    (request_header SASL_RPC_CALL_ID SASL_RPC_DUMMY_CLIENT_ID SASL_RPC_INVALID_RETRY_COUNT));
  saslRpcMessageProtoBytes ← lift_out (proto_Marshal message);
  _ ← conn_SetDeadline conn;
  write_frame conn [saslRpcHeaderProtoBytes; saslRpcMessageProtoBytes].

(** Reading into a buffer of [n] zero bytes with a single [Read]. *)
Definition read_once (conn : positive) (n : nat) : M (Net E) bytes :=
  got ← conn_Read conn n;
  mret (got ++ replicate (n - length got) Byte.x00)%list.

Definition checkSaslRpcHeader (h : RpcResponseHeaderProto) : outcome unit :=
  match RpcResponseHeaderProto_ClientId h with
  | None => Ok tt
  | Some id => if bool_decide (id = SASL_RPC_DUMMY_CLIENT_ID) then Ok tt
               else Err "Incorrect clientId"
  end.

(** The error a failed RPC is reported with: the exception class replaces the
    status, the message the placeholder of the class, and so on. *)
Definition error_details (h : RpcResponseHeaderProto) (status : RpcResponseHeaderProto_RpcStatusProto)
  : error :=
  Join [ default (enum_String status) (RpcResponseHeaderProto_ExceptionClassName h);
         default "ServerDidNotSetExceptionClassName" (RpcResponseHeaderProto_ErrorMsg h);
         match RpcResponseHeaderProto_ErrorDetail h with
         | Some d => enum_String d
         | None => "ServerDidNotSetErrorMsg"
         end;
         "ServerDidNotSetErrorDetail" ] ":".

Definition empty_response_header : RpcResponseHeaderProto :=
  mkRpcResponseHeaderProto None None None None None None None None None.
Definition empty_sasl : RpcSaslProto := mkRpcSaslProto None None None [].

(** Decoding a response: header, check, body. *)
Definition decode_response {T} {PM : ProtoMessage T}
    (check : RpcResponseHeaderProto → outcome unit) (responseBytes : bytes) (msg : T)
  : outcome T :=
  '(off, rpcResponseHeaderProto) ← readDelimited responseBytes empty_response_header;
  _ ← check rpcResponseHeaderProto;
  status ← deref (RpcResponseHeaderProto_Status rpcResponseHeaderProto);
  if bool_decide (status = RpcResponseHeaderProto_SUCCESS) then
    body ← slice responseBytes off (len responseBytes);
    '(_, m) ← readDelimited body msg;
    mret m
  else Err (error_details rpcResponseHeaderProto status).

Definition receiveSaslMessage (conn : positive) : M (Net E) RpcSaslProto :=
  _ ← conn_SetDeadline conn;
  totalLengthBytes ← read_once conn 4;
  totalLength ← lift_out (ConvertBytesToFixed totalLengthBytes);
  n ← lift_out (make_bytes totalLength);
  responseBytes ← read_once conn n;
  lift_out (decode_response checkSaslRpcHeader responseBytes empty_sasl).

Definition negotiateSimpleTokenAuth (client : Client) (con : positive) : M (Net E) unit :=
  _ ← sendSaslMessage con (mkRpcSaslProto None (Some RpcSaslProto_NEGOTIATE) None []);
  saslResponseMessage ← receiveSaslMessage con;
  match RpcSaslProto_GetAuths (Some saslResponseMessage) with
  | [] => throw "No supported auth mechanisms!"
  | auth :: _ =>
      let a := Some auth in
      if negb (bool_decide (RpcSaslProto_SaslAuth_GetMethod a = "TOKEN") &&
               bool_decide (RpcSaslProto_SaslAuth_GetMechanism a = "DIGEST-MD5"))
      then throw "yarnauth only supports TOKEN/DIGEST-MD5 auth!"
      else
        let method := RpcSaslProto_SaslAuth_GetMethod a in
        let mechanism := RpcSaslProto_SaslAuth_GetMechanism a in
        let protocol := RpcSaslProto_SaslAuth_GetProtocol a in
        let serverId := RpcSaslProto_SaslAuth_GetServerId a in
        let challenge := RpcSaslProto_SaslAuth_GetChallenge a in
        userToken ← findUsableTokenForService (ServerAddress client);
        response ← in_os (GetDigestMD5ChallengeResponse protocol serverId (default [] challenge)
                            userToken);
        let authSend := mkRpcSaslProto_SaslAuth (Some method) (Some mechanism) (Some protocol)
                          (Some serverId) None in
        _ ← sendSaslMessage con (mkRpcSaslProto None (Some RpcSaslProto_INITIATE)
                                   (Some (bytes_of response)) [authSend]);
        saslResponseMessage ← receiveSaslMessage con;
        if negb (bool_decide (RpcSaslProto_GetState (Some saslResponseMessage) = RpcSaslProto_SUCCESS))
        then throw "expected SASL SUCCESS response!"
        else mret tt
  end.

(** ** Calling *)

Definition getConnection (c : Client) (connectionId : connection_id) : M (Net E) positive :=
  con ← setupConnection c;
  token ← findUsableTokenForService (ServerAddress c);
  let authProtocol := match token with Some _ => AUTH_PROTOCOL_SASL | None => AUTH_PROTOCOL_NONE end in
  _ ← writeConnectionHeader con authProtocol;
  _ ← (if bool_decide (authProtocol = AUTH_PROTOCOL_SASL) then negotiateSimpleTokenAuth c con
       else mret tt);
  _ ← writeConnectionContext c con connectionId;
  mret con.

Definition sendRequest {Req} {PR : ProtoMessage Req} (c : Client) (conn : positive)
    (rpc : RequestHeaderProto) (req : Req) : M (Net E) unit :=
  _ ← conn_SetDeadline conn;
  clientId ← lift_out (deref (ClientId c));
  rpcReqHeaderProtoBytes ← lift_out (proto_Marshal (request_header 0 clientId 0));
  requestHeaderProtoBytes ← lift_out (proto_Marshal rpc);
  paramProtoBytes ← lift_out (proto_Marshal req);
  write_frame conn [rpcReqHeaderProtoBytes; requestHeaderProtoBytes; paramProtoBytes].

(** [headerClientId[0:16]] needs a capacity of sixteen, not a length. *)
Definition checkRpcHeader (c : Client) (h : RpcResponseHeaderProto) : outcome unit :=
  callClientId ← deref (ClientId c);
  match RpcResponseHeaderProto_ClientId h with
  | None => Ok tt
  | Some headerClientId =>
      if bool_decide (16 ≤ cap_of (length headerClientId))%nat then
        if bool_decide (take 16 callClientId =
                        take 16 (headerClientId ++ replicate 16 Byte.x00)%list)
        then Ok tt else Err "Incorrect clientId"
      else Panic out_of_range
  end.

Definition readResponse {Resp} {PR : ProtoMessage Resp} (c : Client) (conn : positive)
    (response : Resp) : M (Net E) Resp :=
  totalLengthBytes ← read_once conn 4;
  totalLength ← lift_out (ConvertBytesToFixed totalLengthBytes);
  n ← lift_out (make_bytes totalLength);
  responseBytes ← conn_ReadFull conn n;
  if bool_decide (int32 (len responseBytes) ≠ totalLength)
  then throw ("actural read length " +:+ Itoa (len responseBytes) +:+
              " does not match the total length " +:+ Itoa totalLength)
  else lift_out (decode_response (checkRpcHeader c) responseBytes response).

Definition Call {Req Resp} {PReq : ProtoMessage Req} {PResp : ProtoMessage Resp} (c : Client)
    (rpc : RequestHeaderProto) (rpcRequest : Req) (rpcResponse : Resp) : M (Net E) Resp :=
  ugi ← lift_out (deref (Ugi c));
  user ← lift_out (deref (UserInformationProto_RealUser ugi));
  protocol ← lift_out (deref (RequestHeaderProto_DeclaringClassProtocolName rpc));
  clientId ← lift_out (deref (ClientId c));
  conn ← getConnection c (mkConnectionId user protocol (ServerAddress c) clientId);
  _ ← sendRequest c conn rpc rpcRequest;
  r ← try (readResponse c conn rpcResponse);
  _ ← try (conn_Close conn);
  match r with inl m => mret m | inr e => throw e end.
End Ipc.
