(* ===== verification/IpcProofs.v ===== *)
(** * Correctness of the IPC client

    Frames, calls against a well-behaved server, and what happens when the server
    or the network is not. *)

From S2P Require Import Prelude GoStrings Proto Wire Crypto Security Net Ipc.

Local Open Scope string_scope.
Local Open Scope Z_scope.

(** ** The length of a varint *)

Lemma size_loop_log2 fuel n x :
  0 < x → x < 2 ^ (7 * Z.of_nat fuel) → size_loop fuel n x = Some (n + Z.log2 x `div` 7 + 1).
Proof.
  revert n x. induction fuel as [|fuel IH]; intros n x Hx Hf; [cbn in Hf; lia|].
  cbn [size_loop]. rewrite Z.shiftr_div_pow2 by lia.
  case_bool_decide as Hz.
  - assert (x < 2 ^ 7) as Hs by (apply Z.div_small_iff in Hz; lia).
    assert (Z.log2 x `div` 7 = 0) as ->; [|f_equal; lia].
    apply Z.div_small. split; [apply Z.log2_nonneg|]. apply Z.log2_lt_pow2; lia.
  - assert (0 < x `div` 2 ^ 7) as Hp by (pose proof (Z.div_pos x (2 ^ 7)); lia).
    assert (2 ^ 7 ≤ x) as Hge.
    { apply Z.nlt_ge. intros Hlt. rewrite Z.div_small in Hp by lia. lia. }
    rewrite IH; [|done|].
    + rewrite <- Z.shiftr_div_pow2, Z.log2_shiftr by lia.
      assert (7 ≤ Z.log2 x) by (by apply Z.log2_le_pow2).
      rewrite Z.max_r by lia. f_equal.
      replace (Z.log2 x) with (Z.log2 x - 7 + 1 * 7) at 2 by lia.
      rewrite Z.div_add by lia. lia.
    + apply Z.div_lt_upper_bound; [lia|]. rewrite <- Z.pow_add_r by lia.
      eapply Z.lt_le_trans; [exact Hf|]. apply Z.pow_le_mono_r; lia.
Qed.

Lemma size_loop_negative fuel n x : x < 0 → size_loop fuel n x = None.
Proof.
  revert n x. induction fuel as [|fuel IH]; intros n x Hx; [done|]. cbn [size_loop].
  pose proof (proj2 (Z.shiftr_neg x 7) Hx) as Hneg.
  rewrite bool_decide_eq_false_2 by lia. by apply IH.
Qed.

Section Frames.
Context {PW : Protowire} {PL : ProtowireLaws}.

Lemma sizeVarint_len x : 0 ≤ x < 2 ^ 63 → sizeVarint x = len (AppendVarint [] x).
Proof.
  intros Hx. rewrite AppendVarint_size by lia. unfold sizeVarint.
  case_bool_decide as Hz; [by subst|].
  rewrite size_loop_log2; [cbn [default from_option]; unfold id; lia|lia|].
  eapply Z.lt_le_trans; [apply Hx|]. apply Z.pow_le_mono_r; lia.
Qed.

(** C35 The client's own [sizeVarint] computes the number of bytes the protobuf
    library writes, for every length a Go slice can have; its loop would never
    end on a negative argument. *)
Theorem sizeVarint_correct x :
  0 ≤ x < 2 ^ 63 →
  size_loop 10 0 x = Some (len (AppendVarint [] x)) ∧
  ∀ fuel y, y < 0 → size_loop fuel 0 y = None.
Proof.
  intros Hx. split; [|intros; by apply size_loop_negative].
  rewrite <- sizeVarint_len by done. unfold sizeVarint.
  destruct (decide (x = 0)) as [->|Hz]; [done|].
  rewrite size_loop_log2; [done|lia|].
  eapply Z.lt_le_trans; [apply Hx|]. apply Z.pow_le_mono_r; lia.
Qed.

(** The bytes of a sequence of delimited messages, and of a whole frame. *)
Definition delimit (m : bytes) : bytes := (AppendVarint [] (len m) ++ m)%list.
Definition delimited (msgs : list bytes) : bytes := concat (delimit <$> msgs).
Definition frame (msgs : list bytes) : bytes :=
  (be_bytes 4 (len (delimited msgs)) ++ delimited msgs)%list.

Lemma len_app {A} (a b : list A) : len (a ++ b)%list = len a + len b.
Proof. unfold len. rewrite length_app. lia. Qed.

Lemma len_nonneg {A} (a : list A) : 0 ≤ len a.
Proof. unfold len. lia. Qed.

Lemma delimited_size_len msgs :
  len (delimited msgs) < 2 ^ 63 → delimited_size msgs = len (delimited msgs).
Proof.
  induction msgs as [|m msgs IH]; [done|]. unfold delimited. cbn [fmap list_fmap concat].
  fold (delimited msgs). unfold delimit. rewrite !len_app. intros Hlt.
  pose proof (len_nonneg m). pose proof (len_nonneg (delimited msgs)).
  pose proof (len_nonneg (AppendVarint [] (len m))).
  cbn [delimited_size foldr]. change (foldr _ 0 msgs) with (delimited_size msgs).
  rewrite IH by lia. rewrite sizeVarint_len by lia. lia.
Qed.

Lemma varint_positive v : 0 ≤ v < 2 ^ 64 → 0 < len (AppendVarint [] v).
Proof.
  intros Hv. rewrite AppendVarint_size by done. case_bool_decide; [lia|].
  pose proof (Z.div_pos (Z.log2 v) 7). pose proof (Z.log2_nonneg v). lia.
Qed.

Lemma slice_mid (a b c : bytes) : slice (a ++ b ++ c)%list (len a) (len a + len b) = Ok b.
Proof.
  unfold slice. rewrite bool_decide_eq_true_2.
  2: { rewrite !len_app. pose proof (len_nonneg a). pose proof (len_nonneg b).
       pose proof (len_nonneg c). lia. }
  replace (len a + len b - len a) with (len b) by lia. unfold len. rewrite !Nat2Z.id.
  by rewrite drop_app_length, take_app_length.
Qed.

Lemma slice_tail (a b : bytes) : slice (a ++ b)%list (len a) (len (a ++ b)%list) = Ok b.
Proof.
  rewrite len_app. pose proof (slice_mid a b []) as H. by rewrite app_nil_r in H.
Qed.

Lemma readDelimited_delimit {T} {PM : ProtoMessage T} (m : T) b rest (msg : T) :
  proto_Unmarshal b = Ok m → len (delimit b) < 2 ^ 63 →
  readDelimited (delimit b ++ rest)%list msg = Ok (len (delimit b), m).
Proof.
  intros Hm Hlen. unfold delimit in *. rewrite len_app in Hlen.
  pose proof (len_nonneg b). pose proof (len_nonneg (AppendVarint [] (len b))).
  pose proof (varint_positive (len b)).
  unfold readDelimited. rewrite <- app_assoc, ConsumeVarint_append by lia.
  rewrite bool_decide_eq_false_2 by lia.
  rewrite (swrap64_id (len b)) by (unfold in_int64; lia).
  rewrite swrap64_id by (unfold in_int64; lia). rewrite slice_mid.
  unfold mbind, outcome_bind. rewrite Hm. unfold mret, outcome_ret. by rewrite len_app.
Qed.

(** C33 Reading a delimited message (of less than [2^62] bytes) panics exactly when
    the length is not a varint or reaches past the data, wrap-around included, and
    otherwise hands exactly the delimited bytes to the decoder.  The offset is never
    zero, the value the code checks for: the branch that returns [-1] is never taken. *)
Theorem readDelimited_panics_iff {T} {PM : ProtoMessage T} {PML : ProtoMessageLaws T}
    (raw : bytes) (msg : T) :
  len raw < 2 ^ 62 →
  let '(hl, off) := ConsumeVarint raw in
  off ≠ 0 ∧
  ((∃ w, readDelimited raw msg = Panic w) ↔ off < 0 ∨ len raw < off + hl) ∧
  (0 < off ∧ off + hl ≤ len raw →
     readDelimited raw msg =
     (m ← proto_Unmarshal (take (Z.to_nat hl) (drop (Z.to_nat off) raw)); mret (off + hl, m))).
Proof.
  intros Hraw. destruct (ConsumeVarint raw) as [hl off] eqn:Hc.
  pose proof (ConsumeVarint_result raw) as [Hhl Hoff]. rewrite Hc in Hhl, Hoff. cbn [fst snd] in *.
  pose proof (len_nonneg raw).
  assert (readDelimited raw msg =
    (b ← slice raw off (int64 (off + int64 hl)); m ← proto_Unmarshal b;
     mret (int64 (off + int64 hl), m))) as Hrun.
  { unfold readDelimited. rewrite Hc. by rewrite bool_decide_eq_false_2 by lia. }
  assert (0 < off ∧ off + hl ≤ len raw → int64 (off + int64 hl) = off + hl) as Hfit.
  { intros Hb. rewrite (swrap64_id hl) by (unfold in_int64; lia).
    apply swrap64_id. unfold in_int64. lia. }
  assert (0 < off ∧ off + hl ≤ len raw →
     slice raw off (int64 (off + int64 hl)) = Ok (take (Z.to_nat hl) (drop (Z.to_nat off) raw))) as Hin.
  { intros Hb. rewrite Hfit by done. unfold slice. rewrite bool_decide_eq_true_2 by lia.
    by replace (off + hl - off) with hl by lia. }
  split; [lia|]. split; [split|].
  - intros [w Hw]. destruct (decide (off < 0 ∨ len raw < off + hl)) as [|Hb]; [done|].
    rewrite Hrun, Hin in Hw by lia. unfold mbind, outcome_bind in Hw.
    destruct (proto_Unmarshal _) eqn:Hu; [done|done|]. by apply proto_Unmarshal_no_panic in Hu.
  - intros Hb. exists out_of_range. rewrite Hrun. unfold slice.
    rewrite bool_decide_eq_false_2; [done|]. intros (H0 & H1 & H2).
    destruct Hb as [Hb|Hb]; [lia|]. assert (0 < off) by lia.
    destruct (decide (hl < 2 ^ 63)) as [Hlt|Hge].
    + rewrite (swrap64_id hl) in H1, H2 by (unfold in_int64; lia).
      destruct (decide (off + hl < 2 ^ 63)).
      * rewrite swrap64_id in H2 by (unfold in_int64; lia). lia.
      * unfold swrap in H1. change (64 - 1) with 63 in H1.
        rewrite <- (Z_mod_plus_full (off + hl + 2 ^ 63) (-1) (2 ^ 64)) in H1.
        rewrite Z.mod_small in H1 by lia. lia.
    + assert (int64 hl = hl - 2 ^ 64) as Hneg.
      { unfold swrap. change (64 - 1) with 63.
        rewrite <- (Z_mod_plus_full (hl + 2 ^ 63) (-1) (2 ^ 64)).
        rewrite Z.mod_small by lia. lia. }
      rewrite Hneg in H1. rewrite swrap64_id in H1 by (unfold in_int64; lia). lia.
  - intros Hb. by rewrite Hrun, Hin, Hfit by done.
Qed.
End Frames.

(** ** Writing on a healthy connection *)

Section Runs.
Context {E : Type} {UA : UserApi E} {RA : RandApi E} {PW : Protowire} {PL : ProtowireLaws}.
Implicit Types n : Net E.

Definition healthy n (p : positive) (s : Socket) : Prop :=
  net_socks n !! p = Some s ∧ sock_open s = true ∧ sock_faults s = [].

Definition push (data : bytes) (s : Socket) : Socket :=
  mkSocket (sock_addr s) (sock_out s ++ data)%list (sock_in s) [] true.

(** The state with one socket and the security package changed. *)
Definition upd (p : positive) (s : Socket) (sec : SecState E) n : Net E :=
  mkNet (<[p := s]> (net_socks n)) (net_peers n) sec.

(** [c] writes exactly [data] on [p] and touches nothing else. *)
Definition sends (p : positive) (data : bytes) (c : M (Net E) unit) : Prop :=
  ∀ n s, healthy n p s → c n = (Ok tt, upd p (push data s) (net_sec n) n).

Lemma healthy_upd p s sec n : sock_open s = true → sock_faults s = [] → healthy (upd p s sec n) p s.
Proof. intros. split; [apply lookup_insert_eq|done]. Qed.

Lemma upd_upd p s1 s2 sec1 sec2 n : upd p s2 sec2 (upd p s1 sec1 n) = upd p s2 sec2 n.
Proof. unfold upd. cbn. by rewrite insert_insert_eq. Qed.

Lemma push_push a b s : push b (push a s) = push (a ++ b)%list s.
Proof. unfold push. cbn. by rewrite <- app_assoc. Qed.

Lemma sends_send p data : sends p data (on_sock p (send_op data)).
Proof.
  intros n s (Hs & Ho & Hf). unfold on_sock. rewrite Hs, Ho.
  unfold send_op. rewrite Hf, Ho. done.
Qed.

Lemma sends_write p data : sends p data (conn_Write p data).
Proof. apply sends_send. Qed.
Lemma sends_deadline p : sends p [] (conn_SetDeadline p).
Proof. apply sends_send. Qed.

Lemma sends_bind p a b (c : M (Net E) unit) (f : unit → M (Net E) unit) :
  sends p a c → sends p b (f tt) → sends p (a ++ b)%list (c ≫= f).
Proof.
  intros Hc Hf n s Hh. rewrite (M_bind_ok _ _ _ _ _ (Hc n s Hh)).
  rewrite (Hf _ (push a s)) by by apply healthy_upd. by rewrite upd_upd, push_push.
Qed.

Lemma sends_lift {A} p data (x : outcome A) a (f : A → M (Net E) unit) :
  x = Ok a → sends p data (f a) → sends p data (lift_out x ≫= f).
Proof. intros -> Hf. exact Hf. Qed.

Lemma sends_done p : sends p [] (mret tt).
Proof.
  intros n s (Hs & Ho & Hf). unfold mret, M_ret, upd, push.
  rewrite app_nil_r. destruct s. cbn in *. subst. rewrite insert_id by done. by destruct n.
Qed.

Lemma sends_delimited p m : len m < 2 ^ 63 → sends p (delimit m) (writeDelimitedBytes p m).
Proof.
  intros Hm. unfold writeDelimitedBytes, delimit. apply sends_bind; [|apply sends_write].
  pose proof (len_nonneg m). unfold uwrap. rewrite Z.mod_small by lia. apply sends_write.
Qed.

Lemma sends_for_each p msgs :
  len (delimited msgs) < 2 ^ 63 → sends p (delimited msgs) (for_each msgs (writeDelimitedBytes p)).
Proof.
  induction msgs as [|m msgs IH]; intros Hlen; [apply sends_done|].
  unfold delimited in *. cbn [fmap list_fmap concat for_each] in *. rewrite len_app in Hlen.
  unfold delimit at 1 in Hlen. rewrite len_app in Hlen.
  pose proof (len_nonneg m). pose proof (len_nonneg (AppendVarint [] (len m))).
  pose proof (len_nonneg (concat (delimit <$> msgs))).
  apply sends_bind; [apply sends_delimited; lia|apply IH; lia].
Qed.

Lemma be_bytes_int32 k z : (k ≤ 4)%nat → be_bytes k (int32 z) = be_bytes k z.
Proof.
  intros Hk. assert (∀ z, be_bytes k z = be_bytes k (z mod 2 ^ 32)) as Hmod.
  { clear z. induction k as [|k IH]; intros z; [done|]. cbn [be_bytes].
    rewrite <- IH by lia. f_equal. unfold byte_of_Z. do 3 f_equal.
    rewrite !Z.shiftr_div_pow2 by lia. rewrite <- !Z.land_ones by lia.
    change 256 with (2 ^ 8). rewrite <- !Z.land_ones by lia.
    rewrite <- !Z.shiftr_div_pow2 by lia. apply Z.bits_inj'. intros i Hi.
    rewrite !Z.land_spec, !Z.shiftr_spec, Z.land_spec by lia.
    destruct (decide (i < 8)).
    - rewrite (Z.ones_spec_low 32) by lia. by rewrite andb_true_r.
    - by rewrite (Z.ones_spec_high 8) by lia; rewrite !andb_false_r. }
  rewrite Hmod, (Hmod z). f_equal. unfold swrap. change (32 - 1) with 31.
  rewrite Zminus_mod_idemp_l. f_equal. lia.
Qed.

(** Every frame carries its exact length. *)
Lemma sends_frame p msgs :
  len (delimited msgs) < 2 ^ 63 → sends p (frame msgs) (write_frame p msgs).
Proof.
  intros Hlen. unfold write_frame. eapply sends_lift; [done|].
  rewrite be_bytes_int32, delimited_size_len by (done || lia).
  apply sends_bind; [apply sends_write|by apply sends_for_each].
Qed.

Lemma be_value_int32 z : 0 ≤ z < 2 ^ 31 → int32 (be_value (be_bytes 4 z)) = z.
Proof.
  intros Hz. rewrite be_value_be_bytes. change (8 * Z.of_nat 4) with 32.
  rewrite Z.mod_small by lia. apply swrap32_id. unfold in_int32. lia.
Qed.

Lemma frame_prefix b z : 0 ≤ z < 2 ^ 31 →
  ConvertBytesToFixed (be_bytes 4 z ++ b)%list = Ok z.
Proof.
  intros Hz. rewrite <- (be_value_int32 z Hz) at 2. cbn [be_bytes app]. done.
Qed.

(** The writer of frames is right about their length: on a connection without
    faults it appends the messages, each delimited, after a 32-bit big-endian
    integer that reads back as the number of bytes that follow; no other socket
    is touched. *)
Theorem frames_state_their_length p msgs n s :
  healthy n p s → len (delimited msgs) < 2 ^ 31 →
  ∃ n', write_frame p msgs n = (Ok tt, n') ∧
    net_socks n' = <[p := push (frame msgs) s]> (net_socks n) ∧
    ConvertBytesToFixed (frame msgs) = Ok (len (drop 4 (frame msgs))).
Proof.
  intros Hh Hlen. eexists. split; [apply (sends_frame p msgs ltac:(lia) n s Hh)|]. split; [done|]. unfold frame.
  rewrite frame_prefix by (pose proof (len_nonneg (delimited msgs)); lia).
  by rewrite drop_app_length' by (by rewrite length_be_bytes).
Qed.

(** ** One call to a server that answers *)

Context {P1 : ProtoMessage RpcRequestHeaderProto} {P2 : ProtoMessage RpcResponseHeaderProto}.
Context {P3 : ProtoMessage IpcConnectionContextProto} {P4 : ProtoMessage RequestHeaderProto}.
Context {P5 : ProtoMessage RpcSaslProto}.
Context (cap_of : nat → nat).

Definition preamble (auth : AuthProtocol) : bytes :=
  (RPC_HEADER ++ VERSION ++ [RPC_SERVICE_CLASS] ++ [auth])%list.

Lemma sends_header p auth : sends p (preamble auth) (writeConnectionHeader p auth).
Proof.
  unfold writeConnectionHeader, preamble.
  change (RPC_HEADER ++ VERSION ++ [RPC_SERVICE_CLASS] ++ [auth])%list with
    ([] ++ RPC_HEADER ++ VERSION ++ [RPC_SERVICE_CLASS] ++ [auth])%list.
  apply sends_bind; [apply sends_deadline|]. apply sends_bind; [apply sends_write|].
  apply sends_bind; [apply sends_write|]. eapply sends_lift; [done|].
  apply sends_bind; [apply sends_write|]. eapply sends_lift; [done|]. apply sends_write.
Qed.

Lemma context_sent c p cid b1 b2 u e' n s :
  user_Current (sec_env (net_sec n)) = (Ok u, e') →
  ClientId c = Some (connid_ClientId cid) →
  proto_Marshal (request_header (-3) (connid_ClientId cid) RPC_DEFAULT_RETRY_COUNT) = Ok b1 →
  proto_Marshal (mkIpcConnectionContextProto (Some (mkUserInformationProto None (Some u)))
                   (Some (connid_protocol cid))) = Ok b2 →
  len (delimited [b1; b2]) < 2 ^ 31 → healthy n p s →
  writeConnectionContext c p cid n =
    (Ok tt, upd p (push (frame [b1; b2]) s) (mkSecState (sec_current (net_sec n)) e') n).
Proof.
  intros Hu Hc H1 H2 Hlen Hh. unfold writeConnectionContext.
  rewrite (M_bind_ok _ _ _ _ _ (sends_deadline p n s Hh)).
  set (n1 := upd p (push [] s) _ n).
  assert (CreateSimpleUGIProto n1 = (Ok (mkUserInformationProto None (Some u)),
    mkNet (net_socks n1) (net_peers n1) (mkSecState (sec_current (net_sec n)) e'))) as Hugi.
  { unfold CreateSimpleUGIProto, in_os, in_sec, in_env, zoom, CreateCurrentUserInfoProto.
    unfold mbind, M_bind. cbn [n1 upd net_sec]. by rewrite Hu. }
  rewrite (try_bind_ok _ _ _ _ _ Hugi). rewrite Hc. cbn [deref].
  erewrite M_bind_ok by reflexivity.
  erewrite M_bind_ok by (unfold lift_out; by rewrite H1).
  erewrite M_bind_ok by (unfold lift_out; by rewrite H2).
  rewrite (sends_frame p [b1; b2] ltac:(lia) _ (push [] s))
    by (split; [apply lookup_insert_eq|done]).
  f_equal. unfold upd, n1. cbn. rewrite insert_insert_eq. by rewrite push_push.
Qed.

Lemma sends_request {Req} {PR : ProtoMessage Req} c p cid rpc (req : Req) b1 b2 b3 :
  ClientId c = Some cid →
  proto_Marshal (request_header 0 cid 0) = Ok b1 → proto_Marshal rpc = Ok b2 →
  proto_Marshal req = Ok b3 → len (delimited [b1; b2; b3]) < 2 ^ 31 →
  sends p (frame [b1; b2; b3]) (sendRequest c p rpc req).
Proof.
  intros Hc H1 H2 H3 Hlen. unfold sendRequest.
  change (frame [b1; b2; b3]) with ([] ++ frame [b1; b2; b3])%list.
  apply sends_bind; [apply sends_deadline|]. eapply sends_lift; [by rewrite Hc|].
  eapply sends_lift; [exact H1|]. eapply sends_lift; [exact H2|]. eapply sends_lift; [exact H3|].
  apply sends_frame. lia.
Qed.

(** The user holds no token for the server. *)
Definition no_token (sec : SecState E) (service : string) : Prop :=
  match sec_current sec with
  | None => True
  | Some ugi => userTokens ugi !! service ≫= id = None
  end.

Lemma find_no_token n service u :
  (∀ e, ∃ e', user_Current e = (Ok u, e')) → no_token (net_sec n) service →
  ∃ sec, findUsableTokenForService service n
         = (Ok None, mkNet (net_socks n) (net_peers n) sec).
Proof.
  intros Hu Hn. unfold findUsableTokenForService, no_token in *.
  unfold in_sec, zoom, GetCurrentUser, initializeCurrentUser, Allocate, in_env, zoom,
    CreateCurrentUserInfoProto. unfold_M.
  destruct (sec_current (net_sec n)) as [ugi|] eqn:Hs.
  - cbn. rewrite Hs. cbn. eexists. unfold GetUserTokens. case_bool_decide; [done|]. by rewrite Hn.
  - destruct (Hu (sec_env (net_sec n))) as [e' He]. rewrite He. cbn. by eexists.
Qed.

(** ** Reading *)

(** The bytes that arrive before the first read error. *)
Fixpoint evs_bytes (evs : list InEvent) : bytes :=
  match evs with
  | Seg b bs :: t => (b :: bs ++ evs_bytes t)%list
  | _ => []
  end.

Lemma read_full_enough k got evs :
  (k ≤ length (evs_bytes evs))%nat →
  ∃ evs', read_full k got evs = (Ok (got ++ take k (evs_bytes evs))%list, evs').
Proof.
  revert k got. induction evs as [|[b bs|e] t IH]; intros k got Hk.
  - cbn in Hk. assert (k = 0%nat) as -> by lia. cbn. rewrite app_nil_r. by eexists.
  - destruct k as [|k]; [cbn; rewrite app_nil_r; by eexists|]. cbn [read_full evs_bytes].
    cbn [evs_bytes length] in Hk. rewrite length_app in Hk.
    destruct (IH (k - length bs)%nat (got ++ b :: take k bs)%list) as [evs' He]; [lia|].
    exists evs'. rewrite He. f_equal. f_equal. rewrite <- app_assoc. cbn [app take].
    by rewrite take_app.
  - cbn in Hk. assert (k = 0%nat) as -> by lia. cbn. rewrite app_nil_r. by eexists.
Qed.

Definition with_in (evs : list InEvent) (s : Socket) : Socket :=
  mkSocket (sock_addr s) (sock_out s) evs (sock_faults s) (sock_open s).

(** The four bytes of the length arrive together. *)
Lemma read_length n p s b bs t :
  healthy n p s → sock_in s = Seg b bs :: t → (3 ≤ length bs)%nat →
  ∃ evs, read_once p 4 n = (Ok (take 4 (evs_bytes (sock_in s))), upd p (with_in evs s) (net_sec n) n) ∧
    evs_bytes evs = drop 4 (evs_bytes (sock_in s)).
Proof.
  intros (Hs & Ho & Hf) Hin Hlen. unfold read_once, conn_Read, on_sock. unfold_M.
  rewrite Hs, Ho. unfold read_op. rewrite Hin. eexists. split.
  - assert (4 - length (b :: take 3 bs) = 0)%nat as ->.
    { cbn [length]. rewrite length_take. lia. }
    cbn [replicate]. rewrite app_nil_r. cbn [evs_bytes take].
    rewrite take_app_le by lia. done.
  - cbn [evs_bytes drop]. rewrite drop_app_le by lia. by destruct (drop 3 bs).
Qed.

Lemma decode_success {Resp} {PR : ProtoMessage Resp} check (hdr : RpcResponseHeaderProto)
    (resp resp0 : Resp) bh br :
  proto_Unmarshal bh = Ok hdr → proto_Unmarshal br = Ok resp →
  check hdr = Ok tt → RpcResponseHeaderProto_Status hdr = Some RpcResponseHeaderProto_SUCCESS →
  len (delimited [bh; br]) < 2 ^ 31 →
  decode_response check (delimited [bh; br]) resp0 = Ok resp.
Proof.
  intros Hh Hr Hc Hst Hlen. unfold decode_response.
  assert (delimited [bh; br] = (delimit bh ++ delimit br)%list) as Hd.
  { unfold delimited. cbn. by rewrite app_nil_r. }
  rewrite Hd in *. rewrite len_app in Hlen.
  pose proof (len_nonneg (delimit bh)). pose proof (len_nonneg (delimit br)).
  rewrite (readDelimited_delimit hdr) by (done || lia). cbn [mbind outcome_bind].
  rewrite Hc. cbn [mbind outcome_bind]. rewrite Hst. cbn [deref mbind outcome_bind].
  rewrite bool_decide_eq_true_2 by done. rewrite slice_tail. cbn [mbind outcome_bind].
  rewrite <- (app_nil_r (delimit br)). by rewrite (readDelimited_delimit resp) by (done || lia).
Qed.

Lemma readResponse_ok {Resp} {PR : ProtoMessage Resp} c n p s b bs t rest
    (hdr : RpcResponseHeaderProto) (resp resp0 : Resp) bh br :
  healthy n p s → sock_in s = Seg b bs :: t → (3 ≤ length bs)%nat →
  evs_bytes (sock_in s) = (frame [bh; br] ++ rest)%list →
  proto_Unmarshal bh = Ok hdr → proto_Unmarshal br = Ok resp →
  checkRpcHeader cap_of c hdr = Ok tt →
  RpcResponseHeaderProto_Status hdr = Some RpcResponseHeaderProto_SUCCESS →
  len (delimited [bh; br]) < 2 ^ 31 →
  ∃ evs, readResponse cap_of c p resp0 n = (Ok resp, upd p (with_in evs s) (net_sec n) n).
Proof.
  intros Hhe Hin Hbs Hev Hh Hr Hc Hst Hlen.
  pose proof (len_nonneg (delimited [bh; br])) as Hnn.
  destruct (read_length n p s b bs t Hhe Hin Hbs) as (evs & Hrd & Hevs).
  unfold readResponse. rewrite (M_bind_ok _ _ _ _ _ Hrd).
  assert (ConvertBytesToFixed (take 4 (evs_bytes (sock_in s))) = Ok (len (delimited [bh; br]))) as Hl.
  { rewrite Hev. unfold frame. rewrite <- app_assoc, take_app_length' by (by rewrite length_be_bytes).
    rewrite <- (app_nil_r (be_bytes _ _)). apply frame_prefix. lia. }
  rewrite Hl. erewrite M_bind_ok by reflexivity.
  unfold make_bytes. rewrite bool_decide_eq_true_2 by done. erewrite M_bind_ok by reflexivity.
  assert (evs_bytes evs = (delimited [bh; br] ++ rest)%list) as Hevs'.
  { rewrite Hevs, Hev. unfold frame. rewrite <- app_assoc.
    by rewrite drop_app_length' by (by rewrite length_be_bytes). }
  destruct (read_full_enough (Z.to_nat (len (delimited [bh; br]))) [] evs) as [evs' Hfull].
  { rewrite Hevs', length_app. unfold len. lia. }
  rewrite Hevs' in Hfull. unfold len in Hfull at 1 2. rewrite !Nat2Z.id, take_app_length in Hfull.
  exists evs'. destruct Hhe as (Hs & Ho & Hf).
  erewrite M_bind_ok.
  2: { unfold conn_ReadFull, on_sock, upd. cbn [net_socks]. rewrite lookup_insert_eq.
       cbn [sock_open with_in sock_in]. rewrite Ho. unfold len. rewrite Nat2Z.id, Hfull. reflexivity. }
  cbn [app]. rewrite bool_decide_eq_false_2.
  2: { rewrite swrap32_id by (unfold in_int32; lia). tauto. }
  unfold lift_out. rewrite (decode_success _ hdr resp) by done.
  f_equal. unfold upd, put_sock, with_in. cbn. by rewrite ?Ho, insert_insert_eq.
Qed.

Lemma setup_ok c n peer peers :
  net_peers n !! ServerAddress c = Some (inl peer :: peers) →
  peer_tcp peer = true → peer_faults peer = [] →
  let p := fresh (dom (net_socks n)) in
  let s := mkSocket (ServerAddress c) [] (peer_in peer) [] true in
  setupConnection c n =
    (Ok p, mkNet (<[p := s]> (net_socks n)) (<[ServerAddress c := peers]> (net_peers n)) (net_sec n)).
Proof.
  intros Hp Ht Hf p s. unfold setupConnection. erewrite M_bind_ok.
  2: { unfold net_Dial. rewrite Hp. reflexivity. }
  cbn beta iota. rewrite Ht, Hf. cbn [negb].
  unfold conn_SetNoDelay. fold p. fold s.
  erewrite M_bind_ok by (apply (sends_send p [] _ s); split; [apply lookup_insert_eq|done]).
  unfold upd, mret, M_ret. cbn [net_socks net_peers net_sec]. by rewrite insert_insert_eq.
Qed.

(** A client that is ready to call: it has an identity and a user name. *)
Definition ready (c : Client) (cid : bytes) : Prop :=
  ClientId c = Some cid ∧ ∃ ugi user, Ugi c = Some ugi ∧ UserInformationProto_RealUser ugi = Some user.

Section Answered.
Context {Req Resp : Type} {PReq : ProtoMessage Req} {PResp : ProtoMessage Resp}.
Context (c : Client) (cid : bytes) (u protocol : string) (rpc : RequestHeaderProto) (req : Req).
Context (h1 h2 h3 h4 h5 : bytes).
Hypothesis Hready : ready c cid.
Hypothesis Huser : ∀ e : E, ∃ e', user_Current e = (Ok u, e').
Hypothesis Hproto : RequestHeaderProto_DeclaringClassProtocolName rpc = Some protocol.
Hypothesis Hh1 : proto_Marshal (request_header (-3) cid RPC_DEFAULT_RETRY_COUNT) = Ok h1.
Hypothesis Hh2 : proto_Marshal (mkIpcConnectionContextProto
  (Some (mkUserInformationProto None (Some u))) (Some protocol)) = Ok h2.
Hypothesis Hh3 : proto_Marshal (request_header 0 cid 0) = Ok h3.
Hypothesis Hh4 : proto_Marshal rpc = Ok h4.
Hypothesis Hh5 : proto_Marshal req = Ok h5.
Hypothesis Hlen1 : len (delimited [h1; h2]) < 2 ^ 31.
Hypothesis Hlen2 : len (delimited [h3; h4; h5]) < 2 ^ 31.

(** What the client has written when it starts to read. *)
Definition request_bytes : bytes :=
  (preamble AUTH_PROTOCOL_NONE ++ frame [h1; h2] ++ frame [h3; h4; h5])%list.

Lemma getConnection_ok n peer peers :
  no_token (net_sec n) (ServerAddress c) →
  net_peers n !! ServerAddress c = Some (inl peer :: peers) →
  peer_tcp peer = true → peer_faults peer = [] →
  let p := fresh (dom (net_socks n)) in
  let s := mkSocket (ServerAddress c) (preamble AUTH_PROTOCOL_NONE ++ frame [h1; h2])%list
             (peer_in peer) [] true in
  ∀ user, ∃ sec, getConnection c (mkConnectionId user protocol (ServerAddress c) cid) n =
    (Ok p, mkNet (<[p := s]> (net_socks n)) (<[ServerAddress c := peers]> (net_peers n)) sec).
Proof using All.
  intros Hnt Hp Ht Hf p s user. destruct Hready as (Hid & _).
  set (s0 := mkSocket (ServerAddress c) [] (peer_in peer) [] true).
  edestruct (find_no_token (mkNet (<[p := s0]> (net_socks n))
    (<[ServerAddress c := peers]> (net_peers n)) (net_sec n))) as [sec1 Hfind]; [done|exact Hnt|].
  destruct (Huser (sec_env sec1)) as [e' He].
  eexists. unfold getConnection.
  erewrite M_bind_ok by (by apply (setup_ok c n peer peers)). fold p. fold s0.
  rewrite (M_bind_ok _ _ _ _ _ Hfind). cbn zeta beta iota.
  erewrite M_bind_ok by (apply (sends_header p _ _ s0); split; [apply lookup_insert_eq|done]).
  rewrite bool_decide_eq_false_2 by done. erewrite M_bind_ok by reflexivity.
  erewrite M_bind_ok.
  2: { eapply (context_sent c p _ h1 h2 u e' _ (push (preamble AUTH_PROTOCOL_NONE) s0)); try done.
       split; [apply lookup_insert_eq|done]. }
  rewrite upd_upd, push_push. unfold upd, mret, M_ret. cbn [net_socks net_peers].
  by rewrite insert_insert_eq.
Qed.

(** A call whose connection is established: the request goes out after what the
    handshake sent, the answer comes back, and the connection is closed. *)
Lemma call_on_connection n p n1 s1 b bs t rest (hdr : RpcResponseHeaderProto)
    (resp resp0 : Resp) bh br :
  (∀ user, getConnection c (mkConnectionId user protocol (ServerAddress c) cid) n = (Ok p, n1)) →
  healthy n1 p s1 →
  sock_in s1 = Seg b bs :: t → (3 ≤ length bs)%nat →
  evs_bytes (sock_in s1) = (frame [bh; br] ++ rest)%list →
  proto_Unmarshal bh = Ok hdr → proto_Unmarshal br = Ok resp →
  checkRpcHeader cap_of c hdr = Ok tt →
  RpcResponseHeaderProto_Status hdr = Some RpcResponseHeaderProto_SUCCESS →
  len (delimited [bh; br]) < 2 ^ 31 →
  ∃ s n', Call cap_of c rpc req resp0 n = (Ok resp, n') ∧ net_socks n' = <[p := s]> (net_socks n1) ∧
    sock_open s = false ∧ sock_out s = (sock_out s1 ++ frame [h3; h4; h5])%list ∧
    net_peers n' = net_peers n1.
Proof using PL Hready Hproto Hh3 Hh4 Hh5 Hlen2.
  intros H1 Hh Hin Hbs Hev Hbh Hbr Hchk Hst Hlen.
  destruct Hready as (Hid & ugi & user & Hugi & Hreal).
  pose proof (sends_request c p cid rpc req h3 h4 h5 Hid Hh3 Hh4 Hh5 Hlen2 n1 s1 Hh) as H2.
  set (s2 := push (frame [h3; h4; h5]) s1) in *. set (n2 := upd p s2 _ _) in *.
  destruct (readResponse_ok c n2 p s2 b bs t rest hdr resp resp0 bh br) as [evs H3]; try done.
  { split; [apply lookup_insert_eq|done]. }
  exists (mkSocket (sock_addr s2) (sock_out s2) evs [] false).
  eexists. split; [|split; [|split; [|split]]].
  - unfold Call. rewrite Hugi. erewrite M_bind_ok by reflexivity.
    rewrite Hreal. erewrite M_bind_ok by reflexivity.
    rewrite Hproto. erewrite M_bind_ok by reflexivity.
    rewrite Hid. erewrite M_bind_ok by reflexivity.
    rewrite (M_bind_ok _ _ _ _ _ (H1 user)), (M_bind_ok _ _ _ _ _ H2).
    rewrite (try_bind_ok _ _ _ _ _ H3). erewrite try_bind_ok; [reflexivity|].
    unfold conn_Close, on_sock. cbn [upd net_socks]. rewrite lookup_insert_eq. reflexivity.
  - unfold put_sock, upd, n2. cbn. by rewrite !insert_insert_eq.
  - done.
  - done.
  - done.
Qed.

Lemma call_answered_bytes n peer peers b bs t rest (hdr : RpcResponseHeaderProto)
    (resp resp0 : Resp) bh br :
  no_token (net_sec n) (ServerAddress c) →
  net_peers n !! ServerAddress c = Some (inl peer :: peers) →
  peer_tcp peer = true → peer_faults peer = [] →
  peer_in peer = Seg b bs :: t → (3 ≤ length bs)%nat →
  evs_bytes (peer_in peer) = (frame [bh; br] ++ rest)%list →
  proto_Unmarshal bh = Ok hdr → proto_Unmarshal br = Ok resp →
  checkRpcHeader cap_of c hdr = Ok tt →
  RpcResponseHeaderProto_Status hdr = Some RpcResponseHeaderProto_SUCCESS →
  len (delimited [bh; br]) < 2 ^ 31 →
  ∃ p s n', Call cap_of c rpc req resp0 n = (Ok resp, n') ∧
    net_socks n !! p = None ∧ net_socks n' = <[p := s]> (net_socks n) ∧
    sock_open s = false ∧ sock_out s = request_bytes ∧
    net_peers n' = <[ServerAddress c := peers]> (net_peers n).
Proof using All.
  intros Hnt Hp Ht Hf Hin Hbs Hev Hbh Hbr Hchk Hst Hlen.
  destruct Hready as (Hid & ugi & user & Hugi & Hreal).
  set (p := fresh (dom (net_socks n))).
  destruct (getConnection_ok n peer peers Hnt Hp Ht Hf user) as [sec1 H1]. fold p in H1.
  edestruct (call_on_connection n p) as (s & n' & Hcall & Hsocks & Hcl & Hout & Hpeers);
    [intros user'; exact H1|split; [apply lookup_insert_eq|done]|exact Hin|done..|].
  exists p, s, n'. split; [exact Hcall|]. split; [apply not_elem_of_dom, is_fresh|].
  split; [rewrite Hsocks; apply insert_insert_eq|]. split; [done|]. split; [|exact Hpeers].
  rewrite Hout. unfold request_bytes. cbn [sock_out]. by rewrite <- app_assoc.
Qed.

(** C6 A call to a server that answers returns the answer: with an identified
    client, a user without tokens and a fault-free connection, whatever the
    segments the response arrives in (as long as its four length bytes arrive
    together), [Call] returns exactly the message the server marshalled.  It
    has then sent the connection preamble, the connection context and the
    request, byte for byte, closed the connection, and touched no other. *)
Theorem call_returns_response n peer peers b bs t rest (hdr : RpcResponseHeaderProto)
    (resp resp0 : Resp) bh br :
  no_token (net_sec n) (ServerAddress c) →
  net_peers n !! ServerAddress c = Some (inl peer :: peers) →
  peer_tcp peer = true → peer_faults peer = [] →
  peer_in peer = Seg b bs :: t → (3 ≤ length bs)%nat →
  evs_bytes (peer_in peer) = (frame [bh; br] ++ rest)%list →
  proto_Unmarshal bh = Ok hdr → proto_Unmarshal br = Ok resp →
  checkRpcHeader cap_of c hdr = Ok tt →
  RpcResponseHeaderProto_Status hdr = Some RpcResponseHeaderProto_SUCCESS →
  len (delimited [bh; br]) < 2 ^ 31 →
  ∃ p s n', Call cap_of c rpc req resp0 n = (Ok resp, n') ∧
    net_socks n !! p = None ∧ net_socks n' = <[p := s]> (net_socks n) ∧
    sock_open s = false ∧ sock_out s = request_bytes.
Proof using All.
  intros H1 H2 H3 H4 H5 H6 H7 H8 H9 H10 H11 H12.
  destruct (call_answered_bytes n peer peers b bs t rest hdr resp resp0 bh br)
    as (p & s & n' & ? & ? & ? & ? & ? & _); [done..|]. by exists p, s, n'.
Qed.
End Answered.

(** ** Faults *)

(** C34 A response whose length does not arrive in one piece crashes the process:
    if the first segment holds one to three zero bytes (as for every response
    shorter than 2^24 bytes split there), the length is taken to be zero and the
    decoder panics on the empty frame.  A negative length panics too. *)
Theorem split_length_panics {Resp} {PR : ProtoMessage Resp} c n p s (resp0 : Resp) b bs t :
  healthy n p s → sock_in s = Seg b bs :: t →
  (length bs < 3)%nat ∧ b = Byte.x00 ∧ bs = replicate (length bs) Byte.x00 ∨
  (3 ≤ length bs)%nat ∧ int32 (be_value (take 4 (b :: bs))) < 0 →
  ∃ w n', readResponse cap_of c p resp0 n = (Panic w, n').
Proof using PL.
  intros Hh Hin [(Hlen & -> & Hz)|[Hlen Hneg]].
  - destruct Hh as (Hs & Ho & Hf).
    assert (∃ n1 s1, read_once p 4 n = (Ok (replicate 4 Byte.x00), n1) ∧
              net_socks n1 !! p = Some s1 ∧ sock_open s1 = true) as (n1 & s1 & Hr & Hs1 & Ho1).
    { unfold read_once, conn_Read, on_sock. unfold_M. rewrite Hs, Ho. unfold read_op. rewrite Hin.
      rewrite Hz in *. rewrite length_replicate in Hlen.
      destruct (length bs) as [|[|[|]]]; [..|lia]; eexists _, _;
        (split; [reflexivity|split; [apply lookup_insert_eq|exact Ho]]). }
    unfold readResponse. rewrite (M_bind_ok _ _ _ _ _ Hr).
    change (ConvertBytesToFixed (replicate 4 Byte.x00)) with (Ok 0).
    erewrite M_bind_ok by reflexivity. change (make_bytes 0) with (Ok 0%nat).
    erewrite M_bind_ok by reflexivity.
    erewrite M_bind_ok.
    2: { unfold conn_ReadFull, on_sock. rewrite Hs1, Ho1. reflexivity. }
    change (bool_decide (int32 (len ([] : bytes)) ≠ 0)) with false.
    unfold lift_out, decode_response, readDelimited.
    pose proof (ConsumeVarint_result []) as [_ Hc].
    destruct (ConsumeVarint []) as [hl off]. cbn [snd] in Hc. change (len []) with 0 in Hc.
    rewrite bool_decide_eq_false_2 by lia. unfold slice.
    rewrite bool_decide_eq_false_2 by lia. cbn. by eexists _, _.
  - destruct (read_length n p s b bs t Hh Hin Hlen) as (evs & Hr & _).
    unfold readResponse. rewrite (M_bind_ok _ _ _ _ _ Hr), Hin. cbn [evs_bytes].
    change (take 4 (b :: bs ++ evs_bytes t)%list) with (b :: take 3 (bs ++ evs_bytes t)%list).
    rewrite take_app_le by lia.
    destruct bs as [|b1 [|b2 [|b3 bs]]]; [cbn in Hlen; lia..|].
    change (take 3 (b1 :: b2 :: b3 :: bs)) with [b1; b2; b3].
    change (take 4 (b :: b1 :: b2 :: b3 :: bs)) with [b; b1; b2; b3] in Hneg.
    unfold ConvertBytesToFixed. erewrite M_bind_ok by reflexivity.
    unfold make_bytes. rewrite bool_decide_eq_false_2 by lia. by eexists _, _.
Qed.

(** What the handshake and the sending of a request leave alone follows from what
    writing, reading and looking up the user leave alone. *)
Section Preserved.
Context (R : relation (Net E)) `{!PreOrder R}.
Hypothesis R_send : ∀ p data, preserves R (on_sock p (send_op data)).
Hypothesis R_read : ∀ p k, preserves R (on_sock p (read_op k)).
Hypothesis R_user : preserves R (in_sec GetCurrentUser).
Hypothesis R_ugi : preserves R CreateSimpleUGIProto.
Hypothesis R_digest : ∀ protocol serverId challenge token,
  preserves R (in_os (GetDigestMD5ChallengeResponse protocol serverId challenge token)).

Lemma preserves_write p data : preserves R (conn_Write p data).
Proof using R_send. apply R_send. Qed.
Lemma preserves_deadline p : preserves R (conn_SetDeadline p).
Proof using R_send. apply R_send. Qed.
Lemma preserves_nodelay p b : preserves R (conn_SetNoDelay p b).
Proof using R_send. apply R_send. Qed.
Lemma preserves_read_once p k : preserves R (read_once p k).
Proof using PreOrder0 R_read. unfold read_once, conn_Read. solve_preserves. Qed.

#[local] Hint Resolve preserves_write preserves_deadline preserves_read_once R_user R_ugi R_digest : copilot.

Lemma preserves_frame p msgs : preserves R (write_frame p msgs).
Proof using PreOrder0 R_send.
  unfold write_frame. solve_preserves. apply preserves_for_each; [apply _|]. intros m _.
  unfold writeDelimitedBytes. solve_preserves.
Qed.
#[local] Hint Resolve preserves_frame : copilot.

Lemma preserves_find service : preserves R (findUsableTokenForService service).
Proof using PreOrder0 R_user. unfold findUsableTokenForService. solve_preserves. Qed.
Lemma preserves_sasl p m : preserves R (sendSaslMessage p m).
Proof using PreOrder0 R_send. unfold sendSaslMessage. solve_preserves. Qed.
Lemma preserves_recv p : preserves R (receiveSaslMessage p).
Proof using PreOrder0 R_send R_read. unfold receiveSaslMessage. solve_preserves. Qed.
#[local] Hint Resolve preserves_find preserves_sasl preserves_recv : copilot.

Lemma preserves_negotiate c p : preserves R (negotiateSimpleTokenAuth c p).
Proof using PreOrder0 R_send R_read R_user R_digest. unfold negotiateSimpleTokenAuth. solve_preserves. Qed.
Lemma preserves_header p a : preserves R (writeConnectionHeader p a).
Proof using PreOrder0 R_send. unfold writeConnectionHeader. solve_preserves. Qed.
Lemma preserves_context c p cid : preserves R (writeConnectionContext c p cid).
Proof using PreOrder0 R_send R_ugi. unfold writeConnectionContext. solve_preserves. Qed.
Lemma preserves_request {Req} {PR : ProtoMessage Req} c p rpc (req : Req) :
  preserves R (sendRequest c p rpc req).
Proof using PreOrder0 R_send. unfold sendRequest. solve_preserves. Qed.
#[local] Hint Resolve preserves_negotiate preserves_header preserves_context : copilot.

(** Everything [getConnection] does after the dial. *)
Definition after_setup (c : Client) (cid : connection_id) (con : positive) : M (Net E) positive :=
  token ← findUsableTokenForService (ServerAddress c);
  let authProtocol := match token with Some _ => AUTH_PROTOCOL_SASL | None => AUTH_PROTOCOL_NONE end in
  _ ← writeConnectionHeader con authProtocol;
  _ ← (if bool_decide (authProtocol = AUTH_PROTOCOL_SASL) then negotiateSimpleTokenAuth c con
       else mret tt);
  _ ← writeConnectionContext c con cid;
  mret con.

Lemma preserves_after c cid p : preserves R (after_setup c cid p).
Proof using PreOrder0 R_send R_read R_user R_ugi R_digest. unfold after_setup. solve_preserves. Qed.

Hypothesis R_full : ∀ p k, preserves R (conn_ReadFull p k).
Hypothesis R_close : ∀ p, preserves R (conn_Close p).
#[local] Hint Resolve R_full R_close preserves_after preserves_request preserves_nodelay : copilot.

Lemma preserves_Call {Req Resp} {PReq : ProtoMessage Req} {PResp : ProtoMessage Resp} c rpc
    (req : Req) (resp0 : Resp) :
  preserves R (net_Dial (ServerAddress c)) → preserves R (Call cap_of c rpc req resp0).
Proof using PreOrder0 R_send R_read R_user R_ugi R_digest R_full R_close.
  intros R_dial. assert (∀ cid, preserves R (getConnection c cid)) as Hg.
  { intros cid. unfold getConnection.
    apply preserves_bind; [apply _| |intros p; apply preserves_after].
    unfold setupConnection. solve_preserves. }
  unfold Call, readResponse. solve_preserves.
Qed.
End Preserved.

Definition open_in n (p : positive) : Prop :=
  ∃ s, net_socks n !! p = Some s ∧ sock_open s = true.

Definition open_stays : relation (Net E) := λ n n', ∀ p, open_in n p → open_in n' p.
#[local] Instance open_stays_preorder : PreOrder open_stays.
Proof using. split; [by intros n p|intros n1 n2 n3 H12 H23 p Hp; by apply H23, H12]. Qed.

Lemma open_stays_sock {A} p (f : Socket → outcome A * Socket) :
  (∀ s, sock_open (f s).2 = sock_open s) → preserves open_stays (on_sock p f).
Proof using.
  intros Hf n r n'. unfold on_sock. destruct (net_socks n !! p) as [s|] eqn:Hs; [|by intros [= <- <-]].
  destruct (sock_open s) eqn:Ho; [|by intros [= <- <-]].
  specialize (Hf s). destruct (f s) as [r' s']. cbn in Hf. intros [= <- <-] q (s0 & Hq & Hq').
  unfold open_in, put_sock. cbn. destruct (decide (p = q)) as [<-|Hne].
  - rewrite lookup_insert_eq. exists s'. split; [done|]. congruence.
  - rewrite lookup_insert_ne by done. eauto.
Qed.

Lemma open_stays_in_sec {A} (c : M (SecState E) A) : preserves open_stays (in_sec c).
Proof using.
  intros n r n'. unfold in_sec, zoom. destruct (c (net_sec n)) as [r' sec].
  by intros [= <- <-] q.
Qed.

Lemma open_stays_send p data : preserves open_stays (on_sock p (send_op data)).
Proof using. apply open_stays_sock. intros s. unfold send_op. by repeat case_match. Qed.
Lemma open_stays_read p k : preserves open_stays (on_sock p (read_op k)).
Proof using. apply open_stays_sock. intros s. unfold read_op. by repeat case_match. Qed.

Lemma keeps_open_after c cid p : preserves open_stays (after_setup c cid p).
Proof using.
  apply preserves_after; intros; first [apply open_stays_in_sec|idtac];
    auto using open_stays_send, open_stays_read, open_stays_preorder.
Qed.
Lemma keeps_open_request {Req} {PR : ProtoMessage Req} c p rpc (req : Req) :
  preserves open_stays (sendRequest c p rpc req).
Proof using. apply preserves_request; auto using open_stays_send, open_stays_preorder. Qed.

Lemma setup_open c n p n' : setupConnection c n = (Ok p, n') → open_in n' p.
Proof using.
  unfold setupConnection. intros ([q ok] & n1 & Hd & H)%M_bind_inv.
  assert (open_in n1 q) as Hq.
  { unfold net_Dial in Hd. repeat case_match; simplify_eq. eexists.
    split; [apply lookup_insert_eq|done]. }
  destruct ok; [|done]. cbn [negb] in H. apply M_bind_inv in H as ([] & n2 & Hn & [= <- <-]).
  by eapply (preserves_nodelay open_stays open_stays_send).
Qed.

(** C32 A connection is closed only after a response was read for: when the
    handshake, or the sending of the request, fails on the connection that was dialled,
    [Call] returns that error and the connection stays open, with nothing left to close
    it. *)
Theorem failed_call_leaks_connection {Req Resp} {PReq : ProtoMessage Req} {PResp : ProtoMessage Resp}
    c cid user rpc (req : Req) (resp0 : Resp) protocol n p n0 :
  ready c cid → Ugi c ≫= UserInformationProto_RealUser = Some user →
  RequestHeaderProto_DeclaringClassProtocolName rpc = Some protocol →
  setupConnection c n = (Ok p, n0) →
  let conn := getConnection c (mkConnectionId user protocol (ServerAddress c) cid) in
  (∀ e n1, conn n = (Err e, n1) →
     Call cap_of c rpc req resp0 n = (Err e, n1) ∧ open_in n1 p) ∧
  (∀ n1 e n2, conn n = (Ok p, n1) → sendRequest c p rpc req n1 = (Err e, n2) →
     Call cap_of c rpc req resp0 n = (Err e, n2) ∧ open_in n2 p).
Proof using.
  intros (Hid & ugi & user0 & Hugi & Hreal) Hu Hproto Hset conn.
  rewrite Hugi in Hu. cbn in Hu. rewrite Hreal in Hu. injection Hu as ->.
  pose proof (setup_open _ _ _ _ Hset) as Hopen.
  assert (conn n = after_setup c (mkConnectionId user protocol (ServerAddress c) cid) p n0) as Hget.
  { unfold conn, getConnection. by rewrite (M_bind_ok _ _ _ _ _ Hset). }
  assert (Call cap_of c rpc req resp0 n = (conn ≫= λ conn,
            _ ← sendRequest c conn rpc req;
            r ← try (readResponse cap_of c conn resp0);
            _ ← try (conn_Close conn);
            match r with inl m => mret m | inr e => throw e end) n) as Hcall.
  { unfold Call. rewrite Hugi. erewrite M_bind_ok by reflexivity.
    rewrite Hreal. erewrite M_bind_ok by reflexivity.
    rewrite Hproto. erewrite M_bind_ok by reflexivity.
    rewrite Hid. by erewrite M_bind_ok by reflexivity. }
  rewrite Hcall. split.
  - intros e n1 H. split; [by rewrite (M_bind_err _ _ _ _ _ H)|].
    rewrite Hget in H. by eapply keeps_open_after.
  - intros n1 e n2 H1 H2. split.
    + rewrite (M_bind_ok _ _ _ _ _ H1). by rewrite (M_bind_err _ _ _ _ _ H2).
    + rewrite Hget in H1. exact (keeps_open_request c p rpc req _ _ _ H2 p (keeps_open_after _ _ _ _ _ _ H1 p Hopen)).
Qed.
End Runs.
