(* ===== verification/IpcRuns.v ===== *)
(** * Concrete runs of the IPC client

    A reference implementation of varints, which meets the laws the proofs assume
    of [protowire]; a small encoding of the messages of one call; and runs of the
    client on scripted networks. *)

From S2P Require Import Prelude GoStrings Proto Wire Crypto Security Net Ipc IpcProofs.

Local Open Scope string_scope.
Local Open Scope Z_scope.

Module ReferenceProto.

(** ** Varints *)

Fixpoint put_varint (fuel : nat) (v : Z) : bytes :=
match fuel with
| O => []
| S f => if bool_decide (v < 128) then [byte_of_Z v]
         else byte_of_Z (v mod 128 + 128) :: put_varint f (v `div` 128)
end.

Fixpoint get_varint (fuel : nat) (b : bytes) : option (Z * Z) :=
match fuel, b with
| S f, x :: b' =>
    let z := Z_of_byte x in
    if bool_decide (z < 128) then Some (z, 1)
    else '(v, k) ← get_varint f b'; Some (z - 128 + 128 * v, k + 1)
| _, _ => None
end.

#[export] Instance ref_protowire : Protowire := {|
AppendVarint b v := (b ++ put_varint 10 v)%list;
ConsumeVarint b :=
  match get_varint 10 b with
  | Some (v, k) => if bool_decide (v < 2 ^ 64) then (v, k) else (0, -3)
  | None => (0, -1)
  end
|}.

Lemma div128_bound f v :
0 ≤ v < 2 ^ (7 * Z.of_nat (S (S f))) → 0 ≤ v `div` 128 < 2 ^ (7 * Z.of_nat (S f)).
Proof.
intros Hv. split; [apply Z.div_pos; lia|]. apply Z.div_lt_upper_bound; [lia|].
change 128 with (2 ^ 7). rewrite <- Z.pow_add_r by lia.
replace (7 + 7 * Z.of_nat (S f)) with (7 * Z.of_nat (S (S f))) by lia. lia.
Qed.

Lemma get_put f v rest :
0 ≤ v < 2 ^ (7 * Z.of_nat (S f)) →
get_varint (S f) (put_varint (S f) v ++ rest)%list = Some (v, len (put_varint (S f) v)).
Proof.
revert v. induction f as [|f IH]; intros v Hv;
  change (put_varint (S ?k) v) with
    (if bool_decide (v < 128) then [byte_of_Z v]
     else byte_of_Z (v mod 128 + 128) :: put_varint k (v `div` 128)); case_bool_decide as Hlt.
2: { change (2 ^ (7 * Z.of_nat 1)) with 128 in Hv. lia. }
1-2: cbn [app get_varint]; rewrite Z_of_byte_of_Z, Z.mod_small by lia;
     by rewrite bool_decide_eq_true_2.
rewrite <- app_comm_cons. pose proof (Z.mod_pos_bound v 128).
change (get_varint (S (S f)) (?x :: ?b)) with
  (if bool_decide (Z_of_byte x < 128) then Some (Z_of_byte x, 1)
   else '(w, k) ← get_varint (S f) b; Some (Z_of_byte x - 128 + 128 * w, k + 1)).
rewrite Z_of_byte_of_Z, Z.mod_small by lia. rewrite bool_decide_eq_false_2 by lia.
rewrite IH by by apply div128_bound. cbn -[put_varint Z.mul].
f_equal. f_equal; [pose proof (Z.div_mod v 128); lia|]. unfold len. cbn [length]. lia.
Qed.

Lemma size_loop_put f n v :
0 ≤ v < 2 ^ (7 * Z.of_nat (S f)) → size_loop (S f) n v = Some (n + len (put_varint (S f) v)).
Proof.
revert n v. induction f as [|f IH]; intros n v Hv;
  change (put_varint (S ?k) v) with
    (if bool_decide (v < 128) then [byte_of_Z v]
     else byte_of_Z (v mod 128 + 128) :: put_varint k (v `div` 128));
  change (size_loop (S ?k) n v) with
    (if bool_decide (Z.shiftr v 7 = 0) then Some (n + 1) else size_loop k (n + 1) (Z.shiftr v 7));
  rewrite Z.shiftr_div_pow2 by lia; change (2 ^ 7) with 128;
  case_bool_decide as H0; case_bool_decide as Hlt;
  try (exfalso; apply Z.div_small_iff in H0; lia); try (exfalso; apply H0, Z.div_small; lia);
  try done.
rewrite IH by by apply div128_bound. f_equal. unfold len. cbn [length]. lia.
Qed.

Lemma get_varint_result fuel b v k :
get_varint fuel b = Some (v, k) → 0 ≤ v ∧ 0 < k ≤ len b.
Proof.
revert b v k. induction fuel as [|f IH]; intros b v k; [done|].
destruct b as [|x b]; [done|]. cbn [get_varint].
pose proof (Z_of_byte_range x). unfold len. cbn [length].
case_bool_decide.
- intros [= <- <-]. lia.
- destruct (get_varint f b) as [[v' k']|] eqn:Hg; cbn; [|done].
  intros [= <- <-]. apply IH in Hg. unfold len in Hg. lia.
Qed.

#[export] Instance ref_protowire_laws : ProtowireLaws.
Proof.
split.
- done.
- intros v Hv. cbn [AppendVarint ref_protowire app].
  pose proof (size_loop_put 9 0 v) as Hs.
  case_bool_decide as Hz; [by subst|].
  rewrite size_loop_log2 in Hs; [|lia|cbn; lia]. specialize (Hs ltac:(cbn; lia)).
  apply (inj Some) in Hs. change (([] ++ put_varint 10 v)%list) with (put_varint 10 v). lia.
- intros v rest Hv. cbn [AppendVarint ConsumeVarint ref_protowire app].
  rewrite get_put by (cbn; lia). by rewrite bool_decide_eq_true_2 by lia.
- intros b. cbn [ConsumeVarint ref_protowire].
  destruct (get_varint 10 b) as [[v k]|] eqn:Hg; [|cbn; lia].
  apply get_varint_result in Hg. case_bool_decide; cbn; lia.
Qed.

(** ** Messages

  The request messages are encoded by the fields the runs look at; the response
  header by its status, the response by its state, with the protobuf tags. *)

#[export] Instance ref_req_header : ProtoMessage RpcRequestHeaderProto := {|
proto_Marshal m := Ok (default [] (RpcRequestHeaderProto_ClientId m));
proto_Unmarshal b := Ok (request_header 0 b 0)
|}.
#[export] Instance ref_context : ProtoMessage IpcConnectionContextProto := {|
proto_Marshal m := Ok (bytes_of (default "" (IpcConnectionContextProto_Protocol m)));
proto_Unmarshal b := Ok (mkIpcConnectionContextProto None (Some (string_of b)))
|}.
#[export] Instance ref_rpc_header : ProtoMessage RequestHeaderProto := {|
proto_Marshal m := Ok (bytes_of (default "" (RequestHeaderProto_MethodName m)));
proto_Unmarshal b := Ok (mkRequestHeaderProto (Some (string_of b)) None None)
|}.
#[export] Instance ref_sasl : ProtoMessage RpcSaslProto := {|
proto_Marshal m := Ok (default [] (RpcSaslProto_Token m));
proto_Unmarshal b := Ok (mkRpcSaslProto None None (Some b) [])
|}.
#[export] Instance ref_resp_header : ProtoMessage RpcResponseHeaderProto := {|
proto_Marshal m := Ok [Byte.x10; byte_of_Z (enum_number (RpcResponseHeaderProto_GetStatus (Some m)))];
proto_Unmarshal b :=
  match b with
  | [_; s] => Ok (mkRpcResponseHeaderProto None
                    (first_such (λ e, bool_decide (enum_number e = Z_of_byte s)) enum_all)
                    None None None None None None None)
  | _ => Err "proto: required field hadoop.common.RpcResponseHeaderProto.status not set"
  end
|}.
#[export] Instance ref_status_req : ProtoMessage GetServiceStatusRequestProto := {|
proto_Marshal _ := Ok [];
proto_Unmarshal _ := Ok mkGetServiceStatusRequestProto
|}.
#[export] Instance ref_status_req_laws : ProtoMessageLaws GetServiceStatusRequestProto.
Proof. split; [by intros [] b _|done|done]. Qed.
#[export] Instance ref_status_resp : ProtoMessage GetServiceStatusResponseProto := {|
proto_Marshal m :=
  Ok [Byte.x08; byte_of_Z (enum_number (GetServiceStatusResponseProto_GetState (Some m)))];
proto_Unmarshal b :=
  match b with
  | [_; s] => Ok (mkGetServiceStatusResponseProto
                    (first_such (λ e, bool_decide (enum_number e = Z_of_byte s)) enum_all)
                    None None)
  | _ => Err "proto: required field state not set"
  end
|}.
End ReferenceProto.

(** ** Runs *)

Section Witnesses.
Import ReferenceProto.

#[local] Instance run_user : UserApi unit := {| user_Current := mret "yarn" |}.
#[local] Instance run_rand : RandApi unit := {| rand_Read n := mret (replicate n Byte.x00) |}.

(** The capacities of small allocations in Go's run time. *)
Definition small_cap (n : nat) : nat :=
  if bool_decide (n = 0%nat) then 0 else if bool_decide (n ≤ 8)%nat then 8 else Nat.max 16 n.

Lemma sizeVarint_correct_witness :
  size_loop 10 0 300 = Some (len (AppendVarint [] 300)) ∧ size_loop 20 0 (-1) = None.
Proof.
  destruct (sizeVarint_correct 300) as [H1 H2]; [lia|]. split; [exact H1|].
  apply (H2 20%nat (-1)). lia.
Defined.

Lemma readDelimited_panics_iff_witness :
  (∃ w, readDelimited [Byte.x05; Byte.x00] mkGetServiceStatusRequestProto = Panic w).
Proof.
  destruct (readDelimited_panics_iff [Byte.x05; Byte.x00] mkGetServiceStatusRequestProto)
    as (_ & [_ H] & _); [unfold len; cbn; lia|].
  apply H. right. vm_compute. reflexivity.
Defined.

Definition cid : bytes := replicate 16 Byte.xab.
Definition caller : Client :=
  mkClient (Some cid) (Some (mkUserInformationProto None (Some "yarn"))) "10.0.0.1:8033" false.
Definition rpc : RequestHeaderProto :=
  mkRequestHeaderProto (Some "getServiceStatus") (Some "org.apache.hadoop.ha.HAServiceProtocol")
    (Some CLIENT_PROTOCOL_VERSION).

(** The server's answer: success, then [ACTIVE], in two segments. *)
Definition bh : bytes := [Byte.x10; Byte.x00].
Definition br : bytes := [Byte.x08; Byte.x01].
Definition answer : list InEvent :=
  [ Seg Byte.x00 [Byte.x00; Byte.x00; Byte.x06; Byte.x02]; Seg Byte.x10 [Byte.x00; Byte.x02; Byte.x08; Byte.x01] ].
Definition peer (evs : list InEvent) (faults : list (option (nat * error))) : Peer :=
  mkPeer true evs faults.
Definition net_with (p : Peer) : Net unit :=
  mkNet ∅ {[ "10.0.0.1:8033" := [inl p] ]} (mkSecState None tt).

Lemma frames_state_their_length_witness :
  let s := mkSocket "10.0.0.1:8033" [] [] [] true in
  let n := mkNet {[ 1%positive := s ]} ∅ (mkSecState None tt) in
  ∃ n', write_frame 1 [bh; br] n = (Ok tt, n') ∧
    net_socks n' = <[1%positive := push (frame [bh; br]) s]> (net_socks n) ∧
    ConvertBytesToFixed (frame [bh; br]) = Ok (len (drop 4 (frame [bh; br]))).
Proof.
  intros s n. apply (frames_state_their_length 1 [bh; br] n s).
  - split; [reflexivity|]. split; reflexivity.
  - vm_compute. reflexivity.
Defined.

Lemma call_returns_response_witness :
  ∃ p s n', Call small_cap caller rpc mkGetServiceStatusRequestProto
      (mkGetServiceStatusResponseProto None None None) (net_with (peer answer []))
    = (Ok (mkGetServiceStatusResponseProto (Some HAServiceStateProto_ACTIVE) None None), n') ∧
    net_socks (net_with (peer answer [])) !! p = None ∧
    net_socks n' = <[p := s]> (net_socks (net_with (peer answer []))) ∧
    sock_open s = false ∧
    sock_out s = request_bytes cid (bytes_of "org.apache.hadoop.ha.HAServiceProtocol") cid
                   (bytes_of "getServiceStatus") [].
Proof.
  eapply (call_returns_response small_cap caller cid "yarn" "org.apache.hadoop.ha.HAServiceProtocol"
    rpc mkGetServiceStatusRequestProto cid (bytes_of "org.apache.hadoop.ha.HAServiceProtocol") cid
    (bytes_of "getServiceStatus") [] ) with
    (bh := bh) (br := br) (rest := []) (peers := []) (peer := peer answer [])
    (hdr := mkRpcResponseHeaderProto None (Some RpcResponseHeaderProto_SUCCESS) None None None None None None None);
    try (vm_compute; reflexivity).
  - split; [reflexivity|]. eexists _, _. split; reflexivity.
  - intros []. exists tt. reflexivity.
  - vm_compute. lia.
Defined.

Definition split_answer : list InEvent :=
  [ Seg Byte.x00 []; Seg Byte.x00 [Byte.x00; Byte.x06; Byte.x02; Byte.x10; Byte.x00; Byte.x02; Byte.x08; Byte.x01] ].

Lemma split_length_panics_witness :
  let s := mkSocket "10.0.0.1:8033" [] split_answer [] true in
  let n := mkNet {[ 1%positive := s ]} ∅ (mkSecState None tt) in
  ∃ w n', readResponse small_cap caller 1 (mkGetServiceStatusResponseProto None None None) n = (Panic w, n').
Proof.
  intros s n. eapply (split_length_panics small_cap caller n 1 s).
  - split; [reflexivity|]. split; reflexivity.
  - reflexivity.
  - left. split; [cbn; lia|]. split; reflexivity.
Defined.

(** The dial, the deadlines and the handshake succeed; the request's first write
    fails. *)
Definition faulty : Peer :=
  peer answer (replicate 13 None ++ [Some (0%nat, "broken pipe")])%list.

(** The connection is made; a write of the handshake fails. *)
Definition no_handshake : Peer :=
  peer answer (replicate 8 None ++ [Some (0%nat, "connection reset by peer")])%list.

Definition connect_to (p : Peer) : outcome positive * Net unit :=
  getConnection caller (mkConnectionId "yarn" "org.apache.hadoop.ha.HAServiceProtocol" "10.0.0.1:8033" cid)
    (net_with p).

Lemma failed_call_leaks_connection_witness :
  (∃ n1, Call small_cap caller rpc mkGetServiceStatusRequestProto
       (mkGetServiceStatusResponseProto None None None) (net_with no_handshake) =
       (Err "connection reset by peer", n1) ∧ open_in n1 1) ∧
  (∃ n2, Call small_cap caller rpc mkGetServiceStatusRequestProto
       (mkGetServiceStatusResponseProto None None None) (net_with faulty) = (Err "broken pipe", n2) ∧
     open_in n2 1).
Proof.
  split.
  - eexists. refine (proj1 (failed_call_leaks_connection small_cap caller cid "yarn" rpc
      mkGetServiceStatusRequestProto (mkGetServiceStatusResponseProto None None None)
      "org.apache.hadoop.ha.HAServiceProtocol" (net_with no_handshake) 1
      (setupConnection caller (net_with no_handshake)).2 _ _ _ _)
      "connection reset by peer" (connect_to no_handshake).2 _); try (vm_compute; reflexivity).
    split; [reflexivity|]. eexists _, _. split; reflexivity.
  - eexists. refine (proj2 (failed_call_leaks_connection small_cap caller cid "yarn" rpc
      mkGetServiceStatusRequestProto (mkGetServiceStatusResponseProto None None None)
      "org.apache.hadoop.ha.HAServiceProtocol" (net_with faulty) 1
      (setupConnection caller (net_with faulty)).2 _ _ _ _)
      (connect_to faulty).2 "broken pipe" _ _ _); try (vm_compute; reflexivity).
    split; [reflexivity|]. eexists _, _. split; reflexivity.
Defined.
End Witnesses.
