(* ===== verification/IpcSent.v ===== *)
(** * What a successful call has sent

    [IpcProofs] runs a call against a server that answers.  Here the other direction: a
    call that returned a response, whatever the server and the network did, has sent a
    complete and correct request on a connection of its own.  The proofs use a small
    program logic: [delivers p Φ c] says that a successful run of [c] appended some bytes
    [d] to what socket [p] has sent, touched no other socket, and returned [a] with
    [Φ a d]. *)

From S2P Require Import Prelude GoStrings Proto Wire Crypto Security Net Ipc IpcProofs.

Local Open Scope Z_scope.

Section Delivers.
Context {E : Type} {UA : UserApi E} {RA : RandApi E} {PW : Protowire} {PL : ProtowireLaws}.
Implicit Types n : Net E.

(** [d] was appended to the output of [p], which is still open; nothing else happened to
    the sockets. *)
Definition wrote (p : positive) (d : bytes) n n' : Prop :=
  net_peers n' = net_peers n ∧
  ∀ s, net_socks n !! p = Some s → sock_open s = true →
    ∃ s', net_socks n' = <[p := s']> (net_socks n) ∧ sock_open s' = true ∧
      sock_addr s' = sock_addr s ∧ sock_out s' = (sock_out s ++ d)%list.

Lemma wrote_nil p n n' :
  net_socks n' = net_socks n → net_peers n' = net_peers n → wrote p [] n n'.
Proof.
  intros Hs Hp. split; [done|]. intros s Hl Ho. exists s. rewrite Hs, app_nil_r.
  by rewrite insert_id.
Qed.

Lemma wrote_app p d1 d2 n1 n2 n3 :
  wrote p d1 n1 n2 → wrote p d2 n2 n3 → wrote p (d1 ++ d2)%list n1 n3.
Proof.
  intros [Hp1 H1] [Hp2 H2]. split; [congruence|]. intros s Hs Ho.
  destruct (H1 s Hs Ho) as (s1 & Hs1 & Ho1 & Ha1 & Hd1).
  destruct (H2 s1) as (s2 & Hs2 & Ho2 & Ha2 & Hd2); [rewrite Hs1; apply lookup_insert_eq|done|].
  exists s2. rewrite Hs2, Hs1, insert_insert_eq, Ha2, Ha1, Hd2, Hd1, app_assoc. done.
Qed.

Definition delivers {A} (p : positive) (Φ : A → bytes → Prop) (c : M (Net E) A) : Prop :=
  ∀ n a n', c n = (Ok a, n') → ∃ d, Φ a d ∧ wrote p d n n'.

(** Nothing is sent. *)
Abbreviation silent := (λ _ d, d = []).

Lemma delivers_weaken {A} p (Φ Ψ : A → bytes → Prop) c :
  delivers p Φ c → (∀ a d, Φ a d → Ψ a d) → delivers p Ψ c.
Proof. intros Hc HΦ n a n' Hrun. destruct (Hc _ _ _ Hrun) as (d & Hd & Hw). eauto. Qed.

Lemma delivers_ret {A} p (Φ : A → bytes → Prop) a : Φ a [] → delivers p Φ (mret a).
Proof. intros HΦ n a' n' [= <- <-]. exists []. split; [done|by apply wrote_nil]. Qed.

Lemma delivers_throw {A} p (Φ : A → bytes → Prop) e : delivers p Φ (throw e).
Proof. by intros n a n'. Qed.

Lemma delivers_bind {A B} p (Ψ : A → bytes → Prop) (Φ : B → bytes → Prop) c f :
  delivers p Ψ c →
  (∀ a d, Ψ a d → delivers p (λ b d', Φ b (d ++ d')%list) (f a)) →
  delivers p Φ (c ≫= f).
Proof.
  intros Hc Hf n b n' (a & n1 & H1 & H2)%M_bind_inv.
  destruct (Hc _ _ _ H1) as (d1 & Hd1 & Hw1).
  destruct (Hf a d1 Hd1 _ _ _ H2) as (d2 & Hd2 & Hw2).
  exists (d1 ++ d2)%list. split; [done|]. by eapply wrote_app.
Qed.

(** A part that sends nothing, whose result does not matter. *)
Lemma delivers_after {A B} p (Φ : B → bytes → Prop) (c : M (Net E) A) f :
  delivers p silent c → (∀ a, delivers p Φ (f a)) → delivers p Φ (c ≫= f).
Proof. intros Hc Hf. eapply delivers_bind; [exact Hc|]. intros a d ->. apply Hf. Qed.

Lemma delivers_lift {A} p (x : outcome A) : delivers p (λ a d, x = Ok a ∧ d = []) (lift_out x).
Proof. intros n a n' [= -> <-]. exists []. split; [done|by apply wrote_nil]. Qed.

Lemma delivers_pure {A B} p (Φ : B → bytes → Prop) (x : outcome A) f :
  (∀ a, x = Ok a → delivers p Φ (f a)) → delivers p Φ (lift_out x ≫= f).
Proof. intros Hf. eapply delivers_bind; [apply delivers_lift|]. intros a d [Ha ->]. by apply Hf. Qed.

Lemma delivers_sec {A} p (c : M (SecState E) A) : delivers p silent (in_sec c).
Proof.
  intros n a n'. unfold in_sec, zoom. destruct (c (net_sec n)) as [r sec].
  intros [= -> <-]. exists []. split; [done|by apply wrote_nil].
Qed.

Lemma delivers_try_sec {A} p (c : M (SecState E) A) : delivers p silent (try (in_sec c)).
Proof.
  intros n a n'. unfold try, in_sec, zoom. destruct (c (net_sec n)) as [r sec].
  intros Hrun. exists []. split; [done|]. by destruct r; simplify_eq; apply wrote_nil.
Qed.

(** An operation on the socket that keeps it open and appends [d] when it succeeds. *)
Lemma delivers_sock {A} p (f : Socket → outcome A * Socket) data :
  (∀ s a s', f s = (Ok a, s') → sock_open s = true → sock_open s' = true ∧
     sock_addr s' = sock_addr s ∧ sock_out s' = (sock_out s ++ data)%list) →
  delivers p (λ _ d, d = data) (on_sock p f).
Proof.
  intros Hf n a n'. unfold on_sock. destruct (net_socks n !! p) as [s|] eqn:Hs; [|done].
  destruct (sock_open s) eqn:Ho; [|done]. destruct (f s) as [r s'] eqn:Hr.
  intros [= -> <-]. exists data. split; [done|]. split; [done|]. intros s0 Hs0 _.
  assert (s0 = s) as -> by congruence. exists s'. split; [done|]. by eapply Hf.
Qed.

Lemma delivers_send p data : delivers p (λ _ d, d = data) (on_sock p (send_op data)).
Proof.
  apply delivers_sock. intros s a s'. unfold send_op.
  destruct (sock_faults s) as [|[[k e]|] t]; intros [= <- <-]; done.
Qed.

Lemma delivers_read p k : delivers p silent (on_sock p (read_op k)).
Proof.
  apply delivers_sock. intros s a s'. unfold read_op. rewrite app_nil_r.
  repeat case_match; by intros [= <- <-].
Qed.

Lemma delivers_read_full p k : delivers p silent (conn_ReadFull p k).
Proof.
  apply delivers_sock. intros s a s'. rewrite app_nil_r.
  destruct (read_full _ _ _) as [r evs]. by intros [= -> <-].
Qed.

(** ** Frames *)

(** What the writer of frames writes; it is [frame] for everything a Go slice can hold. *)
Definition written (msgs : list bytes) : bytes :=
  (be_bytes 4 (int32 (delimited_size msgs)) ++
   concat ((λ m, AppendVarint [] (uint64 (len m)) ++ m) <$> msgs))%list.

Lemma written_frame msgs : len (delimited msgs) < 2 ^ 63 → written msgs = frame msgs.
Proof.
  intros Hlen. unfold written, frame. rewrite be_bytes_int32, delimited_size_len by (done || lia).
  f_equal. unfold delimited in *. induction msgs as [|m msgs IH]; [done|].
  cbn [fmap list_fmap concat] in *. rewrite len_app in Hlen.
  unfold delimit at 1 in Hlen. rewrite len_app in Hlen.
  pose proof (len_nonneg m). pose proof (len_nonneg (AppendVarint [] (len m))).
  pose proof (len_nonneg (concat (delimit <$> msgs))).
  rewrite IH by lia. unfold delimit at 2, uwrap. by rewrite Z.mod_small by lia.
Qed.

Lemma delivers_each p msgs :
  delivers p (λ _ d, d = concat ((λ m, AppendVarint [] (uint64 (len m)) ++ m)%list <$> msgs))
    (for_each msgs (writeDelimitedBytes p)).
Proof.
  induction msgs as [|m msgs IH]; [by apply delivers_ret|]. cbn [fmap list_fmap concat for_each].
  eapply delivers_bind; [|intros [] d Hd; eapply delivers_weaken; [exact IH|]].
  - unfold writeDelimitedBytes. eapply (delivers_bind _ _ (λ _ d, d = _)); [apply delivers_send|].
    intros [] d ->. eapply delivers_weaken; [apply delivers_send|]. by intros [] d ->.
  - by intros [] d' ->; rewrite Hd.
Qed.

Lemma delivers_frame p msgs : delivers p (λ _ d, d = written msgs) (write_frame p msgs).
Proof.
  unfold write_frame. apply delivers_pure. intros hdr [= <-].
  eapply delivers_bind; [apply delivers_send|]. intros [] d ->.
  eapply delivers_weaken; [apply delivers_each|]. by intros [] d ->.
Qed.

(** ** The handshake *)

Context {P1 : ProtoMessage RpcRequestHeaderProto} {P2 : ProtoMessage RpcResponseHeaderProto}.
Context {P3 : ProtoMessage IpcConnectionContextProto} {P4 : ProtoMessage RequestHeaderProto}.
Context {P5 : ProtoMessage RpcSaslProto}.
Context (cap_of : nat → nat).

Lemma delivers_header p auth :
  delivers p (λ _ d, d = preamble auth) (writeConnectionHeader p auth).
Proof.
  unfold writeConnectionHeader, preamble.
  apply delivers_after; [apply delivers_send|]. intros [].
  eapply delivers_bind; [apply delivers_send|]. intros [] d ->.
  eapply delivers_bind; [apply delivers_send|]. intros [] d ->.
  apply delivers_pure. intros b [= <-].
  eapply delivers_bind; [apply delivers_send|]. intros [] d ->.
  apply delivers_pure. intros b [= <-].
  eapply delivers_weaken; [apply delivers_send|]. by intros [] d ->.
Qed.

(** What the operating system says about the user, nothing when it cannot tell. *)
Definition current_user (o : option UserInformationProto) : Prop :=
  ∃ e : E, o = match (CreateCurrentUserInfoProto e).1 with Ok u => Some u | _ => None end.

(** The connection context names the client, the protocol and the user. *)
Definition context_of (clientId : bytes) (protocol : string) (d : bytes) : Prop :=
  ∃ ugi h1 h2, current_user ugi ∧
    proto_Marshal (request_header (-3) clientId RPC_DEFAULT_RETRY_COUNT) = Ok h1 ∧
    proto_Marshal (mkIpcConnectionContextProto ugi (Some protocol)) = Ok h2 ∧ d = written [h1; h2].

Definition user_of (r : UserInformationProto + error) : option UserInformationProto :=
  match r with inl u => Some u | inr _ => None end.

Lemma delivers_user p :
  delivers p (λ r d, current_user (user_of r) ∧ d = []) (try CreateSimpleUGIProto).
Proof.
  intros n r n' Hrun.
  destruct (delivers_try_sec p (in_env CreateCurrentUserInfoProto) n r n' Hrun) as (d & -> & Hw).
  exists []. split; [|done]. split; [|done]. exists (sec_env (net_sec n)). revert Hrun.
  unfold try, CreateSimpleUGIProto, in_os, in_sec, in_env, zoom.
  destruct (CreateCurrentUserInfoProto (sec_env (net_sec n))) as [[u|e|w] e'];
    cbn; intros Hrun; by simplify_eq.
Qed.

Lemma delivers_context c p cid clientId :
  ClientId c = Some clientId →
  delivers p (λ _, context_of clientId (connid_protocol cid)) (writeConnectionContext c p cid).
Proof.
  intros Hc. unfold writeConnectionContext.
  apply delivers_after; [apply delivers_send|]. intros [].
  eapply delivers_bind; [apply delivers_user|]. intros u d [Hu ->]. cbn zeta.
  apply delivers_pure. intros i Hi. rewrite Hc in Hi. injection Hi as <-.
  apply delivers_pure. intros h1 H1. apply delivers_pure. intros h2 H2.
  eapply delivers_weaken; [apply delivers_frame|]. intros [] d ->. by exists (user_of u), h1, h2.
Qed.

Lemma delivers_find p service : delivers p silent (findUsableTokenForService service).
Proof.
  unfold findUsableTokenForService. apply delivers_after; [apply delivers_sec|]. intros u.
  apply delivers_pure. intros ugi _. cbn zeta. by case_bool_decide; apply delivers_ret.
Qed.

(** The SASL messages: their content is the subject of [IpcSasl]. *)
Abbreviation something := (λ _ _, True).

Lemma delivers_sasl p m : delivers p something (sendSaslMessage p m).
Proof.
  unfold sendSaslMessage. apply delivers_pure. intros h1 _. apply delivers_pure. intros h2 _.
  apply delivers_after; [apply delivers_send|]. intros [].
  by eapply delivers_weaken; [apply delivers_frame|].
Qed.

Lemma delivers_read_once p k : delivers p silent (read_once p k).
Proof.
  unfold read_once. apply delivers_after; [apply delivers_read|]. intros got. by apply delivers_ret.
Qed.

Lemma delivers_receive p : delivers p something (receiveSaslMessage p).
Proof.
  unfold receiveSaslMessage. apply delivers_after; [apply delivers_send|]. intros [].
  apply delivers_after; [apply delivers_read_once|]. intros b.
  apply delivers_pure. intros l _. apply delivers_pure. intros k _.
  apply delivers_after; [apply delivers_read_once|]. intros r.
  by eapply delivers_weaken; [apply delivers_lift|].
Qed.

Lemma delivers_negotiate c p : delivers p something (negotiateSimpleTokenAuth c p).
Proof.
  unfold negotiateSimpleTokenAuth.
  eapply delivers_bind; [apply delivers_sasl|]. intros [] d1 _.
  eapply delivers_bind; [apply delivers_receive|]. intros m d2 _.
  destruct (RpcSaslProto_GetAuths _) as [|auth l]; [apply delivers_throw|]. cbn zeta.
  case_match; [apply delivers_throw|].
  apply delivers_after; [apply delivers_find|]. intros t.
  apply delivers_after; [apply delivers_sec|]. intros r.
  eapply delivers_bind; [apply delivers_sasl|]. intros [] d3 _.
  eapply delivers_bind; [apply delivers_receive|]. intros m2 d4 _.
  case_match; [apply delivers_throw|by apply delivers_ret].
Qed.

(** ** Connection and call *)

Lemma setup_dialled c n p n1 :
  setupConnection c n = (Ok p, n1) →
  net_socks n !! p = None ∧ net_sec n1 = net_sec n ∧
  ∃ s, net_socks n1 = <[p := s]> (net_socks n) ∧ sock_open s = true ∧
    sock_addr s = ServerAddress c ∧ sock_out s = [].
Proof.
  unfold setupConnection. intros ([q ok] & n0 & Hd & H)%M_bind_inv.
  destruct ok; [|done]. cbn [negb] in H. apply M_bind_inv in H as ([] & n2 & Hn & [= <- <-]).
  unfold net_Dial in Hd. destruct (net_peers n !! ServerAddress c) as [[|[peer|e] rest]|]; try done.
  injection Hd as <- Htcp <-. split; [apply not_elem_of_dom, is_fresh|].
  assert (net_sec n2 = net_sec n) as ->.
  { revert Hn. unfold conn_SetNoDelay, on_sock. repeat case_match; intros Heq; by simplify_eq. }
  split; [done|]. destruct (delivers_send _ [] _ _ _ Hn) as (d & -> & Hp & Hw).
  destruct (Hw _ (lookup_insert_eq _ _ _) eq_refl) as (s & Hs & Ho & Ha & Hout).
  exists s. cbn [net_socks] in Hs. rewrite insert_insert_eq in Hs. by rewrite Hout.
Qed.

Lemma find_token_none service n t n' :
  findUsableTokenForService service n = (Ok t, n') → no_token (net_sec n) service → t = None.
Proof.
  unfold findUsableTokenForService, no_token. intros (u & n1 & Hu & H)%M_bind_inv Hno.
  unfold in_sec, zoom in Hu. destruct (GetCurrentUser (net_sec n)) as [r sec] eqn:Hg.
  injection Hu as -> <-. unfold lift_out in H. unfold mbind, M_bind in H.
  destruct u as [ugi|]; cbn [deref] in H; [|done].
  assert (userTokens ugi !! service ≫= id = None) as Hugi.
  { revert Hg. unfold GetCurrentUser, initializeCurrentUser, Allocate, in_env, zoom. unfold_M.
    destruct (sec_current (net_sec n)) as [ugi0|] eqn:Hc.
    - cbn. rewrite Hc. intros [= <- _]. done.
    - destruct (CreateCurrentUserInfoProto (sec_env (net_sec n))) as [[ui|e|w] e'] eqn:Hui;
        cbn; try done; intros [= <- _]; done. }
  unfold GetUserTokens in H. case_bool_decide; injection H as <- _; done.
Qed.

(** What a connection has sent before the request: without a token just the preamble
    and the context, with one also the negotiation. *)
Definition opening (clientId : bytes) (protocol : string) (plain : bool) (d : bytes) : Prop :=
  ∃ nego ctx, context_of clientId protocol ctx ∧
    if plain then d = (preamble AUTH_PROTOCOL_NONE ++ ctx)%list
    else d = (preamble AUTH_PROTOCOL_SASL ++ nego ++ ctx)%list.

Lemma after_setup_opening c cid clientId p n q n' :
  ClientId c = Some clientId → after_setup c cid p n = (Ok q, n') →
  q = p ∧ ∃ plain d, opening clientId (connid_protocol cid) plain d ∧ wrote p d n n' ∧
    (no_token (net_sec n) (ServerAddress c) → plain = true).
Proof.
  intros Hc (t & n1 & Ht & H)%M_bind_inv. cbn zeta in H.
  destruct (delivers_find p _ _ _ _ Ht) as (d0 & -> & Hw0).
  set (plain := match t with Some _ => false | None => true end).
  assert (delivers p (λ q d, q = p ∧ opening clientId (connid_protocol cid) plain d)
    (_ ← writeConnectionHeader p (if plain then AUTH_PROTOCOL_NONE else AUTH_PROTOCOL_SASL);
     _ ← (if plain then mret tt else negotiateSimpleTokenAuth c p);
     _ ← writeConnectionContext c p cid; mret p)) as Hd.
  { eapply delivers_bind; [apply delivers_header|]. intros [] d1 ->. destruct plain.
    - apply delivers_after; [by apply delivers_ret|]. intros [].
      eapply delivers_bind; [by apply delivers_context|]. intros [] ctx Hctx. apply delivers_ret.
      split; [done|]. exists [], ctx. rewrite app_nil_r. done.
    - eapply delivers_bind; [apply delivers_negotiate|]. intros [] nego _.
      eapply delivers_bind; [by apply delivers_context|]. intros [] ctx Hctx. apply delivers_ret.
      split; [done|]. exists nego, ctx. rewrite app_nil_r. done. }
  edestruct (Hd n1 q n') as (d & [-> Ho] & Hw).
  { unfold plain. destruct t; [rewrite bool_decide_eq_true_2 in H by done|
      rewrite bool_decide_eq_false_2 in H by done]; exact H. }
  split; [done|]. exists plain, d. split; [done|]. split; [exact (wrote_app _ [] _ _ _ _ Hw0 Hw)|].
  intros Hno. unfold plain. by rewrite (find_token_none _ _ _ _ Ht Hno).
Qed.

(** The request: who calls, which method of which protocol, and the argument. *)
Definition requested {Req} {PR : ProtoMessage Req} (clientId : bytes) (rpc : RequestHeaderProto)
    (req : Req) (d : bytes) : Prop :=
  ∃ h3 h4 h5, proto_Marshal (request_header 0 clientId 0) = Ok h3 ∧ proto_Marshal rpc = Ok h4 ∧
    proto_Marshal req = Ok h5 ∧ d = written [h3; h4; h5].

Lemma delivers_request {Req} {PR : ProtoMessage Req} c p rpc (req : Req) clientId :
  ClientId c = Some clientId →
  delivers p (λ _, requested clientId rpc req) (sendRequest c p rpc req).
Proof.
  intros Hc. unfold sendRequest. apply delivers_after; [apply delivers_send|]. intros [].
  apply delivers_pure. intros i Hi. rewrite Hc in Hi. injection Hi as <-.
  apply delivers_pure. intros h3 H3. apply delivers_pure. intros h4 H4.
  apply delivers_pure. intros h5 H5.
  eapply delivers_weaken; [apply delivers_frame|]. intros [] d ->. by exists h3, h4, h5.
Qed.

Lemma delivers_response {Resp} {PR : ProtoMessage Resp} c p (resp0 : Resp) :
  delivers p silent (readResponse cap_of c p resp0).
Proof.
  unfold readResponse. apply delivers_after; [apply delivers_read_once|]. intros b.
  apply delivers_pure. intros l _. apply delivers_pure. intros k _.
  apply delivers_after; [apply delivers_read_full|]. intros r.
  case_bool_decide; [apply delivers_throw|].
  eapply delivers_weaken; [apply delivers_lift|]. by intros a d [_ ->].
Qed.

(** Between [n] and [n'] one connection to [addr] was dialled, used for one call of
    [rpc] with the argument [req], and closed; no other socket was touched. *)
Definition called {Req} {PR : ProtoMessage Req} (addr : string) (clientId : bytes)
    (protocol : string) (rpc : RequestHeaderProto) (req : Req) n n' : Prop :=
  ∃ p s plain d1 d2, net_socks n !! p = None ∧ net_socks n' = <[p := s]> (net_socks n) ∧
    sock_addr s = addr ∧ sock_open s = false ∧ sock_out s = (d1 ++ d2)%list ∧
    opening clientId protocol plain d1 ∧ requested clientId rpc req d2 ∧
    (no_token (net_sec n) addr → plain = true).

Lemma call_sent {Req Resp} {PReq : ProtoMessage Req} {PResp : ProtoMessage Resp}
    c rpc (req : Req) (resp0 resp : Resp) n n' :
  Call cap_of c rpc req resp0 n = (Ok resp, n') →
  ∃ clientId protocol, ClientId c = Some clientId ∧
    RequestHeaderProto_DeclaringClassProtocolName rpc = Some protocol ∧
    called (ServerAddress c) clientId protocol rpc req n n'.
Proof.
  unfold Call. intros (ugi & na & Ha & H)%M_bind_inv.
  apply M_bind_inv in H as (user & nb & Hb & H). apply M_bind_inv in H as (protocol & nc & Hp & H).
  apply M_bind_inv in H as (clientId & nd & Hid & H).
  injection Ha as _ <-. injection Hb as _ <-. injection Hp as Hp <-. injection Hid as Hid <-.
  destruct (RequestHeaderProto_DeclaringClassProtocolName rpc) as [pr|]; [|done]. injection Hp as ->.
  destruct (ClientId c) as [ci|] eqn:Hc; [|done]. injection Hid as ->.
  exists clientId, protocol. split; [done|]. split; [done|].
  apply M_bind_inv in H as (conn & n1 & Hconn & H). apply M_bind_inv in H as ([] & n2 & Hreq & H).
  unfold getConnection in Hconn. apply M_bind_inv in Hconn as (p & n0 & Hset & Hconn).
  apply setup_dialled in Hset as (Hfresh & Hsec & s0 & Hs0 & Ho0 & Ha0 & Hout0).
  destruct (after_setup_opening c _ clientId p n0 conn n1 Hc Hconn)
    as (-> & plain & d1 & Hopen & Hw1 & Hplain).
  destruct (delivers_request c p rpc req clientId Hc _ _ _ Hreq) as (d2 & Hd2 & Hw2).
  apply M_bind_inv in H as (r & n3 & Hresp & H). apply M_bind_inv in H as (cl & n4 & Hcl & H).
  destruct r as [m|e]; [|done]. injection H as <- <-. unfold try in Hresp.
  destruct (readResponse cap_of c p resp0 n2) as [[m'|e|w] n3'] eqn:Hread; try done.
  injection Hresp as -> <-. destruct (delivers_response c p resp0 _ _ _ Hread) as (d3 & -> & Hw3).
  pose proof (wrote_app _ _ _ _ _ _ (wrote_app _ _ _ _ _ _ Hw1 Hw2) Hw3) as [_ Hw].
  destruct (Hw s0) as (s & Hs & Ho & Haddr & Hout);
    [rewrite Hs0; apply lookup_insert_eq|done|]. rewrite app_nil_r, Hout0 in Hout.
  revert Hcl. unfold try, conn_Close, on_sock. rewrite Hs, lookup_insert_eq, Ho.
  intros [= _ <-]. eexists p, _, plain, d1, d2. split; [done|].
  split; [cbn; rewrite Hs, Hs0, !insert_insert_eq; reflexivity|]. cbn [sock_addr sock_open sock_out].
  split; [congruence|]. split; [done|]. split; [exact Hout|]. rewrite Hsec in Hplain. done.
Qed.
End Delivers.
