(* ===== verification/ServerView.v ===== *)
(** * What the server reads

    A reference reader for the server's side of Hadoop's RPC protocol, version 9, as far
    as this client uses it: the preamble, frames of 32-bit big-endian length, messages
    delimited by varints, the connection context under call id -3 and one call.  Every
    call of the client that succeeded without a token is read back by it, with nothing
    left over.  The reader shares nothing with the client's own decoder. *)

From S2P Require Import Prelude GoStrings Proto Wire Crypto Security Net Ipc IpcProofs IpcRuns IpcSent.

Local Open Scope Z_scope.

(** What the server knows of a call. *)
Record ServerCall (Req : Type) := mkServerCall {
  call_user : option UserInformationProto;
  call_protocol : option string;
  call_client : option bytes;
  call_header : RequestHeaderProto;
  call_argument : Req
}.
Arguments mkServerCall {Req}.

Definition ok_of {A} (x : outcome A) : option A := match x with Ok a => Some a | _ => None end.

Section Server.
Context {PW : Protowire}.
Context {P1 : ProtoMessage RpcRequestHeaderProto} {P3 : ProtoMessage IpcConnectionContextProto}.
Context {P4 : ProtoMessage RequestHeaderProto}.

(** ["hrpc"], version 9, service class 0, no authentication. *)
Definition server_preamble (b : bytes) : option bytes :=
  if bool_decide (take 7 b = [Byte.x68; Byte.x72; Byte.x70; Byte.x63; Byte.x09; Byte.x00; Byte.x00])
  then Some (drop 7 b) else None.

(** One frame, and what follows it. *)
Definition server_frame (b : bytes) : option (bytes * bytes) :=
  let l := int32 (be_value (take 4 b)) in
  if bool_decide (4 ≤ len b ∧ 0 ≤ l ≤ len (drop 4 b))
  then Some (take (Z.to_nat l) (drop 4 b), drop (Z.to_nat l) (drop 4 b)) else None.

(** One delimited message, and what follows it. *)
Definition server_message (b : bytes) : option (bytes * bytes) :=
  let '(l, k) := ConsumeVarint b in
  if bool_decide (0 < k ∧ k + l ≤ len b)
  then Some (take (Z.to_nat l) (drop (Z.to_nat k) b), drop (Z.to_nat l) (drop (Z.to_nat k) b)) else None.

(** The messages of a frame that has [k] of them. *)
Fixpoint server_messages (k : nat) (b : bytes) : option (list bytes) :=
  match k with
  | O => if bool_decide (b = []) then Some [] else None
  | S k' => '(m, rest) ← server_message b; ms ← server_messages k' rest; Some (m :: ms)
  end.

Definition server_context (b : bytes) : option (RpcRequestHeaderProto * IpcConnectionContextProto) :=
  ms ← server_messages 2 b;
  match ms with
  | [m1; m2] =>
      h ← ok_of (proto_Unmarshal m1);
      ctx ← ok_of (proto_Unmarshal m2);
      if bool_decide (RpcRequestHeaderProto_CallId h = Some (-3)) then Some (h, ctx) else None
  | _ => None
  end.

Definition server_request {Req} {PR : ProtoMessage Req} (b : bytes)
  : option (RpcRequestHeaderProto * RequestHeaderProto * Req) :=
  ms ← server_messages 3 b;
  match ms with
  | [m1; m2; m3] =>
      h ← ok_of (proto_Unmarshal m1);
      rpc ← ok_of (proto_Unmarshal m2);
      req ← ok_of (proto_Unmarshal m3);
      if bool_decide (0 ≤ default (-1) (RpcRequestHeaderProto_CallId h)) then Some (h, rpc, req) else None
  | _ => None
  end.

(** A connection with one call; both headers must name the same client. *)
Definition server_read {Req} {PR : ProtoMessage Req} (b : bytes) : option (ServerCall Req * bytes) :=
  b1 ← server_preamble b;
  '(f1, b2) ← server_frame b1;
  '(h1, ctx) ← server_context f1;
  '(f2, b3) ← server_frame b2;
  '(h2, rpc, req) ← server_request f2;
  if bool_decide (RpcRequestHeaderProto_ClientId h1 = RpcRequestHeaderProto_ClientId h2)
  then Some (mkServerCall (IpcConnectionContextProto_UserInfo ctx) (IpcConnectionContextProto_Protocol ctx)
               (RpcRequestHeaderProto_ClientId h2) rpc req, b3)
  else None.

(** ** Reading back what was written *)

Context {PL : ProtowireLaws}.

Lemma server_message_delimit m rest :
  len m < 2 ^ 63 → server_message (delimit m ++ rest)%list = Some (m, rest).
Proof.
  intros Hm. pose proof (len_nonneg m). pose proof (len_nonneg rest).
  unfold server_message, delimit. rewrite <- app_assoc, ConsumeVarint_append by lia.
  pose proof (varint_positive (len m)). rewrite bool_decide_eq_true_2.
  2: { rewrite !len_app. lia. }
  unfold len. rewrite !Nat2Z.id, drop_app_length. by rewrite take_app_length, drop_app_length.
Qed.

Lemma server_messages_delimited msgs :
  Forall (λ m, len m < 2 ^ 63) msgs → server_messages (length msgs) (delimited msgs) = Some msgs.
Proof.
  unfold delimited. induction 1 as [|m msgs Hm _ IH]; [done|]. cbn [fmap list_fmap concat length server_messages].
  rewrite server_message_delimit by done. cbn. by rewrite IH.
Qed.

Lemma server_frame_frame msgs rest :
  len (delimited msgs) < 2 ^ 31 → server_frame (frame msgs ++ rest)%list = Some (delimited msgs, rest).
Proof.
  intros Hl. pose proof (len_nonneg (delimited msgs)). pose proof (len_nonneg rest).
  unfold server_frame, frame. rewrite <- app_assoc.
  rewrite take_app_length', drop_app_length' by (by rewrite length_be_bytes).
  rewrite be_value_int32 by lia. rewrite bool_decide_eq_true_2.
  2: { rewrite !len_app. unfold len at 1. rewrite length_be_bytes. lia. }
  unfold len. rewrite !Nat2Z.id. by rewrite take_app_length, drop_app_length.
Qed.

(** A frame of less than 2 GiB was written as it should be. *)
Lemma written_bound msgs : len (written msgs) < 2 ^ 31 →
  Forall (λ m, len m < 2 ^ 63) msgs ∧ len (delimited msgs) < 2 ^ 31 ∧ written msgs = frame msgs.
Proof.
  intros Hw. set (body := concat ((λ m, AppendVarint [] (uint64 (len m)) ++ m)%list <$> msgs)).
  assert (len body < 2 ^ 31) as Hb.
  { unfold written in Hw. rewrite len_app in Hw.
    pose proof (len_nonneg (be_bytes 4 (int32 (delimited_size msgs)))). fold body in Hw. lia. }
  enough (Forall (λ m, len m < 2 ^ 63) msgs ∧ body = delimited msgs) as [Hf Heq].
  { split; [done|]. split; [by rewrite <- Heq|]. apply written_frame. rewrite <- Heq. lia. }
  clear Hw. unfold body, delimited in *. clear body.
  induction msgs as [|m msgs IH]; [done|]. cbn [fmap list_fmap concat] in *. rewrite !len_app in Hb.
  pose proof (len_nonneg m). pose proof (len_nonneg (AppendVarint [] (uint64 (len m)))).
  pose proof (len_nonneg (concat ((λ m, AppendVarint [] (uint64 (len m)) ++ m)%list <$> msgs))).
  destruct IH as [IH1 IH2]; [lia|]. split; [constructor; [lia|done]|].
  rewrite IH2. unfold delimit at 1, uwrap. by rewrite Z.mod_small by lia.
Qed.

(** ** Calls *)

Context {L1 : ProtoMessageLaws RpcRequestHeaderProto} {L3 : ProtoMessageLaws IpcConnectionContextProto}.
Context {L4 : ProtoMessageLaws RequestHeaderProto}.

Lemma server_preamble_preamble rest :
  server_preamble (preamble AUTH_PROTOCOL_NONE ++ rest)%list = Some rest.
Proof. reflexivity. Qed.

Lemma server_context_read cid protocol ugi h1 h2 :
  proto_Marshal (request_header (-3) cid RPC_DEFAULT_RETRY_COUNT) = Ok h1 →
  proto_Marshal (mkIpcConnectionContextProto ugi (Some protocol)) = Ok h2 →
  Forall (λ m, len m < 2 ^ 63) [h1; h2] →
  server_context (delimited [h1; h2]) = Some (request_header (-3) cid RPC_DEFAULT_RETRY_COUNT,
    mkIpcConnectionContextProto ugi (Some protocol)).
Proof.
  intros H1 H2 Hf. unfold server_context.
  pose proof (server_messages_delimited [h1; h2] Hf) as Hm. cbn [length] in Hm. rewrite Hm. cbn.
  by rewrite (proto_roundtrip _ _ H1), (proto_roundtrip _ _ H2).
Qed.

Lemma server_request_read {Req} {PR : ProtoMessage Req} {LR : ProtoMessageLaws Req} cid rpc (req : Req) h3 h4 h5 :
  proto_Marshal (request_header 0 cid 0) = Ok h3 → proto_Marshal rpc = Ok h4 → proto_Marshal req = Ok h5 →
  Forall (λ m, len m < 2 ^ 63) [h3; h4; h5] →
  server_request (delimited [h3; h4; h5]) = Some (request_header 0 cid 0, rpc, req).
Proof.
  intros H3 H4 H5 Hf. unfold server_request.
  pose proof (server_messages_delimited [h3; h4; h5] Hf) as Hm. cbn [length] in Hm. rewrite Hm. cbn.
  by rewrite (proto_roundtrip _ _ H3), (proto_roundtrip _ _ H4), (proto_roundtrip _ _ H5).
Qed.

Lemma server_reads_sent {E} {UA : UserApi E} {Req} {PR : ProtoMessage Req} {LR : ProtoMessageLaws Req}
    cid protocol rpc (req : Req) d1 d2 :
  opening (E:=E) cid protocol true d1 → requested cid rpc req d2 → len (d1 ++ d2)%list < 2 ^ 31 →
  ∃ ugi, current_user (E:=E) ugi ∧
    server_read (d1 ++ d2)%list = Some (mkServerCall ugi (Some protocol) (Some cid) rpc req, []).
Proof.
  intros (nego & ctx & (ugi & h1 & h2 & Hu & H1 & H2 & ->) & ->) (h3 & h4 & h5 & H3 & H4 & H5 & ->) Hlen.
  rewrite !len_app in Hlen. pose proof (len_nonneg (preamble AUTH_PROTOCOL_NONE)).
  pose proof (len_nonneg (written [h1; h2])). pose proof (len_nonneg (written [h3; h4; h5])).
  destruct (written_bound [h1; h2]) as (Hf1 & Hl1 & ->); [lia|].
  destruct (written_bound [h3; h4; h5]) as (Hf2 & Hl2 & ->); [lia|].
  exists ugi. split; [done|]. unfold server_read. rewrite <- app_assoc, server_preamble_preamble. cbn [mbind option_bind].
  rewrite server_frame_frame by done. cbn [mbind option_bind]. rewrite (server_context_read _ _ _ _ _ H1 H2 Hf1). cbn [mbind option_bind].
  rewrite <- (app_nil_r (frame [h3; h4; h5])), server_frame_frame by done. cbn [mbind option_bind].
  rewrite (server_request_read _ _ _ _ _ _ H3 H4 H5 Hf2). cbn. by rewrite bool_decide_eq_true_2.
Qed.
End Server.

Section Calls.
Context {E : Type} {UA : UserApi E} {RA : RandApi E} {PW : Protowire} {PL : ProtowireLaws}.
Context {P1 : ProtoMessage RpcRequestHeaderProto} {P2 : ProtoMessage RpcResponseHeaderProto}.
Context {P3 : ProtoMessage IpcConnectionContextProto} {P4 : ProtoMessage RequestHeaderProto}.
Context {P5 : ProtoMessage RpcSaslProto}.
Context {L1 : ProtoMessageLaws RpcRequestHeaderProto} {L3 : ProtoMessageLaws IpcConnectionContextProto}.
Context {L4 : ProtoMessageLaws RequestHeaderProto} (cap_of : nat → nat).

(** The connection a call was made on. *)
Lemma called_read {Req} {PR : ProtoMessage Req} {LR : ProtoMessageLaws Req} addr cid protocol rpc (req : Req)
    (n n' : Net E) :
  called addr cid protocol rpc req n n' → no_token (net_sec n) addr →
  ∃ p s, net_socks n !! p = None ∧ net_socks n' = <[p := s]> (net_socks n) ∧ sock_addr s = addr ∧
    (len (sock_out s) < 2 ^ 31 → ∃ ugi, current_user (E:=E) ugi ∧
       server_read (sock_out s) = Some (mkServerCall ugi (Some protocol) (Some cid) rpc req, [])).
Proof.
  intros (p & s & plain & d1 & d2 & Hp & Hs & Ha & _ & Hout & Ho & Hr & Hplain) Hno.
  exists p, s. split; [done|]. split; [done|]. split; [done|]. intros Hlen. rewrite Hout in Hlen |- *.
  rewrite (Hplain Hno) in Ho. by eapply server_reads_sent.
Qed.

(** C7 The server reads what was meant: when a call has returned a response to a user
    without tokens, whatever the server and the network did, the bytes of the connection
    it was made on, if fewer than 2 GiB, are read by the reference server as exactly one
    call, with nothing after it: the protocol, the client's identity, the user of the
    process, the method and the argument are the ones the call was made with. *)
Theorem server_reads_call {Req Resp} {PReq : ProtoMessage Req} {PResp : ProtoMessage Resp}
    {LR : ProtoMessageLaws Req} c rpc (req : Req) (resp0 resp : Resp) (n n' : Net E) :
  Call cap_of c rpc req resp0 n = (Ok resp, n') → no_token (net_sec n) (ServerAddress c) →
  ∃ p s, net_socks n !! p = None ∧ net_socks n' = <[p := s]> (net_socks n) ∧
    sock_addr s = ServerAddress c ∧
    (len (sock_out s) < 2 ^ 31 → ∃ ugi, current_user (E:=E) ugi ∧
       server_read (sock_out s) = Some (mkServerCall ugi
         (RequestHeaderProto_DeclaringClassProtocolName rpc) (ClientId c) rpc req, [])).
Proof.
  intros (cid & protocol & Hc & Hp & Hcalled)%call_sent Hno.
  destruct (called_read _ _ _ _ _ _ _ Hcalled Hno) as (p & s & H). exists p, s. by rewrite Hc, Hp.
Qed.
End Calls.

(** ** A run

    The laws of the messages hold for an encoding of any countable type: one byte per
    binary digit of its number. *)
Module CountableProto.
Fixpoint pos_bytes (p : positive) : bytes :=
  match p with
  | xH => []
  | xO p' => Byte.x00 :: pos_bytes p'
  | xI p' => Byte.x01 :: pos_bytes p'
  end.
Fixpoint bytes_pos (b : bytes) : positive :=
  match b with
  | [] => xH
  | x :: b' => if Byte.eqb x Byte.x00 then xO (bytes_pos b') else xI (bytes_pos b')
  end.
Lemma bytes_pos_bytes p : bytes_pos (pos_bytes p) = p.
Proof. induction p as [p IH|p IH|]; cbn; [by rewrite IH..|done]. Qed.

Definition countable_message (T : Type) `{Countable T} : ProtoMessage T := {|
  proto_Marshal m := Ok (pos_bytes (encode m));
  proto_Unmarshal b := match decode (bytes_pos b) with Some m => Ok m | None => Err "proto: cannot parse" end
|}.
Lemma countable_message_laws (T : Type) `{Countable T} : ProtoMessageLaws T (PM := countable_message T).
Proof.
  split.
  - intros m b [= <-]. cbn. by rewrite bytes_pos_bytes, decode_encode.
  - intros b w. cbn. by case_match.
  - done.
Qed.

#[export] Instance kind_countable : Countable RpcKindProto.
Proof.
  refine (inj_countable enum_number (λ z, first_such (λ e, bool_decide (enum_number e = z)) enum_all) _).
  by intros [].
Defined.
#[export] Instance op_countable : Countable RpcRequestHeaderProto_OperationProto.
Proof.
  refine (inj_countable enum_number (λ z, first_such (λ e, bool_decide (enum_number e = z)) enum_all) _).
  by intros [].
Defined.
#[export] Instance byte_eq_dec : EqDecision Byte.byte := Byte.byte_eq_dec.
#[export] Instance byte_countable : Countable Byte.byte.
Proof. refine (inj_countable Byte.to_N Byte.of_N _). apply Byte.of_to_N. Defined.

#[export] Instance trace_eq_dec : EqDecision RPCTraceInfoProto.
Proof. solve_decision. Defined.
#[export] Instance trace_countable : Countable RPCTraceInfoProto.
Proof.
  refine (inj_countable' (λ m, (RPCTraceInfoProto_TraceId m, RPCTraceInfoProto_ParentId m))
    (λ '(a, b), mkRPCTraceInfoProto a b) _). by intros [].
Defined.
#[export] Instance caller_eq_dec : EqDecision RPCCallerContextProto.
Proof. solve_decision. Defined.
#[export] Instance caller_countable : Countable RPCCallerContextProto.
Proof.
  refine (inj_countable' (λ m, (RPCCallerContextProto_Context m, RPCCallerContextProto_Signature m))
    (λ '(a, b), mkRPCCallerContextProto a b) _). by intros [].
Defined.
#[export] Instance req_header_eq_dec : EqDecision RpcRequestHeaderProto.
Proof. solve_decision. Defined.
#[export] Instance req_header_countable : Countable RpcRequestHeaderProto.
Proof.
  refine (inj_countable' (λ m, (RpcRequestHeaderProto_RpcKind m, RpcRequestHeaderProto_RpcOp m,
      RpcRequestHeaderProto_CallId m, RpcRequestHeaderProto_ClientId m, RpcRequestHeaderProto_RetryCount m,
      RpcRequestHeaderProto_TraceInfo m, RpcRequestHeaderProto_CallerContext m, RpcRequestHeaderProto_StateId m))
    (λ '(a, b, c, d, e, f, g, h), mkRpcRequestHeaderProto a b c d e f g h) _). by intros [].
Defined.
#[export] Instance user_info_eq_dec : EqDecision UserInformationProto.
Proof. solve_decision. Defined.
#[export] Instance user_info_countable : Countable UserInformationProto.
Proof.
  refine (inj_countable' (λ m, (UserInformationProto_EffectiveUser m, UserInformationProto_RealUser m))
    (λ '(a, b), mkUserInformationProto a b) _). by intros [].
Defined.
#[export] Instance context_eq_dec : EqDecision IpcConnectionContextProto.
Proof. solve_decision. Defined.
#[export] Instance context_countable : Countable IpcConnectionContextProto.
Proof.
  refine (inj_countable' (λ m, (IpcConnectionContextProto_UserInfo m, IpcConnectionContextProto_Protocol m))
    (λ '(a, b), mkIpcConnectionContextProto a b) _). by intros [].
Defined.
#[export] Instance rpc_header_eq_dec : EqDecision RequestHeaderProto.
Proof. solve_decision. Defined.
#[export] Instance rpc_header_countable : Countable RequestHeaderProto.
Proof.
  refine (inj_countable' (λ m, (RequestHeaderProto_MethodName m, RequestHeaderProto_DeclaringClassProtocolName m,
      RequestHeaderProto_ClientProtocolVersion m)) (λ '(a, b, c), mkRequestHeaderProto a b c) _). by intros [].
Defined.
End CountableProto.

Section Witness.
Import ReferenceProto CountableProto.

#[local] Instance view_header : ProtoMessage RpcRequestHeaderProto := countable_message _.
#[local] Instance view_context : ProtoMessage IpcConnectionContextProto := countable_message _.
#[local] Instance view_rpc : ProtoMessage RequestHeaderProto := countable_message _.
#[local] Instance view_header_laws : ProtoMessageLaws RpcRequestHeaderProto := countable_message_laws _.
#[local] Instance view_context_laws : ProtoMessageLaws IpcConnectionContextProto := countable_message_laws _.
#[local] Instance view_rpc_laws : ProtoMessageLaws RequestHeaderProto := countable_message_laws _.
#[local] Instance view_user : UserApi unit := {| user_Current := mret "yarn"%string |}.
#[local] Instance view_rand : RandApi unit := {| rand_Read n := mret (replicate n Byte.x00) |}.

Definition view_run : outcome GetServiceStatusResponseProto * Net unit :=
  Call small_cap caller rpc mkGetServiceStatusRequestProto (mkGetServiceStatusResponseProto None None None)
    (net_with (peer answer [])).

Lemma server_reads_call_witness :
  ∃ p s, net_socks (net_with (peer answer [])) !! p = None ∧
    net_socks view_run.2 = <[p := s]> (net_socks (net_with (peer answer []))) ∧
    sock_addr s = ServerAddress caller ∧
    (len (sock_out s) < 2 ^ 31 → ∃ ugi, current_user (E:=unit) ugi ∧
       server_read (sock_out s) = Some (mkServerCall ugi
         (RequestHeaderProto_DeclaringClassProtocolName rpc) (ClientId caller) rpc
         mkGetServiceStatusRequestProto, [])).
Proof.
  apply (server_reads_call small_cap caller rpc mkGetServiceStatusRequestProto
    (mkGetServiceStatusResponseProto None None None)
    (mkGetServiceStatusResponseProto (Some HAServiceStateProto_ACTIVE) None None)).
  - vm_compute. reflexivity.
  - exact I.
Defined.
End Witness.
