(* ===== verification/IpcSasl.v ===== *)
(** * The SASL exchange end to end

    A call by a user who holds a token for the server: the connection is negotiated
    with TOKEN/DIGEST-MD5 before the request is sent. *)

From S2P Require Import Prelude GoStrings Proto Wire Crypto Security SecurityProofs Net Ipc.
From S2P Require Import IpcProofs IpcRuns.

Local Open Scope string_scope.
Local Open Scope Z_scope.

(** ** Reading with single reads *)

(** What one [Read] into a buffer of [k] bytes takes, when it fills the buffer. *)
Definition read_seg (k : nat) (evs : list InEvent) : option (bytes * list InEvent) :=
  match k, evs with
  | O, _ => Some ([], evs)
  | S k', Seg b bs :: t =>
      if bool_decide (k' ≤ length bs)%nat
      then Some (b :: take k' bs, match drop k' bs with [] => t | b' :: bs' => Seg b' bs' :: t end)
      else None
  | _, _ => None
  end.

Section Exchange.
Context {E : Type} {UA : UserApi E} {RA : RandApi E} {PW : Protowire} {PL : ProtowireLaws}.
Context {P1 : ProtoMessage RpcRequestHeaderProto} {P2 : ProtoMessage RpcResponseHeaderProto}.
Context {P3 : ProtoMessage IpcConnectionContextProto} {P4 : ProtoMessage RequestHeaderProto}.
Context {P5 : ProtoMessage RpcSaslProto}.
Implicit Types n : Net E.

Lemma with_in_same s : with_in (sock_in s) s = s.
Proof. by destruct s. Qed.

Lemma read_once_seg n p s k data evs :
  healthy n p s → read_seg k (sock_in s) = Some (data, evs) →
  read_once p k n = (Ok data, upd p (with_in evs s) (net_sec n) n).
Proof.
  intros (Hs & Ho & Hf) Hr. unfold read_once, conn_Read, on_sock. unfold_M. rewrite Hs, Ho.
  destruct k as [|k]; cbn [read_seg read_op] in *.
  - simplify_eq. cbn. by rewrite with_in_same.
  - destruct (sock_in s) as [|[b bs|e] t]; [done| |done]. case_bool_decide as Hk; [|done].
    simplify_eq. rewrite length_cons, length_take, Nat.min_l by lia.
    by rewrite Nat.sub_diag, app_nil_r.
Qed.

(** A body that arrives in more than one segment is taken for complete: what is
    missing of the first segment reads as zeros, and the rest stays in the stream. *)
Lemma short_body_padded n p s b bs t k :
  healthy n p s → sock_in s = Seg b bs :: t → (length bs ≤ k)%nat →
  read_once p (S k) n =
    (Ok (b :: bs ++ replicate (k - length bs) Byte.x00)%list, upd p (with_in t s) (net_sec n) n).
Proof.
  intros (Hs & Ho & Hf) Hin Hk. unfold read_once, conn_Read, on_sock. unfold_M. rewrite Hs, Ho.
  cbn [read_op]. rewrite Hin, take_ge, drop_ge by lia. done.
Qed.

(** A frame of [msgs] arrives so that its length and its body each fill the one read
    they are given; [evs'] is left. *)
Definition whole_frame (msgs : list bytes) (evs evs' : list InEvent) : Prop :=
  ∃ evs1, read_seg 4 evs = Some (be_bytes 4 (len (delimited msgs)), evs1) ∧
    read_seg (length (delimited msgs)) evs1 = Some (delimited msgs, evs').

Lemma push_nil s : sock_open s = true ∧ sock_faults s = [] → push [] s = s.
Proof. destruct s. unfold push. cbn. intros [-> ->]. by rewrite app_nil_r. Qed.

Lemma receive_ok n p s evs' bh br hdr msg :
  healthy n p s → whole_frame [bh; br] (sock_in s) evs' →
  proto_Unmarshal bh = Ok hdr → proto_Unmarshal br = Ok msg →
  checkSaslRpcHeader hdr = Ok tt →
  RpcResponseHeaderProto_Status hdr = Some RpcResponseHeaderProto_SUCCESS →
  len (delimited [bh; br]) < 2 ^ 31 →
  receiveSaslMessage p n = (Ok msg, upd p (with_in evs' s) (net_sec n) n).
Proof.
  intros Hh (evs1 & H4 & Hbody) Hbh Hbr Hchk Hst Hlen.
  pose proof (len_nonneg (delimited [bh; br])) as Hnn. unfold receiveSaslMessage.
  rewrite (M_bind_ok _ _ _ _ _ (sends_deadline p n s Hh)). destruct Hh as (Hs & Ho & Hf).
  rewrite push_nil by done.
  rewrite (M_bind_ok _ _ _ _ _ (read_once_seg _ p s _ _ _ (healthy_upd p s _ _ Ho Hf) H4)).
  erewrite M_bind_ok.
  2: { unfold lift_out. rewrite <- (app_nil_r (be_bytes _ _)), frame_prefix by lia. reflexivity. }
  unfold make_bytes. rewrite bool_decide_eq_true_2 by done. erewrite M_bind_ok by reflexivity.
  unfold len at 1. rewrite Nat2Z.id, upd_upd.
  rewrite (M_bind_ok _ _ _ _ _ (read_once_seg _ p (with_in evs1 s) _ _ _
             (healthy_upd p (with_in evs1 s) _ _ Ho Hf) Hbody)).
  unfold lift_out. rewrite (decode_success _ hdr msg) by done.
  by rewrite upd_upd.
Qed.

Lemma sends_sasl p m hs b :
  proto_Marshal (request_header SASL_RPC_CALL_ID SASL_RPC_DUMMY_CLIENT_ID SASL_RPC_INVALID_RETRY_COUNT)
    = Ok hs →
  proto_Marshal m = Ok b → len (delimited [hs; b]) < 2 ^ 31 →
  sends p (frame [hs; b]) (sendSaslMessage (E:=E) p m).
Proof.
  intros H1 H2 Hlen. unfold sendSaslMessage. eapply sends_lift; [exact H1|].
  eapply sends_lift; [exact H2|]. change (frame [hs; b]) with ([] ++ frame [hs; b])%list.
  apply sends_bind; [apply sends_deadline|]. apply sends_frame. lia.
Qed.

Lemma find_token n service ugi tok :
  sec_current (net_sec n) = Some ugi → userTokens ugi !! service = Some (Some tok) →
  findUsableTokenForService service n = (Ok (Some tok), n).
Proof.
  intros Hc Ht. unfold findUsableTokenForService, in_sec, zoom, GetCurrentUser, initializeCurrentUser.
  unfold_M. rewrite Hc. cbn. rewrite Hc. cbn. unfold GetUserTokens.
  rewrite bool_decide_eq_false_2; [rewrite Ht; by destruct n|].
  intros Hz%map_size_empty_iff. by rewrite Hz in Ht.
Qed.

(** ** The conversation

    The client's two SASL messages, and the server's answers [a1] (its challenge) and
    [a2] (success), with the bytes they travel as. *)
Section Negotiated.
Context (cap_of : nat → nat) (c : Client) (cid : bytes) (u protocol : string).
Context (ugi : UserGroupInformation) (tok : TokenProto).
Context (auth : RpcSaslProto_SaslAuth) (auths : list RpcSaslProto_SaslAuth).
Context (hdr1 hdr2 : RpcResponseHeaderProto) (a1 a2 : RpcSaslProto).
Context (hs m1 m2 h1 h2 bh1 br1 bh2 br2 : bytes) (digest : string) (e0 e1 e2 : E).

Definition negotiate : RpcSaslProto := mkRpcSaslProto None (Some RpcSaslProto_NEGOTIATE) None [].
Definition initiate : RpcSaslProto :=
  mkRpcSaslProto None (Some RpcSaslProto_INITIATE) (Some (bytes_of digest))
    [mkRpcSaslProto_SaslAuth (Some (RpcSaslProto_SaslAuth_GetMethod (Some auth)))
       (Some (RpcSaslProto_SaslAuth_GetMechanism (Some auth)))
       (Some (RpcSaslProto_SaslAuth_GetProtocol (Some auth)))
       (Some (RpcSaslProto_SaslAuth_GetServerId (Some auth))) None].

(** The server answers the negotiation with a challenge for TOKEN/DIGEST-MD5, the
    response to which succeeds. *)
Hypothesis Htok : userTokens ugi !! ServerAddress c = Some (Some tok).
Hypothesis Hauths : RpcSaslProto_GetAuths (Some a1) = auth :: auths.
Hypothesis Hmethod : RpcSaslProto_SaslAuth_GetMethod (Some auth) = "TOKEN".
Hypothesis Hmechanism : RpcSaslProto_SaslAuth_GetMechanism (Some auth) = "DIGEST-MD5".
Hypothesis Hdigest : GetDigestMD5ChallengeResponse (RpcSaslProto_SaslAuth_GetProtocol (Some auth))
  (RpcSaslProto_SaslAuth_GetServerId (Some auth))
  (default [] (RpcSaslProto_SaslAuth_GetChallenge (Some auth))) (Some tok) e0 = (Ok digest, e1).
Hypothesis Hstate : RpcSaslProto_GetState (Some a2) = RpcSaslProto_SUCCESS.
Hypothesis Huser : user_Current e1 = (Ok u, e2).

(** The messages on the wire. *)
Hypothesis Hs : proto_Marshal
  (request_header SASL_RPC_CALL_ID SASL_RPC_DUMMY_CLIENT_ID SASL_RPC_INVALID_RETRY_COUNT) = Ok hs.
Hypothesis Hm1 : proto_Marshal negotiate = Ok m1.
Hypothesis Hm2 : proto_Marshal initiate = Ok m2.
Hypothesis Hh1 : proto_Marshal (request_header (-3) cid RPC_DEFAULT_RETRY_COUNT) = Ok h1.
Hypothesis Hh2 : proto_Marshal (mkIpcConnectionContextProto
  (Some (mkUserInformationProto None (Some u))) (Some protocol)) = Ok h2.
Hypothesis Hbh1 : proto_Unmarshal bh1 = Ok hdr1.
Hypothesis Hbr1 : proto_Unmarshal br1 = Ok a1.
Hypothesis Hbh2 : proto_Unmarshal bh2 = Ok hdr2.
Hypothesis Hbr2 : proto_Unmarshal br2 = Ok a2.
Hypothesis Hchk : Forall (λ h, checkSaslRpcHeader h = Ok tt ∧
  RpcResponseHeaderProto_Status h = Some RpcResponseHeaderProto_SUCCESS) [hdr1; hdr2].
Hypothesis Hlens : Forall (λ msgs, len (delimited msgs) < 2 ^ 31)
  [[hs; m1]; [hs; m2]; [h1; h2]; [bh1; br1]; [bh2; br2]].

(** What the client has sent when the connection is set up. *)
Definition handshake_bytes : bytes :=
  (preamble AUTH_PROTOCOL_SASL ++ frame [hs; m1] ++ frame [hs; m2] ++ frame [h1; h2])%list.

Lemma negotiate_ok n p s evs1 evs2 :
  healthy n p s → sec_current (net_sec n) = Some ugi → sec_env (net_sec n) = e0 →
  whole_frame [bh1; br1] (sock_in s) evs1 → whole_frame [bh2; br2] evs1 evs2 →
  negotiateSimpleTokenAuth c p n =
    (Ok tt, upd p (with_in evs2 (push (frame [hs; m1] ++ frame [hs; m2])%list s))
              (mkSecState (Some ugi) e1) n).
Proof using PL Htok Hauths Hmethod Hmechanism Hdigest Hstate Hs Hm1 Hm2 Hbh1 Hbr1 Hbh2 Hbr2 Hchk Hlens.
  intros Hh Hcur Henv Hw1 Hw2. rewrite !list.Forall_cons in Hchk. rewrite !list.Forall_cons in Hlens.
  destruct Hchk as ((Hc1 & Hst1) & (Hc2 & Hst2) & _).
  destruct Hlens as (L1 & L2 & _ & L4 & L5 & _).
  unfold negotiateSimpleTokenAuth.
  rewrite (M_bind_ok _ _ _ _ _ (sends_sasl p negotiate hs m1 Hs Hm1 L1 n s Hh)).
  erewrite M_bind_ok.
  2: { eapply (receive_ok _ p (push (frame [hs; m1]) s) evs1 bh1 br1 hdr1 a1); try done.
       by apply healthy_upd. }
  rewrite Hauths. cbn zeta.
  rewrite (bool_decide_eq_true_2 _ Hmethod), (bool_decide_eq_true_2 _ Hmechanism). cbn [andb negb].
  rewrite upd_upd. erewrite M_bind_ok by (by eapply find_token).
  erewrite M_bind_ok.
  2: { unfold in_os, in_sec, in_env, zoom. cbn [upd net_sec]. rewrite Henv, Hdigest, Hcur. reflexivity. }
  set (s1 := with_in evs1 (push (frame [hs; m1]) s)).
  cbn [upd net_socks net_peers net_sec]. fold (upd p s1 (mkSecState (Some ugi) e1) n).
  erewrite M_bind_ok.
  2: { by apply (sends_sasl p initiate hs m2 Hs Hm2 L2 _ s1), healthy_upd. }
  rewrite upd_upd. erewrite M_bind_ok.
  2: { eapply (receive_ok _ p (push (frame [hs; m2]) s1) evs2 bh2 br2 hdr2 a2); try done.
       by apply healthy_upd. }
  rewrite (bool_decide_eq_true_2 _ Hstate). cbn [negb].
  rewrite upd_upd. unfold mret, M_ret, s1, push, with_in. cbn. by rewrite <- app_assoc.
Qed.

Lemma getConnection_sasl n peer peers evs1 evs2 :
  ClientId c = Some cid →
  sec_current (net_sec n) = Some ugi → sec_env (net_sec n) = e0 →
  net_peers n !! ServerAddress c = Some (inl peer :: peers) →
  peer_tcp peer = true → peer_faults peer = [] →
  whole_frame [bh1; br1] (peer_in peer) evs1 → whole_frame [bh2; br2] evs1 evs2 →
  let p := fresh (dom (net_socks n)) in
  ∀ user, getConnection c (mkConnectionId user protocol (ServerAddress c) cid) n =
    (Ok p, mkNet (<[p := mkSocket (ServerAddress c) handshake_bytes evs2 [] true]> (net_socks n))
             (<[ServerAddress c := peers]> (net_peers n)) (mkSecState (Some ugi) e2)).
Proof using All.
  intros Hid Hcur Henv Hp Ht Hf Hw1 Hw2 p user.
  set (s0 := mkSocket (ServerAddress c) [] (peer_in peer) [] true).
  set (n0 := mkNet (<[p := s0]> (net_socks n)) (<[ServerAddress c := peers]> (net_peers n)) (net_sec n)).
  assert (healthy n0 p s0) as Hh by (split; [apply lookup_insert_eq|done]).
  unfold getConnection. erewrite M_bind_ok by (by apply (setup_ok c n peer peers)).
  fold p. fold s0. fold n0. erewrite M_bind_ok by (by eapply find_token). cbn zeta beta iota.
  rewrite (M_bind_ok _ _ _ _ _ (sends_header p AUTH_PROTOCOL_SASL n0 s0 Hh)).
  rewrite bool_decide_eq_true_2 by done. erewrite M_bind_ok.
  2: { eapply (negotiate_ok _ p (push (preamble AUTH_PROTOCOL_SASL) s0) evs1 evs2); try done.
       by apply healthy_upd. }
  rewrite upd_upd. erewrite M_bind_ok.
  2: { eapply (context_sent c p _ h1 h2 u e2); [exact Huser|exact Hid|exact Hh1|exact Hh2| |].
       - rewrite !list.Forall_cons in Hlens. tauto.
       - by apply healthy_upd. }
  unfold mret, M_ret. rewrite upd_upd. unfold upd. cbn [net_socks net_peers n0].
  rewrite insert_insert_eq. unfold push, with_in, handshake_bytes. cbn [sock_addr sock_out sock_in s0].
  by rewrite <- !app_assoc.
Qed.

(** ** The call *)

Context {Req Resp : Type} {PReq : ProtoMessage Req} {PResp : ProtoMessage Resp}.
Context (rpc : RequestHeaderProto) (req : Req) (h3 h4 h5 : bytes).
Hypothesis Hready : ready c cid.
Hypothesis Hproto : RequestHeaderProto_DeclaringClassProtocolName rpc = Some protocol.
Hypothesis Hh3 : proto_Marshal (request_header 0 cid 0) = Ok h3.
Hypothesis Hh4 : proto_Marshal rpc = Ok h4.
Hypothesis Hh5 : proto_Marshal req = Ok h5.
Hypothesis Hlen3 : len (delimited [h3; h4; h5]) < 2 ^ 31.

(** C8 A call by a user with a token for the server goes through the whole SASL
    exchange: when the server answers the negotiation with a TOKEN/DIGEST-MD5
    challenge and accepts the response, each of its SASL messages arriving whole, the
    length of its final answer in one piece and the connection without fault, [Call]
    returns the server's answer.  It has sent the SASL preamble, NEGOTIATE,
    INITIATE with the digest of the challenge for exactly that token, the connection
    context and the request, in this order and nothing else; then it closed the
    connection. *)
Theorem sasl_call_returns_response n peer peers evs1 evs2 b bs t rest
    (hdr : RpcResponseHeaderProto) (resp resp0 : Resp) bh br :
  sec_current (net_sec n) = Some ugi → sec_env (net_sec n) = e0 →
  net_peers n !! ServerAddress c = Some (inl peer :: peers) →
  peer_tcp peer = true → peer_faults peer = [] →
  whole_frame [bh1; br1] (peer_in peer) evs1 → whole_frame [bh2; br2] evs1 evs2 →
  evs2 = Seg b bs :: t → (3 ≤ length bs)%nat → evs_bytes evs2 = (frame [bh; br] ++ rest)%list →
  proto_Unmarshal bh = Ok hdr → proto_Unmarshal br = Ok resp →
  checkRpcHeader cap_of c hdr = Ok tt →
  RpcResponseHeaderProto_Status hdr = Some RpcResponseHeaderProto_SUCCESS →
  len (delimited [bh; br]) < 2 ^ 31 →
  ∃ p s n', Call cap_of c rpc req resp0 n = (Ok resp, n') ∧
    net_socks n !! p = None ∧ net_socks n' = <[p := s]> (net_socks n) ∧
    sock_open s = false ∧ sock_out s = (handshake_bytes ++ frame [h3; h4; h5])%list.
Proof using All.
  intros Hcur Henv Hp Ht Hf Hw1 Hw2 Hin Hbs Hev Hbh Hbr Hc Hst Hlen.
  pose proof (getConnection_sasl n peer peers evs1 evs2 (proj1 Hready) Hcur Henv Hp Ht Hf Hw1 Hw2) as Hget.
  edestruct (call_on_connection cap_of c cid protocol rpc req h3 h4 h5 Hready Hproto Hh3 Hh4 Hh5 Hlen3 n)
    as (s & n' & Hcall & Hsocks & Hcl & Hout & _);
    [exact Hget|split; [apply lookup_insert_eq|done]|exact Hin|done..|].
  eexists _, s, n'. split; [exact Hcall|]. split; [apply not_elem_of_dom, is_fresh|].
  split; [rewrite Hsocks; apply insert_insert_eq|]. split; [done|exact Hout].
Qed.
End Negotiated.
End Exchange.

(** ** A negotiated call *)

Module SaslRun.
Import ReferenceProto.

(** SASL messages by their state; a NEGOTIATE carries one TOKEN/DIGEST-MD5
    challenge, an INITIATE its token. *)
#[local] Instance run_sasl : ProtoMessage RpcSaslProto := {|
proto_Marshal m :=
  Ok (byte_of_Z (enum_number (RpcSaslProto_GetState (Some m))) :: default [] (RpcSaslProto_Token m));
proto_Unmarshal b :=
  match b with
  | [] => Err "proto: required field state not set"
  | s :: payload =>
      let st := first_such (λ e, bool_decide (enum_number e = Z_of_byte s)) enum_all in
      if bool_decide (st = Some RpcSaslProto_NEGOTIATE)
      then Ok (mkRpcSaslProto None st None
                 [mkRpcSaslProto_SaslAuth (Some "TOKEN") (Some "DIGEST-MD5") (Some "yarn")
                    (Some "default") (Some payload)])
      else Ok (mkRpcSaslProto None st (Some payload) [])
  end
|}.
#[local] Instance run_user : UserApi unit := {| user_Current := mret "yarn" |}.
#[local] Instance run_rand : RandApi unit := {| rand_Read n := mret (replicate n Byte.x00) |}.

Definition token : TokenProto :=
  mkTokenProto (Some (bytes_of "id")) (Some (bytes_of "secret")) (Some "kind") (Some "10.0.0.1:8033").
Definition holder : UserGroupInformation :=
  mkUserGroupInformation None {[ "10.0.0.1:8033" := Some token ]}.
Definition state_byte (st : RpcSaslProto_SaslState) : Byte.byte := byte_of_Z (enum_number st).
Definition challenge_msg : bytes := state_byte RpcSaslProto_NEGOTIATE :: bytes_of challenge_text.
Definition success_msg : bytes := [state_byte RpcSaslProto_SUCCESS].
Definition seg_of (b : bytes) : list InEvent :=
  match b with [] => [] | x :: r => [Seg x r] end.
(** Three segments, one per message of the server. *)
Definition after_success : list InEvent := seg_of (frame [bh; br]).
Definition after_challenge : list InEvent := seg_of (frame [bh; success_msg]) ++ after_success.
Definition conversation : list InEvent := seg_of (frame [bh; challenge_msg]) ++ after_challenge.
Definition secure_net : Net unit :=
  mkNet ∅ {[ "10.0.0.1:8033" := [inl (mkPeer true conversation [])] ]} (mkSecState (Some holder) tt).

Definition the_auth : RpcSaslProto_SaslAuth :=
  mkRpcSaslProto_SaslAuth (Some "TOKEN") (Some "DIGEST-MD5") (Some "yarn") (Some "default")
    (Some (bytes_of challenge_text)).
Definition the_digest : string :=
  match (GetDigestMD5ChallengeResponse "yarn" "default" (bytes_of challenge_text) (Some token) tt).1 with
  | Ok d => d
  | _ => ""
  end.
Definition ok_header : RpcResponseHeaderProto :=
  mkRpcResponseHeaderProto None (Some RpcResponseHeaderProto_SUCCESS) None None None None None None None.

Definition protocol_name : string := "org.apache.hadoop.ha.HAServiceProtocol".
Definition m1 : bytes := [state_byte RpcSaslProto_NEGOTIATE].
Definition m2 : bytes := state_byte RpcSaslProto_INITIATE :: bytes_of the_digest.

Lemma digest_computed :
  GetDigestMD5ChallengeResponse "yarn" "default" (bytes_of challenge_text) (Some token) tt
  = (Ok the_digest, tt).
Proof. vm_compute. reflexivity. Defined.

Lemma headers_accepted : Forall (λ h, checkSaslRpcHeader h = Ok tt ∧
  RpcResponseHeaderProto_Status h = Some RpcResponseHeaderProto_SUCCESS) [ok_header; ok_header].
Proof. repeat constructor. Defined.

Lemma frames_fit : Forall (λ msgs, len (delimited msgs) < 2 ^ 31)
  [[[]; m1]; [[]; m2]; [cid; bytes_of protocol_name]; [bh; challenge_msg]; [bh; success_msg]].
Proof. repeat constructor; vm_compute; reflexivity. Defined.

Lemma caller_ready : ready caller cid.
Proof. split; [reflexivity|]. eexists _, _. split; reflexivity. Defined.

Lemma sasl_call_returns_response_witness :
  ∃ p s n', Call small_cap caller rpc mkGetServiceStatusRequestProto
      (mkGetServiceStatusResponseProto None None None) secure_net
    = (Ok (mkGetServiceStatusResponseProto (Some HAServiceStateProto_ACTIVE) None None), n') ∧
    net_socks secure_net !! p = None ∧ net_socks n' = <[p := s]> (net_socks secure_net) ∧
    sock_open s = false ∧
    sock_out s = (handshake_bytes [] m1 m2 cid (bytes_of protocol_name)
                  ++ frame [cid; bytes_of "getServiceStatus"; []])%list.
Proof.
  apply (sasl_call_returns_response (UA:=run_user) (RA:=run_rand) (PW:=ref_protowire) (PL:=ref_protowire_laws)
    (P1:=ref_req_header) (P2:=ref_resp_header) (P3:=ref_context) (P4:=ref_rpc_header) (P5:=run_sasl)
    (PReq:=ref_status_req) (PResp:=ref_status_resp) small_cap caller cid "yarn" protocol_name
    holder token the_auth [] ok_header ok_header
    (mkRpcSaslProto None (Some RpcSaslProto_NEGOTIATE) None [the_auth])
    (mkRpcSaslProto None (Some RpcSaslProto_SUCCESS) (Some []) [])
    [] m1 m2 cid (bytes_of protocol_name) bh challenge_msg bh success_msg the_digest tt tt tt
    eq_refl eq_refl eq_refl eq_refl digest_computed eq_refl eq_refl eq_refl eq_refl eq_refl eq_refl eq_refl
    eq_refl eq_refl eq_refl eq_refl headers_accepted frames_fit
    rpc mkGetServiceStatusRequestProto cid (bytes_of "getServiceStatus") [] caller_ready
    eq_refl eq_refl eq_refl eq_refl eq_refl
    secure_net (mkPeer true conversation []) [] after_challenge after_success
    Byte.x00 (tail (frame [bh; br])) [] [] ok_header _ _ bh br);
    try (vm_compute; reflexivity).
  - eexists. split; vm_compute; reflexivity.
  - eexists. split; vm_compute; reflexivity.
  - vm_compute. lia.
Defined.
End SaslRun.
