(* ===== verification/TokenStore.v ===== *)
(** * The token store over the life of a process

    The one [UserGroupInformation] of a process ([ugi.go]) is allocated on first use
    and then shared by everything that asks for the current user, calls included.
    Its type: at most [maxTokens] tokens, none of them nil. *)

From S2P Require Import Prelude GoStrings Proto Wire Crypto Security SecurityProofs Net Ipc.
From S2P Require Import IpcProofs IpcRuns.

Local Open Scope string_scope.

Section Store.
Context {E : Type} {UA : UserApi E} {RA : RandApi E} {PW : Protowire}.
Context {P1 : ProtoMessage RpcRequestHeaderProto} {P2 : ProtoMessage RpcResponseHeaderProto}.
Context {P3 : ProtoMessage IpcConnectionContextProto} {P4 : ProtoMessage RequestHeaderProto}.
Context {P5 : ProtoMessage RpcSaslProto}.
Context (cap_of : nat → nat).
Implicit Types s : SecState E.

(** [GetCurrentUser().AddUserTokenWithAlias(alias, token)] and
    [GetCurrentUser().AddUserToken(token)] on the shared object. *)
Definition on_current (f : UserGroupInformation → UserGroupInformation) : M (SecState E) unit :=
  user ← GetCurrentUser;
  ugi ← lift_out (deref user);
  modify (λ s, mkSecState (Some (f ugi)) (sec_env s)).

Definition current_AddUserTokenWithAlias (alias : string) (token : option TokenProto)
  : M (SecState E) unit := on_current (λ ugi, AddUserTokenWithAlias ugi alias token).
Definition current_AddUserToken (token : option TokenProto) : M (SecState E) unit :=
  on_current (λ ugi, AddUserToken ugi token).

(** What a process does that reaches the store; the request and the response of a
    call are of any types. *)
Inductive process_step : relation (Net E) :=
| ProcUser n r n' : in_sec GetCurrentUser n = (r, n') → process_step n n'
| ProcAdd token n r n' : in_sec (current_AddUserToken token) n = (r, n') → process_step n n'
| ProcAlias alias token n r n' :
    in_sec (current_AddUserTokenWithAlias alias token) n = (r, n') → process_step n n'
| ProcCall {Req Resp} {PReq : ProtoMessage Req} {PResp : ProtoMessage Resp} c rpc (req : Req)
    (resp0 : Resp) n r n' :
    Call cap_of c rpc req resp0 n = (r, n') → process_step n n'.

Definition store_ok s : Prop := ∀ ugi, sec_current s = Some ugi → ugi_ok ugi.

Definition store_le : relation (SecState E) := λ s s',
  (store_ok s → store_ok s') ∧
  ∀ ugi, sec_current s = Some ugi → ∃ ugi', sec_current s' = Some ugi' ∧ ugi_le ugi ugi'.

#[global] Instance store_le_preorder : PreOrder store_le.
Proof.
  split; [split; [done|]; intros ugi H; by exists ugi|].
  intros s1 s2 s3 [H1 H2] [K1 K2]. split; [auto|].
  intros ugi (ugi2 & E2 & L2)%H2. destruct (K2 _ E2) as (ugi3 & E3 & L3).
  exists ugi3. split; [done|]. by etrans.
Qed.

Lemma store_le_env {A} (c : M E A) : preserves store_le (in_env c).
Proof.
  intros s r s'. unfold in_env, zoom. destruct (c (sec_env s)) as [r' e]. intros [= <- <-].
  split; [done|]. intros ugi H. by exists ugi.
Qed.

Lemma store_le_user : preserves store_le GetCurrentUser.
Proof.
  intros s r s'. unfold GetCurrentUser, initializeCurrentUser. unfold_M.
  destruct (sec_current s) as [ugi|] eqn:Hs; [by intros [= <- <-]|].
  unfold in_env, zoom, Allocate, CreateCurrentUserInfoProto. unfold_M.
  destruct (user_Current (sec_env s)) as [[u|e|w] e']; intros [= <- <-];
    (split; [|by rewrite Hs]); intros _ ugi Hcur; cbn in Hcur; simplify_eq; apply fresh_ugi_ok.
Qed.

Lemma GetCurrentUser_current s u s' :
  GetCurrentUser s = (Ok u, s') → u = sec_current s'.
Proof. unfold GetCurrentUser. intros ([] & s1 & _ & [= <- <-])%M_bind_inv. done. Qed.

Lemma store_le_on_current f :
  (∀ ugi, ugi_ok ugi → ugi_ok (f ugi)) → (∀ ugi, ugi_le ugi (f ugi)) →
  preserves store_le (on_current f).
Proof.
  intros Hok Hle s r s'. unfold on_current. unfold mbind at 1, M_bind at 1.
  destruct (GetCurrentUser s) as [[u|e|w] s1] eqn:Hu;
    [|intros [= <- <-]; by eapply store_le_user..].
  pose proof (GetCurrentUser_current _ _ _ Hu) as ->.
  etrans; [by eapply store_le_user|]. revert H. unfold lift_out, deref. unfold_M.
  destruct (sec_current s1) as [ugi|] eqn:Hs; intros [= <- <-]; [|done].
  split.
  - intros H ugi' [= <-]. by apply Hok, H.
  - intros ugi' Hs'. rewrite Hs in Hs'. injection Hs' as <-. by exists (f ugi).
Qed.

(** ** Calls *)

Definition net_store_le : relation (Net E) := λ n n', store_le (net_sec n) (net_sec n').

#[local] Instance net_store_le_preorder : PreOrder net_store_le.
Proof. unfold net_store_le. split; [by intros n|]. intros n1 n2 n3 H1 H2. by etrans. Qed.

Lemma net_store_sock {A} p (f : Socket → outcome A * Socket) : preserves net_store_le (on_sock p f).
Proof. intros n r n'. unfold on_sock. repeat case_match; intros [= <- <-]; unfold net_store_le; done. Qed.

Lemma net_store_sec {A} (c : M (SecState E) A) :
  preserves store_le c → preserves net_store_le (in_sec c).
Proof.
  intros Hc n r n'. unfold in_sec, zoom. destruct (c (net_sec n)) as [r' s'] eqn:Hr.
  intros [= <- <-]. by eapply Hc.
Qed.

Lemma net_store_dial addr : preserves net_store_le (net_Dial addr).
Proof. intros n r n'. unfold net_Dial. repeat case_match; intros [= <- <-]; unfold net_store_le; done. Qed.

Lemma net_store_user : preserves net_store_le (in_sec GetCurrentUser).
Proof. apply net_store_sec, store_le_user. Qed.

Lemma net_store_Call {Req Resp} {PReq : ProtoMessage Req} {PResp : ProtoMessage Resp} c rpc
    (req : Req) (resp0 : Resp) : preserves net_store_le (Call cap_of c rpc req resp0).
Proof.
  apply preserves_Call; intros; try apply net_store_sock; auto using net_store_user, net_store_dial,
    net_store_le_preorder; apply net_store_sec, store_le_env.
Qed.

Lemma process_step_le n n' : process_step n n' → net_store_le n n'.
Proof.
  intros [n0 r n1 H|token n0 r n1 H|alias token n0 r n1 H|Req Resp PReq PResp c rpc req resp0 n0 r n1 H].
  - exact (net_store_user _ _ _ H).
  - revert H. apply net_store_sec, store_le_on_current; intros ugi; rewrite AddUserToken_alias;
      auto using add_alias_ok, add_alias_le.
  - revert H. apply net_store_sec, store_le_on_current; auto using add_alias_ok, add_alias_le.
  - exact (net_store_Call c rpc req resp0 _ _ _ H).
Qed.

Lemma process_run_le n n' : rtc process_step n n' → net_store_le n n'.
Proof. induction 1 as [|n1 n2 n3 H _ IH]; [done|]. etrans; [by apply process_step_le|done]. Qed.

(** C14 The store keeps its type over the life of a process: whatever sequence of
    look-ups of the current user, additions of tokens (nil ones too) and calls, also
    failing ones, it never holds more than sixteen tokens nor a nil one.  The user
    allocated first stays the user, an alias once used stays in use, and a store that
    has become full is never changed again, not even to renew one of its tokens. *)
Theorem token_store_typed n0 n1 n2 :
  sec_current (net_sec n0) = None → rtc process_step n0 n1 → rtc process_step n1 n2 →
  store_ok (net_sec n2) ∧
  ∀ ugi1, sec_current (net_sec n1) = Some ugi1 →
    ∃ ugi2, sec_current (net_sec n2) = Some ugi2 ∧ ugi_le ugi1 ugi2.
Proof.
  intros H0 H1%process_run_le H2%process_run_le.
  assert (net_store_le n0 n2) as [Hok _] by by etrans.
  split; [|apply H2]. apply Hok. intros ugi. by rewrite H0.
Qed.
End Store.

(** ** A run: two tokens for one service, with a call in between *)

Module StoreRun.
Import ReferenceProto.
#[local] Instance run_user : UserApi unit := {| user_Current := mret "yarn" |}.
#[local] Instance run_rand : RandApi unit := {| rand_Read n := mret (replicate n Byte.x00) |}.

Definition tok1 : TokenProto := mkTokenProto (Some (bytes_of "id")) (Some (bytes_of "secret"))
  (Some "YARN") (Some "10.0.0.2:8032").
Definition start : Net unit := net_with (peer answer []).
Definition called : Net unit := (Call small_cap caller rpc mkGetServiceStatusRequestProto
  (mkGetServiceStatusResponseProto None None None) start).2.
Definition added : Net unit := (in_sec (current_AddUserToken (Some tok1)) called).2.
Definition nil_added : Net unit := (in_sec (current_AddUserToken None) added).2.

Lemma token_store_typed_witness :
  store_ok (net_sec nil_added) ∧
  ∃ ugi2, sec_current (net_sec nil_added) = Some ugi2 ∧
    ugi_le (mkUserGroupInformation (Some (mkUserInformationProto None (Some "yarn")))
              {[ "10.0.0.2:8032" := Some tok1 ]}) ugi2.
Proof.
  destruct (token_store_typed small_cap start added nil_added) as [H1 H2].
  - vm_compute. reflexivity.
  - apply (rtc_l _ _ called); [|apply rtc_once].
    + exact (ProcCall small_cap caller rpc mkGetServiceStatusRequestProto
               (mkGetServiceStatusResponseProto None None None) start _ called (surjective_pairing _)).
    + exact (ProcAdd small_cap (Some tok1) called _ added (surjective_pairing _)).
  - apply rtc_once. exact (ProcAdd small_cap None added _ nil_added (surjective_pairing _)).
  - split; [exact H1|]. apply H2. vm_compute. reflexivity.
Defined.
End StoreRun.
