(* ===== verification/Config.v ===== *)
(** * Hadoop configuration: [src/pkg/yarn/config]

    [configuration.go] loads XML resources into a map of properties, a later
    resource overriding an earlier one; [yarn_configuration.go] gives the
    properties of YARN their names and defaults. *)

From S2P Require Import Prelude GoStrings Wire.

Local Open Scope string_scope.

(** ** The environment: files and XML *)

Class OsFiles (E : Type) := {
  os_Open : string → M E positive;
  io_ReadAll : positive → M E string;
  file_Close : positive → M E unit
}.

(** [xml.Unmarshal] into [hadoopConfiguration]: the properties in document order. *)
Class XmlApi := { xml_Unmarshal : string → outcome (list (string * string)) }.

(** ** Data *)

Record Resource := mkResource { Resource_Name : string; Resource_Required : bool }.

Definition CORE_DEFAULT := mkResource "core-default.xml" false.
Definition CORE_SITE := mkResource "core-site.xml" false.
Definition HDFS_DEFAULT := mkResource "hdfs-default.xml" false.
Definition HDFS_SITE := mkResource "hdfs-site.xml" false.
Definition YARN_DEFAULT := mkResource "yarn-default.xml" false.
Definition YARN_SITE := mkResource "yarn-site.xml" true.

(** [configuration], and [yarn_configuration], which wraps it. *)
Record configuration := mkConfiguration { Properties : gmap string string }.

(** ** Properties *)

Definition Get (conf : configuration) (key defaultValue : string) : outcome string :=
  match Properties conf !! key with
  | None => Ok defaultValue
  | Some value => Ok value
  end.

Definition GetInt (conf : configuration) (key : string) (defaultValue : Z) : outcome Z :=
  match Properties conf !! key with
  | None => Ok defaultValue
  | Some value => Atoi value
  end.

Definition GetBool (conf : configuration) (key : string) (defaultValue : bool) : outcome bool :=
  match Properties conf !! key with
  | None => Ok defaultValue
  | Some value => ParseBool value
  end.

Definition conf_Set (conf : configuration) (key value : string) : configuration :=
  mkConfiguration (<[key := value]> (Properties conf)).

Definition SetInt (conf : configuration) (key : string) (value : Z) : configuration :=
  mkConfiguration (<[key := Itoa value]> (Properties conf)).

(** ** Loading *)

Section Load.
Context {E : Type} {OF : OsFiles E} {XA : XmlApi}.

Definition set_all (conf : configuration) (kvs : list (string * string)) : configuration :=
  foldl (λ c '(name, value), conf_Set c name value) conf kvs.

(** The loop over the resources; [opened] are the files whose [Close] is
    deferred, the latest first.  A file that cannot be read is not among them. *)
Fixpoint load_resources (dir prefix : string) (c : configuration) (opened : list positive)
    (rs : list Resource) : M E ((configuration + error) * list positive) :=
  match rs with
  | [] => mret (inl c, opened)
  | resource :: rs' =>
      conf ← try (os_Open (dir +:+ "/" +:+ prefix +:+ Resource_Name resource));
      match conf with
      | inr err =>
          if negb (Resource_Required resource) then load_resources dir prefix c opened rs'
          else mret (inr err, opened)
      | inl f =>
          confData ← try (io_ReadAll f);
          match confData with
          | inr err => mret (inr err, opened)
          | inl data =>
              hConf ← try (lift_out (xml_Unmarshal data));
              match hConf with
              | inr err => mret (inr err, f :: opened)
              | inl kvs => load_resources dir prefix (set_all c kvs) (f :: opened) rs'
              end
          end
      end
  end.

Definition NewConfigurationResources (hadoopConfDir : string) (resources : list Resource)
    (prefix : string) : M E configuration :=
  '(r, opened) ← load_resources hadoopConfDir prefix (mkConfiguration ∅) []
                   ([CORE_DEFAULT; CORE_SITE] ++ resources)%list;
  _ ← for_each opened (λ f, _ ← try (file_Close f); mret tt);
  match r with inl c => mret c | inr err => throw err end.

Definition NewConfiguration (hadoopConfDir : string) : M E configuration :=
  NewConfigurationResources hadoopConfDir [] "".

Definition configPrefix (clusterID : string) : string :=
  if bool_decide (clusterID = "") then "" else clusterID +:+ ".".

Definition NewYarnConfiguration (hadooConfDir clusterID : string) : M E configuration :=
  NewConfigurationResources hadooConfDir [YARN_DEFAULT; YARN_SITE] (configPrefix clusterID).
End Load.

(** ** The properties of YARN *)

Definition YARN_PREFIX := "yarn.".
Definition RM_PREFIX := YARN_PREFIX +:+ "resourcemanager.".
Definition NM_PREFIX := YARN_PREFIX +:+ "nodemanager.".
Definition RM_ADDRESS := RM_PREFIX +:+ "address".
Definition RM_SCHEDULER_ADDRESS := RM_PREFIX +:+ "scheduler.address".
Definition RM_ADMIN_ADDRESS := RM_PREFIX +:+ "admin.address".
Definition RM_HA_ENABLED := RM_PREFIX +:+ "ha.enabled".
Definition RM_HA_RM_IDS := RM_PREFIX +:+ "ha.rm-ids".
Definition RM_AM_EXPIRY_INTERVAL_MS := YARN_PREFIX +:+ "am.liveness-monitor.expiry-interval-ms".
Definition NM_KEYTAB := NM_PREFIX +:+ "keytab".
Definition DEFAULT_RM_AM_EXPIRY_INTERVAL_MS : Z := 600000.
Definition RM_KEYTAB := RM_PREFIX +:+ "keytab".
Definition RM_PRINCIPLE := RM_PREFIX +:+ "principal".
Definition DEFAULT_RM_ADDRESS := "0.0.0.0:8032".
Definition DEFAULT_RM_SCHEDULER_ADDRESS := "0.0.0.0:8030".
Definition DEFAULT_RM_ADMIN_ADDRESS := "0.0.0.0:8033".
Definition DEFAULT_RM_HA_ENABLED := false.
Definition DEFAULT_RM_KEYTAB := "/etc/krb5.keytab".
Definition DEFAULT_RM_PRINCIPLE := "".
Definition IPC_CLIENT_TCPNODELAY := "ipc.client.tcpnodelay".
Definition DEFAULT_IPC_CLIENT_TCPNODELAY := false.
Definition SECURITY_AUTHENTICATION := "hadoop.security.authentication".
Definition DEFAULT_AUTHENTICATION := "simple".

Definition GetRMAddress (c : configuration) : outcome string := Get c RM_ADDRESS DEFAULT_RM_ADDRESS.
Definition GetRMSchedulerAddress (c : configuration) : outcome string :=
  Get c RM_SCHEDULER_ADDRESS DEFAULT_RM_SCHEDULER_ADDRESS.
Definition GetRMAdminAddress (c : configuration) : outcome string :=
  Get c RM_ADMIN_ADDRESS DEFAULT_RM_ADMIN_ADDRESS.
Definition GetRMEnabledHA (c : configuration) : outcome bool :=
  GetBool c RM_HA_ENABLED DEFAULT_RM_HA_ENABLED.

(** An error of [Get] would be swallowed. *)
(** The accessors [yarn_configuration] passes on to the configuration it holds. *)
Definition yarn_Get (yarnConf : configuration) (key defaultValue : string) : outcome string :=
  Get yarnConf key defaultValue.
Definition yarn_GetInt (yarnConf : configuration) (key : string) (defaultValue : Z) : outcome Z :=
  GetInt yarnConf key defaultValue.
Definition yarn_Set (yarnConf : configuration) (key value : string) : configuration :=
  conf_Set yarnConf key value.
Definition yarn_SetInt (yarnConf : configuration) (key : string) (value : Z) : configuration :=
  SetInt yarnConf key value.

Definition GetRMs (c : configuration) : outcome (list string) :=
  match Get c RM_HA_RM_IDS "" with
  | Ok allRMs => Ok (Split allRMs ",")
  | Err _ => Ok []
  | Panic w => Panic w
  end.

Definition GetRMAdminAddressByID (c : configuration) (rmID : string) : outcome string :=
  Get c (RM_ADMIN_ADDRESS +:+ "." +:+ rmID) DEFAULT_RM_ADMIN_ADDRESS.
Definition GetRMAddressByID (c : configuration) (rmID : string) : outcome string :=
  Get c (RM_ADDRESS +:+ "." +:+ rmID) DEFAULT_RM_ADDRESS.
Definition GetResourceManagerKeytab (c : configuration) : outcome string :=
  Get c RM_KEYTAB DEFAULT_RM_KEYTAB.
Definition GetResourceManagerPrincipal (c : configuration) : outcome string :=
  Get c RM_PRINCIPLE DEFAULT_RM_PRINCIPLE.
Definition GetIPCClientTcpNoDelay (c : configuration) : outcome bool :=
  GetBool c IPC_CLIENT_TCPNODELAY DEFAULT_IPC_CLIENT_TCPNODELAY.
Definition GetSecurityAuthentication (c : configuration) : outcome string :=
  Get c SECURITY_AUTHENTICATION DEFAULT_AUTHENTICATION.
Definition SetRMAddress (c : configuration) (address : string) : configuration :=
  conf_Set c RM_ADDRESS address.
Definition SetRMSchedulerAddress (c : configuration) (address : string) : configuration :=
  conf_Set c RM_SCHEDULER_ADDRESS address.

(** ** Correctness *)

(** The addresses of one resource manager. *)
Definition admin_address_of (c : configuration) (id : string) : string :=
  default DEFAULT_RM_ADMIN_ADDRESS (Properties c !! (RM_ADMIN_ADDRESS +:+ "." +:+ id)).
Definition address_of (c : configuration) (id : string) : string :=
  default DEFAULT_RM_ADDRESS (Properties c !! (RM_ADDRESS +:+ "." +:+ id)).

Lemma Get_total c k d : Get c k d = Ok (default d (Properties c !! k)).
Proof. unfold Get. by destruct (Properties c !! k). Qed.

Lemma GetRMs_total c : GetRMs c = Ok (Split (default "" (Properties c !! RM_HA_RM_IDS)) ",").
Proof. unfold GetRMs. by rewrite Get_total. Qed.

Lemma set_all_properties c kvs : Properties (set_all c kvs) = insert_all kvs (Properties c).
Proof.
  unfold set_all, insert_all. revert c. induction kvs as [|[k v] kvs IH]; intros c; [done|].
  cbn [foldl]. by rewrite IH.
Qed.

(** A file system that does not change: every path has contents, is missing, or
    cannot be read. *)
Inductive FileState := Missing (e : error) | Unreadable (e : error) | Contents (data : string).

Section Loading.
Context {E : Type} {OF : OsFiles E} {XA : XmlApi}.
Context (files : string → FileState).

(** The files behave as [files] says, in every state. *)
Class StableFiles := {
  open_stable path e : ∃ e',
    match files path with
    | Missing err => os_Open path e = (Err err, e')
    | _ => ∃ f, os_Open path e = (Ok f, e') ∧ ∀ e1, ∃ e2,
             match files path with
             | Contents data => io_ReadAll f e1 = (Ok data, e2)
             | Unreadable err | Missing err => io_ReadAll f e1 = (Err err, e2)
             end
    end;
  close_stable f e : ∃ r e', file_Close f e = (r, e') ∧ (∀ w, r ≠ Panic w)
}.
Context {SF : StableFiles}.

(** What the resources of a list contribute, in order; the first failure stops. *)
Fixpoint resource_properties (dir prefix : string) (rs : list Resource)
  : outcome (list (string * string)) :=
  match rs with
  | [] => Ok []
  | r :: rs' =>
      match files (dir +:+ "/" +:+ prefix +:+ Resource_Name r) with
      | Missing err => if Resource_Required r then Err err else resource_properties dir prefix rs'
      | Unreadable err => Err err
      | Contents data =>
          kvs ← xml_Unmarshal data;
          more ← resource_properties dir prefix rs';
          mret (kvs ++ more)%list
      end
  end.

Lemma load_resources_spec dir prefix rs c opened e :
  (∀ data w, xml_Unmarshal data ≠ Panic w) →
  ∃ e' opened', load_resources dir prefix c opened rs e =
    (Ok (match resource_properties dir prefix rs with
         | Ok kvs => inl (set_all c kvs)
         | Err err => inr err
         | Panic _ => inr ""
         end, opened'), e') ∧ ∀ w, resource_properties dir prefix rs ≠ Panic w.
Proof.
  intros Hxml. revert c opened e. induction rs as [|r rs IH]; intros c opened e; [by eexists _, _|].
  cbn [load_resources resource_properties].
  destruct (open_stable (dir +:+ "/" +:+ prefix +:+ Resource_Name r) e) as [e1 Hopen].
  destruct (files _) as [err|err|data].
  - rewrite (try_bind_err _ _ _ _ _ Hopen). destruct (Resource_Required r); cbn [negb].
    + by eexists _, _.
    + apply IH.
  - destruct Hopen as (f & Hopen & Hread). destruct (Hread e1) as [e2 Hr].
    rewrite (try_bind_ok _ _ _ _ _ Hopen), (try_bind_err _ _ _ _ _ Hr). by eexists _, _.
  - destruct Hopen as (f & Hopen & Hread). destruct (Hread e1) as [e2 Hr].
    rewrite (try_bind_ok _ _ _ _ _ Hopen), (try_bind_ok _ _ _ _ _ Hr).
    destruct (xml_Unmarshal data) as [kvs|err|w] eqn:Hx; [|by eexists _, _|by apply Hxml in Hx].
    erewrite try_bind_ok by reflexivity.
    destruct (IH (set_all c kvs) (f :: opened) e2) as (e3 & op & Hl & Hp). eexists e3, op.
    rewrite Hl. unfold mbind, outcome_bind.
    destruct (resource_properties dir prefix rs) as [more|err|w]; [|done|by destruct (Hp w)].
    split; [|done]. cbn. unfold set_all. by rewrite foldl_app.
Qed.

Lemma close_all_ok opened e :
  ∃ e', for_each opened (λ f, _ ← try (file_Close f); mret tt) e = (Ok tt, e').
Proof.
  revert e. induction opened as [|f opened IH]; intros e; [by eexists|]. cbn [for_each].
  destruct (close_stable f e) as (r & e1 & Hc & Hp). unfold_M. rewrite Hc.
  destruct r as [[]|err|w]; [apply IH..|by destruct (Hp w)].
Qed.

(** C26 Loading a cluster's configuration reads [core-default], [core-site],
    [yarn-default] and [yarn-site], each with the cluster's prefix, and a property
    has the value its last occurrence in that order gives it, or the caller's
    default.  Loading fails exactly when a file cannot be read or parsed, or
    [yarn-site.xml] is missing. *)
Theorem last_resource_wins dir clusterID e :
  (∀ data w, xml_Unmarshal data ≠ Panic w) →
  ∃ e', match resource_properties dir (configPrefix clusterID)
                [CORE_DEFAULT; CORE_SITE; YARN_DEFAULT; YARN_SITE] with
        | Ok kvs => ∃ c, NewYarnConfiguration dir clusterID e = (Ok c, e') ∧
            ∀ key d, Get c key d = Ok (default d (last_value key kvs))
        | Err err => NewYarnConfiguration dir clusterID e = (Err err, e')
        | Panic _ => False
        end.
Proof.
  intros Hxml. unfold NewYarnConfiguration, NewConfigurationResources.
  destruct (load_resources_spec dir (configPrefix clusterID)
    [CORE_DEFAULT; CORE_SITE; YARN_DEFAULT; YARN_SITE] (mkConfiguration ∅) [] e Hxml)
    as (e1 & opened & Hl & Hp).
  destruct (close_all_ok opened e1) as [e2 Hc]. exists e2.
  cbn [app]. rewrite (M_bind_ok _ _ _ _ _ Hl). cbn beta iota.
  rewrite (M_bind_ok _ _ _ _ _ Hc).
  destruct (resource_properties _ _ _) as [kvs|err|w]; [|done|by destruct (Hp w)].
  eexists. split; [done|]. intros key d.
  rewrite Get_total, set_all_properties, lookup_insert_all. cbn [Properties].
  rewrite lookup_empty. by destruct (last_value key kvs).
Qed.
End Loading.

(** An integer property reads back as it was set. *)
Lemma GetInt_SetInt c key v d : in_int64 v → GetInt (SetInt c key v) key d = Ok v.
Proof. intros Hv. unfold GetInt, SetInt. cbn [Properties]. rewrite lookup_insert_eq. by apply Atoi_Itoa. Qed.

(** The list of resource manager ids is never empty: an unset property gives one
    empty id. *)
Lemma GetRMs_join c ids :
  GetRMs c = Ok ids → Join ids "," = default "" (Properties c !! RM_HA_RM_IDS) ∧ ids ≠ [].
Proof.
  rewrite GetRMs_total. intros [= <-]. split; [apply Join_Split|apply Split_not_nil].
Qed.

(** ** A concrete file system

    Two resource managers with HA, in a directory with one cluster's files. *)
Module ConfigFiles.
Definition site : string :=
  "yarn.resourcemanager.ha.enabled=true;yarn.resourcemanager.ha.rm-ids=rm1,rm2;"
  +:+ "yarn.resourcemanager.admin.address.rm1=10.0.0.1:8033;"
  +:+ "yarn.resourcemanager.admin.address.rm2=10.0.0.2:8033".
Definition defaults : string := "yarn.resourcemanager.ha.enabled=false".

Definition dir_files (path : string) : FileState :=
  if bool_decide (path = "/etc/hadoop/a.yarn-site.xml") then Contents site
  else if bool_decide (path = "/etc/hadoop/a.yarn-default.xml") then Contents defaults
  else Missing "no such file".

(** One descriptor per file. *)
#[export] Instance dir_os : OsFiles unit := {|
  os_Open path := match dir_files path with
                  | Missing e => throw e
                  | _ => if bool_decide (path = "/etc/hadoop/a.yarn-site.xml") then mret 1%positive
                         else mret 2%positive
                  end;
  io_ReadAll f := if bool_decide (f = 1%positive) then mret site else mret defaults;
  file_Close _ := mret tt
|}.

(** Documents that list their properties. *)
Fixpoint parse_lines (l : list string) : outcome (list (string * string)) :=
  match l with
  | [] => Ok []
  | x :: l' => match SplitN2 x "=" with
               | [k; v] => kvs ← parse_lines l'; mret ((k, v) :: kvs)
               | _ => Err "EOF"
               end
  end.
#[export] Instance line_xml : XmlApi := {| xml_Unmarshal data := parse_lines (Split data ";") |}.

Lemma line_xml_no_panic data w : xml_Unmarshal data ≠ Panic w.
Proof.
  cbn. induction (Split data ";") as [|x l IH]; [done|]. cbn [parse_lines].
  repeat case_match; try done. unfold mbind, outcome_bind. by destruct (parse_lines l).
Qed.

#[export] Instance dir_stable : StableFiles dir_files.
Proof.
  split; [|by intros; eexists _, _].
  intros path e. exists e. cbn [os_Open io_ReadAll dir_os]. unfold dir_files.
  case_bool_decide as H1; [eexists; split; [done|]; by eexists|].
  case_bool_decide as H2; [eexists; split; [done|]; by eexists|done].
Qed.

Definition loaded_kvs : list (string * string) :=
  [ ("yarn.resourcemanager.ha.enabled", "false"); ("yarn.resourcemanager.ha.enabled", "true");
    ("yarn.resourcemanager.ha.rm-ids", "rm1,rm2");
    ("yarn.resourcemanager.admin.address.rm1", "10.0.0.1:8033");
    ("yarn.resourcemanager.admin.address.rm2", "10.0.0.2:8033") ].

Lemma last_resource_wins_witness :
  ∃ e', ∃ c, NewYarnConfiguration "/etc/hadoop" "a" tt = (Ok c, e') ∧
    ∀ key d, Get c key d = Ok (default d (last_value key loaded_kvs)).
Proof.
  destruct (last_resource_wins dir_files "/etc/hadoop" "a" tt line_xml_no_panic) as [e' H].
  exists e'.
  assert (resource_properties dir_files "/etc/hadoop" (configPrefix "a")
    [CORE_DEFAULT; CORE_SITE; YARN_DEFAULT; YARN_SITE] = Ok loaded_kvs) as Heq
    by (vm_compute; reflexivity).
  rewrite Heq in H. exact H.
Defined.
End ConfigFiles.
