(* ===== verification/YarnClient.v ===== *)
(** * The YARN clients: [src/pkg/yarn/client] and [src/pkg/yarn/apis/service]

    A client object remembers the configuration of its cluster and the addresses
    of the active resource manager; every request dials anew through the IPC
    client.  The factory makes one client per cluster configuration it finds.
    This file implements the interfaces of [YarnApi]. *)

From S2P Require Import Prelude GoStrings Proto YarnApi Wire Security Net Ipc Config.

Local Open Scope string_scope.

(** ** The environment *)

(** [uuid.NewV4] of [github.com/nu7hatch/gouuid]. *)
Class UuidApi (E : Type) := { uuid_NewV4 : M E bytes }.

(** An entry as [filepath.WalkDir] reports it. *)
Record DirEntry := mkDirEntry { DirEntry_Name : string; DirEntry_IsDir : bool }.

(** The calls [WalkDir] makes of its function, in order, when the function returns
    nil every time: the entry is nil only when the root cannot be examined. *)
Class DirWalk (E : Type) := { walk_visits : string → M E (list (option DirEntry)) }.

(** ** Objects *)

Record yarnClient := mkYarnClient {
  confDir : string;
  conf : option configuration;
  haEnabled : bool;
  activeRMAdminAddress : option string;
  activeRMAddress : option string;
  clusterID : string
}.

(** The client objects of the process, and the network. *)
Record CW (E : Type) := mkCW {
  cw_objs : gmap positive yarnClient;
  cw_net : Net E
}.
Arguments mkCW {E}.
Arguments cw_objs {E}.
Arguments cw_net {E}.

Definition APPLICATION_CLIENT_PROTOCOL := "org.apache.hadoop.yarn.api.ApplicationClientProtocolPB".
Definition HA_SERVICE_PROTOCOL := "org.apache.hadoop.ha.HAServiceProtocol".
Definition RESOURCE_MANAGER_ADMIN_PROTOCOL :=
  "org.apache.hadoop.yarn.server.api.ResourceManagerAdministrationProtocolPB".

(** The package of the services, as [runtime.FuncForPC] names it. *)
Definition service_pkg := "github.com/koordinator-sh/yarn-copilot/pkg/yarn/apis/service".

Section Services.
Context {E : Type} {UA : UserApi E} {RA : RandApi E} {UU : UuidApi E} {PW : Protowire}.
Context {P1 : ProtoMessage RpcRequestHeaderProto} {P2 : ProtoMessage RpcResponseHeaderProto}.
Context {P3 : ProtoMessage IpcConnectionContextProto} {P4 : ProtoMessage RequestHeaderProto}.
Context {P5 : ProtoMessage RpcSaslProto}.
Context {PQ1 : ProtoMessage GetClusterNodesRequestProto}.
Context {PR1 : ProtoMessage GetClusterNodesResponseProto}.
Context {PQ2 : ProtoMessage UpdateNodeResourceRequestProto}.
Context {PR2 : ProtoMessage UpdateNodeResourceResponseProto}.
Context {PQ3 : ProtoMessage GetServiceStatusRequestProto}.
Context {PR3 : ProtoMessage GetServiceStatusResponseProto}.
Context (cap_of : nat → nat).

(** ** [src/pkg/yarn/apis/service] *)

(** The part the two [Dial...ProtocolService] functions with a configuration
    share; [fallback] is used when no address is given, and dereferences the
    configuration. *)
Definition dial_service (cf : option configuration) (rmAddress : option string)
    (fallback : configuration → outcome string) : M (Net E) Client :=
  clientId ← in_os uuid_NewV4;
  ugi ← CreateSimpleUGIProto;
  serverAddress ← match rmAddress with
                  | Some a => mret a
                  | None => c ← lift_out (deref cf); lift_out (fallback c)
                  end;
  mret (mkClient (Some clientId) (Some ugi) serverAddress false).

Definition DialApplicationClientProtocolService cf rmAddress : M (Net E) Client :=
  dial_service cf rmAddress GetRMAddress.
Definition DialResourceManagerAdministrationProtocolService cf rmAddress : M (Net E) Client :=
  dial_service cf rmAddress GetRMAdminAddress.

(** The errors are dropped: the pointers are then nil. *)
Definition DialHAServiceProtocolService (serverAddress : string) : M (Net E) Client :=
  clientId ← try (in_os uuid_NewV4);
  ugi ← try CreateSimpleUGIProto;
  let ptr {A} (r : A + error) := match r with inl a => Some a | inr _ => None end in
  mret (mkClient (ptr clientId) (ptr ugi) serverAddress false).

Definition service_GetClusterNodes (c : Client) (inp : GetClusterNodesRequestProto)
    (out : GetClusterNodesResponseProto) : M (Net E) GetClusterNodesResponseProto :=
  rpc ← lift_out (GetCalleeRPCRequestHeaderProto
    (service_pkg +:+ ".(*ApplicationClientProtocolServiceClient).GetClusterNodes")
    APPLICATION_CLIENT_PROTOCOL);
  Call cap_of c rpc inp out.

Definition service_GetServiceStatus (c : Client) (inp : GetServiceStatusRequestProto)
    (out : GetServiceStatusResponseProto) : M (Net E) GetServiceStatusResponseProto :=
  rpc ← lift_out (GetCalleeRPCRequestHeaderProto
    (service_pkg +:+ ".(*HAServiceProtocolServiceClient).GetServiceStatus")
    HA_SERVICE_PROTOCOL);
  Call cap_of c rpc inp out.

Definition service_UpdateNodeResource (c : Client) (inp : UpdateNodeResourceRequestProto)
    (out : UpdateNodeResourceResponseProto) : M (Net E) UpdateNodeResourceResponseProto :=
  rpc ← lift_out (GetCalleeRPCRequestHeaderProto
    (service_pkg +:+ ".(*ResourceManagerAdministrationProtocolServiceClient).UpdateNodeResource")
    RESOURCE_MANAGER_ADMIN_PROTOCOL);
  Call cap_of c rpc inp out.

(** ** [application_client.go], [ha_service_client.go], [rm_admin_client.go] *)

Definition CreateYarnApplicationClient cf rmAddress : M (Net E) Client :=
  DialApplicationClientProtocolService cf rmAddress.
Definition YarnApplicationClient_GetClusterNode (c : Client) (request : GetClusterNodesRequestProto)
  : M (Net E) GetClusterNodesResponseProto :=
  service_GetClusterNodes c request (mkGetClusterNodesResponseProto []).

Definition CreateYarnHAClient (rmAddress : string) : M (Net E) Client :=
  DialHAServiceProtocolService rmAddress.
Definition YarnHAClient_GetServiceStatus (c : Client) (request : GetServiceStatusRequestProto)
  : M (Net E) GetServiceStatusResponseProto :=
  service_GetServiceStatus c request (mkGetServiceStatusResponseProto None None None).

Definition CreateYarnAdminClient cf rmAddress : M (Net E) Client :=
  DialResourceManagerAdministrationProtocolService cf rmAddress.
Definition YarnAdminClient_UpdateNodeResource (c : Client)
    (request : UpdateNodeResourceRequestProto) : M (Net E) UpdateNodeResourceResponseProto :=
  service_UpdateNodeResource c request mkUpdateNodeResourceResponseProto.

(** ** [client.go] *)

Context {OF : OsFiles E} {XA : XmlApi} {DW : DirWalk E}.

Abbreviation CM := (M (CW E)).

Definition in_net {A} (c : M (Net E) A) : CM A := zoom cw_net (λ n w, mkCW (cw_objs w) n) c.

(** Read and write the object behind a reference. *)
Definition get_obj (p : positive) : CM yarnClient :=
  w ← get_st; lift_out (deref (cw_objs w !! p)).
Definition put_obj (p : positive) (f : yarnClient → yarnClient) : CM unit := λ w,
  match cw_objs w !! p with
  | Some c => (Ok tt, mkCW (<[p := f c]> (cw_objs w)) (cw_net w))
  | None => (Panic "invalid memory address or nil pointer dereference", w)
  end.

Definition set_conf (x : configuration) (c : yarnClient) : yarnClient :=
  mkYarnClient (confDir c) (Some x) (haEnabled c) (activeRMAdminAddress c) (activeRMAddress c)
    (clusterID c).
Definition set_ha (x : bool) (c : yarnClient) : yarnClient :=
  mkYarnClient (confDir c) (conf c) x (activeRMAdminAddress c) (activeRMAddress c) (clusterID c).
Definition set_admin (x : option string) (c : yarnClient) : yarnClient :=
  mkYarnClient (confDir c) (conf c) (haEnabled c) x (activeRMAddress c) (clusterID c).
Definition set_addr (x : option string) (c : yarnClient) : yarnClient :=
  mkYarnClient (confDir c) (conf c) (haEnabled c) (activeRMAdminAddress c) x (clusterID c).

Definition NewYarnClient (dir id : string) : CM positive := λ w,
  let p := fresh (dom (cw_objs w)) in
  (Ok p, mkCW (<[p := mkYarnClient dir None false None None id]> (cw_objs w)) (cw_net w)).

(** The answer of one resource manager; [None] when the request failed. *)
Definition rm_state (rmID rmAdminAddr : string) : M (Net E) (option (option HAServiceStateProto)) :=
  haClient ← try (CreateYarnHAClient rmAdminAddr);
  match haClient with
  | inr err => throw ("create yarn " +:+ rmID +:+ " ha client for " +:+ rmAdminAddr +:+ " failed " +:+ err)
  | inl h =>
      resp ← try (YarnHAClient_GetServiceStatus h mkGetServiceStatusRequestProto);
      match resp with
      | inr _ => mret None
      | inl r => mret (Some (GetServiceStatusResponseProto_State r))
      end
  end.

(** The loop of [GetActiveRMID]: [None] when no manager is active. *)
Fixpoint find_active (c : configuration) (rmIDs : list string) : M (Net E) (option string) :=
  match rmIDs with
  | [] => mret None
  | rmID :: rest =>
      rmAdminAddr ← lift_out (GetRMAdminAddressByID c rmID);
      st ← rm_state rmID rmAdminAddr;
      match st with
      | Some (Some HAServiceStateProto_ACTIVE) => mret (Some rmID)
      | _ => find_active c rest
      end
  end.

Definition GetActiveRMID (p : positive) : CM string :=
  c ← get_obj p;
  cf ← lift_out (deref (conf c));
  rmIDs ← lift_out (GetRMs cf);
  active ← in_net (find_active cf rmIDs);
  match active with
  | Some rmID => mret rmID
  | None => throw ("active rm not found in [" +:+ Join rmIDs " " +:+ "]")
  end.

Definition client_Initialize (p : positive) : CM unit :=
  c ← get_obj p;
  cf ← in_net (in_os (NewYarnConfiguration (confDir c) (clusterID c)));
  _ ← put_obj p (set_conf cf);
  ha ← lift_out (GetRMEnabledHA cf);
  _ ← put_obj p (set_ha ha);
  if negb ha then
    rmAdminAddr ← lift_out (GetRMAdminAddress cf);
    _ ← put_obj p (set_admin (Some rmAdminAddr));
    rmAddr ← lift_out (GetRMAddress cf);
    put_obj p (set_addr (Some rmAddr))
  else
    activeRMID ← GetActiveRMID p;
    rmAdminAddr ← lift_out (GetRMAdminAddressByID cf activeRMID);
    _ ← put_obj p (set_admin (Some rmAdminAddr));
    rmAddress ← lift_out (GetRMAddressByID cf activeRMID);
    put_obj p (set_addr (Some rmAddress)).

Definition client_Close (p : positive) : CM unit :=
  _ ← put_obj p (set_admin None); put_obj p (set_addr None).

Definition client_Reinitialize (p : positive) : CM unit :=
  _ ← client_Close p; client_Initialize p.

(** [if c.activeRMAdminAddress == nil && c.haEnabled { c.Initialize() }] *)
Definition ensure_active (p : positive) : CM unit :=
  c ← get_obj p;
  if bool_decide (activeRMAdminAddress c = None) && haEnabled c then client_Initialize p
  else mret tt.

Definition updateNodeResource (p : positive) (request : UpdateNodeResourceRequestProto)
  : CM UpdateNodeResourceResponseProto :=
  c ← get_obj p;
  adminClient ← in_net (CreateYarnAdminClient (conf c) (activeRMAdminAddress c));
  in_net (YarnAdminClient_UpdateNodeResource adminClient request).

Definition getClusterNodes (p : positive) (request : GetClusterNodesRequestProto)
  : CM GetClusterNodesResponseProto :=
  c ← get_obj p;
  applicationClient ← in_net (CreateYarnApplicationClient (conf c) (activeRMAddress c));
  in_net (YarnApplicationClient_GetClusterNode applicationClient request).

Definition client_UpdateNodeResource (p : positive) (request : UpdateNodeResourceRequestProto)
  : CM UpdateNodeResourceResponseProto :=
  _ ← ensure_active p; updateNodeResource p request.

Definition client_GetClusterNodes (p : positive) (request : GetClusterNodesRequestProto)
  : CM (option GetClusterNodesResponseProto) :=
  _ ← ensure_active p; r ← getClusterNodes p request; mret (Some r).

#[global] Instance yarn_client_impl : YarnClient (CW E) positive := {|
  Initialize := client_Initialize;
  Reinitialize := client_Reinitialize;
  Close := client_Close;
  UpdateNodeResource := client_UpdateNodeResource;
  GetClusterNodes := client_GetClusterNodes
|}.

(** ** [factory.go] *)

(** [$HADOOP_CONF_DIR]. *)
Context (configDir : string).

Definition site_suffix := ".yarn-site.xml".

Definition factory_CreateYarnClientByClusterID (id : string) : CM positive :=
  c ← NewYarnClient configDir id;
  _ ← client_Initialize c;
  mret c.
Definition factory_CreateDefaultYarnClient : CM positive := factory_CreateYarnClientByClusterID "".

(** The function given to [WalkDir] calls [d.IsDir()] before it looks at its
    error argument. *)
Fixpoint collect_ids (res : list string) (visits : list (option DirEntry)) : outcome (list string) :=
  match visits with
  | [] => Ok res
  | None :: _ => Panic "invalid memory address or nil pointer dereference"
  | Some d :: rest =>
      if DirEntry_IsDir d then collect_ids res rest
      else if HasSuffix (DirEntry_Name d) site_suffix
      then collect_ids (res ++ [ReplaceAll (DirEntry_Name d) site_suffix ""])%list rest
      else collect_ids res rest
  end.

Definition getAllKnownClusterID : CM (list string) :=
  visits ← in_net (in_os (walk_visits configDir)); lift_out (collect_ids [] visits).

Definition factory_CreateAllYarnClients : CM (gmap string positive) :=
  ids ← getAllKnownClusterID;
  clients ← fold_m ids (λ clients id,
              yClient ← factory_CreateYarnClientByClusterID id;
              mret (<[id := yClient]> clients)) ∅;
  defaultClient ← factory_CreateDefaultYarnClient;
  mret (<[DefaultClusterID := defaultClient]> clients).

#[global] Instance yarn_factory_impl : YarnClientFactory (CW E) positive := {|
  CreateDefaultYarnClient := factory_CreateDefaultYarnClient;
  CreateYarnClientByClusterID := factory_CreateYarnClientByClusterID;
  CreateAllYarnClients := factory_CreateAllYarnClients
|}.
End Services.
