(* ===== verification/YarnClientProofs.v ===== *)
(** * Correctness of the YARN clients and their factory *)

From S2P Require Import Prelude GoStrings Proto YarnApi Wire Security Net Ipc Config YarnClient IpcRuns.

Local Open Scope string_scope.

Section Clients.
Context {E : Type} {UA : UserApi E} {RA : RandApi E} {UU : UuidApi E} {PW : Protowire}.
Context {P1 : ProtoMessage RpcRequestHeaderProto} {P2 : ProtoMessage RpcResponseHeaderProto}.
Context {P3 : ProtoMessage IpcConnectionContextProto} {P4 : ProtoMessage RequestHeaderProto}.
Context {P5 : ProtoMessage RpcSaslProto}.
Context {PQ1 : ProtoMessage GetClusterNodesRequestProto}.
Context {PR1 : ProtoMessage GetClusterNodesResponseProto}.
Context {PQ2 : ProtoMessage UpdateNodeResourceRequestProto}.
Context {PR2 : ProtoMessage UpdateNodeResourceResponseProto}.
Context {PQ3 : ProtoMessage GetServiceStatusRequestProto}.
Context {PR3 : ProtoMessage GetServiceStatusResponseProto}.
Context (cap_of : nat → nat).
Context {OF : OsFiles E} {XA : XmlApi} {DW : DirWalk E}.
Implicit Types (w : CW E) (p : positive).

(** ** Steps on client objects *)

Lemma in_net_inv {A} (c : M (Net E) A) w r w' :
  in_net c w = (r, w') → ∃ n, c (cw_net w) = (r, n) ∧ w' = mkCW (cw_objs w) n.
Proof. unfold in_net, zoom. destruct (c (cw_net w)) as [r' n]. intros [= <- <-]. eauto. Qed.

Lemma get_obj_inv p w r w' :
  get_obj p w = (r, w') → w' = w ∧ r = deref (cw_objs w !! p).
Proof. unfold get_obj, get_st, lift_out. unfold_M. by intros [= <- <-]. Qed.

Lemma put_obj_inv p f w r w' :
  put_obj p f w = (r, w') →
  (∃ c, cw_objs w !! p = Some c ∧ r = Ok tt ∧ w' = mkCW (<[p := f c]> (cw_objs w)) (cw_net w)) ∨
  (∃ e, r = Panic e ∧ w' = w).
Proof.
  unfold put_obj. destruct (cw_objs w !! p) as [c|]; intros [= <- <-]; [left|right]; eauto.
Qed.

(** ** What the clients leave alone on the network

    A preorder on the network that calls and the operating system respect is respected by
    every method of the clients and of the factory. *)
Section Network.
Context (R : relation (Net E)) `{!PreOrder R}.
Hypothesis R_uuid : preserves R (in_os uuid_NewV4).
Hypothesis R_ugi : preserves R CreateSimpleUGIProto.
Hypothesis R_conf : ∀ dir id, preserves R (in_os (NewYarnConfiguration dir id)).
Hypothesis R_call : ∀ Req Resp (PReq : ProtoMessage Req) (PResp : ProtoMessage Resp) c rpc
  (req : Req) (resp : Resp), preserves R (Call cap_of c rpc req resp).

Definition on_net : relation (CW E) := λ w w', R (cw_net w) (cw_net w').
#[export] Instance on_net_preorder : PreOrder on_net.
Proof using PreOrder0. unfold on_net. split; [by intros w|]. intros w1 w2 w3 H1 H2. by etrans. Qed.

Lemma net_in_net {A} (k : M (Net E) A) : preserves R k → preserves on_net (in_net k).
Proof using. intros Hk w r w' (n & Hn & ->)%in_net_inv. exact (Hk _ _ _ Hn). Qed.
Lemma net_get p : preserves on_net (get_obj p).
Proof using PreOrder0. intros w r w' [-> _]%get_obj_inv. unfold on_net. reflexivity. Qed.
Lemma net_put p f : preserves on_net (put_obj p f).
Proof using PreOrder0.
  intros w r w' [(c & _ & _ & ->)|(e & _ & ->)]%put_obj_inv; unfold on_net; cbn; reflexivity.
Qed.

#[local] Hint Resolve R_uuid R_ugi R_conf R_call net_in_net net_get net_put : copilot.

Lemma net_dial cf a f : preserves R (dial_service cf a f).
Proof using PreOrder0 R_uuid R_ugi. unfold dial_service. solve_preserves. Qed.
Lemma net_rm_state id a : preserves R (rm_state cap_of id a).
Proof using PreOrder0 R_uuid R_ugi R_conf R_call.
  unfold rm_state, CreateYarnHAClient, DialHAServiceProtocolService,
    YarnHAClient_GetServiceStatus, service_GetServiceStatus. solve_preserves.
Qed.
#[local] Hint Resolve net_dial net_rm_state : copilot.
Lemma net_find_active cf ids : preserves R (find_active cap_of cf ids).
Proof using PreOrder0 R_uuid R_ugi R_conf R_call. induction ids; cbn [find_active]; solve_preserves. Qed.
#[local] Hint Resolve net_find_active : copilot.

Lemma net_Initialize p : preserves on_net (client_Initialize cap_of p).
Proof using PreOrder0 R_uuid R_ugi R_conf R_call. unfold client_Initialize, GetActiveRMID. solve_preserves. Qed.
Lemma net_Close p : preserves on_net (client_Close p).
Proof using PreOrder0. unfold client_Close. solve_preserves. Qed.
#[local] Hint Resolve net_Initialize net_Close : copilot.
Lemma net_Reinitialize p : preserves on_net (client_Reinitialize cap_of p).
Proof using PreOrder0 R_uuid R_ugi R_conf R_call. unfold client_Reinitialize. solve_preserves. Qed.
Lemma net_UpdateNodeResource p req : preserves on_net (client_UpdateNodeResource cap_of p req).
Proof using PreOrder0 R_uuid R_ugi R_conf R_call.
  unfold client_UpdateNodeResource, ensure_active, updateNodeResource, CreateYarnAdminClient,
    YarnAdminClient_UpdateNodeResource, service_UpdateNodeResource.
  solve_preserves; apply net_in_net; solve_preserves.
Qed.
Lemma net_GetClusterNodes p req : preserves on_net (client_GetClusterNodes cap_of p req).
Proof using PreOrder0 R_uuid R_ugi R_conf R_call.
  unfold client_GetClusterNodes, ensure_active, getClusterNodes, CreateYarnApplicationClient,
    YarnApplicationClient_GetClusterNode, service_GetClusterNodes.
  solve_preserves; apply net_in_net; solve_preserves.
Qed.
Lemma net_create dir id : preserves on_net (factory_CreateYarnClientByClusterID cap_of dir id).
Proof using PreOrder0 R_uuid R_ugi R_conf R_call.
  unfold factory_CreateYarnClientByClusterID. apply preserves_bind; [apply _| |intros p; solve_preserves].
  intros w r w' [= _ <-]. unfold on_net. reflexivity.
Qed.
End Network.

(** ** Addresses come in pairs *)

Definition paired (c : yarnClient) : Prop :=
  activeRMAdminAddress c = None ↔ activeRMAddress c = None.
Definition all_paired w : Prop := map_Forall (λ _ c, paired c) (cw_objs w).

Definition pairs_stay : relation (CW E) := λ w w', all_paired w → all_paired w'.
#[local] Instance pairs_stay_preorder : PreOrder pairs_stay.
Proof. split; [by intros w H|intros w1 w2 w3 H12 H23 H; exact (H23 (H12 H))]. Qed.

Abbreviation keeps_pairs := (preserves pairs_stay).

Lemma keeps_in_net {A} (c : M (Net E) A) : keeps_pairs (in_net c).
Proof. by intros w r w' (n & _ & ->)%in_net_inv H. Qed.

Lemma keeps_get p : keeps_pairs (get_obj p).
Proof. by intros w r w' [-> _]%get_obj_inv. Qed.

#[local] Hint Resolve keeps_in_net keeps_get : copilot.

Lemma keeps_put p f : (∀ c, paired c → paired (f c)) → keeps_pairs (put_obj p f).
Proof.
  intros Hf w r w' [(c & Hc & -> & ->)|(e & -> & ->)]%put_obj_inv Hp; [|done].
  apply map_Forall_insert_2; [apply Hf, (Hp _ _ Hc)|done].
Qed.

(** Setting both addresses one after the other. *)
Lemma keeps_put_both p x (y : outcome string) :
  (∃ v, y = Ok v) →
  keeps_pairs (_ ← put_obj p (set_admin (Some x)); v ← lift_out y; put_obj p (set_addr (Some v))).
Proof.
  intros [v ->] w r w' H Hp. unfold mbind, M_bind in H.
  destruct (put_obj p (set_admin (Some x)) w) as [r1 w1] eqn:H1.
  apply put_obj_inv in H1 as [(c & Hc & -> & ->)|(e & -> & ->)]; [|by injection H as _ <-].
  unfold lift_out, put_obj in H. cbn [cw_objs] in H. rewrite lookup_insert_eq in H.
  injection H as _ <-. cbn. rewrite insert_insert_eq. by apply map_Forall_insert_2.
Qed.

Lemma keeps_GetActiveRMID p : keeps_pairs (GetActiveRMID cap_of p).
Proof. unfold GetActiveRMID. solve_preserves. Qed.

#[local] Hint Resolve keeps_GetActiveRMID : copilot.

Lemma keeps_Initialize p : keeps_pairs (client_Initialize cap_of p).
Proof.
  unfold client_Initialize. apply preserves_bind; [apply _|solve_preserves|]. intros c.
  apply preserves_bind; [apply _|solve_preserves|]. intros cf.
  apply preserves_bind; [apply _|by apply keeps_put|]. intros _.
  apply preserves_bind; [apply _|solve_preserves|]. intros ha.
  apply preserves_bind; [apply _|by apply keeps_put|]. intros _.
  destruct ha; cbn [negb].
  - apply preserves_bind; [apply _|solve_preserves|]. intros id.
    apply preserves_bind; [apply _|solve_preserves|]. intros a. apply keeps_put_both.
    unfold GetRMAddressByID. rewrite Get_total. eauto.
  - apply preserves_bind; [apply _|solve_preserves|]. intros a. apply keeps_put_both.
    unfold GetRMAddress. rewrite Get_total. eauto.
Qed.

Lemma keeps_Close p : keeps_pairs (client_Close p).
Proof.
  intros w r w' H Hp. unfold client_Close, mbind, M_bind in H.
  destruct (put_obj p (set_admin None) w) as [r1 w1] eqn:H1.
  apply put_obj_inv in H1 as [(c & Hc & -> & ->)|(e & -> & ->)]; [|by injection H as _ <-].
  unfold put_obj in H. cbn [cw_objs] in H. rewrite lookup_insert_eq in H.
  injection H as _ <-. cbn. rewrite insert_insert_eq. by apply map_Forall_insert_2.
Qed.

#[local] Hint Resolve keeps_Initialize keeps_Close : copilot.

Lemma keeps_ensure p : keeps_pairs (ensure_active cap_of p).
Proof. unfold ensure_active. solve_preserves. Qed.

#[local] Hint Resolve keeps_ensure : copilot.

Lemma keeps_update p req : keeps_pairs (client_UpdateNodeResource cap_of p req).
Proof. unfold client_UpdateNodeResource, updateNodeResource. solve_preserves. Qed.

Lemma keeps_nodes p req : keeps_pairs (client_GetClusterNodes cap_of p req).
Proof. unfold client_GetClusterNodes, getClusterNodes. solve_preserves. Qed.

(** One method call on one client, whatever it returns. *)
Inductive client_step : CW E → CW E → Prop :=
| StepInitialize p w r w' : client_Initialize cap_of p w = (r, w') → client_step w w'
| StepReinitialize p w r w' : client_Reinitialize cap_of p w = (r, w') → client_step w w'
| StepClose p w r w' : client_Close p w = (r, w') → client_step w w'
| StepUpdate p req w r w' : client_UpdateNodeResource cap_of p req w = (r, w') → client_step w w'
| StepNodes p req w r w' : client_GetClusterNodes cap_of p req w = (r, w') → client_step w w'
| StepNew dir id w r w' : NewYarnClient dir id w = (r, w') → client_step w w'.

Lemma client_step_paired w w' : client_step w w' → all_paired w → all_paired w'.
Proof.
  intros [p w0 r w1 H|p w0 r w1 H|p w0 r w1 H|p req w0 r w1 H|p req w0 r w1 H|dir id w0 r w1 H].
  - by eapply keeps_Initialize.
  - assert (keeps_pairs (client_Reinitialize cap_of p)) as Hk
      by (unfold client_Reinitialize; solve_preserves). by eapply Hk.
  - by eapply keeps_Close.
  - by eapply keeps_update.
  - by eapply keeps_nodes.
  - injection H as _ <-. intros Hp. by apply map_Forall_insert_2.
Qed.

(** C13 A client knows both addresses of the active resource manager or neither:
    this holds of every client object after any sequence of calls on any
    clients, also calls that fail or panic half way. *)
Theorem addresses_are_paired w w' :
  cw_objs w = ∅ → rtc client_step w w' → all_paired w'.
Proof.
  intros H0 Hsteps. assert (all_paired w) as Hp.
  { unfold all_paired. rewrite H0. apply map_Forall_empty. }
  clear H0. induction Hsteps as [|w1 w2 w3 Hstep _ IH]; [done|].
  by apply IH, (client_step_paired w1).
Qed.

(** ** Finding the active resource manager *)

(** The managers [pre] were asked in turn and none was active. *)
Inductive probed (c : configuration) : list string → Net E → Net E → Prop :=
| probed_nil n : probed c [] n n
| probed_cons id pre n n1 n2 st :
    rm_state cap_of id (admin_address_of c id) n = (Ok st, n1) →
    st ≠ Some (Some HAServiceStateProto_ACTIVE) → probed c pre n1 n2 →
    probed c (id :: pre) n n2.

Definition answered_active (c : configuration) (id : string) (n n' : Net E) : Prop :=
  rm_state cap_of id (admin_address_of c id) n
    = (Ok (Some (Some HAServiceStateProto_ACTIVE)), n').

Lemma find_active_Some c ids n id n' :
  find_active cap_of c ids n = (Ok (Some id), n') →
  ∃ pre post n1, ids = (pre ++ id :: post)%list ∧ probed c pre n n1 ∧ answered_active c id n1 n'.
Proof.
  revert n. induction ids as [|x ids IH]; intros n; [done|]. cbn [find_active].
  unfold GetRMAdminAddressByID at 1. rewrite Get_total. fold (admin_address_of c x).
  intros (a & n1 & Ha & H)%M_bind_inv. injection Ha as <- <-.
  apply M_bind_inv in H as (st & n2 & Hst & H).
  destruct (decide (st = Some (Some HAServiceStateProto_ACTIVE))) as [->|Hne].
  - injection H as <- <-. exists [], ids, n. split; [done|]. split; [constructor|done].
  - assert (find_active cap_of c ids n2 = (Ok (Some id), n')) as H'.
    { destruct st as [[[]|]|]; done. }
    destruct (IH _ H') as (pre & post & n3 & -> & Hp & Hact).
    exists (x :: pre), post, n3. split; [done|]. split; [|done]. by econstructor.
Qed.

Lemma put_ok p f w c :
  cw_objs w !! p = Some c → put_obj p f w = (Ok tt, mkCW (<[p := f c]> (cw_objs w)) (cw_net w)).
Proof. unfold put_obj. by intros ->. Qed.

Lemma GetActiveRMID_inv p w c cf r w' :
  cw_objs w !! p = Some c → conf c = Some cf → GetActiveRMID cap_of p w = (r, w') →
  cw_objs w' = cw_objs w ∧
  ∀ id, r = Ok id → ∃ ids, GetRMs cf = Ok ids ∧
    find_active cap_of cf ids (cw_net w) = (Ok (Some id), cw_net w').
Proof.
  intros Hc Hcf. unfold GetActiveRMID, get_obj. unfold_M. rewrite Hc. cbn [deref].
  rewrite Hcf. cbn [deref]. rewrite GetRMs_total.
  destruct (in_net _ w) as [r1 w1] eqn:Hn. apply in_net_inv in Hn as (n & Hf & ->).
  destruct r1 as [[id|]|e|y]; intros [= <- <-]; (split; [done|]); intros id' [= <-].
  eexists. split; [done|]. by rewrite Hf.
Qed.

Lemma set_both_run p w c a b (y : outcome string) :
  cw_objs w !! p = Some c → y = Ok b →
  (_ ← put_obj p (set_admin (Some a)); v ← lift_out y; put_obj p (set_addr (Some v))) w =
  (Ok tt, mkCW (<[p := set_addr (Some b) (set_admin (Some a) c)]> (cw_objs w)) (cw_net w)).
Proof.
  intros Hc ->. erewrite M_bind_ok by (by apply put_ok). erewrite M_bind_ok by reflexivity.
  erewrite put_ok by apply lookup_insert_eq. cbn [cw_objs cw_net]. by rewrite insert_insert_eq.
Qed.

(** What [Initialize] does to its object, on success and on failure. *)
Lemma initialize_cases p w c r w' :
  cw_objs w !! p = Some c → client_Initialize cap_of p w = (r, w') →
  ∃ c', cw_objs w' = <[p := c']> (cw_objs w) ∧
    (r ≠ Ok tt → activeRMAdminAddress c' = activeRMAdminAddress c ∧
                 activeRMAddress c' = activeRMAddress c) ∧
    (r = Ok tt → ∃ cf ha a b n0,
       in_os (NewYarnConfiguration (confDir c) (clusterID c)) (cw_net w) = (Ok cf, n0) ∧
       c' = mkYarnClient (confDir c) (Some cf) ha (Some a) (Some b) (clusterID c) ∧
       GetRMEnabledHA cf = Ok ha ∧
       if ha then ∃ ids pre id post n1, GetRMs cf = Ok ids ∧ ids = (pre ++ id :: post)%list ∧
            probed cf pre n0 n1 ∧ answered_active cf id n1 (cw_net w') ∧
            a = admin_address_of cf id ∧ b = address_of cf id
       else GetRMAdminAddress cf = Ok a ∧ GetRMAddress cf = Ok b ∧ cw_net w' = n0).
Proof.
  intros Hc. unfold client_Initialize.
  erewrite M_bind_ok by (unfold get_obj; unfold_M; by rewrite Hc). cbn beta.
  destruct (in_net (in_os (NewYarnConfiguration (confDir c) (clusterID c))) w) as [r1 w1] eqn:Hn.
  pose proof Hn as (n1 & Hconf & ->)%in_net_inv. destruct r1 as [cf|e|y].
  2: { erewrite M_bind_err by exact Hn. intros [= <- <-]. exists c. cbn. by rewrite insert_id. }
  2: { erewrite M_bind_panic by exact Hn. intros [= <- <-]. exists c. cbn. by rewrite insert_id. }
  erewrite M_bind_ok by exact Hn. cbn beta. erewrite M_bind_ok by (by apply put_ok). cbn beta.
  set (c1 := set_conf cf c). unfold mbind at 1, M_bind at 1, lift_out at 1.
  destruct (GetRMEnabledHA cf) as [ha|e|y] eqn:Hha; [|intros [= <- <-]; by exists c1..].
  erewrite M_bind_ok by (apply put_ok; apply lookup_insert_eq). cbn [cw_objs cw_net].
  rewrite insert_insert_eq. set (c2 := set_ha ha c1).
  destruct ha; cbn [negb].
  - destruct (GetActiveRMID cap_of p (mkCW (<[p := c2]> (cw_objs w)) n1)) as [r2 w2] eqn:Hact.
    pose proof Hact as Hrun.
    eapply GetActiveRMID_inv in Hact as [Hobjs Hid]; [|apply lookup_insert_eq|done].
    cbn [cw_objs] in Hobjs. destruct r2 as [id|e|y].
    2: { erewrite M_bind_err by exact Hrun. intros [= <- <-]. exists c2. by rewrite Hobjs. }
    2: { erewrite M_bind_panic by exact Hrun. intros [= <- <-]. exists c2. by rewrite Hobjs. }
    erewrite M_bind_ok by exact Hrun.
    unfold GetRMAdminAddressByID, GetRMAddressByID. rewrite !Get_total.
    erewrite M_bind_ok by reflexivity.
    erewrite set_both_run; [|rewrite Hobjs; apply lookup_insert_eq|reflexivity].
    intros [= <- <-]. cbn [cw_objs]. rewrite Hobjs, insert_insert_eq. eexists. split; [done|]. split; [done|]. intros _.
    destruct (Hid id eq_refl) as (ids & Hids & Hf).
    apply find_active_Some in Hf as (pre & post & n3 & Hi & Hp & Ha).
    exists cf, true, (admin_address_of cf id), (address_of cf id), n1.
    split; [done|]. split; [done|]. split; [done|]. by exists ids, pre, id, post, n3.
  - unfold GetRMAdminAddress, GetRMAddress. rewrite !Get_total.
    erewrite M_bind_ok by reflexivity.
    erewrite set_both_run; [|apply lookup_insert_eq|reflexivity].
    intros [= <- <-]. cbn [cw_objs]. rewrite insert_insert_eq. eexists. split; [done|]. split; [done|]. intros _.
    eexists cf, false, _, _, n1. split; [done|]. split; [reflexivity|]. split; [exact Hha|].
    split; [apply Get_total|]. split; [apply Get_total|done].
Qed.

(** A successful [Initialize] leaves the client pointed at one resource
    manager of the configuration it has read: without HA the configured addresses; with
    HA both addresses of one id of [ha.rm-ids], which answered ACTIVE when asked in this
    call, as its last act, after every id before it was asked and did not. *)
Theorem initialize_picks_active p w c w' :
  cw_objs w !! p = Some c → client_Initialize cap_of p w = (Ok tt, w') →
  ∃ cf ha a b n0,
    in_os (NewYarnConfiguration (confDir c) (clusterID c)) (cw_net w) = (Ok cf, n0) ∧
    cw_objs w' = <[p := mkYarnClient (confDir c) (Some cf) ha (Some a) (Some b) (clusterID c)]>
                   (cw_objs w) ∧
    GetRMEnabledHA cf = Ok ha ∧
    if ha then ∃ ids pre id post n1, GetRMs cf = Ok ids ∧ ids = (pre ++ id :: post)%list ∧
         probed cf pre n0 n1 ∧ answered_active cf id n1 (cw_net w') ∧
         a = admin_address_of cf id ∧ b = address_of cf id
    else GetRMAdminAddress cf = Ok a ∧ GetRMAddress cf = Ok b ∧ cw_net w' = n0.
Proof.
  intros Hc Hi. destruct (initialize_cases _ _ _ _ _ Hc Hi) as (c' & Hobjs & _ & Hok).
  destruct (Hok eq_refl) as (cf & ha & a & b & n0 & Hcf & -> & H). by exists cf, ha, a, b, n0.
Qed.

(** A client whose reinitialisation failed forgets the old resource manager:
    both addresses are gone, so with HA the next request looks for the active
    manager again before anything is sent, and fails if there is none. *)
Theorem failed_reinitialize_forgets p w c r w' req :
  cw_objs w !! p = Some c → client_Reinitialize cap_of p w = (r, w') → r ≠ Ok tt →
  ∃ c', cw_objs w' = <[p := c']> (cw_objs w) ∧
    activeRMAdminAddress c' = None ∧ activeRMAddress c' = None ∧
    (haEnabled c' = true →
     client_UpdateNodeResource cap_of p req w' =
     (_ ← client_Initialize cap_of p; updateNodeResource cap_of p req) w').
Proof.
  intros Hc Hr Hne. unfold client_Reinitialize in Hr.
  erewrite M_bind_ok in Hr.
  2: { unfold client_Close. erewrite M_bind_ok by (by apply put_ok).
       erewrite put_ok by apply lookup_insert_eq. cbn [cw_objs cw_net].
       by rewrite insert_insert_eq. }
  eapply initialize_cases in Hr as (c' & Hobjs & Hfail & _); [|apply lookup_insert_eq].
  destruct (Hfail Hne) as [Ha Hb]. cbn [cw_objs] in Hobjs. rewrite insert_insert_eq in Hobjs.
  exists c'. split; [done|]. split; [done|]. split; [done|]. intros Hha.
  assert (ensure_active cap_of p w' = client_Initialize cap_of p w') as He.
  { unfold ensure_active.
    erewrite M_bind_ok by (unfold get_obj; unfold_M; by rewrite Hobjs, lookup_insert_eq).
    cbn beta. rewrite Ha, Hha. by rewrite bool_decide_eq_true_2. }
  unfold client_UpdateNodeResource, mbind, M_bind. by rewrite He.
Qed.

(** ** Discovering clusters *)

Lemma replace_go_no_dot s suf :
  contains_byte "." s = false →
  replace_go (String "." suf) "" 0 (s +:+ String "." suf) = s +:+ replace_go (String "." suf) "" 0 (String "." suf).
Proof.
  induction s as [|a s IH]; [done|]. cbn [contains_byte]. intros [Ha Hs]%orb_false_iff.
  cbn [String.append replace_go]. cbn [String.prefix].
  destruct (Ascii.ascii_dec "." a) as [<-|]; [by rewrite Ascii.eqb_refl in Ha|]. by rewrite IH.
Qed.

Lemma cluster_id_of_file id :
  contains_byte "." id = false → ReplaceAll (id +:+ site_suffix) site_suffix "" = id.
Proof.
  intros Hid. unfold ReplaceAll, site_suffix. rewrite replace_go_no_dot by done.
  change (replace_go _ _ _ _) with "". apply string_app_nil_r.
Qed.

(** A configuration file of a cluster, or anything else. *)
Definition site_file (id : string) (d : DirEntry) : Prop :=
  DirEntry_IsDir d = false ∧ DirEntry_Name d = id +:+ site_suffix ∧ contains_byte "." id = false.
Definition other_file (d : DirEntry) : Prop :=
  DirEntry_IsDir d = true ∨ HasSuffix (DirEntry_Name d) site_suffix = false.

Inductive listing : list DirEntry → list string → Prop :=
| listing_nil : listing [] []
| listing_site id d ds ids : site_file id d → listing ds ids → listing (d :: ds) (id :: ids)
| listing_other d ds ids : other_file d → listing ds ids → listing (d :: ds) ids.

Lemma collect_ids_listing ds ids res :
  listing ds ids → collect_ids res (Some <$> ds) = Ok (res ++ ids)%list.
Proof.
  intros Hl. revert res. induction Hl as [|id d ds ids (Hd & Hn & Hid) _ IH|d ds ids Ho _ IH]; intros res.
  - cbn. by rewrite app_nil_r.
  - cbn [fmap list_fmap collect_ids]. rewrite Hd, Hn, HasSuffix_app, cluster_id_of_file by done.
    rewrite IH. by rewrite <- app_assoc.
  - cbn [fmap list_fmap collect_ids]. destruct Ho as [-> | ->]; [done|]. by case_match.
Qed.

Lemma collect_ids_nil res ds rest :
  ∃ y, collect_ids res ((Some <$> ds) ++ None :: rest)%list = Panic y.
Proof.
  revert res. induction ds as [|d ds IH]; intros res; [by eexists|].
  cbn [fmap list_fmap app collect_ids]. repeat case_match; apply IH.
Qed.

(** The clusters the factory knows are the files [<id>.yarn-site.xml] below
    the configuration directory, in the order of the walk; when the directory
    cannot be examined (missing, or [HADOOP_CONF_DIR] unset) the walk hands the
    function a nil entry and the process panics instead of reporting the error. *)
Theorem known_clusters_are_site_files dir w visits n :
  in_os (walk_visits dir) (cw_net w) = (Ok visits, n) →
  (∀ ds ids, visits = Some <$> ds → listing ds ids →
     getAllKnownClusterID dir w = (Ok ids, mkCW (cw_objs w) n)) ∧
  (∀ rest, visits = None :: rest → ∃ y, getAllKnownClusterID dir w = (Panic y, mkCW (cw_objs w) n)).
Proof.
  intros Hv. unfold getAllKnownClusterID.
  assert (in_net (in_os (walk_visits dir)) w = (Ok visits, mkCW (cw_objs w) n)) as Hw.
  { unfold in_net, zoom. by rewrite Hv. }
  rewrite (M_bind_ok _ _ _ _ _ Hw). unfold lift_out. split.
  - intros ds ids -> Hl. by rewrite (collect_ids_listing ds ids []).
  - intros rest ->. destruct (collect_ids_nil [] [] rest) as [y Hy]. exists y.
    cbn [fmap list_fmap app] in Hy. by rewrite Hy.
Qed.
End Clients.

(** ** Concrete runs

    Two resource managers, of which the second is active. *)
Module ClientRun.
Import ReferenceProto ConfigFiles.

#[export] Instance run_user : UserApi unit := {| user_Current := mret "yarn" |}.
#[export] Instance run_rand : RandApi unit := {| rand_Read n := mret (replicate n Byte.x00) |}.
#[export] Instance run_uuid : UuidApi unit := {| uuid_NewV4 := mret (replicate 16 Byte.xab) |}.
#[export] Instance run_walk : DirWalk unit := {|
  walk_visits dir :=
    if bool_decide (dir = "/etc/hadoop")
    then mret [Some (mkDirEntry "hadoop" true); Some (mkDirEntry "a.yarn-site.xml" false);
               Some (mkDirEntry "log4j.properties" false)]
    else mret [None]
|}.
#[export] Instance run_nodes_req : ProtoMessage GetClusterNodesRequestProto :=
  {| proto_Marshal _ := Ok []; proto_Unmarshal _ := Ok (mkGetClusterNodesRequestProto []) |}.
#[export] Instance run_nodes_resp : ProtoMessage GetClusterNodesResponseProto :=
  {| proto_Marshal _ := Ok []; proto_Unmarshal _ := Ok (mkGetClusterNodesResponseProto []) |}.
#[export] Instance run_update_req : ProtoMessage UpdateNodeResourceRequestProto :=
  {| proto_Marshal _ := Ok []; proto_Unmarshal _ := Ok (mkUpdateNodeResourceRequestProto []) |}.
#[export] Instance run_update_resp : ProtoMessage UpdateNodeResourceResponseProto :=
  {| proto_Marshal _ := Ok []; proto_Unmarshal _ := Ok mkUpdateNodeResourceResponseProto |}.

(** The answer to [GetServiceStatus] with this state number. *)
Definition says (state : Byte.byte) : Peer :=
  mkPeer true [Seg Byte.x00 [Byte.x00; Byte.x00; Byte.x06; Byte.x02; Byte.x10; Byte.x00; Byte.x02;
                             Byte.x08; state]] [].
Definition standby_active : gmap string (list (Peer + error)) :=
  {[ "10.0.0.1:8033" := [inl (says Byte.x02)]; "10.0.0.2:8033" := [inl (says Byte.x01)] ]}.
Definition fresh_client : yarnClient := mkYarnClient "/etc/hadoop" None false None None "a".
Definition cw (peers : gmap string (list (Peer + error))) : CW unit :=
  mkCW {[ 1%positive := fresh_client ]} (mkNet ∅ peers (mkSecState None tt)).
End ClientRun.

Section Witnesses.
Import ReferenceProto ConfigFiles ClientRun.

(** A client is made and initialised: the second manager is active, and the client knows
    both of its addresses. *)
Definition no_clients : CW unit := mkCW ∅ (mkNet ∅ standby_active (mkSecState None tt)).
Definition one_client : CW unit := (NewYarnClient "/etc/hadoop" "a" no_clients).2.
Definition one_initialised : CW unit := (client_Initialize small_cap 1 one_client).2.

Lemma addresses_are_paired_witness :
  (λ c, (activeRMAdminAddress c, activeRMAddress c)) <$> cw_objs one_initialised !! 1%positive
    = Some (Some "10.0.0.2:8033", Some (address_of (mkConfiguration ∅) "rm2")) ∧
  all_paired one_initialised.
Proof.
  split; [vm_compute; reflexivity|].
  eapply (addresses_are_paired small_cap no_clients).
  - reflexivity.
  - eapply rtc_l; [eapply (StepNew _ "/etc/hadoop" "a"); apply surjective_pairing|].
    apply rtc_once. eapply (StepInitialize _ 1). apply surjective_pairing.
Defined.

(** With both managers in standby the client finds nobody. *)
Lemma failed_reinitialize_forgets_witness :
  ∃ c', cw_objs (client_Reinitialize small_cap 1 (cw ∅)).2 = <[1%positive := c']> (cw_objs (cw ∅)) ∧
    activeRMAdminAddress c' = None ∧ activeRMAddress c' = None ∧
    (haEnabled c' = true →
     client_UpdateNodeResource small_cap 1 (mkUpdateNodeResourceRequestProto [])
       (client_Reinitialize small_cap 1 (cw ∅)).2 =
     (_ ← client_Initialize small_cap 1;
      updateNodeResource small_cap 1 (mkUpdateNodeResourceRequestProto []))
       (client_Reinitialize small_cap 1 (cw ∅)).2).
Proof.
  apply (failed_reinitialize_forgets small_cap 1 (cw ∅) fresh_client
           (client_Reinitialize small_cap 1 (cw ∅)).1).
  - reflexivity.
  - apply surjective_pairing.
  - vm_compute. discriminate.
Defined.

Lemma known_clusters_are_site_files_witness :
  getAllKnownClusterID "/etc/hadoop" (cw ∅) = (Ok ["a"], cw ∅) ∧
  ∃ y, getAllKnownClusterID "" (cw ∅) = (Panic y, cw ∅).
Proof.
  split.
  - refine (proj1 (known_clusters_are_site_files "/etc/hadoop" (cw ∅) _ (cw_net (cw ∅)) _)
      [mkDirEntry "hadoop" true; mkDirEntry "a.yarn-site.xml" false; mkDirEntry "log4j.properties" false]
      ["a"] _ _); try reflexivity.
    apply listing_other; [by left|]. apply listing_site; [done|].
    apply listing_other; [by right|]. constructor.
  - refine (proj2 (known_clusters_are_site_files "" (cw ∅) [None] (cw_net (cw ∅)) _) [] _);
      reflexivity.
Defined.
End Witnesses.
