(* ===== verification/ClientWire.v ===== *)
(** * The clients on the wire

    The operator is proved against the interface of its clients, the clients talk
    through the RPC layer.  Here the layers are put together: what a request that the
    operator saw succeed has put on a connection, and to whom. *)

From S2P Require Import Prelude GoStrings Proto NodeResource ReferenceApi NodeResourceProofs.
From S2P Require Import YarnApi NodesSyncer NodesSyncerProofs Reconciler ReconcilerProofs.
From S2P Require Import Wire Security Net Ipc IpcProofs IpcRuns IpcSent ServerView Config YarnClient YarnClientProofs.

Local Open Scope string_scope.

Section Services.
Context {E : Type} {UA : UserApi E} {RA : RandApi E} {UU : UuidApi E} {PW : Protowire} {PL : ProtowireLaws}.
Context {P1 : ProtoMessage RpcRequestHeaderProto} {P2 : ProtoMessage RpcResponseHeaderProto}.
Context {P3 : ProtoMessage IpcConnectionContextProto} {P4 : ProtoMessage RequestHeaderProto}.
Context {P5 : ProtoMessage RpcSaslProto}.
Context {PQ1 : ProtoMessage GetClusterNodesRequestProto}.
Context {PR1 : ProtoMessage GetClusterNodesResponseProto}.
Context {PQ2 : ProtoMessage UpdateNodeResourceRequestProto}.
Context {PR2 : ProtoMessage UpdateNodeResourceResponseProto}.
Context {PQ3 : ProtoMessage GetServiceStatusRequestProto}.
Context {PR3 : ProtoMessage GetServiceStatusResponseProto}.
Context (cap_of : nat → nat).
Context {OF : OsFiles E} {XA : XmlApi} {DW : DirWalk E}.
Implicit Types (w : CW E) (p : positive).

(** Where a request goes: the address of the active manager, or the configured one. *)
Definition target (cf : option configuration) (active : option string)
    (fallback : configuration → outcome string) : outcome string :=
  match active with
  | Some a => Ok a
  | None => c ← deref cf; fallback c
  end.

Lemma dialled cf active fallback (n : Net E) c n' :
  dial_service cf active fallback n = (Ok c, n') →
  net_socks n' = net_socks n ∧ sec_current (net_sec n') = sec_current (net_sec n) ∧
  target cf active fallback = Ok (ServerAddress c).
Proof.
  unfold dial_service. intros (cid & n1 & H1 & H)%M_bind_inv.
  apply M_bind_inv in H as (ugi & n2 & H2 & H). apply M_bind_inv in H as (a & n3 & H3 & H).
  injection H as <- <-. cbn [ServerAddress].
  assert (∀ A (k : M E A) (m : Net E) r m', in_os k m = (r, m') →
    net_socks m' = net_socks m ∧ sec_current (net_sec m') = sec_current (net_sec m)) as Hos.
  { intros A k m r m'. unfold in_os, in_sec, in_env, zoom.
    destruct (k (sec_env (net_sec m))) as [r0 e]. by intros [= <- <-]. }
  apply Hos in H1 as [H1a H1b]. apply Hos in H2 as [H2a H2b].
  assert (n3 = n2 ∧ target cf active fallback = Ok a) as [-> Ht]; [|by rewrite H2a, H2b, H1a, H1b].
  unfold target. destruct active as [a'|]; [by injection H3 as <- <-|].
  apply M_bind_inv in H3 as (cf' & n4 & H3 & H4). unfold lift_out in *.
  injection H3 as Hcf <-. injection H4 as Hf <-. rewrite Hcf. cbn. by rewrite Hf.
Qed.

(** A call through a client that was just dialled. *)
Lemma called_from {Req} {PR : ProtoMessage Req} addr cid protocol rpc (req : Req) (n0 n n' : Net E) :
  net_socks n = net_socks n0 → sec_current (net_sec n) = sec_current (net_sec n0) →
  called addr cid protocol rpc req n n' → called addr cid protocol rpc req n0 n'.
Proof. intros Hs Hc. unfold called, no_token. by rewrite Hs, Hc. Qed.

(** The header of a call: the method, its protocol and the protocol's version. *)
Definition rpc_header (method protocol : string) : RequestHeaderProto :=
  mkRequestHeaderProto (Some method) (Some protocol) (Some CLIENT_PROTOCOL_VERSION).

Definition admin_target (c : yarnClient) : outcome string :=
  target (conf c) (activeRMAdminAddress c) GetRMAdminAddress.
Definition app_target (c : yarnClient) : outcome string :=
  target (conf c) (activeRMAddress c) GetRMAddress.

(** One call to [addr] by the client object [p], on a connection of its own. *)
Definition wire_call {Req} {PR : ProtoMessage Req} (addr protocol method : string) (req : Req) w w' : Prop :=
  cw_objs w' = cw_objs w ∧
  ∃ cid, called addr cid protocol (rpc_header method protocol) req (cw_net w) (cw_net w').

(** The server reads such a call as it was meant. *)
Lemma wire_call_read {Req} {PR : ProtoMessage Req} {LR : ProtoMessageLaws Req}
    `{!ProtoMessageLaws RpcRequestHeaderProto} `{!ProtoMessageLaws IpcConnectionContextProto}
    `{!ProtoMessageLaws RequestHeaderProto} addr protocol method (req : Req) w w' :
  wire_call addr protocol method req w w' → no_token (net_sec (cw_net w)) addr →
  ∃ p s cid, net_socks (cw_net w) !! p = None ∧
    net_socks (cw_net w') = <[p := s]> (net_socks (cw_net w)) ∧ sock_addr s = addr ∧
    ((len (sock_out s) < 2 ^ 31)%Z → ∃ ugi, current_user (E:=E) ugi ∧
       server_read (sock_out s)
         = Some (mkServerCall ugi (Some protocol) (Some cid) (rpc_header method protocol) req, [])).
Proof.
  intros (_ & cid & Hc) Hno. destruct (called_read _ _ _ _ _ _ _ Hc Hno) as (p & s & H). by exists p, s, cid.
Qed.

(** A request as the clients make it: look at the object, dial, call. *)
Lemma request_wire {Req Resp} {PReq : ProtoMessage Req} {PResp : ProtoMessage Resp} p
    (active : yarnClient → option string) fallback method protocol (req : Req) (resp0 resp : Resp) w w' :
  (c ← get_obj p;
   cl ← in_net (dial_service (conf c) (active c) fallback);
   in_net (rpc ← lift_out (Ok (rpc_header method protocol)); Call cap_of cl rpc req resp0)) w
    = (Ok resp, w') →
  ∃ c addr, cw_objs w !! p = Some c ∧ target (conf c) (active c) fallback = Ok addr ∧
    wire_call addr protocol method req w w'.
Proof.
  intros (c & w0 & Hc & H)%M_bind_inv.
  apply get_obj_inv in Hc as [-> Hc]. destruct (cw_objs w !! p) as [c'|]; [|done]. injection Hc as ->.
  apply M_bind_inv in H as (cl & w1 & Hd & H). apply in_net_inv in Hd as (n1 & Hd & ->).
  apply in_net_inv in H as (n2 & Hcall & ->). apply dialled in Hd as (Hs & Hu & Ht).
  exists c', (ServerAddress cl). split; [done|]. split; [done|]. split; [done|].
  apply M_bind_inv in Hcall as (rpc & n3 & [= <- <-] & Hcall).
  apply call_sent in Hcall as (cid & pr & _ & [= <-] & Hcall).
  exists cid. by eapply called_from.
Qed.

Lemma updateNodeResource_wire p req w resp w' :
  updateNodeResource cap_of p req w = (Ok resp, w') →
  ∃ c addr, cw_objs w !! p = Some c ∧ admin_target c = Ok addr ∧
    wire_call addr RESOURCE_MANAGER_ADMIN_PROTOCOL "updateNodeResource" req w w'.
Proof.
  exact (request_wire p activeRMAdminAddress GetRMAdminAddress "updateNodeResource"
           RESOURCE_MANAGER_ADMIN_PROTOCOL req _ resp w w').
Qed.

Lemma getClusterNodes_wire p req w resp w' :
  getClusterNodes cap_of p req w = (Ok resp, w') →
  ∃ c addr, cw_objs w !! p = Some c ∧ app_target c = Ok addr ∧
    wire_call addr APPLICATION_CLIENT_PROTOCOL "getClusterNodes" req w w'.
Proof.
  exact (request_wire p activeRMAddress GetRMAddress "getClusterNodes"
           APPLICATION_CLIENT_PROTOCOL req _ resp w w').
Qed.

(** A request is made after the client has found the active manager, if it knows none. *)
Lemma client_UpdateNodeResource_wire p req w resp w' :
  client_UpdateNodeResource cap_of p req w = (Ok resp, w') →
  ∃ w1 c addr, ensure_active cap_of p w = (Ok tt, w1) ∧ cw_objs w1 !! p = Some c ∧
    admin_target c = Ok addr ∧
    wire_call addr RESOURCE_MANAGER_ADMIN_PROTOCOL "updateNodeResource" req w1 w'.
Proof.
  intros ([] & w1 & He & H)%M_bind_inv. apply updateNodeResource_wire in H as (c & addr & H).
  by exists w1, c, addr.
Qed.

(** A client that knows its manager makes a request without looking for one. *)
Lemma ensure_known p w c a :
  cw_objs w !! p = Some c → activeRMAdminAddress c = Some a → ensure_active cap_of p w = (Ok tt, w).
Proof.
  intros Hc Ha. unfold ensure_active.
  erewrite M_bind_ok by (unfold get_obj; unfold_M; by rewrite Hc). cbn beta.
  rewrite Ha. by rewrite bool_decide_eq_false_2.
Qed.

(** C11 A failover is followed: once [Reinitialize] has succeeded, whatever the client was
    connected to before, the next poll that succeeds went, on one connection of its own, to
    the client address of the manager that this reinitialisation found active in the
    configuration it read for the client's directory and cluster: the last it asked, which
    answered ACTIVE, after it had asked every manager before it in [ha.rm-ids] and none of
    them did (without HA to the configured address).  The poll asked nobody else. *)
Theorem failover_is_followed p w c w1 req resp w2 :
  cw_objs w !! p = Some c →
  client_Reinitialize cap_of p w = (Ok tt, w1) →
  client_GetClusterNodes cap_of p req w1 = (Ok resp, w2) →
  ∃ cf ha a b n0,
    in_os (NewYarnConfiguration (confDir c) (clusterID c)) (cw_net w) = (Ok cf, n0) ∧
    GetRMEnabledHA cf = Ok ha ∧
    (if ha then ∃ ids pre id post n1, GetRMs cf = Ok ids ∧ ids = (pre ++ id :: post)%list ∧
         probed cap_of cf pre n0 n1 ∧ answered_active cap_of cf id n1 (cw_net w1) ∧ b = address_of cf id
     else GetRMAddress cf = Ok b ∧ cw_net w1 = n0) ∧
    cw_objs w1 !! p = Some (mkYarnClient (confDir c) (Some cf) ha (Some a) (Some b) (clusterID c)) ∧
    wire_call b APPLICATION_CLIENT_PROTOCOL "getClusterNodes" req w1 w2.
Proof.
  intros Hc Hr Hg. unfold client_Reinitialize in Hr. erewrite M_bind_ok in Hr.
  2: { unfold client_Close. erewrite M_bind_ok by (by apply put_ok).
       erewrite put_ok by apply lookup_insert_eq. cbn [cw_objs cw_net]. by rewrite insert_insert_eq. }
  eapply initialize_cases in Hr as (c' & Hobjs & _ & Hok); [|apply lookup_insert_eq].
  destruct (Hok eq_refl) as (cf & ha & a & b & n0 & Hconf & -> & Hha & Hact).
  cbn [cw_objs] in Hobjs. rewrite insert_insert_eq in Hobjs.
  assert (cw_objs w1 !! p = Some (mkYarnClient (confDir c) (Some cf) ha (Some a) (Some b) (clusterID c)))
    as Hp by (rewrite Hobjs; apply lookup_insert_eq).
  unfold client_GetClusterNodes in Hg. erewrite M_bind_ok in Hg by (by eapply ensure_known).
  apply M_bind_inv in Hg as (r & w3 & Hg & [= _ <-]).
  apply getClusterNodes_wire in Hg as (c2 & addr & Hp2 & Ht & Hw).
  rewrite Hp in Hp2. injection Hp2 as <-. injection Ht as <-.
  exists cf, ha, a, b, n0. split; [done|]. split; [done|]. split; [|done].
  destruct ha; [|by destruct Hact as (_ & ? & ?)].
  destruct Hact as (ids & pre & id & post & n1 & H1 & H2 & H3 & H4 & _ & H6).
  by exists ids, pre, id, post, n1.
Qed.

(** ** The operator on these clients *)

Context {Q : Type} {QA : QuantityApi Q} {QL : QuantityLaws Q} {UQ : QuotaApi Q}.
Context {KA : KoordinatorApi} {KL : KoordinatorLaws}.
Context {JO : Json (OriginAllocatable Q)} {JT : Json (ThirdPartyAllocations Q)} {JL : JsonLaws Q}.
Context (configDir : string) {KC : K8sClient (CW E) Q}.
#[local] Existing Instance yarn_client_impl.
#[local] Instance the_clients : YarnClient (CW E) positive := yarn_client_impl cap_of.
#[local] Instance the_factory : YarnClientFactory (CW E) positive := yarn_factory_impl cap_of configDir.
Context {K8L : K8sLaws (CW E) positive Q}.

(** C4 From the node to the wire: an error-free reconciliation of a node with a node manager
    has dialled a connection of its own to the active resource manager of the node's cluster
    (found anew when the client knew none), on which exactly one call went out, complete and
    closed: [updateNodeResource] of the administration protocol for the node manager's host
    and port with the node's batch resources rounded up to cores and megabytes.  After it,
    the node records what the cache says YARN uses there.  The cluster's client is one the
    reconciler already has. *)
Theorem reconcile_reaches_wire name (s s' : RState (CW E) positive) node pod pods n w1 w2 p :
  k8s_Get name (world s) = (Ok (Some node), w1) →
  k8s_ListPods (YarnNMComponentLabel, YarnNMComponentValue) (Node_Name node) w1
    = (Ok (pod :: pods), w2) →
  parse_nm_pod pod = Ok n → usable n = true → client_of s n = Some p →
  Reconcile name s = (Ok (false, None), s') →
  ∃ cpu mem w3 w4 c addr core mb,
    getNodeBatchResource (Some node) = Ok (cpu, mem) ∧
    ensure_active cap_of p w2 = (Ok tt, w3) ∧ cw_objs w3 !! p = Some c ∧ admin_target c = Ok addr ∧
    wire_call addr RESOURCE_MANAGER_ADMIN_PROTOCOL "updateNodeResource"
      (update_request n (calculate cpu mem).1 (calculate cpu mem).2) w3 w4 ∧
    used_of (rs_syncer s) n = Some (core, mb) ∧
    updateYARNAllocatedResource (Some node) core mb (set_world w4 s) = (Ok tt, s') ∧
    recorded (world s') node core mb.
Proof.
  intros Hget Hpods Hparse Hus Hp Hrun.
  rewrite (reached_yarn_node name s node pod pods n w1 w2 Hget Hpods Hparse Hus) in Hrun.
  destruct (reconcile_yarn_node_client node n (set_world w2 s) s' p Hp Hrun)
    as (cpu & mem & core & mb & resp & w4 & Hb & Hu & Hused & Ha).
  assert (recorded (world s') node core mb) as Hrec.
  { destruct (Get_stored _ _ _ _ Hget) as [Hst1 Hnode]. specialize (Hnode _ eq_refl). symmetry in Hnode.
    pose proof (ListPods_stored _ _ _ _ _ Hpods) as Hst2. pose proof (Update_stored _ _ _ _ _ Hu) as Hst3.
    eapply updateYARNAllocatedResource_ok; [|exact Ha].
    rewrite world_set in *. by rewrite Hst3, Hst2, Hst1, (stored_name _ _ _ Hnode). }
  apply client_UpdateNodeResource_wire in Hu as (w3 & c & addr & He & Hc & Ht & Hw).
  by exists cpu, mem, w3, w4, c, addr, core, mb.
Qed.
End Services.

(** ** A run

    The operator on the clients of the repository, the environment being a Kubernetes
    API server; the resource manager accepts the update on a connection that delivers its
    answer in one segment. *)
Module WireRun.
Import Reference ReferenceProto MockKube ConfigFiles.

#[export] Instance wire_user : UserApi KubeWorld := {| user_Current := mret "yarn" |}.
#[export] Instance wire_rand : RandApi KubeWorld := {| rand_Read n := mret (replicate n Byte.x00) |}.
#[export] Instance wire_uuid : UuidApi KubeWorld := {| uuid_NewV4 := mret (replicate 16 Byte.xab) |}.
#[export] Instance wire_walk : DirWalk KubeWorld := {| walk_visits _ := mret [] |}.
#[export] Instance wire_files : OsFiles KubeWorld := {|
  os_Open _ := throw "no such file"; io_ReadAll _ := mret ""; file_Close _ := mret tt
|}.
#[export] Instance wire_nodes_req : ProtoMessage GetClusterNodesRequestProto :=
  {| proto_Marshal _ := Ok []; proto_Unmarshal _ := Ok (mkGetClusterNodesRequestProto []) |}.
#[export] Instance wire_nodes_resp : ProtoMessage GetClusterNodesResponseProto :=
  {| proto_Marshal _ := Ok []; proto_Unmarshal _ := Ok (mkGetClusterNodesResponseProto []) |}.
#[export] Instance wire_update_req : ProtoMessage UpdateNodeResourceRequestProto :=
  {| proto_Marshal _ := Ok [Byte.x0a]; proto_Unmarshal _ := Ok (mkUpdateNodeResourceRequestProto []) |}.
#[export] Instance wire_update_resp : ProtoMessage UpdateNodeResourceResponseProto :=
  {| proto_Marshal _ := Ok []; proto_Unmarshal _ := Ok mkUpdateNodeResourceResponseProto |}.

#[export] Instance wire_kube : K8sClient (CW KubeWorld) Z := {|
  k8s_Get name := in_net (in_os (k8s_Get name));
  k8s_ListPods label name := in_net (in_os (k8s_ListPods label name));
  k8s_Patch n patch := in_net (in_os (k8s_Patch n patch));
  node_Marshal := node_Marshal (W := KubeWorld);
  CreateTwoWayMergePatch := CreateTwoWayMergePatch (W := KubeWorld) (Q := Z)
|}.

Definition kube_of (n : Net KubeWorld) : KubeWorld := sec_env (net_sec n).

(** The clients do not touch the API server. *)
Definition same_kube : relation (Net KubeWorld) := λ n n', kube_of n' = kube_of n.
#[export] Instance same_kube_preorder : PreOrder same_kube.
Proof. unfold same_kube. split; [by intros n|]. intros n1 n2 n3 H1 H2. congruence. Qed.

Lemma kube_sock {A} p (f : Socket → outcome A * Socket) : preserves same_kube (on_sock p f).
Proof. intros n r n'. unfold on_sock. repeat case_match; intros [= <- <-]; done. Qed.
Lemma kube_dial addr : preserves same_kube (net_Dial addr).
Proof. intros n r n'. unfold net_Dial. repeat case_match; intros [= <- <-]; done. Qed.
Lemma kube_os {A} (k : M KubeWorld A) : preserves eq k → preserves same_kube (in_os k).
Proof.
  intros Hk n r n'. unfold in_os, in_sec, in_env, zoom.
  destruct (k (sec_env (net_sec n))) as [r' e'] eqn:Hr. intros [= <- <-]. symmetry. exact (Hk _ _ _ Hr).
Qed.
Lemma kube_ugi : preserves same_kube CreateSimpleUGIProto.
Proof. apply kube_os. by intros e r e' [= _ <-]. Qed.
Lemma kube_current : preserves same_kube (in_sec GetCurrentUser).
Proof.
  intros n r n'. unfold in_sec, zoom, GetCurrentUser, initializeCurrentUser, Allocate, in_env, zoom.
  unfold_M. destruct (sec_current (net_sec n)) eqn:Hc; cbn; intros [= <- <-]; done.
Qed.
Lemma kube_digest protocol serverId challenge token :
  preserves same_kube (in_os (GetDigestMD5ChallengeResponse protocol serverId challenge token)).
Proof.
  apply kube_os. unfold GetDigestMD5ChallengeResponse, generateChallengeReponse.
  solve_preserves. by intros e r e' [= _ <-].
Qed.
Lemma kube_conf dir id : preserves same_kube (in_os (NewYarnConfiguration dir id)).
Proof. apply kube_os. intros e r e' Hrun. vm_compute in Hrun. by injection Hrun as _ <-. Qed.
Lemma kube_call Req Resp (PReq : ProtoMessage Req) (PResp : ProtoMessage Resp) c rpc (req : Req) (resp : Resp) :
  preserves same_kube (Call small_cap c rpc req resp).
Proof.
  apply preserves_Call; intros; try apply kube_sock;
    auto using kube_dial, kube_current, kube_ugi, kube_digest, same_kube_preorder.
Qed.

#[export] Instance wire_clients : YarnClient (CW KubeWorld) positive := yarn_client_impl small_cap.
#[export] Instance wire_factory : YarnClientFactory (CW KubeWorld) positive :=
  yarn_factory_impl small_cap "/etc/hadoop".

Definition wire_stored (w : CW KubeWorld) : string → option (Node Z) := kube_stored (kube_of (cw_net w)).

Lemma kept {A} (c : M (CW KubeWorld) A) w r w' :
  preserves (on_net same_kube) c → c w = (r, w') → wire_stored w' = wire_stored w.
Proof. intros Hc Hrun. unfold wire_stored. by rewrite (Hc _ _ _ Hrun). Qed.

Lemma kube_uuid : preserves same_kube (in_os uuid_NewV4).
Proof. apply kube_os. by intros e r e' [= _ <-]. Qed.

Ltac wire_env := intros; auto using same_kube_preorder, kube_uuid, kube_conf, kube_ugi, kube_call.

#[export] Instance wire_laws : K8sLaws (CW KubeWorld) positive Z.
Proof.
  refine {| stored := wire_stored |}.
  - by intros w name n (_ & ? & _)%kube_stored_Some.
  - by intros w name n (_ & _ & ?)%kube_stored_Some.
  - intros name w r w' (n & Hn & ->)%in_net_inv. injection Hn as <- <-. split; [done|]. by intros x [= <-].
  - intros l name w r w' (n & Hn & ->)%in_net_inv. by injection Hn as _ <-.
  - intros c req w r w'. apply kept, net_UpdateNodeResource; wire_env.
  - intros c w r w'. apply kept, net_Reinitialize; wire_env.
  - intros w r w'. apply kept, net_create; wire_env.
  - intros id w r w'. apply kept, net_create; wire_env.
  - intros old a oldData newData patch w w' cur _ _ H1 H2 H3 Hcur (n & Hn & ->)%in_net_inv.
    revert Hn. unfold in_os, in_sec, in_env, zoom.
    destruct (k8s_Patch old patch (sec_env (net_sec (cw_net w)))) as [r' e'] eqn:Hp.
    intros [= -> <-]. by eapply kube_patch.
Defined.

Definition admin : string := "10.0.0.1:8033".
(** The answer: eight bytes, a header that says success and an empty body. *)
Definition accepts : Peer :=
  mkPeer true [Seg Byte.x00 [Byte.x00; Byte.x00; Byte.x04; Byte.x02; Byte.x10; Byte.x00; Byte.x00]] [].
Definition cluster_a : yarnClient :=
  mkYarnClient "/etc/hadoop" (Some (mkConfiguration ∅)) false (Some admin) (Some "10.0.0.1:8032") "cluster-a".
Definition wire_world (k : KubeWorld) : CW KubeWorld :=
  mkCW {[ 1%positive := cluster_a ]} (mkNet ∅ {[ admin := [inl accepts] ]} (mkSecState None k)).
Definition wire_state : RState (CW KubeWorld) positive :=
  mkRState (mkReconciler None (Some 1%positive))
    (mkNodesSyncer (Some 1%positive) true
       {[ "cluster-a" := {[ getKey "nm-1" 8041 :=
            MockYarn.report "nm-1" 8041 (Some (MockYarn.some_resource 4 8192)) ]} ]})
    (mkHeap {[ 1%positive := {[ "cluster-a" := 1%positive ]} ]} (wire_world world1)).

Lemma reconcile_reaches_wire_witness :
  ∃ cpu mem w3 w4 c addr core mb,
    getNodeBatchResource (Some node1) = Ok (cpu, mem) ∧
    ensure_active small_cap 1 (wire_world world1) = (Ok tt, w3) ∧ cw_objs w3 !! 1%positive = Some c ∧
    admin_target c = Ok addr ∧
    wire_call addr RESOURCE_MANAGER_ADMIN_PROTOCOL "updateNodeResource"
      (update_request nm1 (calculate cpu mem).1 (calculate cpu mem).2) w3 w4 ∧
    used_of (rs_syncer wire_state) nm1 = Some (core, mb) ∧
    updateYARNAllocatedResource (Some node1) core mb (set_world w4 wire_state)
      = (Ok tt, (Reconcile "node-1" wire_state).2) ∧
    recorded (world (Reconcile "node-1" wire_state).2) node1 core mb.
Proof.
  apply (reconcile_reaches_wire small_cap "/etc/hadoop" "node-1" wire_state
    (Reconcile "node-1" wire_state).2 node1 nm_pod [] nm1 (wire_world world1) (wire_world world1) 1);
    vm_compute; reflexivity.
Defined.
End WireRun.

(** The manager that was active is gone, the second one has taken over. *)
Section Failover.
Import ReferenceProto ConfigFiles ClientRun.

Definition after_failover : CW unit :=
  mkCW {[ 1%positive := mkYarnClient "/etc/hadoop" None true (Some "10.0.0.1:8033")
                          (Some "10.0.0.1:8032") "a" ]}
    (mkNet ∅ {[ "10.0.0.1:8033" := [inr "connection refused"];
                "10.0.0.2:8033" := [inl (says Byte.x01)];
                address_of (mkConfiguration ∅) "rm2" := [inl WireRun.accepts] ]} (mkSecState None tt)).
Definition reinitialised : CW unit := (client_Reinitialize small_cap 1 after_failover).2.
Definition polled_again : CW unit := (client_GetClusterNodes small_cap 1 running_nodes reinitialised).2.

Lemma failover_is_followed_witness :
  ∃ cf ha a b n0,
    in_os (NewYarnConfiguration "/etc/hadoop" "a") (cw_net after_failover) = (Ok cf, n0) ∧
    GetRMEnabledHA cf = Ok ha ∧
    (if ha then ∃ ids pre id post n1, GetRMs cf = Ok ids ∧ ids = (pre ++ id :: post)%list ∧
         probed small_cap cf pre n0 n1 ∧ answered_active small_cap cf id n1 (cw_net reinitialised) ∧
         b = address_of cf id
     else GetRMAddress cf = Ok b ∧ cw_net reinitialised = n0) ∧
    cw_objs reinitialised !! 1%positive = Some (mkYarnClient "/etc/hadoop" (Some cf) ha (Some a) (Some b) "a") ∧
    wire_call b APPLICATION_CLIENT_PROTOCOL "getClusterNodes" running_nodes reinitialised polled_again.
Proof.
  eapply (failover_is_followed small_cap 1 after_failover
           (mkYarnClient "/etc/hadoop" None true (Some "10.0.0.1:8033") (Some "10.0.0.1:8032") "a")
           reinitialised running_nodes (Some (mkGetClusterNodesResponseProto []))).
  - reflexivity.
  - vm_compute. reflexivity.
  - vm_compute. reflexivity.
Defined.
End Failover.
