(* ===== verification/ClientOutage.v ===== *)
(** * An outage of one resource manager

    [Recovery] shows that a cluster whose requests keep failing starves the node cache of
    all clusters, for any clients that satisfy [Unreachable].  Here the clients of the
    repository satisfy it: a cluster without HA whose resource manager refuses
    connections. *)

From S2P Require Import Prelude GoStrings Proto YarnApi NodesSyncer NodesSyncerProofs Recovery.
From S2P Require Import Wire Security Net Ipc IpcProofs IpcRuns Config YarnClient YarnClientProofs.

Local Open Scope string_scope.

Section Outage.
Context {E : Type} {UA : UserApi E} {RA : RandApi E} {UU : UuidApi E} {PW : Protowire} {PL : ProtowireLaws}.
Context {P1 : ProtoMessage RpcRequestHeaderProto} {P2 : ProtoMessage RpcResponseHeaderProto}.
Context {P3 : ProtoMessage IpcConnectionContextProto} {P4 : ProtoMessage RequestHeaderProto}.
Context {P5 : ProtoMessage RpcSaslProto}.
Context {PQ1 : ProtoMessage GetClusterNodesRequestProto}.
Context {PR1 : ProtoMessage GetClusterNodesResponseProto}.
Context {PQ2 : ProtoMessage UpdateNodeResourceRequestProto}.
Context {PR2 : ProtoMessage UpdateNodeResourceResponseProto}.
Context {PQ3 : ProtoMessage GetServiceStatusRequestProto}.
Context {PR3 : ProtoMessage GetServiceStatusResponseProto}.
Context (cap_of : nat → nat).
Context {OF : OsFiles E} {XA : XmlApi} {DW : DirWalk E}.
Implicit Types (w : CW E) (p : positive).

#[local] Instance outage_clients : YarnClient (CW E) positive := yarn_client_impl cap_of.

(** ** Refused connections *)

(** Every dial of [a] to come fails. *)
Definition refused (a : string) (n : Net E) : Prop :=
  Forall (λ d : Peer + error, ∃ e, d = inr e) (default [] (net_peers n !! a)).

Definition stays_refused (a : string) : relation (Net E) := λ n n', refused a n → refused a n'.
#[export] Instance stays_refused_preorder a : PreOrder (stays_refused a).
Proof. split; [by intros n H|intros n1 n2 n3 H1 H2 H; exact (H2 (H1 H))]. Qed.

Lemma refused_sock {A} a p (f : Socket → outcome A * Socket) : preserves (stays_refused a) (on_sock p f).
Proof. intros n r n'. unfold on_sock. repeat case_match; intros [= <- <-]; exact (λ H, H). Qed.
Lemma refused_sec {A} a (k : M (SecState E) A) : preserves (stays_refused a) (in_sec k).
Proof. intros n r n'. unfold in_sec, zoom. destruct (k _). intros [= <- <-]. exact (λ H, H). Qed.
Lemma refused_dial a addr : preserves (stays_refused a) (net_Dial addr).
Proof.
  intros n r n' Hrun Hr. unfold net_Dial in Hrun.
  assert (∀ d rest, net_peers n !! addr = Some (d :: rest) →
    refused a (mkNet (net_socks n) (<[addr := rest]> (net_peers n)) (net_sec n))) as Hpop.
  { intros d rest Ha. unfold refused in *. cbn. destruct (decide (addr = a)) as [->|Hne].
    - rewrite lookup_insert_eq. rewrite Ha in Hr. by inversion Hr.
    - by rewrite lookup_insert_ne. }
  destruct (net_peers n !! addr) as [[|[peer|e] rest]|] eqn:Ha; injection Hrun as <- <-;
    [done|exact (Hpop _ _ eq_refl)|exact (Hpop _ _ eq_refl)|done].
Qed.

Lemma refused_call a Req Resp (PReq : ProtoMessage Req) (PResp : ProtoMessage Resp) c rpc (req : Req)
    (resp : Resp) : preserves (stays_refused a) (Call cap_of c rpc req resp).
Proof.
  apply preserves_Call; intros; try apply refused_sock; try apply refused_sec;
    auto using refused_dial, stays_refused_preorder.
Qed.

(** A call to such an address fails after the dial. *)
Lemma refused_fails {Req Resp} {PReq : ProtoMessage Req} {PResp : ProtoMessage Resp} c cid rpc protocol
    (req : Req) (resp : Resp) (n : Net E) :
  ready c cid → RequestHeaderProto_DeclaringClassProtocolName rpc = Some protocol →
  refused (ServerAddress c) n → ∃ e n', Call cap_of c rpc req resp n = (Err e, n').
Proof.
  intros (Hid & ugi & user & Hugi & Hreal) Hp Hr. unfold Call.
  rewrite Hugi. erewrite M_bind_ok by reflexivity. rewrite Hreal. erewrite M_bind_ok by reflexivity.
  rewrite Hp. erewrite M_bind_ok by reflexivity. rewrite Hid. erewrite M_bind_ok by reflexivity.
  assert (∃ e n', net_Dial (ServerAddress c) n = (Err e, n')) as (e & n' & Hd).
  { unfold net_Dial, refused in *. destruct (net_peers n !! ServerAddress c) as [[|d rest]|]; [eauto| |eauto].
    apply list.Forall_cons in Hr as [[e ->] _]. eauto. }
  exists e, n'. unfold getConnection, setupConnection, mbind, M_bind. by rewrite Hd.
Qed.

(** ** One client's object *)

(** Methods of other clients leave the object alone. *)
Definition same_obj p : relation (CW E) := λ w w', cw_objs w' !! p = cw_objs w !! p.
#[export] Instance same_obj_preorder p : PreOrder (same_obj p).
Proof. unfold same_obj. split; [by intros w|]. intros w1 w2 w3 H1 H2. congruence. Qed.

Lemma obj_in_net {A} p (k : M (Net E) A) : preserves (same_obj p) (in_net k).
Proof. by intros w r w' (n & _ & ->)%in_net_inv. Qed.
Lemma obj_get p p' : preserves (same_obj p) (get_obj p').
Proof. by intros w r w' [-> _]%get_obj_inv. Qed.
Lemma obj_put p p' f : p' ≠ p → preserves (same_obj p) (put_obj p' f).
Proof.
  intros Hne w r w' [(c & _ & _ & ->)|(e & _ & ->)]%put_obj_inv; unfold same_obj; cbn; [|done].
  by apply lookup_insert_ne.
Qed.
#[local] Hint Resolve obj_in_net obj_get obj_put : copilot.

Lemma obj_Initialize p p' : p' ≠ p → preserves (same_obj p) (client_Initialize cap_of p').
Proof. intros Hne. unfold client_Initialize, GetActiveRMID. solve_preserves. Qed.
#[local] Hint Resolve obj_Initialize : copilot.
Lemma obj_Reinitialize p p' : p' ≠ p → preserves (same_obj p) (client_Reinitialize cap_of p').
Proof. intros Hne. unfold client_Reinitialize, client_Close. solve_preserves. Qed.
Lemma obj_nodes p p' req : p' ≠ p → preserves (same_obj p) (client_GetClusterNodes cap_of p' req).
Proof. intros Hne. unfold client_GetClusterNodes, ensure_active, getClusterNodes. solve_preserves. Qed.
Lemma obj_getClusterNodes p req : preserves (same_obj p) (getClusterNodes cap_of p req).
Proof. unfold getClusterNodes. solve_preserves. Qed.

(** ** The outage *)

Context (dir id a adm : string) (cf : configuration) (p : positive).

(** The configuration of the cluster can be read, and has no HA. *)
Hypothesis conf_stable : ∀ e : E, ∃ e', NewYarnConfiguration dir id e = (Ok cf, e').
Hypothesis conf_ha : GetRMEnabledHA cf = Ok false.
Hypothesis conf_addr : GetRMAddress cf = Ok a.
Hypothesis conf_admin : GetRMAdminAddress cf = Ok adm.
(** The operating system answers or reports an error. *)
Hypothesis uuid_returns : ∀ (e : E) y, (uuid_NewV4 e).1 ≠ Panic y.
Hypothesis user_returns : ∀ (e : E) y, (user_Current e).1 ≠ Panic y.

(** The client of the cluster: initialised, or closed since. *)
Definition pinned (c : yarnClient) : Prop :=
  confDir c = dir ∧ clusterID c = id ∧ conf c = Some cf ∧ haEnabled c = false ∧
  (activeRMAddress c = None ∨ activeRMAddress c = Some a).

Definition outage w : Prop :=
  refused a (cw_net w) ∧ ∃ c, cw_objs w !! p = Some c ∧ pinned c.

Lemma in_os_run {A} (k : M E A) (n : Net E) :
  in_os k n = ((k (sec_env (net_sec n))).1,
    mkNet (net_socks n) (net_peers n) (mkSecState (sec_current (net_sec n)) (k (sec_env (net_sec n))).2)).
Proof. unfold in_os, in_sec, in_env, zoom. by destruct (k _). Qed.

(** Dialling succeeds or reports an error; nothing is said to the manager yet. *)
Lemma dial_run c (n : Net E) : pinned c →
  (∃ e n', dial_service (conf c) (activeRMAddress c) GetRMAddress n = (Err e, n')) ∨
  ∃ cl cid n', dial_service (conf c) (activeRMAddress c) GetRMAddress n = (Ok cl, n') ∧
    ready cl cid ∧ ServerAddress cl = a ∧ net_peers n' = net_peers n.
Proof.
  intros (_ & _ & Hcf & _ & Ha). unfold dial_service.
  pose proof (in_os_run uuid_NewV4 n) as H1.
  destruct (uuid_NewV4 (sec_env (net_sec n))) as [[cid|e|y] e1] eqn:Hu; cbn [fst snd] in H1.
  3: { by destruct (uuid_returns (sec_env (net_sec n)) y); rewrite Hu. }
  2: { left. rewrite (M_bind_err _ _ _ _ _ H1). eauto. }
  rewrite (M_bind_ok _ _ _ _ _ H1). set (n1 := mkNet _ _ _) in *.
  assert (∃ r n2, CreateSimpleUGIProto n1 = (r, n2) ∧ net_peers n2 = net_peers n ∧
    ((∃ e, r = Err e) ∨ ∃ u, r = Ok (mkUserInformationProto None (Some u)))) as (r & n2 & H2 & Hp2 & Hr).
  { eexists _, _. split; [apply in_os_run|]. split; [done|]. unfold CreateCurrentUserInfoProto, mbind, M_bind.
    change (sec_env (net_sec n1)) with e1. pose proof (user_returns e1) as Hy.
    destruct (user_Current e1) as [[u|e|y] e2]; [right|left|by destruct (Hy y)]; cbn; eauto. }
  destruct Hr as [[e ->]|[u ->]]; [left; rewrite (M_bind_err _ _ _ _ _ H2); eauto|right].
  rewrite (M_bind_ok _ _ _ _ _ H2), Hcf.
  assert ((match activeRMAddress c with
           | Some a => mret a
           | None => c ← lift_out (deref (Some cf)); lift_out (GetRMAddress c)
           end) n2 = (Ok a, n2)) as Hta.
  { destruct Ha as [-> | ->]; [|done]. erewrite M_bind_ok by reflexivity. unfold lift_out.
    by rewrite conf_addr. }
  rewrite (M_bind_ok _ _ _ _ _ Hta). eexists _, cid, n2. split; [reflexivity|].
  split; [split; [done|by eexists _, u]|done].
Qed.

Lemma outage_fails w : outage w →
  ∃ e w', client_GetClusterNodes cap_of p running_nodes w = (Err e, w').
Proof.
  intros (Hr & c & Hc & Hp). unfold client_GetClusterNodes, ensure_active.
  assert (get_obj p w = (Ok c, w)) as Hget by (unfold get_obj; unfold_M; by rewrite Hc).
  rewrite M_bind_assoc, (M_bind_ok _ _ _ _ _ Hget). cbn beta.
  destruct Hp as (H1 & H2 & H3 & Hha & H5). rewrite Hha, andb_false_r.
  erewrite M_bind_ok by reflexivity. unfold getClusterNodes.
  rewrite M_bind_assoc, (M_bind_ok _ _ _ _ _ Hget). cbn beta. rewrite M_bind_assoc.
  destruct (dial_run c (cw_net w)) as [(e & n' & Hd)|(cl & cid & n' & Hd & Hready & Haddr & Hpeers)];
    [done| |].
  - unfold mbind at 1, M_bind at 1, in_net at 1, zoom at 1. unfold CreateYarnApplicationClient,
      DialApplicationClientProtocolService. rewrite Hd. eauto.
  - erewrite M_bind_ok.
    2: { unfold in_net, zoom, CreateYarnApplicationClient, DialApplicationClientProtocolService.
         rewrite Hd. reflexivity. }
    destruct (refused_fails cl cid (mkRequestHeaderProto (Some "getClusterNodes")
      (Some APPLICATION_CLIENT_PROTOCOL) (Some CLIENT_PROTOCOL_VERSION)) APPLICATION_CLIENT_PROTOCOL
      running_nodes (mkGetClusterNodesResponseProto []) n' Hready eq_refl) as (e & n2 & Hcall).
    { rewrite Haddr. unfold refused. by rewrite Hpeers. }
    assert (YarnApplicationClient_GetClusterNode cap_of cl running_nodes n' = (Err e, n2)) as Hreq
      by exact Hcall.
    exists e. eexists. unfold mbind, M_bind, in_net, zoom. cbn [cw_net]. rewrite Hreq. reflexivity.
Qed.

Definition stays_out : relation (CW E) := λ w w', outage w → outage w'.

Lemma outage_other {A} (k : M (CW E) A) :
  preserves (on_net (stays_refused a)) k → preserves (same_obj p) k → preserves stays_out k.
Proof.
  intros Hn Ho w r w' Hrun (Hr & c & Hc & Hp). split; [exact (Hn _ _ _ Hrun Hr)|].
  exists c. split; [|done]. by rewrite (Ho _ _ _ Hrun).
Qed.

Ltac refused_parts := intros; try apply refused_sec; auto using stays_refused_preorder, refused_call.

Lemma refused_nodes p' req : preserves (on_net (stays_refused a)) (client_GetClusterNodes cap_of p' req).
Proof. apply net_GetClusterNodes; refused_parts. Qed.
Lemma refused_reinitialize p' : preserves (on_net (stays_refused a)) (client_Reinitialize cap_of p').
Proof. apply net_Reinitialize; refused_parts. Qed.

Lemma outage_nodes p' : preserves stays_out (client_GetClusterNodes cap_of p' running_nodes).
Proof.
  destruct (decide (p' = p)) as [->|Hne].
  2: { apply outage_other; [apply refused_nodes|by apply obj_nodes]. }
  intros w r w' Hrun Hout.
  assert (ensure_active cap_of p w = (Ok tt, w)) as He.
  { destruct Hout as (_ & c & Hc & _ & _ & _ & Hha & _). unfold ensure_active.
    erewrite M_bind_ok by (unfold get_obj; unfold_M; by rewrite Hc). cbn beta. by rewrite Hha, andb_false_r. }
  destruct Hout as (Hr & c & Hc & Hp). split.
  - exact (refused_nodes p _ _ _ _ Hrun Hr).
  - exists c. split; [|done]. rewrite <- Hc. revert Hrun. unfold client_GetClusterNodes.
    rewrite (M_bind_ok _ _ _ _ _ He). unfold mbind, M_bind.
    destruct (getClusterNodes cap_of p running_nodes w) as [o w1] eqn:Hg.
    pose proof (obj_getClusterNodes p running_nodes _ _ _ Hg) as Hsame.
    destruct o; by intros [= _ <-].
Qed.

Lemma outage_initialized w c r w' :
  cw_objs w !! p = Some c → confDir c = dir → clusterID c = id →
  client_Initialize cap_of p w = (r, w') → ∃ c', cw_objs w' !! p = Some c' ∧ pinned c'.
Proof.
  intros Hc Hd Hi. unfold client_Initialize.
  erewrite M_bind_ok by (unfold get_obj; unfold_M; by rewrite Hc). cbn beta.
  destruct (conf_stable (sec_env (net_sec (cw_net w)))) as [e' He].
  erewrite M_bind_ok.
  2: { unfold in_net, zoom. rewrite in_os_run, Hd, Hi, He. reflexivity. }
  cbn [fst snd]. erewrite M_bind_ok by (by apply put_ok).
  rewrite conf_ha. erewrite M_bind_ok by reflexivity.
  erewrite M_bind_ok by (apply put_ok; apply lookup_insert_eq). cbn [negb cw_objs cw_net].
  rewrite conf_admin. erewrite M_bind_ok by reflexivity.
  erewrite set_both_run; [|rewrite insert_insert_eq; apply lookup_insert_eq|exact conf_addr].
  intros [= _ <-]. eexists. split; [apply lookup_insert_eq|].
  split; [exact Hd|]. split; [exact Hi|]. split; [done|]. split; [done|]. by right.
Qed.

Lemma outage_reinitialize p' : preserves stays_out (client_Reinitialize cap_of p').
Proof.
  destruct (decide (p' = p)) as [->|Hne].
  2: { apply outage_other; [apply refused_reinitialize|by apply obj_Reinitialize]. }
  intros w r w' Hrun (Hr & c & Hc & Hd & Hi & _). split.
  - exact (refused_reinitialize p _ _ _ Hrun Hr).
  - unfold client_Reinitialize in Hrun. erewrite M_bind_ok in Hrun.
    2: { unfold client_Close. erewrite M_bind_ok by (by apply put_ok).
         erewrite put_ok by apply lookup_insert_eq. cbn [cw_objs cw_net]. by rewrite insert_insert_eq. }
    eapply outage_initialized in Hrun; [exact Hrun|apply lookup_insert_eq|done|done].
Qed.

Lemma outage_unreachable : Unreachable outage p.
Proof.
  split; [exact outage_fails|exact outage_nodes|exact outage_reinitialize].
Qed.

(** The node cache during the outage: with this client in the map nothing of what the
    other managers answer is ever cached. *)
Lemma outage_starves_all {MR : MapRange} cluster r (h : Heap (CW E) positive) q :
  deref_map (yarnClients r) h !! cluster = Some p → outage (heap_world h) →
  rtc (polling_step outage p cluster) (Running r h) q →
  match q with
  | Running r' _ | Stopped r' _ => r' = r
  | Crashed _ => True
  end.
Proof. intros Hc Ho. pose proof outage_unreachable. by apply starved_run. Qed.
End Outage.
