(* ===== verification/ClientFailover.v ===== *)
(** * Recovery from failovers, down to the sockets

    [Recovery] shows what polling does with clients that a reinitialisation repairs.  Here
    the clients of the repository, on the network, are shown to be such clients: the
    resource managers some of them talked to are gone, others have become active.  Each
    round that meets such a client fails and reinitialises it; when all of them have been
    met the cache is filled with what all the managers answer. *)

From S2P Require Import Prelude GoStrings Proto YarnApi NodesSyncer NodesSyncerProofs Recovery.
From S2P Require Import Wire Security Net Ipc IpcProofs IpcRuns Config YarnClient YarnClientProofs.
From S2P Require Import ClientWire ClientOutage.

Local Open Scope string_scope.

Section Failover.
Context {E : Type} {UA : UserApi E} {RA : RandApi E} {UU : UuidApi E} {PW : Protowire} {PL : ProtowireLaws}.
Context {P1 : ProtoMessage RpcRequestHeaderProto} {P2 : ProtoMessage RpcResponseHeaderProto}.
Context {P3 : ProtoMessage IpcConnectionContextProto} {P4 : ProtoMessage RequestHeaderProto}.
Context {P5 : ProtoMessage RpcSaslProto}.
Context {PQ1 : ProtoMessage GetClusterNodesRequestProto}.
Context {PR1 : ProtoMessage GetClusterNodesResponseProto}.
Context {PQ2 : ProtoMessage UpdateNodeResourceRequestProto}.
Context {PR2 : ProtoMessage UpdateNodeResourceResponseProto}.
Context {PQ3 : ProtoMessage GetServiceStatusRequestProto}.
Context {PR3 : ProtoMessage GetServiceStatusResponseProto}.
Context (cap_of : nat → nat).
Context {OF : OsFiles E} {XA : XmlApi} {DW : DirWalk E}.
Implicit Types (w : CW E) (p : positive) (n : Net E).

#[local] Instance failover_clients : YarnClient (CW E) positive := yarn_client_impl cap_of.

(** ** What a call leaves alone *)

(** Dials of other addresses than [a] are still to come. *)
Definition elsewhere (a : string) : relation (Net E) := λ n n',
  ∀ b, b ≠ a → net_peers n' !! b = net_peers n !! b.
#[export] Instance elsewhere_preorder a : PreOrder (elsewhere a).
Proof. split; [by intros n b|]. intros n1 n2 n3 H1 H2 b Hb. by rewrite H2, H1. Qed.

(** The process holds no token. *)
Definition tokenless n : Prop := ∀ service, no_token (net_sec n) service.
Definition stays_tokenless : relation (Net E) := λ n n', tokenless n → tokenless n'.
#[export] Instance stays_tokenless_preorder : PreOrder stays_tokenless.
Proof. split; [by intros n H|intros n1 n2 n3 H1 H2 H; exact (H2 (H1 H))]. Qed.

Definition call_at (a : string) : relation (Net E) := λ n n', elsewhere a n n' ∧ stays_tokenless n n'.
#[export] Instance call_at_preorder a : PreOrder (call_at a).
Proof.
  unfold call_at. split; [by intros n; split|].
  intros n1 n2 n3 [H1 K1] [H2 K2]. split; by etrans.
Qed.

Lemma call_at_same a n n' :
  net_peers n' = net_peers n → sec_current (net_sec n') = sec_current (net_sec n) → call_at a n n'.
Proof.
  intros Hp Hs. split; [intros b _; by rewrite Hp|].
  intros Ht service. specialize (Ht service). unfold no_token in *. by rewrite Hs.
Qed.

Lemma at_sock {A} a p (f : Socket → outcome A * Socket) : preserves (call_at a) (on_sock p f).
Proof. intros n r n'. unfold on_sock. repeat case_match; intros [= <- <-]; by apply call_at_same. Qed.
Lemma at_os {A} a (k : M E A) : preserves (call_at a) (in_os k).
Proof. intros n r n'. rewrite in_os_run. intros [= _ <-]. by apply call_at_same. Qed.
Lemma at_user a : preserves (call_at a) (in_sec GetCurrentUser).
Proof.
  intros n r n'. unfold in_sec, zoom, GetCurrentUser, initializeCurrentUser, Allocate, in_env, zoom. unfold_M.
  destruct (sec_current (net_sec n)) eqn:Hc.
  - cbn. intros [= _ <-]. by apply call_at_same.
  - destruct (CreateCurrentUserInfoProto (sec_env (net_sec n))) as [[u|e|y] e'];
      cbn; intros [= _ <-]; split; try done; try by apply call_at_same.
    all: intros _ service; unfold no_token; cbn; rewrite ?Hc; done.
Qed.
Lemma at_dial a : preserves (call_at a) (net_Dial a).
Proof.
  intros n r n'. unfold net_Dial.
  destruct (net_peers n !! a) as [[|[peer|e] rest]|]; intros [= _ <-];
    (split; [intros b Hb; cbn; by rewrite ?lookup_insert_ne|exact (λ H, H)]).
Qed.

Lemma at_call {Req Resp} {PReq : ProtoMessage Req} {PResp : ProtoMessage Resp} c rpc (req : Req)
    (resp : Resp) : preserves (call_at (ServerAddress c)) (Call cap_of c rpc req resp).
Proof.
  apply preserves_Call; intros; try apply at_sock; try apply at_os;
    auto using at_dial, at_user, call_at_preorder.
Qed.

(** ** Calls that are answered *)

(** Messages of the sizes the protocol has. *)
Definition small {T} {PM : ProtoMessage T} (m : T) : Prop :=
  ∃ b, proto_Marshal m = Ok b ∧ (len b < 2 ^ 20)%Z.

Lemma small_delimit b : (len b < 2 ^ 20 → len (delimit b) < 2 ^ 21)%Z.
Proof.
  intros Hb. pose proof (len_nonneg b). unfold delimit. rewrite len_app, AppendVarint_size by lia.
  case_bool_decide; [lia|].
  assert (Z.log2 (len b) `div` 7 ≤ 2)%Z; [|lia].
  assert (Z.log2 (len b) < 20)%Z by (apply Z.log2_lt_pow2; lia).
  pose proof (Z.div_mod (Z.log2 (len b)) 7). pose proof (Z.mod_pos_bound (Z.log2 (len b)) 7). lia.
Qed.

Lemma small_delimited msgs :
  (length msgs ≤ 3)%nat → Forall (λ b, len b < 2 ^ 20)%Z msgs → (len (delimited msgs) < 2 ^ 31)%Z.
Proof.
  intros Hl Hf. assert (len (delimited msgs) ≤ 2 ^ 21 * Z.of_nat (length msgs))%Z; [|lia]. clear Hl.
  induction Hf as [|b msgs Hb _ IH]; [done|]. unfold delimited in *. cbn [fmap list_fmap concat length].
  rewrite len_app. pose proof (small_delimit b Hb). lia.
Qed.

(** The peer of a connection answers a call with [resp]: the connection has no fault, the
    length of the response arrives in one piece, and the header says success and leaves
    out the client's identity, which is optional. *)
Definition answering {Resp} {PR : ProtoMessage Resp} (resp : Resp) (peer : Peer) : Prop :=
  peer_tcp peer = true ∧ peer_faults peer = [] ∧
  ∃ b bs t rest (hdr : RpcResponseHeaderProto) bh br,
    peer_in peer = Seg b bs :: t ∧ (3 ≤ length bs)%nat ∧
    evs_bytes (peer_in peer) = (frame [bh; br] ++ rest)%list ∧
    proto_Unmarshal bh = Ok hdr ∧ proto_Unmarshal br = Ok resp ∧
    RpcResponseHeaderProto_ClientId hdr = None ∧
    RpcResponseHeaderProto_Status hdr = Some RpcResponseHeaderProto_SUCCESS ∧
    (len (delimited [bh; br]) < 2 ^ 31)%Z.

(** The next connection to [a] is answered with [resp]; the next [k] are. *)
Definition answers {Resp} {PR : ProtoMessage Resp} (a : string) (resp : Resp) n : Prop :=
  ∃ peer peers, net_peers n !! a = Some (inl peer :: peers) ∧ answering resp peer.
Definition answers_next {Resp} {PR : ProtoMessage Resp} (k : nat) (a : string) (resp : Resp) n : Prop :=
  ∃ ps rest, default [] (net_peers n !! a) = ((inl <$> ps) ++ rest)%list ∧ length ps = k ∧
    Forall (answering resp) ps.

(** The operating system knows the user [u] and draws identities. *)
Context (u : string).
Hypothesis user_known : ∀ e : E, ∃ e', user_Current e = (Ok u, e').
Hypothesis uuid_drawn : ∀ e : E, ∃ cid e', uuid_NewV4 e = (Ok cid, e') ∧ length cid = 16%nat.
Hypothesis headers_small : ∀ k cid r, length cid = 16%nat → small (request_header k cid r).

Definition callable {Req} {PReq : ProtoMessage Req} (protocol method : string) (req : Req) : Prop :=
  small (mkIpcConnectionContextProto (Some (mkUserInformationProto None (Some u))) (Some protocol)) ∧
  small (rpc_header method protocol) ∧ small req.

Definition ready_for (c : Client) (a : string) : Prop :=
  ServerAddress c = a ∧ ∃ cid, ready c cid ∧ length cid = 16%nat.

Lemma call_answered {Req Resp} {PReq : ProtoMessage Req} {PResp : ProtoMessage Resp} c a protocol method
    (req : Req) (resp0 resp : Resp) n :
  ready_for c a → callable protocol method req → tokenless n → answers a resp n →
  ∃ n', Call cap_of c (rpc_header method protocol) req resp0 n = (Ok resp, n') ∧ call_at a n n' ∧
    net_peers n' !! a = tail <$> (net_peers n !! a).
Proof using PL user_known headers_small.
  intros (<- & cid & Hready & Hcid) (Hctx & Hrpc & Hreq) Hnt (peer & peers & Hp & Ht & Hf & Hans).
  destruct Hans as (b & bs & t & rest & hdr & bh & br & Hin & Hbs & Hev & Hh & Hr & Hid & Hst & Hlen).
  destruct (headers_small (-3)%Z cid RPC_DEFAULT_RETRY_COUNT Hcid) as (h1 & H1 & L1), Hctx as (h2 & H2 & L2).
  destruct (headers_small 0%Z cid 0%Z Hcid) as (h3 & H3 & L3), Hrpc as (h4 & H4 & L4), Hreq as (h5 & H5 & L5).
  assert (len (delimited [h1; h2]) < 2 ^ 31)%Z as M1
    by (apply small_delimited; [cbn; lia|by repeat constructor]).
  assert (len (delimited [h3; h4; h5]) < 2 ^ 31)%Z as M2
    by (apply small_delimited; [cbn; lia|by repeat constructor]).
  assert (checkRpcHeader cap_of c hdr = Ok tt) as Hchk.
  { unfold checkRpcHeader. destruct Hready as [-> _]. cbn. by rewrite Hid. }
  edestruct (call_answered_bytes cap_of c cid u protocol (rpc_header method protocol) req h1 h2 h3 h4 h5)
    with (n := n) (resp := resp) (resp0 := resp0) as (p & s & n' & Hcall & _ & _ & _ & _ & Hpeers); try done.
  exists n'. split; [exact Hcall|]. split; [exact (at_call _ _ _ _ _ _ _ Hcall)|].
  by rewrite Hpeers, Hp, lookup_insert_eq.
Qed.

(** A refused call, for a client that is ready. *)
Lemma call_refused {Req Resp} {PReq : ProtoMessage Req} {PResp : ProtoMessage Resp} c a protocol method
    (req : Req) (resp0 : Resp) n :
  ready_for c a → refused a n →
  ∃ e n', Call cap_of c (rpc_header method protocol) req resp0 n = (Err e, n') ∧ call_at a n n'.
Proof using.
  intros (<- & cid & Hready & _) Hr.
  destruct (refused_fails cap_of c cid (rpc_header method protocol) protocol req resp0 n Hready eq_refl Hr)
    as (e & n' & Hcall).
  exists e, n'. split; [exact Hcall|]. exact (at_call _ _ _ _ _ _ _ Hcall).
Qed.

(** Both only depend on the dials of [a] to come. *)
Lemma refused_ext a n n' : net_peers n' !! a = net_peers n !! a → refused a n → refused a n'.
Proof using. unfold refused. by intros ->. Qed.
Lemma answers_ext {Resp} {PR : ProtoMessage Resp} a (resp : Resp) n n' :
  net_peers n' !! a = net_peers n !! a → answers a resp n → answers a resp n'.
Proof using. unfold answers. by intros ->. Qed.

(** ** Clients for a call *)

Definition undisturbed n n' : Prop := net_peers n' = net_peers n ∧ (tokenless n → tokenless n').

Lemma drawn n : ∃ cid n1 n2,
  in_os uuid_NewV4 n = (Ok cid, n1) ∧ length cid = 16%nat ∧
  CreateSimpleUGIProto n1 = (Ok (mkUserInformationProto None (Some u)), n2) ∧ undisturbed n n2.
Proof using user_known uuid_drawn.
  destruct (uuid_drawn (sec_env (net_sec n))) as (cid & e1 & Hd & Hl).
  destruct (user_known e1) as [e2 Hu]. eexists cid, _, _.
  split; [rewrite in_os_run, Hd; reflexivity|]. split; [done|].
  split.
  - unfold CreateSimpleUGIProto. rewrite in_os_run. cbn [net_sec sec_env snd].
    unfold CreateCurrentUserInfoProto, mbind, M_bind. rewrite Hu. reflexivity.
  - split; [done|]. intros Ht service. exact (Ht service).
Qed.

Lemma ha_client a n : ∃ c n',
  CreateYarnHAClient a n = (Ok c, n') ∧ ready_for c a ∧ undisturbed n n'.
Proof using user_known uuid_drawn.
  destruct (drawn n) as (cid & n1 & n2 & H1 & Hl & H2 & Hn). eexists _, n2. split; [|split; [|exact Hn]].
  - unfold CreateYarnHAClient, DialHAServiceProtocolService.
    rewrite (try_bind_ok _ _ _ _ _ H1), (try_bind_ok _ _ _ _ _ H2). reflexivity.
  - split; [done|]. exists cid. split; [|done]. split; [done|]. by eexists _, u.
Qed.

Lemma application_client cf a n : ∃ c n',
  CreateYarnApplicationClient cf (Some a) n = (Ok c, n') ∧ ready_for c a ∧ undisturbed n n'.
Proof using user_known uuid_drawn.
  destruct (drawn n) as (cid & n1 & n2 & H1 & Hl & H2 & Hn). eexists _, n2. split; [|split; [|exact Hn]].
  - unfold CreateYarnApplicationClient, DialApplicationClientProtocolService, dial_service.
    rewrite (M_bind_ok _ _ _ _ _ H1), (M_bind_ok _ _ _ _ _ H2). reflexivity.
  - split; [done|]. exists cid. split; [|done]. split; [done|]. by eexists _, u.
Qed.

(** ** Looking for the active manager *)

Hypothesis status_callable : callable HA_SERVICE_PROTOCOL "getServiceStatus" mkGetServiceStatusRequestProto.

(** A manager that is down, or is up and not active. *)
Definition idle (a : string) n : Prop :=
  refused a n ∨ ∃ resp : GetServiceStatusResponseProto, answers a resp n ∧
    GetServiceStatusResponseProto_State resp ≠ Some HAServiceStateProto_ACTIVE.

Definition says_active (a : string) n : Prop :=
  ∃ resp : GetServiceStatusResponseProto, answers a resp n ∧
    GetServiceStatusResponseProto_State resp = Some HAServiceStateProto_ACTIVE.

Lemma idle_ext a n n' : net_peers n' !! a = net_peers n !! a → idle a n → idle a n'.
Proof using. unfold idle, refused, answers. by intros ->. Qed.
Lemma says_active_ext a n n' : net_peers n' !! a = net_peers n !! a → says_active a n → says_active a n'.
Proof using. unfold says_active, answers. by intros ->. Qed.

(** The state a manager reports, [None] when it is down. *)
Lemma rm_state_run id a n :
  tokenless n →
  (refused a n → ∃ n', rm_state cap_of id a n = (Ok None, n') ∧ call_at a n n') ∧
  (∀ resp, answers a resp n → ∃ n',
     rm_state cap_of id a n = (Ok (Some (GetServiceStatusResponseProto_State resp)), n') ∧ call_at a n n').
Proof using PL user_known uuid_drawn headers_small status_callable.
  intros Hnt. destruct (ha_client a n) as (c & n1 & Hc & Hready & Hpeers & Htok).
  assert (call_at a n n1) as H1 by (split; [intros b _; by rewrite Hpeers|done]).
  split.
  - intros Hr. destruct (call_refused c a HA_SERVICE_PROTOCOL "getServiceStatus"
      mkGetServiceStatusRequestProto (mkGetServiceStatusResponseProto None None None) n1)
      as (e & n' & Hcall & Hat); [done|by apply (refused_ext a n); [rewrite Hpeers|]|].
    exists n'. split; [|by etrans]. unfold rm_state. rewrite (try_bind_ok _ _ _ _ _ Hc).
    erewrite try_bind_err by exact Hcall. reflexivity.
  - intros resp Hr. destruct (call_answered c a HA_SERVICE_PROTOCOL "getServiceStatus"
      mkGetServiceStatusRequestProto (mkGetServiceStatusResponseProto None None None) resp n1)
      as (n' & Hcall & Hat & _); [done|done|auto|by apply (answers_ext a resp n); [rewrite Hpeers|]|].
    exists n'. split; [|by etrans]. unfold rm_state. rewrite (try_bind_ok _ _ _ _ _ Hc).
    erewrite try_bind_ok by exact Hcall. reflexivity.
Qed.

(** The managers before [id] are idle, [id] is active: it is found, and only their admin
    ports were dialled. *)
Lemma find_active_run cf pre id post n :
  tokenless n → NoDup (admin_address_of cf <$> pre ++ [id])%list →
  Forall (λ x, idle (admin_address_of cf x) n) pre → says_active (admin_address_of cf id) n →
  ∃ n', find_active cap_of cf (pre ++ id :: post)%list n = (Ok (Some id), n') ∧ tokenless n' ∧
    ∀ b, b ∉ (admin_address_of cf <$> pre ++ [id])%list → net_peers n' !! b = net_peers n !! b.
Proof using PL user_known uuid_drawn headers_small status_callable.
  revert n. induction pre as [|x pre IH]; intros n Hnt Hnd Hidle Hact.
  - destruct Hact as (resp & Hans & Hst).
    destruct (rm_state_run id (admin_address_of cf id) n Hnt) as [_ H].
    destruct (H resp Hans) as (n' & Hrun & Helse & Htok). exists n'.
    split; [|split; [auto|intros b Hb; apply Helse; by apply not_elem_of_cons in Hb as [? _]]].
    cbn [app find_active]. unfold GetRMAdminAddressByID. rewrite Get_total.
    erewrite M_bind_ok by reflexivity. rewrite (M_bind_ok _ _ _ _ _ Hrun), Hst. reflexivity.
  - cbn [app fmap list_fmap] in Hnd. apply list.NoDup_cons in Hnd as [Hx Hnd].
    apply list.Forall_cons in Hidle as [Hi Hidle].
    destruct (rm_state_run x (admin_address_of cf x) n Hnt) as [Hdown Hup].
    assert (∃ st n1, rm_state cap_of x (admin_address_of cf x) n = (Ok st, n1) ∧
      st ≠ Some (Some HAServiceStateProto_ACTIVE) ∧ call_at (admin_address_of cf x) n n1)
      as (st & n1 & Hrun & Hst & Helse & Htok).
    { destruct Hi as [Hr|(resp & Hans & Hne)].
      - destruct (Hdown Hr) as (n1 & ? & ?). by exists None, n1.
      - destruct (Hup resp Hans) as (n1 & ? & ?). eexists _, n1. split; [done|]. split; [congruence|done]. }
    assert (∀ y, y ∈ (pre ++ [id])%list → admin_address_of cf y ≠ admin_address_of cf x) as Hne.
    { intros y Hy Heq. apply Hx. rewrite <- Heq. by apply list_elem_of_fmap_2. }
    destruct (IH n1) as (n' & Hfind & Htok' & Hpeers); [auto|done| | |].
    { apply list.Forall_forall. intros y Hy. rewrite list.Forall_forall in Hidle.
      eapply idle_ext; [apply Helse, Hne, elem_of_app; by left|by apply Hidle]. }
    { eapply says_active_ext; [apply Helse, Hne, elem_of_app; right; by left|done]. }
    exists n'. split; [|split; [done|]].
    + cbn [app find_active]. unfold GetRMAdminAddressByID at 1. rewrite Get_total.
      erewrite M_bind_ok by reflexivity. rewrite (M_bind_ok _ _ _ _ _ Hrun). cbn beta.
      destruct st as [[[]|]|]; done.
    + intros b Hb. cbn [app fmap list_fmap] in Hb. apply not_elem_of_cons in Hb as [Hb1 Hb2].
      by rewrite Hpeers, Helse.
Qed.

(** ** One cluster *)

Section Cluster.
Context (dir cluster : string) (cf : configuration) (pre post : list string) (id : string).
Hypothesis conf_stable : ∀ e : E, ∃ e', NewYarnConfiguration dir cluster e = (Ok cf, e').
Hypothesis conf_ha : GetRMEnabledHA cf = Ok true.
Hypothesis conf_rms : GetRMs cf = Ok (pre ++ id :: post)%list.
Hypothesis conf_ports : NoDup (admin_address_of cf <$> pre ++ [id])%list.

Definition admin_ports : list string := (admin_address_of cf <$> pre ++ [id])%list.

(** The client after it has found [id]. *)
Definition pointed : yarnClient :=
  mkYarnClient dir (Some cf) true (Some (admin_address_of cf id)) (Some (address_of cf id)) cluster.

(** [id] has taken over. *)
Definition took_over n : Prop :=
  Forall (λ x, idle (admin_address_of cf x) n) pre ∧ says_active (admin_address_of cf id) n.

Lemma reinitialize_run p w c :
  cw_objs w !! p = Some c → confDir c = dir → clusterID c = cluster →
  tokenless (cw_net w) → took_over (cw_net w) →
  ∃ n', client_Reinitialize cap_of p w = (Ok tt, mkCW (<[p := pointed]> (cw_objs w)) n') ∧ tokenless n' ∧
    ∀ b, b ∉ admin_ports → net_peers n' !! b = net_peers (cw_net w) !! b.
Proof using PL user_known uuid_drawn headers_small status_callable conf_stable conf_ha conf_rms conf_ports.
  intros Hc Hd Hi Hnt [Hidle Hact].
  destruct (conf_stable (sec_env (net_sec (cw_net w)))) as [e' He].
  set (n1 := mkNet (net_socks (cw_net w)) (net_peers (cw_net w))
               (mkSecState (sec_current (net_sec (cw_net w))) e')).
  destruct (find_active_run cf pre id post n1) as (n' & Hfind & Htok & Hpeers); [exact Hnt|done|exact Hidle|exact Hact|].
  exists n'. split; [|split; [done|exact Hpeers]].
  unfold client_Reinitialize. erewrite M_bind_ok.
  2: { unfold client_Close. erewrite M_bind_ok by (by apply put_ok).
       erewrite put_ok by apply lookup_insert_eq. cbn [cw_objs cw_net]. by rewrite insert_insert_eq. }
  unfold client_Initialize. erewrite M_bind_ok by (unfold get_obj; unfold_M; cbn [cw_objs]; by rewrite lookup_insert_eq).
  cbn [confDir clusterID set_addr set_admin]. erewrite M_bind_ok.
  2: { unfold in_net, zoom. cbn [cw_net]. rewrite in_os_run, Hd, Hi, He. reflexivity. }
  cbn [fst snd]. erewrite M_bind_ok by (apply put_ok, lookup_insert_eq).
  rewrite conf_ha. erewrite M_bind_ok by reflexivity.
  erewrite M_bind_ok by (apply put_ok, lookup_insert_eq). cbn [negb cw_objs cw_net].
  erewrite M_bind_ok.
  2: { unfold GetActiveRMID. erewrite M_bind_ok by (unfold get_obj; unfold_M; cbn [cw_objs]; by rewrite lookup_insert_eq).
       erewrite M_bind_ok by reflexivity. rewrite conf_rms. erewrite M_bind_ok by reflexivity.
       erewrite M_bind_ok by (unfold in_net, zoom; cbn [cw_net]; fold n1; rewrite Hfind; reflexivity).
       reflexivity. }
  cbn [cw_objs]. unfold GetRMAdminAddressByID, GetRMAddressByID. rewrite !Get_total.
  erewrite M_bind_ok by reflexivity.
  erewrite set_both_run; [|cbn [cw_objs]; apply lookup_insert_eq|reflexivity].
  cbn [cw_objs cw_net]. rewrite !insert_insert_eq. unfold pointed, set_addr, set_admin, set_ha, set_conf. cbn.
  by rewrite Hd, Hi.
Qed.

End Cluster.

(** ** Polling *)

Hypothesis nodes_callable : callable APPLICATION_CLIENT_PROTOCOL "getClusterNodes" running_nodes.

(** A poll by a client that knows its manager. *)
Lemma poll_run p w c a :
  cw_objs w !! p = Some c → activeRMAddress c = Some a → activeRMAdminAddress c ≠ None →
  tokenless (cw_net w) →
  (refused a (cw_net w) → ∃ e n', client_GetClusterNodes cap_of p running_nodes w
     = (Err e, mkCW (cw_objs w) n') ∧ call_at a (cw_net w) n') ∧
  (∀ resp, answers a resp (cw_net w) → ∃ n', client_GetClusterNodes cap_of p running_nodes w
     = (Ok (Some resp), mkCW (cw_objs w) n') ∧ call_at a (cw_net w) n' ∧
       net_peers n' !! a = tail <$> (net_peers (cw_net w) !! a)).
Proof using PL user_known uuid_drawn headers_small nodes_callable.
  intros Hc Ha Hadm Hnt.
  assert (get_obj p w = (Ok c, w)) as Hget by (unfold get_obj; unfold_M; by rewrite Hc).
  destruct (application_client (conf c) a (cw_net w)) as (cl & n1 & Hcl & Hready & Hpeers & Htok).
  assert (∀ (o : outcome GetClusterNodesResponseProto) n',
    service_GetClusterNodes cap_of cl running_nodes (mkGetClusterNodesResponseProto []) n1 = (o, n') →
    client_GetClusterNodes cap_of p running_nodes w =
      (match o with Ok r => Ok (Some r) | Err e => Err e | Panic y => Panic y end, mkCW (cw_objs w) n')) as Hrun.
  { intros o n' Hcall. unfold client_GetClusterNodes, ensure_active.
    rewrite M_bind_assoc, (M_bind_ok _ _ _ _ _ Hget). cbn beta.
    rewrite bool_decide_eq_false_2 by done. erewrite M_bind_ok by reflexivity.
    unfold getClusterNodes. rewrite M_bind_assoc, (M_bind_ok _ _ _ _ _ Hget). cbn beta.
    rewrite Ha, M_bind_assoc. erewrite M_bind_ok by (unfold in_net, zoom; rewrite Hcl; reflexivity).
    unfold mbind, M_bind, in_net, zoom, YarnApplicationClient_GetClusterNode. cbn [cw_net cw_objs].
    rewrite Hcall. by destruct o. }
  split.
  - intros Hr. destruct (call_refused cl a APPLICATION_CLIENT_PROTOCOL "getClusterNodes" running_nodes
      (mkGetClusterNodesResponseProto []) n1) as (e & n' & Hcall & Hat);
      [done|by apply (refused_ext a (cw_net w)); [rewrite Hpeers|]|].
    exists e, n'. split; [exact (Hrun _ _ Hcall)|].
    etrans; [|exact Hat]. split; [intros b _; by rewrite Hpeers|done].
  - intros resp Hr. destruct (call_answered cl a APPLICATION_CLIENT_PROTOCOL "getClusterNodes" running_nodes
      (mkGetClusterNodesResponseProto []) resp n1) as (n' & Hcall & Hat & Hpop);
      [done|done|auto|by apply (answers_ext a resp (cw_net w)); [rewrite Hpeers|]|].
    exists n'. split; [exact (Hrun _ _ Hcall)|]. rewrite <- Hpeers. split; [|exact Hpop].
    etrans; [|exact Hat]. split; [intros b _; by rewrite Hpeers|done].
Qed.

(** ** Several clusters *)

(** The failover of one cluster: the configuration its client reads, the manager that has
    taken over and those listed before and after it, and the address of the manager the
    client was connected to. *)
Record Failover := mkFailover {
  fo_dir : string; fo_cluster : string; fo_conf : configuration;
  fo_before : list string; fo_active : string; fo_after : list string;
  fo_old : string
}.

Definition fo_address (f : Failover) : string := address_of (fo_conf f) (fo_active f).
Definition fo_ports (f : Failover) : list string := admin_ports (fo_conf f) (fo_before f) (fo_active f).

(** The configuration can be read, it has HA, and it lists the manager that took over; the
    addresses are all different. *)
Definition configured (f : Failover) : Prop :=
  (∀ e : E, ∃ e', NewYarnConfiguration (fo_dir f) (fo_cluster f) e = (Ok (fo_conf f), e')) ∧
  GetRMEnabledHA (fo_conf f) = Ok true ∧
  GetRMs (fo_conf f) = Ok (fo_before f ++ fo_active f :: fo_after f)%list ∧
  NoDup (fo_old f :: fo_address f :: fo_ports f).

Section Clusters.
(** The clients, the manager each of them is to be answered by and its answer, and the
    clusters that have failed over. *)
Context (m : gmap string positive) (manager : positive → string).
Context (reply : positive → GetClusterNodesResponseProto) (lost : gmap positive Failover).

(** The addresses a client dials. *)
Definition ports (p : positive) : list string :=
  match lost !! p with
  | Some f => fo_old f :: manager p :: fo_ports f
  | None => [manager p]
  end.

Definition answered (k : nat) (p : positive) (w : CW E) : Prop :=
  tokenless (cw_net w) ∧ answers_next k (manager p) (reply p) (cw_net w) ∧
  ∃ c, cw_objs w !! p = Some c ∧ activeRMAddress c = Some (manager p) ∧ activeRMAdminAddress c ≠ None.

Definition failed_over (k : nat) (p : positive) (w : CW E) : Prop :=
  tokenless (cw_net w) ∧ answers_next k (manager p) (reply p) (cw_net w) ∧
  ∃ f c, lost !! p = Some f ∧ cw_objs w !! p = Some c ∧ confDir c = fo_dir f ∧
    clusterID c = fo_cluster f ∧ activeRMAddress c = Some (fo_old f) ∧ activeRMAdminAddress c ≠ None ∧
    refused (fo_old f) (cw_net w) ∧ took_over (fo_conf f) (fo_before f) (fo_active f) (cw_net w).

Hypothesis lost_configured : ∀ p f, lost !! p = Some f → configured f ∧ manager p = fo_address f.
Hypothesis clients_apart : ∀ id id' p p', m !! id = Some p → m !! id' = Some p' → id ≠ id' →
  p ≠ p' ∧ ports p ## ports p'.
Hypothesis reports_complete : ∀ id p, m !! id = Some p →
  Forall (λ rep, complete_report rep = true) (GetClusterNodesResponseProto_NodeReports (reply p)).

(** Nothing the client [p] depends on has changed. *)
Definition untouched (p : positive) (w w' : CW E) : Prop :=
  cw_objs w' !! p = cw_objs w !! p ∧ (tokenless (cw_net w) → tokenless (cw_net w')) ∧
  ∀ a, a ∈ ports p → net_peers (cw_net w') !! a = net_peers (cw_net w) !! a.

Lemma manager_port p : manager p ∈ ports p.
Proof using. unfold ports. destruct (lost !! p); [right|]; by left. Qed.

Lemma answers_next_ext k a (resp : GetClusterNodesResponseProto) n n' :
  net_peers n' !! a = net_peers n !! a → answers_next k a resp n → answers_next k a resp n'.
Proof using. unfold answers_next. by intros ->. Qed.

Lemma took_over_ext f n n' :
  (∀ a, a ∈ fo_ports f → net_peers n' !! a = net_peers n !! a) →
  took_over (fo_conf f) (fo_before f) (fo_active f) n → took_over (fo_conf f) (fo_before f) (fo_active f) n'.
Proof using.
  intros Hsame [Hidle Hact].
  assert (∀ x, x ∈ (fo_before f ++ [fo_active f])%list →
    net_peers n' !! admin_address_of (fo_conf f) x = net_peers n !! admin_address_of (fo_conf f) x) as Hx
    by (intros x Hx; by apply Hsame, list_elem_of_fmap_2).
  split; [|eapply says_active_ext; [apply Hx, elem_of_app; right; by left|done]].
  rewrite list.Forall_forall in Hidle |- *. intros x Hin.
  eapply idle_ext; [apply Hx, elem_of_app; by left|by apply Hidle].
Qed.

Lemma untouched_keeps p w w' k :
  untouched p w w' → (answered k p w → answered k p w') ∧ (failed_over k p w → failed_over k p w').
Proof using.
  intros (Ho & Ht & Hp). split.
  - intros (H1 & H2 & H3). split; [auto|]. rewrite Ho.
    split; [|done]. by eapply answers_next_ext, H2; apply Hp, manager_port.
  - intros (H1 & H2 & f & c & Hf & Hc & Hd & Hi & Ha & Hadm & Hr & Htk). split; [auto|].
    split; [by eapply answers_next_ext, H2; apply Hp, manager_port|]. rewrite Ho.
    unfold ports in Hp. rewrite Hf in Hp. exists f, c. do 6 (split; [done|]).
    split; [eapply refused_ext, Hr; apply Hp; by left|].
    eapply took_over_ext, Htk. intros a Hin. apply Hp. by do 2 right.
Qed.

(** A client that dials its own addresses touches no other. *)
Lemma others_untouched id p (w w' : CW E) :
  m !! id = Some p → (∀ p', p' ≠ p → cw_objs w' !! p' = cw_objs w !! p') →
  (tokenless (cw_net w) → tokenless (cw_net w')) →
  (∀ a, a ∉ ports p → net_peers (cw_net w') !! a = net_peers (cw_net w) !! a) →
  ∀ id' p', m !! id' = Some p' → p' ≠ p → untouched p' w w'.
Proof using clients_apart.
  intros Hp Ho Ht Hn id' p' Hp' Hne. split; [by apply Ho|]. split; [done|].
  intros a Ha. apply Hn. destruct (clients_apart id' id p' p Hp' Hp) as [_ Hd]; [congruence|].
  intros Hin. exact (Hd a Ha Hin).
Qed.

Lemma answers_first k a (resp : GetClusterNodesResponseProto) n :
  answers_next (S k) a resp n → answers a resp n ∧
  ∀ n', net_peers n' !! a = tail <$> (net_peers n !! a) → answers_next k a resp n'.
Proof using.
  intros ([|q ps] & rest & Hp & Hl & Hps); [done|]. injection Hl as Hl.
  apply list.Forall_cons in Hps as [Hq Hps].
  destruct (net_peers n !! a) as [l|] eqn:Ha; [|discriminate Hp]. cbn in Hp. subst l. split.
  - exists q, ((inl <$> ps) ++ rest)%list. split; [exact Ha|exact Hq].
  - intros n' Hn'. exists ps, rest. by rewrite Hn'.
Qed.

Lemma answers_next_less k a (resp : GetClusterNodesResponseProto) n :
  answers_next (S k) a resp n → answers_next k a resp n.
Proof using.
  intros (ps & rest & Hp & Hl & Hps). exists (take k ps), ((inl <$> drop k ps) ++ rest)%list.
  split; [by rewrite app_assoc, <- fmap_app, take_drop|].
  split; [rewrite length_take; lia|by apply Forall_take].
Qed.

Lemma answered_poll k id p w :
  m !! id = Some p → answered (S k) p w →
  ∃ w', client_GetClusterNodes cap_of p running_nodes w = (Ok (Some (reply p)), w') ∧
    answered k p w' ∧ ∀ id' p', m !! id' = Some p' → p' ≠ p → untouched p' w w'.
Proof using PL user_known uuid_drawn headers_small nodes_callable clients_apart.
  intros Hp (Ht & Hans & c & Hc & Ha & Hadm). apply answers_first in Hans as [Hans Hnext].
  destruct (poll_run p w c (manager p) Hc Ha Hadm Ht) as [_ Hpoll].
  destruct (Hpoll (reply p) Hans) as (n' & Hrun & [Helse Htok] & Hpop).
  eexists. split; [exact Hrun|]. split.
  - split; [by apply Htok|]. split; [by apply Hnext|]. by exists c.
  - eapply others_untouched; [exact Hp|done|exact Htok|]. intros a Hin. apply Helse.
    intros ->. by apply Hin, manager_port.
Qed.

Lemma failed_over_poll k id p w :
  m !! id = Some p → failed_over k p w →
  ∃ e w1 w2, client_GetClusterNodes cap_of p running_nodes w = (Err e, w1) ∧
    client_Reinitialize cap_of p w1 = (Ok tt, w2) ∧ answered k p w2 ∧
    ∀ id' p', m !! id' = Some p' → p' ≠ p → untouched p' w w2.
Proof using PL user_known uuid_drawn headers_small status_callable nodes_callable clients_apart
  lost_configured.
  intros Hp (Ht & Hans & f & c & Hf & Hc & Hd & Hi & Ha & Hadm & Hr & Htk).
  destruct (lost_configured p f Hf) as [(Hconf & Hha & Hrms & Hnd) Hman].
  apply list.NoDup_cons in Hnd as [Hold Hnd]. apply list.NoDup_cons in Hnd as [Hnew Hnd].
  apply not_elem_of_cons in Hold as [Hne Hold].
  destruct (poll_run p w c (fo_old f) Hc Ha Hadm Ht) as [Hpoll _].
  destruct (Hpoll Hr) as (e & n1 & Hrun & Helse & Htok).
  destruct (reinitialize_run (fo_dir f) (fo_cluster f) (fo_conf f) (fo_before f) (fo_after f) (fo_active f)
    Hconf Hha Hrms Hnd p (mkCW (cw_objs w) n1) c Hc Hd Hi) as (n2 & Hre & Htok2 & Hpeers); [by apply Htok| |].
  { eapply took_over_ext, Htk. intros a Hin. apply Helse. intros ->. by apply Hold. }
  eexists e, _, _. split; [exact Hrun|]. split; [exact Hre|]. split.
  - split; [exact Htok2|]. split.
    + eapply answers_next_ext, Hans. rewrite Hman. cbn. rewrite Hpeers by exact Hnew. by apply Helse.
    + eexists. split; [apply lookup_insert_eq|]. by rewrite Hman.
  - eapply others_untouched; [exact Hp|intros p' Hne'; by apply lookup_insert_ne|by intros _|].
    intros a Hin. unfold ports in Hin. rewrite Hf in Hin.
    apply not_elem_of_cons in Hin as [Hin1 [_ Hin2]%not_elem_of_cons].
    cbn. rewrite Hpeers by exact Hin2. by apply Helse.
Qed.

(** The repository's clients are repaired by their reinitialisation. *)
Lemma clients_repairable : Repairable answered failed_over (λ p, Some (reply p)) m.
Proof using PL user_known uuid_drawn headers_small status_callable nodes_callable clients_apart
  lost_configured reports_complete.
  split.
  - intros k p w (H1 & H2 & H3). split; [done|]. split; [by apply answers_next_less|done].
  - intros k p w (H1 & H2 & H3). split; [done|]. split; [by apply answers_next_less|done].
  - intros k id p w Hp Hup. destruct (answered_poll k id p w Hp Hup) as (w' & Hrun & Hup' & Hoth).
    exists w'. split; [exact Hrun|]. split; [done|]. intros id' p' Hp' Hne k'.
    by apply untouched_keeps, (Hoth id').
  - intros k id p w Hp Hdown.
    destruct (failed_over_poll k id p w Hp Hdown) as (e & w1 & w2 & Hrun & Hre & Hup & Hoth).
    exists e, w1, w2. split; [exact Hrun|]. split; [exact Hre|]. split; [done|].
    intros id' p' Hp' Hne k'. by apply untouched_keeps, (Hoth id').
  - intros id id' p Hp Hp'. destruct (decide (id = id')) as [|Hne]; [done|].
    by destruct (clients_apart id id' p p Hp Hp' Hne).
  - intros id p resp Hp [= <-]. by apply (reports_complete id).
Qed.

(** The clusters that have failed over. *)
Definition lost_clusters : gset string := dom (filter (λ kv, is_Some (lost !! kv.2)) m).

Lemma elem_of_lost id p : m !! id = Some p → (id ∈ lost_clusters ↔ is_Some (lost !! p)).
Proof using.
  intros Hp. unfold lost_clusters. rewrite elem_of_dom. split.
  - intros [q Hq]. apply map_lookup_filter_Some in Hq as [Hq Hf]. by simplify_eq.
  - intros Hf. exists p. by apply map_lookup_filter_Some.
Qed.

End Clusters.
End Failover.

(** ** A run

    [rm1], to which the client of cluster [a] was connected, is gone and [rm2] is active; the
    manager of cluster [b] answers. *)
Section Witness.
Import ReferenceProto ConfigFiles ClientRun.

#[local] Instance heal_nodes_resp : ProtoMessage GetClusterNodesResponseProto :=
  {| proto_Marshal _ := Ok []; proto_Unmarshal _ := Ok MockYarn.reply |}.

Definition heal_conf : configuration :=
  match (NewYarnConfiguration "/etc/hadoop" "a" tt).1 with Ok c => c | _ => mkConfiguration ∅ end.
Definition heal_map : gmap string positive := {[ "a" := 1%positive; "b" := 2%positive ]}.
Definition heal_lost : gmap positive Failover :=
  {[ 1%positive := mkFailover "/etc/hadoop" "a" heal_conf ["rm1"] "rm2" [] "10.0.0.1:8032" ]}.
Definition heal_manager (p : positive) : string :=
  if bool_decide (p = 1%positive) then "0.0.0.0:8032" else "10.0.1.1:8032".
Definition heal_reply (p : positive) : GetClusterNodesResponseProto := MockYarn.reply.
Definition heal_objs : gmap positive yarnClient :=
  {[ 1%positive := mkYarnClient "/etc/hadoop" (Some heal_conf) true (Some "10.0.0.1:8033")
       (Some "10.0.0.1:8032") "a";
     2%positive := mkYarnClient "/etc/hadoop" (Some heal_conf) false (Some "10.0.1.1:8033")
       (Some "10.0.1.1:8032") "b" ]}.
Definition heal_heap : Heap (CW unit) positive :=
  mkHeap {[ 1%positive := heal_map ]}
    (mkCW heal_objs
       (mkNet ∅ {[ "10.0.0.2:8033" := [inl (says Byte.x01)];
                   "0.0.0.0:8032" := [inl WireRun.accepts; inl WireRun.accepts];
                   "10.0.1.1:8032" := [inl WireRun.accepts; inl WireRun.accepts] ]}
          (mkSecState None tt))).

Lemma heal_map_inv id p :
  heal_map !! id = Some p → (id = "a" ∧ p = 1%positive) ∨ (id = "b" ∧ p = 2%positive).
Proof.
  unfold heal_map. intros [[<- <-]|[_ [<- <-]%lookup_singleton_Some]]%lookup_insert_Some; [by left|by right].
Qed.

Lemma accepts_answering : answering MockYarn.reply WireRun.accepts.
Proof.
  split; [reflexivity|]. split; [reflexivity|].
  eexists _, _, _, [], _, [Byte.x10; Byte.x00], [].
  split; [reflexivity|]. split; [cbn; lia|]. repeat split; vm_compute; reflexivity.
Qed.

Lemma heal_answers p :
  p = 1%positive ∨ p = 2%positive →
  answers_next 2 (heal_manager p) (heal_reply p) (cw_net (heap_world heal_heap)).
Proof.
  intros Hp. exists [WireRun.accepts; WireRun.accepts], []. split; [by destruct Hp as [-> | ->]|].
  split; [reflexivity|]. repeat constructor; apply accepts_answering.
Qed.

End Witness.
