(* ===== verification/Examples.v ===== *)
(** * The sample programs: [src/pkg/yarn/client/examples]

    Four programs that use the clients as a library, as functions to the exit status
    of the process; what they log is left out. *)

From S2P Require Import Prelude GoStrings Proto YarnApi Wire Security Net Ipc IpcRuns Config YarnClient.

Local Open Scope string_scope.

Section Examples.
Context {E : Type} {UA : UserApi E} {RA : RandApi E} {UU : UuidApi E} {PW : Protowire}.
Context {P1 : ProtoMessage RpcRequestHeaderProto} {P2 : ProtoMessage RpcResponseHeaderProto}.
Context {P3 : ProtoMessage IpcConnectionContextProto} {P4 : ProtoMessage RequestHeaderProto}.
Context {P5 : ProtoMessage RpcSaslProto}.
Context {PQ1 : ProtoMessage GetClusterNodesRequestProto}.
Context {PR1 : ProtoMessage GetClusterNodesResponseProto}.
Context {PQ2 : ProtoMessage UpdateNodeResourceRequestProto}.
Context {PR2 : ProtoMessage UpdateNodeResourceResponseProto}.
Context {PQ3 : ProtoMessage GetServiceStatusRequestProto}.
Context {PR3 : ProtoMessage GetServiceStatusResponseProto}.
Context (cap_of : nat → nat).
Context {OF : OsFiles E} {XA : XmlApi}.

(** [$HADOOP_CONF_DIR]. *)
Context (configDir : string).

Abbreviation CM := (M (CW E)).

(** [x, _ := c]: the error is dropped and the pointer is nil. *)
Definition or_nil {A} (c : CM A) : CM (option A) :=
  r ← try c; mret (match r with inl a => Some a | inr _ => None end).

(** [ha-get-service-status]: every resource manager is asked in turn; the first
    failure ends the program. *)
Definition ha_get_service_status : CM Z :=
  or_exit (in_net (in_os (NewYarnConfiguration configDir ""))) (λ conf,
  or_exit (lift_out (GetRMs conf)) (λ rmIDs,
  or_exit (for_each rmIDs (λ rmID,
    rmAddr ← lift_out (GetRMAdminAddressByID conf rmID);
    yarnHAClient ← in_net (CreateYarnHAClient rmAddr);
    _ ← in_net (YarnHAClient_GetServiceStatus cap_of yarnHAClient mkGetServiceStatusRequestProto);
    mret tt)) (λ _, mret 0%Z))).

(** [rm-get-cluster-nodes-with-ha]. *)
Definition rm_get_cluster_nodes_with_ha : CM Z :=
  yarnClient ← or_nil (factory_CreateDefaultYarnClient cap_of configDir);
  c ← lift_out (deref yarnClient);
  or_exit (client_GetClusterNodes cap_of c (mkGetClusterNodesRequestProto [])) (λ _, mret 0%Z).

(** The request of the two updating examples. *)
Definition update_one (host : string) (port vCores memoryMB : Z) : UpdateNodeResourceRequestProto :=
  mkUpdateNodeResourceRequestProto
    [ mkNodeResourceMapProto (Some (mkNodeIdProto (Some host) (Some port)))
        (Some (mkResourceOptionProto (Some (mkResourceProto (Some memoryMB) (Some vCores) [])) None)) ].

(** [rm-update-node-resource-with-ha]. *)
Definition rm_update_node_resource_with_ha : CM Z :=
  yarnClient ← or_nil (factory_CreateDefaultYarnClient cap_of configDir);
  let request := update_one "0.0.0.0" 8041 101 10240 in
  c ← lift_out (deref yarnClient);
  or_exit (client_UpdateNodeResource cap_of c request) (λ _, mret 0%Z).

(** [rm-update-node-resource]: a configuration that could not be loaded holds a nil
    interface, which is only used when the address is looked up. *)
Definition rm_update_node_resource : CM Z :=
  conf ← or_nil (in_net (in_os (NewYarnConfiguration configDir "")));
  yarnAdminClient ← or_nil (in_net (CreateYarnAdminClient conf None));
  let request := update_one "core-1-3.c-f55b4f620febfd69.cn-zhangjiakou.emr.aliyuncs.com" 8041 100 10240 in
  c ← lift_out (deref yarnAdminClient);
  or_exit (in_net (YarnAdminClient_UpdateNodeResource cap_of c request)) (λ _, mret 0%Z).

(** ** What a user of the samples sees *)

Lemma or_nil_ok {A} (c : CM A) w a w' : c w = (Ok a, w') → or_nil c w = (Ok (Some a), w').
Proof. intros H. unfold or_nil, try, mbind, M_bind. by rewrite H. Qed.

Lemma or_nil_err {A} (c : CM A) w e w' : c w = (Err e, w') → or_nil c w = (Ok None, w').
Proof. intros H. unfold or_nil, try, mbind, M_bind. by rewrite H. Qed.

(** The status a program ends with whose last act is a request. *)
Definition status_of {A} (r : outcome A * CW E) : outcome Z * CW E :=
  match r with
  | (Ok _, w') => (Ok 0%Z, w')
  | (Err _, w') => (Ok 1%Z, w')
  | (Panic y, w') => (Panic y, w')
  end.

Lemma or_exit_done {A} (c : CM A) w : or_exit c (λ _, mret 0%Z) w = status_of (c w).
Proof. unfold or_exit, try, mbind, M_bind. by destruct (c w) as [[a|e|y] w']. Qed.

(** The samples drop the error of making their client: when the cluster's
    configuration cannot be read or no resource manager is active, the two with HA
    support die of a nil dereference instead of a message; with a client they exit
    with 0 or 1 as the one request they make succeeds or fails. *)
Lemma samples_need_client w r w1 :
  factory_CreateDefaultYarnClient cap_of configDir w = (r, w1) →
  match r with
  | Ok c =>
      rm_get_cluster_nodes_with_ha w =
        status_of (client_GetClusterNodes cap_of c (mkGetClusterNodesRequestProto []) w1) ∧
      rm_update_node_resource_with_ha w =
        status_of (client_UpdateNodeResource cap_of c (update_one "0.0.0.0" 8041 101 10240) w1)
  | Err _ =>
      (∃ y, rm_get_cluster_nodes_with_ha w = (Panic y, w1)) ∧
      (∃ y, rm_update_node_resource_with_ha w = (Panic y, w1))
  | Panic _ => True
  end.
Proof.
  intros Hc. unfold rm_get_cluster_nodes_with_ha, rm_update_node_resource_with_ha.
  destruct r as [c|e|y]; [| |done].
  - rewrite !(M_bind_ok _ _ _ _ _ (or_nil_ok _ _ _ _ Hc)). cbn zeta.
    split; (erewrite M_bind_ok by reflexivity); apply or_exit_done.
  - rewrite !(M_bind_ok _ _ _ _ _ (or_nil_err _ _ _ _ Hc)). split; by eexists.
Qed.
End Examples.
