(* ===== verification/GoPath.v ===== *)
(** * Go's [path/filepath] on a Unix system *)

From S2P Require Import Prelude GoStrings.

Local Open Scope string_scope.

Definition slash : ascii := "/".

(** ** Cleaning *)

(** One path element against the elements kept so far, the last one first. *)
Definition clean_step (rooted : bool) (stack : list string) (c : string) : list string :=
  if bool_decide (c = "" ∨ c = ".") then stack
  else if bool_decide (c = "..") then
    match stack with
    | [] => if rooted then [] else [".."]
    | top :: rest => if bool_decide (top = "..") then c :: stack else rest
    end
  else c :: stack.

Definition clean_stack (rooted : bool) (p : string) : list string :=
  foldl (clean_step rooted) [] (Split p slash).

Definition render_path (rooted : bool) (stack : list string) : string :=
  match (if rooted : bool then "/" else "") +:+ Join (reverse stack) "/" with
  | "" => "."
  | s => s
  end.

Definition is_rooted (p : string) : bool := HasPrefix p "/".

(** [filepath.Clean]. *)
Definition Clean (p : string) : string := render_path (is_rooted p) (clean_stack (is_rooted p) p).

(** [filepath.Join]: leading empty elements are dropped, the rest is cleaned. *)
Fixpoint path_Join (elems : list string) : string :=
  match elems with
  | [] => ""
  | e :: rest => if bool_decide (e = "") then path_Join rest else Clean (Join elems "/")
  end.

(** [filepath.Base]: the last non-empty element. *)
Definition Base (p : string) : string :=
  match list.last (filter (λ c, c ≠ "") (Split p slash)) with
  | Some c => c
  | None => if bool_decide (p = "") then "." else "/"
  end.

(** [filepath.Dir]. *)
Definition Dir (p : string) : string :=
  Clean (Join (take (length (Split p slash) - 1) (Split p slash)) "/"
           +:+ (if bool_decide (length (Split p slash) = 1%nat) then "" else "/")).

(** ** Children *)

(** A file name: one element that [Clean] keeps. *)
Definition plain_name (c : string) : Prop :=
  c ≠ "" ∧ c ≠ "." ∧ c ≠ ".." ∧ contains_byte slash c = false.
#[global] Instance plain_name_dec c : Decision (plain_name c).
Proof. unfold plain_name. apply _. Defined.

(** The entry [name] of directory [dir]. *)
Definition child (dir name : string) : string := dir +:+ "/" +:+ name.

Lemma Split_app_sep a b sep :
  Split (a +:+ String sep b) sep = (Split a sep ++ Split b sep)%list.
Proof.
  induction a as [|x a IH]; cbn [String.append Split]; [by rewrite Ascii.eqb_refl|].
  destruct (Ascii.eqb x sep); [by rewrite IH|].
  rewrite IH. pose proof (Split_not_nil a sep). by destruct (Split a sep).
Qed.

Lemma Base_child dir name : plain_name name → Base (child dir name) = name.
Proof.
  intros (Hne & _ & _ & Hs). unfold Base, child.
  change ("/" +:+ name) with (String slash name).
  rewrite Split_app_sep, (Split_no_sep name) by done.
  rewrite list.filter_app. rewrite (list.filter_cons_True _ name) by done. rewrite list.filter_nil. by rewrite list.last_snoc.
Qed.

Lemma child_inj d1 n1 d2 n2 :
  plain_name n1 → plain_name n2 → child d1 n1 = child d2 n2 → d1 = d2 ∧ n1 = n2.
Proof.
  intros H1 H2 Heq. assert (n1 = n2) as ->.
  { by rewrite <- (Base_child d1 n1 H1), <- (Base_child d2 n2 H2), Heq. }
  split; [|done]. by apply string_app_inj_r in Heq.
Qed.

(** A cleaned directory followed by a name is clean. *)
Lemma Clean_child p name :
  plain_name name → Clean p ≠ "/" → Clean p ≠ "." →
  Clean (p +:+ String slash name) = child (Clean p) name.
Proof.
  intros (Hn1 & Hn2 & Hn3 & Hs) Hroot Hdot. unfold Clean in *.
  assert (is_rooted (p +:+ String slash name) = is_rooted p ∨ p = "") as [->|Hp].
  { destruct p as [|a p]; [by right|]. left. unfold is_rooted, HasPrefix.
    cbn [String.prefix String.append]. destruct (Ascii.ascii_dec _ a); [|done]. by destruct p. }
  2: { subst p. by destruct (Hdot eq_refl). }
  set (rt := is_rooted p) in *. unfold clean_stack in *.
  rewrite Split_app_sep, (Split_no_sep name), foldl_app by done. cbn [foldl].
  set (st := foldl (clean_step rt) [] (Split p slash)) in *.
  assert (clean_step rt st name = name :: st) as ->.
  { unfold clean_step. rewrite !bool_decide_eq_false_2 by tauto. done. }
  assert (st ≠ []) as Hst.
  { intros Hst. unfold render_path in Hroot, Hdot. rewrite Hst in Hroot, Hdot.
    destruct rt; cbn in *; congruence. }
  assert (∀ l, l ≠ [] → Join (l ++ [name])%list "/" = Join l "/" +:+ "/" +:+ name) as HJ.
  { intros l. induction l as [|x l IH]; [done|]. intros _. destruct l as [|y l]; [done|].
    change (Join ((x :: y :: l) ++ [name])%list "/") with (x +:+ "/" +:+ Join ((y :: l) ++ [name])%list "/").
    rewrite IH by done. change (Join (x :: y :: l) "/") with (x +:+ "/" +:+ Join (y :: l) "/").
    by rewrite !string_app_assoc. }
  assert (reverse st ≠ []) as Hrev.
  { intros H. apply Hst. by rewrite <- (reverse_involutive st), H. }
  unfold render_path, child. rewrite reverse_cons, HJ by done.
  destruct rt; cbn [String.append]; [done|].
  destruct (Join (reverse st) "/") eqn:HJs; cbn; [|done].
  unfold render_path in Hdot. rewrite HJs in Hdot. done.
Qed.

Lemma Base_name name : plain_name name → Base name = name.
Proof.
  intros (Hne & _ & _ & Hs). unfold Base. rewrite (Split_no_sep name) by done.
  rewrite (list.filter_cons_True _ name) by done. by rewrite list.filter_nil.
Qed.

(** Whatever comes before it, a name is the last element after cleaning. *)
Lemma Base_Clean p name : plain_name name → Base (Clean (p +:+ String slash name)) = name.
Proof.
  intros Hn. pose proof Hn as (Hn1 & Hn2 & Hn3 & Hs). unfold Clean.
  set (rt := is_rooted _). unfold clean_stack.
  rewrite Split_app_sep, (Split_no_sep name), foldl_app by done. cbn [foldl].
  set (st := foldl (clean_step rt) [] (Split p slash)).
  assert (clean_step rt st name = name :: st) as ->.
  { unfold clean_step. rewrite !bool_decide_eq_false_2 by tauto. done. }
  unfold render_path. rewrite reverse_cons.
  assert (∀ l, Join (l ++ [name])%list "/" = name ∨
            ∃ d, Join (l ++ [name])%list "/" = child d name) as HJ.
  { induction l as [|x l IH]; [by left|]. right.
    destruct l as [|y l]; [by exists x|].
    change (Join ((x :: y :: l) ++ [name])%list "/") with (x +:+ "/" +:+ Join ((y :: l) ++ [name])%list "/").
    destruct IH as [-> |[d ->]]; [by exists x|]. exists (x +:+ "/" +:+ d).
    unfold child. by rewrite !string_app_assoc. }
  destruct (HJ (reverse st)) as [-> |[d ->]]; destruct rt; cbn [String.append].
  - exact (Base_child "" name Hn).
  - destruct name; [done|]. by apply Base_name.
  - exact (Base_child (String "/" d) name Hn).
  - destruct (child d name) eqn:Hc; [by destruct d|]. rewrite <- Hc. by apply Base_child.
Qed.

(** ** Cleaning twice *)

(** The stacks cleaning builds: names, above the [..] a relative path may start
    with. *)
Definition canonical (rooted : bool) (stack : list string) : Prop :=
  ∃ names ups, stack = (names ++ replicate ups "..")%list ∧ Forall plain_name names ∧
    (rooted = true → ups = 0%nat).

Lemma clean_step_canonical rt st c :
  contains_byte slash c = false → canonical rt st → canonical rt (clean_step rt st c).
Proof.
  intros Hc (names & ups & -> & Hn & Hu). unfold clean_step.
  case_bool_decide as H1; [by exists names, ups|].
  case_bool_decide as H2.
  - destruct Hn as [|top names Htop Hn]; cbn [app].
    + destruct ups as [|ups]; cbn [replicate].
      * destruct rt; [by exists [], 0%nat|by exists [], 1%nat].
      * rewrite bool_decide_eq_true_2 by done. subst c. exists [], (S (S ups)). cbn.
        split; [done|]. split; [done|]. intros H. by specialize (Hu H).
    + rewrite bool_decide_eq_false_2 by apply Htop. by exists names, ups.
  - exists (c :: names), ups. split; [done|]. split; [|done]. constructor; [|done].
    repeat split; [naive_solver..|done].
Qed.

Lemma clean_stack_canonical rt p : canonical rt (clean_stack rt p).
Proof.
  unfold clean_stack. assert (canonical rt []) as H0 by by exists [], 0%nat.
  revert H0. generalize (@nil string). pose proof (Split_pieces p slash) as Hs.
  induction Hs as [|c l Hc _ IH]; intros st Hst; cbn [foldl]; [done|].
  by apply IH, clean_step_canonical.
Qed.

Lemma clean_names rt l st :
  Forall plain_name l → foldl (clean_step rt) st l = (reverse l ++ st)%list.
Proof.
  intros Hl. revert st. induction Hl as [|c l Hc _ IH]; intros st; cbn [foldl]; [done|].
  rewrite IH. unfold clean_step. destruct Hc as (H1 & H2 & H3 & _).
  rewrite !bool_decide_eq_false_2 by tauto. by rewrite reverse_cons, <- app_assoc.
Qed.

Lemma clean_ups k m :
  foldl (clean_step false) (replicate m "..") (replicate k "..") = replicate (k + m) "..".
Proof.
  revert m. induction k as [|k IH]; intros m; cbn [replicate foldl]; [done|].
  replace (S k + m)%nat with (k + S m)%nat by lia. rewrite <- IH. f_equal. by destruct m.
Qed.

Lemma clean_canonical rt st : canonical rt st → foldl (clean_step rt) [] (reverse st) = st.
Proof.
  intros (names & ups & -> & Hn & Hu). rewrite reverse_app, reverse_replicate, foldl_app.
  rewrite clean_names by by apply Forall_reverse. rewrite reverse_involutive. f_equal.
  destruct rt; [by rewrite Hu|]. pose proof (clean_ups ups 0) as H. by rewrite Nat.add_0_r in H.
Qed.

Lemma canonical_pieces rt st :
  canonical rt st → Forall (λ c, contains_byte slash c = false ∧ c ≠ "") (reverse st).
Proof.
  intros (names & ups & -> & Hn & _). apply Forall_reverse, Forall_app. split.
  - eapply list.Forall_impl; [exact Hn|]. by intros c (? & _ & _ & ?).
  - by apply Forall_replicate.
Qed.

(** The elements of a rendered path. *)
Lemma render_pieces rt st :
  canonical rt st → let p := render_path rt st in
  is_rooted p = rt ∧ foldl (clean_step rt) [] (Split p slash) = foldl (clean_step rt) [] (reverse st).
Proof.
  intros Hst. pose proof (canonical_pieces _ _ Hst) as Hp. unfold render_path.
  destruct (reverse st) as [|c l] eqn:Hr; [by destruct rt|].
  assert (Split (Join (c :: l) "/") slash = c :: l) as HS.
  { apply (Split_Join slash); [done|]. eapply list.Forall_impl; [exact Hp|]. by intros ? []. }
  inversion Hp as [|? ? [Hc Hne] _]; subst. destruct rt; cbn [String.append].
  - split; [by destruct (Join _ _)|]. change (String "/" ?x) with ("" +:+ String slash x).
    rewrite Split_app_sep, HS. done.
  - assert (is_rooted (Join (c :: l) "/") = false) as Hroot.
    { destruct c as [|a c]; [done|]. cbn in Hc. apply orb_false_iff in Hc as [Ha _].
      unfold is_rooted, HasPrefix.
      assert (∃ t, Join (String a c :: l) "/" = String a t) as [t ->] by (destruct l; eauto).
      cbn [String.prefix]. destruct (Ascii.ascii_dec _ a) as [<-|]; [|done]. done. }
    destruct (Join (c :: l) "/") eqn:HJ; [|by rewrite HS].
    exfalso. destruct c, l; done.
Qed.

Lemma Clean_idem p : Clean (Clean p) = Clean p.
Proof.
  unfold Clean at 1. pose proof (clean_stack_canonical (is_rooted p) p) as Hc.
  destruct (render_pieces _ _ Hc) as [H1 H2]. unfold clean_stack. fold (Clean p) in H1, H2.
  rewrite H1, H2, clean_canonical by done. done.
Qed.

(** A joined path is clean. *)
Lemma Clean_path_Join l : path_Join l ≠ "" → Clean (path_Join l) = path_Join l.
Proof.
  induction l as [|e l IH]; cbn [path_Join]; [done|].
  case_bool_decide; [done|]. intros _. apply Clean_idem.
Qed.

(** A name in a joined directory is what [filepath.Join] makes of the two. *)
Lemma path_Join_child d name :
  d ≠ "" → Clean d = d → d ≠ "/" → d ≠ "." → plain_name name → path_Join [d; name] = child d name.
Proof.
  intros Hd Hc H1 H2 Hn. cbn [path_Join]. rewrite bool_decide_eq_false_2 by done.
  change (Join [d; name] "/") with (d +:+ String slash name).
  rewrite Clean_child by congruence. by rewrite Hc.
Qed.

Lemma Clean_child_idem d name :
  Clean d = d → d ≠ "/" → d ≠ "." → plain_name name → Clean (child d name) = child d name.
Proof.
  intros Hc H1 H2 Hn. change (child d name) with (d +:+ String slash name) at 1.
  rewrite Clean_child by congruence. by rewrite Hc.
Qed.

(** A file in an entry of a directory. *)
Lemma path_Join_grandchild d name file :
  Clean d = d → d ≠ "/" → d ≠ "." → plain_name name → plain_name file →
  path_Join [child d name; file] = child (child d name) file.
Proof.
  intros Hc H1 H2 Hn Hf. pose proof (Base_child d name Hn) as Hb.
  pose proof (Clean_child_idem d name Hc H1 H2 Hn) as Hcc. destruct Hn as (N1 & N2 & N3 & N4).
  apply path_Join_child; [|done| | |done].
  - intros H. by rewrite H in Hb.
  - intros H. rewrite H in Hb. cbn in Hb. by subst.
  - intros H. rewrite H in Hb. cbn in Hb. by subst.
Qed.
