(* ===== verification/NodeManager.v ===== *)
(** * The agent's node-manager operator: [src/pkg/copilot-agent/nm] and [utils]

    On a node whose YARN version keeps only CPU cgroups, the agent mirrors the
    containers' CPU cgroups as memory cgroups, sets their limits, keeps the CPU
    shares of the parent, and kills containers on request. *)

From stdpp Require Import sorting.
From S2P Require Import Prelude GoStrings GoPath.

Local Open Scope string_scope.

(** ** The file system

    What the agent uses of Go's [os] package.  Nodes are keyed by clean path;
    [fs_faults] are the paths the operating system refuses to examine, create, change
    or remove. *)

Record FsNode := mkFsNode { node_dir : bool; node_perm : Z; node_data : string }.

Record FS := mkFS {
  fs_nodes : gmap string FsNode;
  fs_faults : gmap string error
}.

Definition is_dir (fs : FS) (p : string) : bool :=
  match fs_nodes fs !! p with Some n => node_dir n | None => false end.

(** The directory part of a clean path. *)
Definition parent_path (p : string) : string := Join (removelast (Split p slash)) "/".

Definition set_node (p : string) (n : FsNode) (fs : FS) : FS :=
  mkFS (<[p := n]> (fs_nodes fs)) (fs_faults fs).

Definition os_Mkdir (p : string) (perm : Z) : M FS unit := λ fs,
  match fs_faults fs !! p, fs_nodes fs !! p with
  | Some e, _ => (Err e, fs)
  | None, Some _ => (Err ("mkdir " +:+ p +:+ ": file exists"), fs)
  | None, None =>
      if is_dir fs (parent_path p) then (Ok tt, set_node p (mkFsNode true perm "") fs)
      else (Err ("mkdir " +:+ p +:+ ": no such file or directory"), fs)
  end.

(** The ancestors of a path and the path itself, the outermost first. *)
Definition path_prefixes (p : string) : list string :=
  let cs := Split p slash in
  (λ k, Join (take k cs) "/") <$> seq 1 (length cs).

Definition os_MkdirAll (p : string) (perm : Z) : M FS unit :=
  for_each (path_prefixes p) (λ q fs,
    match fs_nodes fs !! q, fs_faults fs !! q with
    | Some n, _ => if node_dir n then (Ok tt, fs) else (Err ("mkdir " +:+ q +:+ ": not a directory"), fs)
    | None, Some e => (Err e, fs)
    | None, None => (Ok tt, set_node q (mkFsNode true perm "") fs)
    end).

(** [None] when the error is [IsNotExist]. *)
Definition os_Stat (p : string) : M FS (option FsNode) := λ fs,
  match fs_faults fs !! p with
  | Some e => (Err e, fs)
  | None => (Ok (fs_nodes fs !! p), fs)
  end.

Definition os_Chmod (p : string) (perm : Z) : M FS unit := λ fs,
  match fs_faults fs !! p, fs_nodes fs !! p with
  | Some e, _ => (Err e, fs)
  | None, Some n => (Ok tt, set_node p (mkFsNode (node_dir n) perm (node_data n)) fs)
  | None, None => (Err ("chmod " +:+ p +:+ ": no such file or directory"), fs)
  end.

Definition under (p k : string) : Prop := k = p ∨ HasPrefix k (p +:+ "/") = true.
#[global] Instance under_dec p k : Decision (under p k).
Proof. unfold under. apply _. Defined.

(** Removal on a cgroup hierarchy, the only place the agent removes trees from.  The
    kernel refuses ([EBUSY]) to remove a directory that has processes, listed in its
    [cgroup.procs], or that still has subdirectories; the files of a directory cannot
    be removed by themselves and go with it. *)
Definition has_procs (fs : FS) (d : string) : bool :=
  match fs_nodes fs !! child d "cgroup.procs" with
  | Some f => negb (bool_decide (node_data f = ""))
  | None => false
  end.

(** There is a process in [d] or in a directory below it. *)
Definition occupied (fs : FS) (d : string) : Prop :=
  map_Exists (λ k _, under d k ∧ has_procs fs k = true) (fs_nodes fs).
#[global] Instance occupied_dec fs d : Decision (occupied fs d).
Proof. unfold occupied. apply _. Defined.

(** Directory [d] of the tree [p] stays: it is occupied, or it is on the way to or
    inside of a path of the tree that the operating system refuses. *)
Definition refused (fs : FS) (p d : string) : Prop :=
  occupied fs d ∨
  map_Exists (λ f _, is_Some (fs_nodes fs !! f) ∧ under p f ∧ (under d f ∨ under f d)) (fs_faults fs).
#[global] Instance refused_dec fs p d : Decision (refused fs p d).
Proof. unfold refused. apply _. Defined.

Definition cgroup_of (fs : FS) (k : string) : string := if is_dir fs k then k else parent_path k.

(** The tree is removed from the leaves upwards; what is refused stays. *)
Definition remove_tree (p : string) (fs : FS) : FS :=
  mkFS (filter (λ kv, ¬ (under p kv.1 ∧ ¬ refused fs p (cgroup_of fs kv.1))) (fs_nodes fs)) (fs_faults fs).

(** Removing a path that does not exist succeeds. *)
Definition os_RemoveAll (p : string) : M FS unit := λ fs,
  match fs_faults fs !! p with
  | Some e => (Err e, fs)
  | None =>
      let fs' := remove_tree p fs in
      if decide (map_Exists (λ k _, under p k) (fs_nodes fs'))
      then (Err ("unlinkat " +:+ p +:+ ": device or resource busy"), fs') else (Ok tt, fs')
  end.

(** The entries of a directory. *)
Definition entry_name (dir k : string) : option string :=
  if decide (HasPrefix k (dir +:+ "/") = true ∧ plain_name (Base k) ∧ k = child dir (Base k))
  then Some (Base k) else None.
Definition fs_children (fs : FS) (dir : string) : list (string * FsNode) :=
  if is_dir fs dir
  then omap (λ '(k, n), name ← entry_name dir k; Some (name, n)) (map_to_list (fs_nodes fs))
  else [].

(** [filepath.Walk] with a callback that stops at an error and skips
    subdirectories: the entries in the order of their names, up to the first that
    cannot be examined. *)
Definition name_le (a b : string * FsNode) : Prop := String.le a.1 b.1.
#[global] Instance name_le_dec a b : Decision (name_le a b).
Proof. unfold name_le. apply _. Defined.

Fixpoint until_fault (fs : FS) (dir : string) (l : list (string * FsNode)) : list (string * FsNode) :=
  match l with
  | [] => []
  | e :: rest =>
      match fs_faults fs !! child dir e.1 with
      | Some _ => []
      | None => e :: until_fault fs dir rest
      end
  end.

Definition walk_children (fs : FS) (dir : string) : list (string * FsNode) :=
  match fs_faults fs !! dir with
  | Some _ => []
  | None => until_fault fs dir (merge_sort name_le (fs_children fs dir))
  end.

(** ** Code outside the repository *)

(** [koordlet/util/system]: names and file helpers. *)
Class SystemApi := {
  CgroupCPUDir : string;
  CgroupMemDir : string;
  CPUProcsName : string;
  CPUSharesName : string;
  MemoryLimitName : string;
  MemoryOomGroupName : string;
  CommonFileRead : string → M FS string;
  CommonFileWrite : string → string → M FS unit;
  CommonFileWriteIfDifferent : string → string → M FS unit;
  FileExists : string → FS → bool
}.

(** [runc/libcontainer/cgroups]. *)
Class RuncApi := { cgroups_GetPids : string → M FS (list Z) }.

(** ** [utils.GetPids]

    The build for Linux asks [runc]; the build for other systems refuses. *)
Definition GetPids {RC : RuncApi} (cgroupPath : string) : M FS (list Z) := cgroups_GetPids cgroupPath.
Definition GetPids_unsupported (cgroupPath : string) : M FS (list Z) := throw "unsupported".

(** ** Containers *)

(** Floating-point fields, which are never computed with, are their IEEE bits. *)
Record YarnContainer := mkYarnContainer {
  YarnContainer_Id : string;
  YarnContainer_Appid : string;
  YarnContainer_State : string;
  YarnContainer_ExitCode : Z;
  YarnContainer_Diagnostics : string;
  YarnContainer_User : string;
  YarnContainer_TotalMemoryNeededMB : Z;
  YarnContainer_TotalVCoresNeeded : Z;
  YarnContainer_ContainerLogsLink : string;
  YarnContainer_NodeId : string;
  YarnContainer_MemUsed : Z;
  YarnContainer_MemMaxed : Z;
  YarnContainer_CpuUsed : Z;
  YarnContainer_CpuMaxed : Z;
  YarnContainer_ContainerLogFiles : list string
}.

Definition FinalContainerStates : list string :=
  [ "KILLING"; "DONE"; "LOCALIZATION_FAILED"; "CONTAINER_RESOURCES_CLEANINGUP";
    "CONTAINER_CLEANEDUP_AFTER_KILL"; "EXITED_WITH_FAILURE"; "EXITED_WITH_SUCCESS" ].

Definition IsFinalState (c : YarnContainer) : bool :=
  existsb (λ state, bool_decide (YarnContainer_State c = state)) FinalContainerStates.

(** [resty] against the node manager's REST interface (status code and decoded
    body), the kubelet, the cgroup watcher and [syscall.Kill], on environment [E]. *)
Record KubeletPod := mkKubeletPod {
  KubeletPod_Labels : option (gmap string string);
  KubeletPod_HostNetwork : bool;
  KubeletPod_PodIP : string
}.

Class AgentEnv (E : Type) := {
  resty_GetContainers : string → M E (Z * list YarnContainer);
  kubelet_GetAllPods : M E (list KubeletPod);
  watcher_AddWatch : string → M E unit;
  syscall_Kill : Z → Z → M E unit
}.

Definition SIGKILL : Z := 9.

(** ** State *)

(** The fixed fields of [NodeMangerOperator]; the endpoint and the base URL of the
    HTTP client, which change, are in [AgentState]. *)
Record NodeMangerOperator := mkNodeMangerOperator {
  CgroupRoot : string;
  CgroupPath : string;
  SyncMemoryCgroup : bool
}.

(** [ag_kills] records the signals sent, the latest first. *)
Record AgentState (E : Type) := mkAgentState {
  ag_fs : FS;
  ag_NMEndpoint : string;
  ag_baseURL : string;
  ag_kills : list (Z * Z);
  ag_env : E
}.
Arguments mkAgentState {E}.
Arguments ag_fs {E}.
Arguments ag_NMEndpoint {E}.
Arguments ag_baseURL {E}.
Arguments ag_kills {E}.
Arguments ag_env {E}.

(** ** [utils.DiffMap] *)

Definition DiffMap (m1 m2 : gset string) : gset string * gset string :=
  (list_to_set (filter (λ k1, k1 ∉ m2) (elements m1)),
   list_to_set (filter (λ k2, k2 ∉ m1) (elements m2))).

Section Operator.
Context {E : Type} {SA : SystemApi} {RC : RuncApi} {AE : AgentEnv E}.
Context (n : NodeMangerOperator).

Abbreviation AM := (M (AgentState E)).

Definition in_fs {A} (c : M FS A) : AM A :=
  zoom ag_fs (λ f s, mkAgentState f (ag_NMEndpoint s) (ag_baseURL s) (ag_kills s) (ag_env s)) c.
Definition in_agent_env {A} (c : M E A) : AM A :=
  zoom ag_env (λ e s, mkAgentState (ag_fs s) (ag_NMEndpoint s) (ag_baseURL s) (ag_kills s) e) c.

(** A function without a result logs its error and returns. *)
Definition quiet (c : AM unit) : AM unit := _ ← try c; mret tt.

(** ** Paths *)

Definition GenerateCgroupPath (containerID : string) : string :=
  path_Join [CgroupPath n; containerID].
Definition GenerateCgroupFullPath (cgroupSubSystem : string) : string :=
  path_Join [CgroupRoot n; cgroupSubSystem; CgroupPath n].

(** ** The node manager *)

Definition ListContainers : AM (list YarnContainer) :=
  s ← get_st;
  '(code, items) ← in_agent_env (resty_GetContainers (ag_baseURL s));
  if bool_decide (199 < code ∧ code < 300)%Z then mret items
  else throw ("code for ListContainer is " +:+ Itoa code).

Definition GetContainer (containerID : string) : AM YarnContainer :=
  items ← ListContainers;
  match first_such (λ c, bool_decide (YarnContainer_Id c = containerID)) items with
  | Some c => mret c
  | None => throw "container Not Found"
  end.

(** [nm_pod_discover.go]. *)
Definition ComponentLabelKey := "app.kubernetes.io/component".
Definition NodeManagerComponentLabelName := "node-manager".

Definition GetNMPodEndpoint : AM (string * bool) :=
  pods ← in_agent_env kubelet_GetAllPods;
  match first_such (λ pod, bool_decide
          (default "" (nil_lookup ComponentLabelKey (KubeletPod_Labels pod))
           = NodeManagerComponentLabelName)) pods with
  | Some pod => if KubeletPod_HostNetwork pod then mret ("localhost:8042", true)
                else mret (KubeletPod_PodIP pod +:+ ":8042", true)
  | None => mret ("", false)
  end.

Definition syncNMEndpoint : AM unit := quiet (
  '(endpoint, found) ← GetNMPodEndpoint;
  s ← get_st;
  if bool_decide (ag_NMEndpoint s = endpoint) then mret tt
  else modify (λ s, mkAgentState (ag_fs s) endpoint
         (if found : bool then "http://" +:+ endpoint else ag_baseURL s) (ag_kills s) (ag_env s))).

(** ** Memory cgroups *)

Definition MemoryMoveChargeAtImmigrateName := "memory.move_charge_at_immigrate".

Definition removeMemoryCgroup (fileName : string) : AM unit :=
  let basename := Base fileName in
  if negb (HasPrefix basename "container_") then mret tt
  else
    let memCgroupPath := path_Join [CgroupRoot n; CgroupMemDir; CgroupPath n; basename] in
    quiet (in_fs (os_RemoveAll memCgroupPath)).

(** [TotalMemoryNeededMB * 1024 * 1024] on a 64-bit [int]. *)
Definition memory_limit (c : YarnContainer) : Z :=
  int64 (int64 (YarnContainer_TotalMemoryNeededMB c * 1024) * 1024).

Definition createMemoryCgroup (fileName : string) : AM unit :=
  let basename := Base fileName in
  if negb (HasPrefix basename "container_") then mret tt
  else
    let memCgroupPath := path_Join [CgroupRoot n; CgroupMemDir; CgroupPath n; basename] in
    quiet (
      _ ← in_fs (os_Mkdir memCgroupPath 420);
      _ ← in_fs (CommonFileWriteIfDifferent
                   (path_Join [memCgroupPath; MemoryMoveChargeAtImmigrateName]) "3");
      _ ← in_fs (CommonFileWriteIfDifferent (path_Join [memCgroupPath; MemoryOomGroupName]) "1");
      let cpuCgroupPath := path_Join [CgroupRoot n; CgroupCPUDir; CgroupPath n; basename] in
      pids ← in_fs (GetPids cpuCgroupPath);
      _ ← for_each pids (λ pid,
            in_fs (CommonFileWrite (path_Join [memCgroupPath; CPUProcsName]) (Itoa pid)));
      container ← GetContainer basename;
      in_fs (CommonFileWriteIfDifferent (path_Join [memCgroupPath; MemoryLimitName])
               (Itoa (memory_limit container)))).

(** [subDirFunc]: the directories directly below [dir], by full path. *)
Definition subDirs (dir : string) (fs : FS) : gset string :=
  list_to_set ((λ '(name, _), child dir name) <$>
                 filter (λ p, node_dir p.2 = true) (walk_children fs dir)).

Definition syncAllCgroup : AM unit :=
  s ← get_st;
  let cpuList := subDirs (path_Join [CgroupRoot n; CgroupCPUDir; CgroupPath n]) (ag_fs s) in
  let memList := subDirs (path_Join [CgroupRoot n; CgroupMemDir; CgroupPath n]) (ag_fs s) in
  let '(toCreate, toDelete) := DiffMap cpuList memList in
  _ ← for_each (elements toCreate) createMemoryCgroup;
  for_each (elements toDelete) removeMemoryCgroup.

(** A container's CPU cgroup without processes is removed. *)
Definition syncNoneProcCgroup : AM unit :=
  let cpuPath := GenerateCgroupFullPath CgroupCPUDir in
  s ← get_st;
  for_each (filter (λ p, node_dir p.2 = true) (walk_children (ag_fs s) cpuPath)) (λ '(name, _),
    let path := child cpuPath name in
    read ← try (in_fs (CommonFileRead (path_Join [path; CPUProcsName])));
    match read with
    | inr _ => mret tt
    | inl data => if bool_decide (data = "") then quiet (in_fs (os_RemoveAll path)) else mret tt
    end).

Definition cpu_share (items : list YarnContainer) : Z :=
  foldl (λ acc con, if IsFinalState con then acc
                    else int64 (acc + int64 (YarnContainer_TotalVCoresNeeded con * 1024))) 0%Z items.

Definition syncParentCgroup : AM unit :=
  containers ← ListContainers;
  let allCpuShare := cpu_share containers in
  if bool_decide (0 < allCpuShare)%Z then
    let cpuPath := GenerateCgroupFullPath CgroupCPUDir in
    in_fs (CommonFileWriteIfDifferent (path_Join [cpuPath; CPUSharesName]) (Itoa allCpuShare))
  else mret tt.

Definition ensureCgroupDir (dir : string) : AM unit :=
  f ← in_fs (os_Stat dir);
  match f with
  | None => _ ← in_fs (os_MkdirAll dir 511); in_fs (os_Chmod dir 511)
  | Some f => if bool_decide (node_perm f ≠ 511%Z) then in_fs (os_Chmod dir 511) else mret tt
  end.

(** ** The event loop *)

Inductive NmEvent :=
| DirCreated (name : string)
| DirRemoved (name : string)
| UnknownEvent
| SyncTick
| NMTick
| StopSignal.

Definition nm_setup : AM unit :=
  let cpuDir := path_Join [CgroupRoot n; CgroupCPUDir; CgroupPath n] in
  _ ← ensureCgroupDir cpuDir;
  _ ← in_agent_env (watcher_AddWatch cpuDir);
  ensureCgroupDir (path_Join [CgroupRoot n; CgroupMemDir; CgroupPath n]).

(** One round of the [select]; [false] ends the loop. *)
Definition nm_step (e : NmEvent) : AM bool :=
  match e with
  | DirCreated name => _ ← createMemoryCgroup name; mret true
  | DirRemoved name => _ ← removeMemoryCgroup name; mret true
  | UnknownEvent => mret true
  | SyncTick => _ ← syncNoneProcCgroup; _ ← syncAllCgroup; _ ← try syncParentCgroup; mret true
  | NMTick => _ ← syncNMEndpoint; mret true
  | StopSignal => mret false
  end.

Fixpoint nm_loop (events : list NmEvent) : AM unit :=
  match events with
  | [] => mret tt
  | e :: rest => go ← nm_step e; if go : bool then nm_loop rest else mret tt
  end.

Definition nm_Run (events : list NmEvent) : AM unit :=
  if SyncMemoryCgroup n then _ ← nm_setup; nm_loop events else mret tt.

(** ** Killing *)

Definition getProcessGroupID (containerID : string) : AM Z :=
  let containerCgroupPath := path_Join [CgroupRoot n; "cpu"; CgroupPath n; containerID] in
  pids ← try (in_fs (GetPids containerCgroupPath));
  match pids with
  | inl (pid :: _) => mret pid
  | _ => mret 0%Z
  end.

Definition KillContainer (containerID : string) : AM unit :=
  processGroupID ← getProcessGroupID containerID;
  if bool_decide (processGroupID ≤ 1)%Z
  then throw ("invalid process group pid(" +:+ Itoa processGroupID +:+ ") for container " +:+ containerID)
  else
    _ ← modify (λ s, mkAgentState (ag_fs s) (ag_NMEndpoint s) (ag_baseURL s)
                       ((- processGroupID, SIGKILL)%Z :: ag_kills s) (ag_env s));
    in_agent_env (syscall_Kill (- processGroupID) SIGKILL).
End Operator.

(** ** [NewNodeMangerOperator]

    [watcher] is what [pleg.NewWatcher] returns; [time.NewTicker] panics on a period
    that is not positive.  Periods are in nanoseconds. *)

Definition NewTicker (d : Z) : outcome unit :=
  if bool_decide (0 < d)%Z then Ok tt else Panic "non-positive interval for NewTicker".

Definition NewNodeMangerOperator {E} (watcher : outcome unit) (cgroupRoot cgroupPath : string)
    (syncMemoryCgroup : bool) (endpoint : string) (syncPeriod : Z) (fs : FS) (env : E)
  : outcome (NodeMangerOperator * AgentState E) :=
  _ ← watcher;
  _ ← NewTicker syncPeriod;
  _ ← NewTicker 1000000000;
  mret (mkNodeMangerOperator cgroupRoot cgroupPath syncMemoryCgroup,
        mkAgentState fs endpoint ("http://" +:+ endpoint) [] env).
