(* ===== verification/NodeManagerProofs.v ===== *)
(** * Correctness of the node-manager operator *)

From stdpp Require Import sorting.
From S2P Require Import Prelude GoStrings GoPath NodeManager.

Local Open Scope string_scope.

Lemma DiffMap_difference m1 m2 : DiffMap m1 m2 = (m1 ∖ m2, m2 ∖ m1).
Proof.
  unfold DiffMap. f_equal; apply set_eq; intros k;
    rewrite elem_of_list_to_set, list_elem_of_filter, elem_of_elements, elem_of_difference; tauto.
Qed.

(** ** What the file helpers promise

    A helper changes at most the file it is given and makes no directory; reading
    changes nothing; the names it uses are plain and are not container names. *)

Definition is_container (name : string) : bool := HasPrefix name "container_".

Definition cgroup_file (name : string) : Prop := plain_name name ∧ is_container name = false.

Definition touches_only (p : string) (c : M FS unit) : Prop :=
  ∀ fs r fs', c fs = (r, fs') →
    (∀ w, r ≠ Panic w) ∧ fs_faults fs' = fs_faults fs ∧ is_dir fs' p = is_dir fs p ∧
    (∀ q, q ≠ p → fs_nodes fs' !! q = fs_nodes fs !! q).

Definition reads {A} (c : M FS A) : Prop :=
  ∀ fs r fs', c fs = (r, fs') → (∀ w, r ≠ Panic w) ∧ fs' = fs.

Class SystemLaws {SA : SystemApi} {RC : RuncApi} := {
  system_names : Forall cgroup_file
    [CPUProcsName; CPUSharesName; MemoryLimitName; MemoryOomGroupName];
  CommonFileRead_reads p : reads (CommonFileRead p);
  GetPids_reads p : reads (cgroups_GetPids p);
  CommonFileWrite_touches p d : touches_only p (CommonFileWrite p d);
  WriteIfDifferent_touches p d : touches_only p (CommonFileWriteIfDifferent p d)
}.

(** The kernel's bounds on [cpu.shares]. *)
Definition clamp_shares (v : Z) : Z := Z.max 2 (Z.min v 262144).

Lemma container_plain name :
  is_container name = true → contains_byte slash name = false → plain_name name.
Proof.
  unfold is_container. intros Hc Hs. apply HasPrefix_inv in Hc as [r ->]. by repeat split.
Qed.

(** ** Trees of paths *)

Lemma parent_child d c : plain_name c → parent_path (child d c) = d.
Proof.
  intros (_ & _ & _ & Hs). unfold parent_path, child. change ("/" +:+ c) with (String slash c).
  rewrite Split_app_sep, (Split_no_sep c) by done. rewrite removelast_last. apply Join_Split.
Qed.

Lemma child_longer d c : child d c ≠ d.
Proof.
  intros H. apply (f_equal String.length) in H. unfold child in H.
  rewrite !string_length_app in H. cbn in H. lia.
Qed.

Lemma under_self d c : ¬ under (child d c) d.
Proof.
  intros [H|H]; [by apply (child_longer d c)|]. apply HasPrefix_inv in H as [t H].
  apply (f_equal String.length) in H. unfold child in H. rewrite !string_length_app in H.
  cbn in H. lia.
Qed.

Lemma under_child d name : under d (child d name).
Proof.
  right. unfold child. rewrite <- string_app_assoc. apply HasPrefix_app.
Qed.

Lemma under_trans d e k : under d e → under e k → under d k.
Proof.
  intros [->|Hd] Hk; [done|]. right. apply HasPrefix_inv in Hd as [t ->].
  destruct Hk as [->|Hk]; [apply HasPrefix_app|].
  apply HasPrefix_inv in Hk as [u ->]. rewrite !string_app_assoc.
  rewrite <- (string_app_assoc d). apply HasPrefix_app.
Qed.

Lemma Join_app l1 l2 sep : l1 ≠ [] → l2 ≠ [] → Join (l1 ++ l2) sep = Join l1 sep +:+ sep +:+ Join l2 sep.
Proof.
  intros H1 H2. induction l1 as [|x [|y l1] IH]; [done| |].
  - destruct l2 as [|z l2]; [done|]. done.
  - change (Join ((x :: y :: l1) ++ l2) sep) with (x +:+ sep +:+ Join ((y :: l1) ++ l2) sep).
    rewrite IH by done. change (Join (x :: y :: l1) sep) with (x +:+ sep +:+ Join (y :: l1) sep).
    by rewrite !string_app_assoc.
Qed.

(** Below a directory, the directory of a path is below it too. *)
Lemma under_parent d k : under d k → k ≠ d → under d (parent_path k).
Proof.
  intros [->|H] Hne; [done|]. apply HasPrefix_inv in H as [t ->]. rewrite string_app_assoc.
  change ("/" +:+ t) with (String slash t). unfold parent_path. rewrite Split_app_sep.
  assert (Split t slash ≠ []) as Ht by (destruct t; cbn; [done|]; repeat case_match; done).
  assert (Split d slash ≠ []) as Hd by (destruct d; cbn; [done|]; repeat case_match; done).
  rewrite removelast_app by done. destruct (removelast (Split t slash)) as [|x l] eqn:Hr.
  - rewrite app_nil_r. left. apply Join_Split.
  - right. rewrite Join_app by done.
    change (Join (Split d slash) "/") with (Join (Split d slash) (String slash "")).
    rewrite Join_Split, <- string_app_assoc. apply HasPrefix_app.
Qed.

(** The trees of different entries of a directory have no path in common. *)
Lemma under_Split dir a k : plain_name a → under (child dir a) k →
  ∃ t, k = child dir t ∧ head (Split t slash) = Some a.
Proof.
  intros (_ & _ & _ & Ha) [->|H].
  - exists a. by rewrite Split_no_sep.
  - apply HasPrefix_inv in H as [t ->]. exists (a +:+ String slash t). split.
    + unfold child. by rewrite !string_app_assoc.
    + by rewrite Split_app.
Qed.

Lemma sibling_trees dir a b k :
  plain_name a → plain_name b → a ≠ b → under (child dir b) k → ¬ under (child dir a) k.
Proof.
  intros Ha Hb Hab (t & -> & Ht)%under_Split (u & Hu & Hh)%under_Split; [|done..].
  apply string_app_inj_l in Hu. injection Hu as ->. congruence.
Qed.

(** ** Removing a tree *)

Lemma remove_tree_lookup d fs k :
  fs_nodes (remove_tree d fs) !! k =
  if decide (under d k ∧ ¬ refused fs d (cgroup_of fs k)) then None else fs_nodes fs !! k.
Proof.
  unfold remove_tree. cbn [fs_nodes]. case_decide as H.
  - apply map_lookup_filter_None. right. intros nd _ Hn. by apply Hn.
  - destruct (fs_nodes fs !! k) as [nd|] eqn:Hnd; [by apply map_lookup_filter_Some|].
    apply map_lookup_filter_None. by left.
Qed.

Lemma remove_tree_kept d fs k : ¬ under d k → fs_nodes (remove_tree d fs) !! k = fs_nodes fs !! k.
Proof. intros Hk. rewrite remove_tree_lookup, decide_False by tauto. done. Qed.

Lemma refused_occupied fs p d : fs_faults fs = ∅ → refused fs p d ↔ occupied fs d.
Proof.
  intros Hf. unfold refused. rewrite Hf. split; [|by left]. intros [H|H]; [done|].
  by apply map_Exists_empty in H.
Qed.

(** Whether a directory is occupied depends on its tree only. *)
Lemma occupied_tree fs fs' d :
  (∀ k, under d k → fs_nodes fs' !! k = fs_nodes fs !! k) → occupied fs' d ↔ occupied fs d.
Proof.
  assert (∀ f f', (∀ k, under d k → fs_nodes f' !! k = fs_nodes f !! k) →
            occupied f d → occupied f' d) as H.
  { intros f f' Hk (k & nd & Hn & Hu & Hp). exists k, nd. rewrite Hk by done.
    split; [done|]. split; [done|]. unfold has_procs in *.
    rewrite Hk by (eapply under_trans; [done|apply under_child]). done. }
  intros Hk. split; apply H; [by intros k Hu; symmetry; apply Hk|done].
Qed.

(** What is removed depends on the tree only. *)
Lemma remove_tree_local d fs fs' k :
  fs_faults fs = ∅ → fs_faults fs' = ∅ → is_dir fs d = true →
  (∀ j, under d j → fs_nodes fs' !! j = fs_nodes fs !! j) → under d k →
  fs_nodes (remove_tree d fs') !! k =
  if decide (occupied fs (cgroup_of fs k)) then fs_nodes fs !! k else None.
Proof.
  intros Hf Hf' Hd Hs Hk. rewrite remove_tree_lookup, Hs by done.
  assert (cgroup_of fs' k = cgroup_of fs k) as -> by (unfold cgroup_of, is_dir; by rewrite Hs).
  assert (under d (cgroup_of fs k)) as Hu.
  { unfold cgroup_of. destruct (is_dir fs k) eqn:Hdk; [done|]. apply under_parent; [done|]. congruence. }
  assert (refused fs' d (cgroup_of fs k) ↔ occupied fs (cgroup_of fs k)) as Hiff.
  { rewrite refused_occupied by done. apply occupied_tree. intros j Hj. apply Hs.
    by eapply under_trans. }
  destruct (decide (occupied fs (cgroup_of fs k))) as [Ho|Ho].
  - rewrite decide_False; [done|]. intros [_ Hn]. by apply Hn, Hiff.
  - rewrite decide_True; [done|]. by rewrite Hiff.
Qed.

(** Whatever its answer, [RemoveAll] removes what can be removed. *)
Lemma RemoveAll_state d fs : fs_faults fs = ∅ → (os_RemoveAll d fs).2 = remove_tree d fs.
Proof. intros H. unfold os_RemoveAll. rewrite H, lookup_empty. cbn zeta. by case_decide. Qed.

Lemma RemoveAll_no_panic d fs w : (os_RemoveAll d fs).1 ≠ Panic w.
Proof. unfold os_RemoveAll. cbn zeta. repeat case_match; done. Qed.

Section Mirror.
Context {E : Type} {SA : SystemApi} {RC : RuncApi} {AE : AgentEnv E} {SL : SystemLaws}.
Context (n : NodeMangerOperator) (name : string).

Definition cpuDir : string := path_Join [CgroupRoot n; CgroupCPUDir; CgroupPath n].
Definition memDir : string := path_Join [CgroupRoot n; CgroupMemDir; CgroupPath n].

(** The environment calls return. *)
Hypothesis env_returns : ∀ url e w, (resty_GetContainers url (e : E)).1 ≠ Panic w.
Hypothesis root_set : CgroupRoot n ≠ "".
Hypothesis mem_proper : memDir ≠ "/" ∧ memDir ≠ ".".
Hypothesis Hname : plain_name name.
Hypothesis Hcont : is_container name = true.

Definition q : string := child memDir name.

Lemma memDir_clean : memDir = Clean (CgroupRoot n +:+ "/" +:+ CgroupMemDir +:+ "/" +:+ CgroupPath n).
Proof using root_set.
  unfold memDir. cbn [path_Join]. by rewrite bool_decide_eq_false_2 by done.
Qed.

Lemma memPath_child base : plain_name base →
  path_Join [CgroupRoot n; CgroupMemDir; CgroupPath n; base] = child memDir base.
Proof using root_set mem_proper.
  intros Hb. cbn [path_Join]. rewrite bool_decide_eq_false_2 by done. rewrite memDir_clean in *.
  rewrite <- Clean_child by (done || tauto). f_equal.
  cbn [Join]. by rewrite !string_app_assoc.
Qed.

Lemma path_Join_Base d f : d ≠ "" → cgroup_file f → path_Join [d; f] ≠ q.
Proof using Hname Hcont.
  intros Hd [Hf Hnc] Heq. cbn [path_Join] in Heq. rewrite bool_decide_eq_false_2 in Heq by done.
  change (Join [d; f] "/") with (d +:+ String slash f) in Heq.
  apply (f_equal Base) in Heq. unfold q in Heq.
  rewrite Base_Clean, Base_child in Heq by done. subst. congruence.
Qed.

(** The states the mirror runs in: no faults, the memory directory exists, and
    the container's entry in it is absent or a directory. *)
Definition ready (s : AgentState E) : Prop :=
  fs_faults (ag_fs s) = ∅ ∧ is_dir (ag_fs s) memDir = true ∧
  (∀ nd, fs_nodes (ag_fs s) !! q = Some nd → node_dir nd = true).

Definition has (s : AgentState E) : bool := is_dir (ag_fs s) q.

(** A process is in the container's memory cgroup or in a directory below it. *)
Definition busy (s : AgentState E) : bool := bool_decide (occupied (ag_fs s) q).

(** [c] returns, stays in those states, and relates the states before and after. *)
Definition effect {A} (R : relation (AgentState E)) (c : M (AgentState E) A) : Prop :=
  ∀ s, ready s → (∀ w, (c s).1 ≠ Panic w) ∧ ready (c s).2 ∧ R s (c s).2.

(** The tree of the container's memory cgroup is as before; whether it exists is as before. *)
Definition same_tree : relation (AgentState E) := λ s s',
  ∀ k, under q k → fs_nodes (ag_fs s') !! k = fs_nodes (ag_fs s) !! k.
Definition same_has : relation (AgentState E) := λ s s', has s' = has s.

#[local] Instance same_tree_preorder : PreOrder same_tree.
Proof. split; [by intros s k|]. intros s1 s2 s3 H1 H2 k Hk. by rewrite H2, H1. Qed.
#[local] Instance same_has_preorder : PreOrder same_has.
Proof. split; [by intros s|]. unfold same_has. intros s1 s2 s3 H1 H2. congruence. Qed.

Lemma same_tree_has s s' : same_tree s s' → has s' = has s ∧ busy s' = busy s.
Proof using.
  intros H. split; [unfold has, is_dir; by rewrite H by by left|].
  unfold busy. apply bool_decide_ext, occupied_tree, H.
Qed.

(** A continuation's relation [T] is absorbed by [R]. *)
Lemma effect_bind {A B} (R T : relation (AgentState E)) (c : M (AgentState E) A)
    (k : A → M (AgentState E) B) :
  (∀ s1 s2 s3, R s1 s2 → T s2 s3 → R s1 s3) →
  effect R c → (∀ a, effect T (k a)) → effect R (c ≫= k).
Proof using.
  intros HRT Hc Hk s Hs. destruct (Hc s Hs) as (Hp & Hr & HR). unfold mbind, M_bind.
  destruct (c s) as [[a|e|w] s1]; cbn in *; [|done|by destruct (Hp w)].
  destruct (Hk a s1 Hr) as (Hp2 & Hr2 & HT). eauto.
Qed.

(** Relations that are composed one after the other, when the first part cannot fail. *)
Lemma effect_seq {A B} (R T U : relation (AgentState E)) (c : M (AgentState E) A)
    (k : A → M (AgentState E) B) :
  (∀ s e, (c s).1 ≠ Err e) → (∀ s1 s2 s3, R s1 s2 → T s2 s3 → U s1 s3) →
  effect R c → (∀ a, effect T (k a)) → effect U (c ≫= k).
Proof using.
  intros He HU Hc Hk s Hs. destruct (Hc s Hs) as (Hp & Hr & HR). specialize (He s).
  unfold mbind, M_bind.
  destruct (c s) as [[a|e|w] s1]; cbn in *; [|by destruct (He e)|by destruct (Hp w)].
  destruct (Hk a s1 Hr) as (Hp2 & Hr2 & HT). eauto.
Qed.

Lemma effect_quiet R c : effect R c → effect R (quiet c).
Proof using.
  intros Hc s Hs. destruct (Hc s Hs) as (Hp & Hr & Hf). unfold quiet, mbind, M_bind, try.
  destruct (c s) as [[a|e|w] s1]; cbn in *; [done|done|by destruct (Hp w)].
Qed.

Lemma quiet_no_err (c : M (AgentState E) unit) s e : (quiet c s).1 ≠ Err e.
Proof using. unfold quiet, mbind, M_bind, try. by destruct (c s) as [[a|e'|w] s1]. Qed.

Section Relation.
Context (R : relation (AgentState E)) `{!PreOrder R}.

Lemma effect_pure {A} (c : M (AgentState E) A) :
  (∀ s, (c s).2 = s ∧ ∀ w, (c s).1 ≠ Panic w) → effect R c.
Proof using PreOrder0. intros Hc s Hs. destruct (Hc s) as [-> Hp]. done. Qed.

Lemma effect_reads {A} (c : M FS A) : reads c → effect R (in_fs c).
Proof using PreOrder0.
  intros Hc s Hs. unfold in_fs, zoom. destruct (c (ag_fs s)) as [r fs'] eqn:H.
  apply Hc in H as [Hp ->]. cbn. by destruct s.
Qed.

Lemma effect_for_each {A} (l : list A) (c : A → M (AgentState E) unit) :
  (∀ x, x ∈ l → effect R (c x)) → effect R (for_each l c).
Proof using PreOrder0.
  induction l as [|x l IH]; cbn [for_each]; intros Hc; [by apply effect_pure|].
  apply effect_bind with R; [by intros; etrans|apply Hc; by left|].
  intros _. apply IH. intros y Hy. apply Hc. by right.
Qed.

Hypothesis R_env : ∀ s e, R s (mkAgentState (ag_fs s) (ag_NMEndpoint s) (ag_baseURL s) (ag_kills s) e).

Lemma effect_GetContainer id0 : effect R (GetContainer (E:=E) id0).
Proof using env_returns PreOrder0 R_env.
  assert (∀ s1 s2 s3, R s1 s2 → R s2 s3 → R s1 s3) as Htr by (intros; by etrans).
  unfold GetContainer, ListContainers. apply effect_bind with R; [done| |].
  - apply effect_bind with R; [done|by apply effect_pure|]. intros s0.
    apply effect_bind with R; [done| |].
    + intros s Hs. unfold in_agent_env, zoom. specialize (env_returns (ag_baseURL s0) (ag_env s)).
      destruct (resty_GetContainers _ _) as [r e']. cbn in *. auto.
    + intros [code items]. by case_match; apply effect_pure.
  - intros items. by case_match; apply effect_pure.
Qed.
End Relation.

Lemma touches_ready p c s : p ≠ q → touches_only p c → ready s →
  (∀ w, (in_fs c s).1 ≠ Panic w) ∧ ready (in_fs c s).2 ∧
  (∀ k, k ≠ p → fs_nodes (ag_fs (in_fs c s).2) !! k = fs_nodes (ag_fs s) !! k).
Proof using.
  intros Hne Hc (Hf & Hm & Hq). unfold in_fs, zoom. destruct (c (ag_fs s)) as [r fs'] eqn:H.
  apply Hc in H as (Hp & Hf' & Hd & Hn). unfold ready. cbn [ag_fs fst snd].
  split; [done|]. split; [|done]. split; [congruence|]. split.
  - destruct (decide (memDir = p)) as [Hmp|Hmp]; [by subst p; rewrite Hd|].
    unfold is_dir in *. by rewrite Hn.
  - rewrite Hn by done. exact Hq.
Qed.

Lemma touches_has p c : p ≠ q → touches_only p c → effect same_has (in_fs c).
Proof using.
  intros Hne Hc s Hs. destruct (touches_ready p c s Hne Hc Hs) as (? & ? & Hk).
  split; [done|]. split; [done|]. unfold same_has, has, is_dir. by rewrite Hk.
Qed.

Lemma touches_tree p c : ¬ under q p → touches_only p c → effect same_tree (in_fs c).
Proof using.
  intros Hnu Hc s Hs. destruct (touches_ready p c s) as (? & ? & Hk); [|done..|].
  { intros ->. apply Hnu. by left. }
  split; [done|]. split; [done|]. intros k Hu. apply Hk. congruence.
Qed.

Lemma set_node_ready base nd s : base ≠ name ∨ node_dir nd = true →
  ready s → ready (mkAgentState (set_node (child memDir base) nd (ag_fs s))
                     (ag_NMEndpoint s) (ag_baseURL s) (ag_kills s) (ag_env s)).
Proof using.
  intros Hb (Hf & Hm & Hq). unfold ready, set_node, is_dir. cbn [ag_fs fs_faults fs_nodes].
  rewrite lookup_insert_ne by apply child_longer. split; [done|]. split; [exact Hm|].
  intros nd'. destruct (decide (base = name)) as [->|Hne].
  - fold q. rewrite lookup_insert_eq. intros [= <-]. by destruct Hb as [[]|Hb].
  - rewrite lookup_insert_ne; [apply Hq|]. intros Heq. apply string_app_inj_l in Heq. injection Heq as Heq. by apply Hne.
Qed.

(** Making the container's directory, when it is missing and when it exists. *)
Lemma mkdir_name perm :
  effect (λ _ s', has s' = true) (in_fs (os_Mkdir q perm)).
Proof using Hname.
  intros s Hs. pose proof Hs as (Hf & Hm & Hq). unfold in_fs, zoom, os_Mkdir.
  assert (parent_path q = memDir) as Hpar by by apply parent_child.
  rewrite Hf, lookup_empty, Hpar, Hm.
  destruct (fs_nodes (ag_fs s) !! q) as [nd|] eqn:Hnode; cbn [ag_fs fst snd].
  - split; [done|]. split; [by destruct s|]. unfold has, is_dir. cbn [ag_fs].
    by rewrite Hnode, (Hq nd).
  - split; [done|]. split; [apply set_node_ready; [by right|done]|].
    unfold has, is_dir, set_node. cbn [ag_fs fs_nodes]. fold q. by rewrite lookup_insert_eq.
Qed.

Lemma mkdir_other base perm : plain_name base → base ≠ name →
  effect same_tree (in_fs (os_Mkdir (child memDir base) perm)).
Proof using Hname.
  intros Hb Hne s Hs. pose proof Hs as (Hf & Hm & Hq). unfold in_fs, zoom, os_Mkdir.
  rewrite Hf, lookup_empty, parent_child, Hm by done.
  destruct (fs_nodes (ag_fs s) !! child memDir base) as [nd|] eqn:Hnode; cbn [ag_fs fst snd].
  - split; [done|]. split; [by destruct s|]. by intros k Hk.
  - split; [done|]. split; [apply set_node_ready; [by left|done]|]. intros k Hk.
    unfold set_node. cbn [ag_fs fs_nodes]. apply lookup_insert_ne. intros <-.
    apply (sibling_trees memDir base name (child memDir base)) in Hk; [|done..].
    apply Hk. by left.
Qed.

Lemma mem_child_nonempty base : child memDir base ≠ "".
Proof using mem_proper. unfold child. by destruct memDir. Qed.

(** What the files of a created cgroup need for a relation on states. *)
Lemma effect_create R T f : PreOrder T →
  (∀ s e, T s (mkAgentState (ag_fs s) (ag_NMEndpoint s) (ag_baseURL s) (ag_kills s) e)) →
  (∀ s1 s2 s3, R s1 s2 → T s2 s3 → R s1 s3) →
  is_container (Base f) = true → plain_name (Base f) →
  (∀ perm, effect R (in_fs (os_Mkdir (child memDir (Base f)) perm))) →
  (∀ file c, cgroup_file file → let p := path_Join [child memDir (Base f); file] in
     touches_only p c → effect T (in_fs c)) →
  effect R (createMemoryCgroup n f).
Proof using SL env_returns root_set mem_proper.
  intros HT Henv HRT Hc Hb Hmk Htouch. unfold createMemoryCgroup. fold (is_container (Base f)).
  rewrite Hc. cbn [negb]. rewrite memPath_child by done. apply effect_quiet.
  pose proof system_names as Hnames. rewrite !list.Forall_cons in Hnames.
  destruct Hnames as (H1 & H2 & H3 & H4 & _).
  assert (cgroup_file MemoryMoveChargeAtImmigrateName) as H5 by (by repeat split).
  assert (∀ s1 s2 s3, T s1 s2 → T s2 s3 → T s1 s3) as Htr by (intros; by etrans).
  apply effect_bind with T; [done|apply Hmk|]. intros _.
  apply effect_bind with T; [done|eapply Htouch, WriteIfDifferent_touches; done|]. intros _.
  apply effect_bind with T; [done|eapply Htouch, WriteIfDifferent_touches; done|]. intros _.
  apply effect_bind with T; [done|by apply effect_reads, GetPids_reads|]. intros pids.
  apply effect_bind with T; [done| |].
  { apply effect_for_each; [done|]. intros pid _. eapply Htouch, CommonFileWrite_touches. done. }
  intros _. apply effect_bind with T; [done|by apply effect_GetContainer|]. intros c.
  eapply Htouch, WriteIfDifferent_touches. done.
Qed.

Lemma create_name f : Base f = name → effect (λ _ s', has s' = true) (createMemoryCgroup n f).
Proof using SL env_returns root_set mem_proper Hname Hcont.
  intros Hf. apply effect_create with same_has; rewrite ?Hf; try done; [apply _| |apply mkdir_name|].
  - unfold same_has. intros s1 s2 s3. congruence.
  - intros file c Hfile p Hp. eapply touches_has, Hp. apply path_Join_Base; [apply mem_child_nonempty|done].
Qed.

(** Where the directory exists, nothing is done. *)
Lemma create_again f s : Base f = name → ready s → has s = true → createMemoryCgroup n f s = (Ok tt, s).
Proof using root_set mem_proper Hname Hcont.
  intros Hf (Hfl & _ & _) Hh. unfold createMemoryCgroup. rewrite Hf. fold (is_container name).
  rewrite Hcont. cbn [negb]. rewrite memPath_child by done. fold q.
  unfold has, is_dir in Hh. destruct (fs_nodes (ag_fs s) !! q) as [nd|] eqn:Hq; [|done].
  unfold quiet, try. unfold mbind, M_bind. unfold in_fs at 1, zoom at 1, os_Mkdir.
  rewrite Hfl, lookup_empty, Hq. by destruct s.
Qed.

Lemma other_file base file : plain_name base → base ≠ name → plain_name file →
  ¬ under q (path_Join [child memDir base; file]).
Proof using root_set mem_proper Hname.
  intros Hb Hne Hf. rewrite path_Join_grandchild; [|rewrite memDir_clean; apply Clean_idem|apply mem_proper|apply mem_proper|done..].
  apply (sibling_trees memDir name base); [done..|]. apply under_child.
Qed.

Lemma create_other f : plain_name (Base f) → Base f ≠ name → effect same_tree (createMemoryCgroup n f).
Proof using SL env_returns root_set mem_proper Hname.
  intros Hb Hne. destruct (is_container (Base f)) eqn:Hc.
  - apply effect_create with same_tree; try done; [apply _| | |].
    + intros s1 s2 s3 H1 H2. by etrans.
    + intros perm. by apply mkdir_other.
    + intros file c [Hfile _] p Hp. eapply touches_tree, Hp. by apply other_file.
  - unfold createMemoryCgroup. fold (is_container (Base f)). rewrite Hc.
    apply effect_pure; [apply _|done].
Qed.

(** Removing the container's directory, and another one. *)
Lemma remove_effect base R : plain_name base →
  (∀ s s', ready s → ag_fs s' = remove_tree (child memDir base) (ag_fs s) → ready s' → R s s') →
  effect R (in_fs (os_RemoveAll (child memDir base))).
Proof using Hname.
  intros Hb HR s Hs. pose proof Hs as (Hf & Hm & Hq).
  pose proof (RemoveAll_no_panic (child memDir base) (ag_fs s)) as Hnp.
  pose proof (RemoveAll_state (child memDir base) (ag_fs s) Hf) as Hst.
  unfold in_fs, zoom. destruct (os_RemoveAll _ _) as [r fs'] eqn:Hrun. cbn [fst snd] in *. subst fs'.
  assert (ready (mkAgentState (remove_tree (child memDir base) (ag_fs s)) (ag_NMEndpoint s)
                   (ag_baseURL s) (ag_kills s) (ag_env s))) as Hr.
  { unfold ready, is_dir. cbn [ag_fs]. split; [done|].
    rewrite remove_tree_kept by apply under_self. split; [exact Hm|].
    intros nd. rewrite remove_tree_lookup. case_decide; [done|]. apply Hq. }
  split; [done|]. split; [done|]. by apply HR.
Qed.

Lemma delete_name f : Base f = name →
  effect (λ s s', has s' = has s && busy s) (removeMemoryCgroup (E:=E) n f).
Proof using root_set mem_proper Hname Hcont.
  intros Hf. unfold removeMemoryCgroup. rewrite Hf. fold (is_container name). rewrite Hcont. cbn [negb].
  rewrite memPath_child by done. apply effect_quiet, remove_effect; [done|].
  intros s s' (Hfl & _) Hs' _. unfold has, busy, is_dir. rewrite Hs', remove_tree_lookup. fold q.
  unfold cgroup_of, is_dir.
  destruct (fs_nodes (ag_fs s) !! q) as [nd|] eqn:Hq; [|by case_decide].
  destruct (node_dir nd) eqn:Hd; cbn [andb]; [|by case_decide].
  rewrite (bool_decide_ext _ _ (iff_sym (refused_occupied (ag_fs s) q q Hfl))).
  case_decide as Hr.
  - rewrite bool_decide_eq_false_2; tauto.
  - rewrite bool_decide_eq_true_2; [done|]. apply dec_stable. intros Hn. apply Hr. by split; [left|].
Qed.

Lemma delete_other f : plain_name (Base f) → Base f ≠ name →
  effect same_tree (removeMemoryCgroup (E:=E) n f).
Proof using root_set mem_proper Hname.
  intros Hb Hne. unfold removeMemoryCgroup. fold (is_container (Base f)).
  destruct (is_container (Base f)) eqn:Hc; cbn [negb]; [|apply effect_pure; [apply _|done]].
  rewrite memPath_child by done. apply effect_quiet, remove_effect; [done|].
  intros s s' _ Hs' _ k Hk. rewrite Hs'. apply remove_tree_kept.
  by apply (sibling_trees memDir (Base f) name).
Qed.

Lemma create_no_err f (s : AgentState E) e : (createMemoryCgroup n f s).1 ≠ Err e.
Proof using. unfold createMemoryCgroup. case_match; [done|]. apply quiet_no_err. Qed.
Lemma delete_no_err f (s : AgentState E) e : (removeMemoryCgroup n f s).1 ≠ Err e.
Proof using. unfold removeMemoryCgroup. case_match; [done|]. apply quiet_no_err. Qed.

Lemma bind_no_err {A B} (c : M (AgentState E) A) (k : A → M (AgentState E) B) :
  (∀ s e, (c s).1 ≠ Err e) → (∀ a s e, (k a s).1 ≠ Err e) → ∀ s e, ((c ≫= k) s).1 ≠ Err e.
Proof using.
  intros Hc Hk s e. unfold mbind, M_bind. specialize (Hc s).
  destruct (c s) as [[a|e1|w] s1]; cbn in *; [apply Hk|by destruct (Hc e1)|done].
Qed.

Lemma for_each_no_err {A} (f : A → M (AgentState E) unit) l :
  (∀ x s e, (f x s).1 ≠ Err e) → ∀ s e, (for_each l f s).1 ≠ Err e.
Proof using.
  intros Hf. induction l as [|x l IH]; intros s e; cbn [for_each]; [done|].
  by apply bind_no_err.
Qed.

(** A loop over entries of a directory: the container's entry is met once, or not at
    all, and the others do not touch its memory cgroup. *)
Section Entries.
Context (op : string → M (AgentState E) unit) (dir : string) (l : list string).
Hypothesis op_no_err : ∀ f s e, (op f s).1 ≠ Err e.
Hypothesis op_other : ∀ f, plain_name (Base f) → Base f ≠ name → effect same_tree (op f).
Hypothesis entries : ∀ f, f ∈ l → ∃ nm, plain_name nm ∧ f = child dir nm.

Lemma others_loop l' : (∀ f, f ∈ l' → f ∈ l) → child dir name ∉ l' → effect same_tree (for_each l' op).
Proof using op_other entries.
  intros Hsub Hnot. apply effect_for_each; [apply _|]. intros f Hf.
  destruct (entries f (Hsub f Hf)) as (nm & Hpl & ->).
  apply op_other; rewrite Base_child by done; [done|]. by intros ->.
Qed.

Lemma once_loop R : NoDup l → child dir name ∈ l →
  (∀ s1 s2 s3 s4, same_tree s1 s2 → R s2 s3 → same_tree s3 s4 → R s1 s4) →
  effect R (op (child dir name)) → effect R (for_each l op).
Proof using op_no_err op_other entries.
  intros Hnd Hin HR Hop. destruct (list_elem_of_split _ _ Hin) as (l1 & l2 & Heq).
  rewrite Heq in Hnd. apply list.NoDup_app in Hnd as (_ & H1 & H2).
  apply list.NoDup_cons in H2 as [H2 _].
  assert (effect R (_ ← for_each l1 op; for_each (child dir name :: l2) op)) as Heff.
  { apply (effect_seq same_tree (λ s s', ∃ s1, R s s1 ∧ same_tree s1 s')).
    - by apply for_each_no_err.
    - intros s1 s2 s3 H12 (s4 & H24 & H43). eauto.
    - apply others_loop; [intros f Hf; rewrite Heq; apply elem_of_app; by left|]. intros Hx. apply (H1 _ Hx). by left.
    - intros _. cbn [for_each]. apply (effect_seq R same_tree); [done|by eauto|done|].
      intros _. apply others_loop; [intros f Hf; rewrite Heq; apply elem_of_app; right; by right|done]. }
  intros s Hs. rewrite Heq. rewrite for_each_app. by apply Heff.
Qed.
End Entries.

Lemma walk_children_perm dir fs :
  fs_faults fs = ∅ → walk_children fs dir ≡ₚ fs_children fs dir.
Proof using.
  intros Hf. unfold walk_children. rewrite Hf, lookup_empty.
  trans (merge_sort name_le (fs_children fs dir)); [|by rewrite merge_sort_Permutation].
  generalize (merge_sort name_le (fs_children fs dir)) as l. intros l.
  induction l as [|e l IH]; cbn [until_fault]; [done|]. by rewrite Hf, lookup_empty, IH.
Qed.

Lemma elem_of_subDirs dir fs f : fs_faults fs = ∅ →
  f ∈ subDirs dir fs ↔
  is_dir fs dir = true ∧ ∃ nm, plain_name nm ∧ f = child dir nm ∧ is_dir fs f = true.
Proof using.
  intros Hf0. unfold subDirs. rewrite elem_of_list_to_set, list_elem_of_fmap.
  setoid_rewrite (walk_children_perm dir fs Hf0). unfold fs_children.
  destruct (is_dir fs dir) eqn:Hd.
  2: { split; [|by intros [[=] _]]. intros ([nm nd] & _ & Hin). by apply list_elem_of_filter in Hin as [_ ?%elem_of_nil]. }
  split.
  - intros ([nm nd] & -> & [Hnd Hin]%list_elem_of_filter). split; [done|].
    apply list_elem_of_omap in Hin as ([k nd'] & Hk & Hen). unfold entry_name in Hen.
    case_decide as He; [|done]. cbn in Hen. injection Hen as <- <-.
    destruct He as (_ & Hpl & Hkc). exists (Base k). split; [done|]. split; [done|].
    rewrite <- Hkc. unfold is_dir. apply elem_of_map_to_list in Hk. by rewrite Hk.
  - intros (_ & nm & Hpl & -> & Hdir). unfold is_dir in Hdir.
    destruct (fs_nodes fs !! child dir nm) as [nd|] eqn:Hnd; [|done].
    exists (nm, nd). split; [done|]. apply list_elem_of_filter. split; [done|].
    apply list_elem_of_omap. exists (child dir nm, nd).
    split; [by apply elem_of_map_to_list|]. unfold entry_name. rewrite Base_child by done.
    rewrite decide_True; [done|]. split; [|done]. unfold child.
    rewrite <- string_app_assoc. apply HasPrefix_app.
Qed.

Lemma subDirs_disjoint fs f : fs_faults fs = ∅ → cpuDir ≠ memDir → f ∈ subDirs cpuDir fs → f ∉ subDirs memDir fs.
Proof using.
  intros Hf Hne (_ & n1 & Hp1 & -> & _)%elem_of_subDirs (_ & n2 & Hp2 & Heq & _)%elem_of_subDirs;
    [|done..]. by apply child_inj in Heq as [? _].
Qed.

Lemma entry_cpu fs : fs_faults fs = ∅ → is_dir fs cpuDir = true → cpuDir ≠ memDir →
  child cpuDir name ∈ elements (subDirs cpuDir fs ∖ subDirs memDir fs) ↔
  is_dir fs (child cpuDir name) = true.
Proof using Hname.
  intros Hf Hd Hne. rewrite elem_of_elements, elem_of_difference. split.
  - intros [(_ & nm & _ & _ & H)%elem_of_subDirs _]; done.
  - intros H. assert (child cpuDir name ∈ subDirs cpuDir fs) as Hin
      by (apply elem_of_subDirs; eauto). split; [done|]. by eapply subDirs_disjoint.
Qed.

Lemma entry_mem fs : fs_faults fs = ∅ → is_dir fs memDir = true → cpuDir ≠ memDir →
  q ∈ elements (subDirs memDir fs ∖ subDirs cpuDir fs) ↔ is_dir fs q = true.
Proof using Hname.
  intros Hf Hd Hne. rewrite elem_of_elements, elem_of_difference. split.
  - intros [(_ & nm & _ & _ & H)%elem_of_subDirs _]; done.
  - intros H. assert (q ∈ subDirs memDir fs) as Hin by (apply elem_of_subDirs; [done|];
      split; [done|]; by exists name). split; [done|]. intros Hc.
    by eapply subDirs_disjoint in Hc.
Qed.

Lemma subDirs_entries (X : gset string) dir fs : fs_faults fs = ∅ →
  ∀ f, f ∈ elements (subDirs dir fs ∖ X) → ∃ nm, plain_name nm ∧ f = child dir nm.
Proof using.
  intros Hf f [Hin _]%elem_of_elements%elem_of_difference.
  apply elem_of_subDirs in Hin as (_ & nm & ? & ? & _); eauto.
Qed.

(** The creations: a container without a memory cgroup has one afterwards if it has a
    CPU cgroup; a memory cgroup that was there is untouched. *)
Lemma create_all s : ready s → is_dir (ag_fs s) cpuDir = true → cpuDir ≠ memDir →
  let l := elements (subDirs cpuDir (ag_fs s) ∖ subDirs memDir (ag_fs s)) in
  let s' := (for_each l (createMemoryCgroup n) s).2 in
  (∀ w, (for_each l (createMemoryCgroup n) s).1 ≠ Panic w) ∧ ready s' ∧
  has s' = has s || is_dir (ag_fs s) (child cpuDir name) ∧ (has s = true → same_tree s s').
Proof using SL env_returns root_set mem_proper Hname Hcont.
  intros Hs Hcpu Hne l. pose proof Hs as (Hfl & _). cbn zeta.
  pose proof (subDirs_entries (subDirs memDir (ag_fs s)) cpuDir (ag_fs s) Hfl) as Hent.
  fold l in Hent. pose proof (entry_cpu (ag_fs s) Hfl Hcpu Hne) as Hin. fold l in Hin.
  destruct (is_dir (ag_fs s) (child cpuDir name)) eqn:Hd.
  - assert (effect (λ s s', has s' = true ∧ (has s = true → same_tree s s'))
              (for_each l (createMemoryCgroup n))) as Heff.
    { eapply once_loop; [apply create_no_err|apply create_other|exact Hent|apply NoDup_elements|by apply Hin| |].
      - intros s1 s2 s3 s4 H12 [H3 H23] H34. destruct (same_tree_has _ _ H12) as [Hh _].
        destruct (same_tree_has _ _ H34) as [Hh' _]. rewrite Hh'. split; [done|].
        intros Hs1. rewrite <- Hh in Hs1. etrans; [done|]. etrans; [by apply H23|done].
      - intros s1 Hs1. destruct (create_name (child cpuDir name)) with s1 as (Hp & Hr & Hh);
          [by rewrite Base_child|done|]. split; [done|]. split; [done|]. split; [done|].
        intros Hhas. rewrite create_again; [done|by rewrite Base_child|done..]. }
    destruct (Heff s Hs) as (Hp & Hr & Hh & Ht). rewrite Hh, orb_true_r. done.
  - assert (effect same_tree (for_each l (createMemoryCgroup n))) as Heff.
    { eapply others_loop; [apply create_other|exact Hent|done|]. rewrite Hin. done. }
    destruct (Heff s Hs) as (Hp & Hr & Ht). rewrite orb_false_r.
    split; [done|]. split; [done|]. split; [by apply same_tree_has|done].
Qed.

(** The removals: what the kernel does not refuse to remove is gone. *)
Lemma delete_all s fs : ready s → fs_faults fs = ∅ → is_dir fs memDir = true → cpuDir ≠ memDir →
  let l := elements (subDirs memDir fs ∖ subDirs cpuDir fs) in
  let s' := (for_each l (removeMemoryCgroup n) s).2 in
  (∀ w, (for_each l (removeMemoryCgroup n) s).1 ≠ Panic w) ∧ ready s' ∧
  has s' = if is_dir fs q then has s && busy s else has s.
Proof using root_set mem_proper Hname Hcont.
  intros Hs Hfl Hmem Hne l. cbn zeta.
  pose proof (subDirs_entries (subDirs cpuDir fs) memDir fs Hfl) as Hent.
  fold l in Hent. pose proof (entry_mem fs Hfl Hmem Hne) as Hin. fold l in Hin.
  destruct (is_dir fs q) eqn:Hd.
  - assert (effect (λ s s', has s' = has s && busy s) (for_each l (removeMemoryCgroup (E:=E) n))) as Heff.
    { eapply once_loop; [apply delete_no_err|apply delete_other|exact Hent|apply NoDup_elements|by apply Hin| |].
      - intros s1 s2 s3 s4 (Hh & Hb)%same_tree_has H23 (Hh' & _)%same_tree_has. congruence.
      - apply delete_name. by rewrite Base_child. }
    by apply Heff.
  - assert (effect same_tree (for_each l (removeMemoryCgroup (E:=E) n))) as Heff.
    { eapply others_loop; [apply delete_other|exact Hent|done|]. fold q. rewrite Hin. done. }
    destruct (Heff s Hs) as (Hp & Hr & Ht). split; [done|]. split; [done|]. by apply same_tree_has.
Qed.

(** C16 The periodic resync compares full paths below two different directories, so
    every CPU cgroup is "to create" and every memory cgroup "to delete".  Where both
    directories exist, the operating system refuses no path (the kernel's [EBUSY] apart)
    and the calls to the node manager return, a
    container without a memory cgroup has one afterwards exactly if it has a CPU cgroup;
    a container with a memory cgroup keeps it exactly if a process is in it or in a
    directory below it, because the kernel then refuses the removal, whether or not it
    still has its CPU cgroup.  So a memory cgroup without processes of a container that
    is there is removed by one resync and made again by the next. *)
Theorem resync_keeps_only_occupied s :
  ready s → is_dir (ag_fs s) cpuDir = true → cpuDir ≠ memDir →
  ∃ s', syncAllCgroup n s = (Ok tt, s') ∧ ready s' ∧
    has s' = if has s then busy s else is_dir (ag_fs s) (child cpuDir name).
Proof using SL env_returns root_set mem_proper Hname Hcont.
  intros Hs Hcpu Hne. pose proof Hs as (Hfl & Hmem & _).
  unfold syncAllCgroup. erewrite M_bind_ok by reflexivity. fold cpuDir memDir.
  rewrite DiffMap_difference. cbv beta iota.
  destruct (create_all s Hs Hcpu Hne) as (Hp1 & Hr1 & Hh1 & Ht1).
  pose proof (for_each_no_err _ (elements (subDirs cpuDir (ag_fs s) ∖ subDirs memDir (ag_fs s)))
                create_no_err s) as He1.
  destruct (for_each _ (createMemoryCgroup n) s) as [[[]|e|w] s1] eqn:H1; cbn [fst snd] in *;
    [|by destruct (He1 e)|by destruct (Hp1 w)].
  erewrite M_bind_ok by exact H1.
  destruct (delete_all s1 (ag_fs s) Hr1 Hfl Hmem Hne) as (Hp2 & Hr2 & Hh2).
  pose proof (for_each_no_err _ (elements (subDirs memDir (ag_fs s) ∖ subDirs cpuDir (ag_fs s)))
                delete_no_err s1) as He2.
  destruct (for_each _ (removeMemoryCgroup n) s1) as [[[]|e|w] s2] eqn:H2; cbn [fst snd] in *;
    [|by destruct (He2 e)|by destruct (Hp2 w)].
  exists s2. split; [done|]. split; [done|]. rewrite Hh2, Hh1. fold (has s).
  destruct (has s) eqn:Hhas; cbn [orb andb]; [|done].
  by destruct (same_tree_has s s1 (Ht1 eq_refl)) as [_ ->].
Qed.
End Mirror.

(** ** Systems other than Linux *)

Definition other_system : RuncApi := {| cgroups_GetPids := GetPids_unsupported |}.

(** The build for other systems finds no process of any container: a kill is refused
    and signals nothing. *)
Lemma unsupported_never_kills {E} {AE : AgentEnv E} n id (s : AgentState E) :
  KillContainer (RC:=other_system) n id s =
  (Err ("invalid process group pid(0) for container " +:+ id), s).
Proof. by destruct s. Qed.

(** ** A node with one running container *)

Module OneContainer.
(** Writing stores the contents in a file that is not a directory. *)
Definition write_file (p d : string) : M FS unit := λ fs,
  if is_dir fs p then (Err ("open " +:+ p +:+ ": is a directory"), fs)
  else (Ok tt, set_node p (mkFsNode false 420 d) fs).

Definition read_file (p : string) : M FS string := λ fs,
  match fs_nodes fs !! p with
  | Some nd => if node_dir nd then (Err "is a directory", fs) else (Ok (node_data nd), fs)
  | None => (Err "no such file or directory", fs)
  end.

(** The kernel keeps the shares of a CPU cgroup within bounds. *)
Definition kernel_text (p d : string) : string :=
  if bool_decide (Base p = "cpu.shares")
  then match Atoi d with Ok v => Itoa (clamp_shares v) | _ => d end else d.

#[global] Instance system : SystemApi := {|
  CgroupCPUDir := "cpu/";
  CgroupMemDir := "memory/";
  CPUProcsName := "cgroup.procs";
  CPUSharesName := "cpu.shares";
  MemoryLimitName := "memory.limit_in_bytes";
  MemoryOomGroupName := "memory.oom.group";
  CommonFileRead := read_file;
  CommonFileWrite := write_file;
  CommonFileWriteIfDifferent := λ p d, write_file p (kernel_text p d);
  FileExists := λ p fs, bool_decide (is_Some (fs_nodes fs !! p))
|}.

Definition one_pid (p : string) : M FS (list Z) := mret [4711%Z].
#[global] Instance runc : RuncApi := {| cgroups_GetPids := one_pid |}.

Lemma write_file_touches p d : touches_only p (write_file p d).
Proof.
  intros fs r fs'. unfold write_file. destruct (is_dir fs p) eqn:Hd; intros [= <- <-].
  - done.
  - split; [done|]. split; [done|]. split.
    + unfold is_dir, set_node. cbn [fs_nodes]. by rewrite lookup_insert_eq.
    + intros q' Hq. unfold set_node. cbn [fs_nodes]. by rewrite lookup_insert_ne.
Qed.

Lemma read_file_reads p : reads (read_file p).
Proof. intros fs r fs'. unfold read_file. repeat case_match; by intros [= <- <-]. Qed.

Lemma one_pid_reads p : reads (one_pid p).
Proof. intros fs r fs'. by intros [= <- <-]. Qed.

#[global] Instance system_laws : SystemLaws.
Proof.
  split.
  - repeat constructor; done.
  - apply read_file_reads.
  - apply one_pid_reads.
  - apply write_file_touches.
  - intros p d. apply write_file_touches.
Qed.

Definition c1 : YarnContainer :=
  mkYarnContainer "container_1" "app_1" "RUNNING" (-1000) "" "hadoop" 2048 2 "" "" 0 0 0 0 [].

#[global] Instance agent_env : AgentEnv unit := {|
  resty_GetContainers := λ _, mret (200%Z, [c1]);
  kubelet_GetAllPods := mret [mkKubeletPod (Some {[ "app.kubernetes.io/component" := "node-manager" ]}) true ""];
  watcher_AddWatch := λ _, mret tt;
  syscall_Kill := λ _ _, mret tt
|}.

Definition operator : NodeMangerOperator := mkNodeMangerOperator "/cg" "yarn" true.
Definition dir : FsNode := mkFsNode true 511 "".
Definition node_fs : FS :=
  mkFS (list_to_map [("/cg/cpu/yarn", dir); ("/cg/cpu/yarn/container_1", dir);
                     ("/cg/memory/yarn", dir)]) ∅.
Definition node_state : AgentState unit := mkAgentState node_fs "localhost:8042" "http://localhost:8042" [] tt.
Definition after_resync : AgentState unit := (syncAllCgroup operator node_state).2.

(** The container's memory cgroup exists and no process was moved to it. *)
Definition empty_mirror : AgentState unit :=
  mkAgentState (set_node "/cg/memory/yarn/container_1" dir node_fs) "localhost:8042" "http://localhost:8042" [] tt.

Lemma env_returns url (e : unit) (w : string) : (resty_GetContainers url e).1 ≠ Panic w.
Proof. done. Qed.
Lemma root_set : CgroupRoot operator ≠ "".
Proof. done. Qed.
Lemma mem_proper : memDir operator ≠ "/" ∧ memDir operator ≠ ".".
Proof. by vm_compute. Qed.
Lemma name_plain : plain_name "container_1".
Proof. by repeat split. Qed.
Lemma dirs_differ : cpuDir operator ≠ memDir operator.
Proof. by vm_compute. Qed.

Lemma initially_ready : ready operator "container_1" node_state.
Proof. by repeat split. Qed.
End OneContainer.
Import OneContainer.

(** The container gets a memory cgroup, with its process, on the first resync and keeps
    it on the next; on a node where its memory cgroup has no process, it loses it. *)
Lemma resync_keeps_only_occupied_witness :
  (∃ s', syncAllCgroup operator node_state = (Ok tt, s') ∧ ready operator "container_1" s' ∧
     has operator "container_1" s' = true) ∧
  (∃ s', syncAllCgroup operator after_resync = (Ok tt, s') ∧ ready operator "container_1" s' ∧
     has operator "container_1" s' = true) ∧
  (∃ s', syncAllCgroup operator empty_mirror = (Ok tt, s') ∧ ready operator "container_1" s' ∧
     has operator "container_1" s' = false).
Proof.
  split; [|split].
  - exact (resync_keeps_only_occupied operator "container_1" env_returns root_set mem_proper
             name_plain eq_refl node_state initially_ready eq_refl dirs_differ).
  - refine (resync_keeps_only_occupied operator "container_1" env_returns root_set mem_proper
             name_plain eq_refl after_resync _ _ dirs_differ).
    + repeat split; [vm_compute; reflexivity..|]. vm_compute. by intros nd [= <-].
    + vm_compute. reflexivity.
  - refine (resync_keeps_only_occupied operator "container_1" env_returns root_set mem_proper
             name_plain eq_refl empty_mirror _ _ dirs_differ).
    + repeat split; [vm_compute; reflexivity..|]. vm_compute. by intros nd [= <-].
    + vm_compute. reflexivity.
Defined.
