(* ===== verification/CgroupSweep.v ===== *)
(** * The periodic sweep of CPU cgroups: [syncNoneProcCgroup] and [syncParentCgroup]

    What one tick of the agent does to the CPU hierarchy: containers' cgroups without
    processes are removed, and the parent's shares follow the running containers. *)

From stdpp Require Import sorting.
From S2P Require Import Prelude GoStrings GoPath NodeManager NodeManagerProofs.

Local Open Scope string_scope.

(** What the file helpers promise about contents: reading a file looks at that file
    only, and a successful write of [cpu.shares] leaves the value in it that the kernel
    makes of it. *)
Class FileLaws {SA : SystemApi} := {
  CommonFileRead_local p fs fs' :
    fs_nodes fs !! p = fs_nodes fs' !! p → (CommonFileRead p fs).1 = (CommonFileRead p fs').1;
  shares_stored d v fs fs' :
    let p := path_Join [d; CPUSharesName] in
    in_int64 v → (0 < v)%Z → CommonFileWriteIfDifferent p (Itoa v) fs = (Ok tt, fs') →
    node_data <$> fs_nodes fs' !! p = Some (Itoa (clamp_shares v))
}.

Section Sweep.
Context {E : Type} {SA : SystemApi} {RC : RuncApi} {AE : AgentEnv E}.
Context {SL : SystemLaws} {FL : FileLaws} (n : NodeMangerOperator).

Definition cpuPath : string := GenerateCgroupFullPath n CgroupCPUDir.

Hypothesis cpu_proper : cpuPath ≠ "" ∧ cpuPath ≠ "/" ∧ cpuPath ≠ ".".

(** A directory whose list of processes is empty. *)
Definition idle (fs : FS) (d : string) : Prop :=
  (CommonFileRead (path_Join [d; CPUProcsName]) fs).1 = Ok "".
#[global] Instance idle_dec fs d : Decision (idle fs d).
Proof. unfold idle. apply _. Defined.

(** The loop on file systems. *)
Definition sweep_one (fs : FS) (name : string) : FS :=
  if decide (idle fs (child cpuPath name)) then remove_tree (child cpuPath name) fs else fs.
Definition sweep (fs : FS) (names : list string) : FS := foldl sweep_one fs names.

Lemma procs_path name : plain_name name →
  path_Join [child cpuPath name; CPUProcsName] = child (child cpuPath name) CPUProcsName.
Proof using cpu_proper SL.
  intros Hn. destruct cpu_proper as (H0 & H1 & H2).
  apply path_Join_grandchild; [by apply Clean_path_Join|done..|].
  pose proof (system_names) as Hs. inversion Hs as [|? ? [Hf _] _]. exact Hf.
Qed.

(** A visit changes nothing in the trees of the other entries. *)
Lemma sweep_one_sibling fs a b k : plain_name a → plain_name b → a ≠ b →
  under (child cpuPath b) k → fs_nodes (sweep_one fs a) !! k = fs_nodes fs !! k.
Proof using.
  intros Ha Hb Hab Hk. unfold sweep_one. case_decide; [|done].
  by apply remove_tree_kept, (sibling_trees cpuPath a b).
Qed.

Lemma sweep_sibling names fs b k : Forall plain_name names → plain_name b → b ∉ names →
  under (child cpuPath b) k → fs_nodes (sweep fs names) !! k = fs_nodes fs !! k.
Proof using.
  intros Hn Hb Hnot Hk. revert fs Hnot. induction Hn as [|a names Ha Hn IH]; intros fs Hnot; [done|].
  apply not_elem_of_cons in Hnot as [Hab Hnot]. cbn [sweep foldl].
  fold (sweep (sweep_one fs a) names). rewrite IH by done. by eapply sweep_one_sibling.
Qed.

Lemma sweep_faults fs names : fs_faults (sweep fs names) = fs_faults fs.
Proof using.
  revert fs. induction names as [|a l IH]; intros fs; cbn [sweep foldl]; [done|].
  unfold sweep in IH. rewrite IH. unfold sweep_one. by case_decide.
Qed.

Lemma idle_tree fs fs' b : plain_name b →
  (∀ k, under (child cpuPath b) k → fs_nodes fs' !! k = fs_nodes fs !! k) →
  idle fs' (child cpuPath b) ↔ idle fs (child cpuPath b).
Proof using cpu_proper SL FL.
  intros Hb Hs. unfold idle. rewrite procs_path by done.
  rewrite (CommonFileRead_local _ _ fs); [done|]. apply Hs, under_child.
Qed.

(** What the sweep does to the tree of an entry is what the visit of that entry does. *)
Lemma sweep_tree names fs a k :
  Forall plain_name names → NoDup names → a ∈ names → under (child cpuPath a) k →
  ∃ fs1, fs_faults fs1 = fs_faults fs ∧
    (∀ j, under (child cpuPath a) j → fs_nodes fs1 !! j = fs_nodes fs !! j) ∧
    fs_nodes (sweep fs names) !! k = fs_nodes (sweep_one fs1 a) !! k.
Proof using.
  intros Hn Hnd Hin Hk. destruct (list_elem_of_split _ _ Hin) as (l1 & l2 & ->).
  apply Forall_app in Hn as [Hn1 [Ha Hn2]%list.Forall_cons].
  apply list.NoDup_app in Hnd as (_ & H1 & [H2 _]%list.NoDup_cons).
  exists (sweep fs l1). split; [apply sweep_faults|].
  assert (a ∉ l1) as Hnot by (intros Hx; apply (H1 _ Hx); by left).
  split; [intros j Hj; by eapply sweep_sibling|].
  unfold sweep. rewrite foldl_app. cbn [foldl]. by eapply sweep_sibling.
Qed.

Lemma sweep_idle names fs a k :
  Forall plain_name names → NoDup names → fs_faults fs = ∅ → a ∈ names →
  is_dir fs (child cpuPath a) = true → idle fs (child cpuPath a) → under (child cpuPath a) k →
  fs_nodes (sweep fs names) !! k =
  if decide (occupied fs (cgroup_of fs k)) then fs_nodes fs !! k else None.
Proof using cpu_proper SL FL.
  intros Hn Hnd Hf Ha Hd Hi Hk.
  destruct (sweep_tree names fs a k Hn Hnd Ha Hk) as (fs1 & Hf1 & Hs & ->).
  assert (plain_name a) as Hpa by (by eapply (proj1 (list.Forall_forall _ _) Hn)).
  unfold sweep_one. rewrite decide_True by by apply (idle_tree fs). apply (remove_tree_local (child cpuPath a)); [done|congruence|done..].
Qed.

Lemma sweep_keeps names fs k :
  Forall plain_name names → NoDup names →
  (∀ a, a ∈ names → idle fs (child cpuPath a) → ¬ under (child cpuPath a) k) →
  fs_nodes (sweep fs names) !! k = fs_nodes fs !! k.
Proof using cpu_proper SL FL.
  intros Hn Hnd Hno.
  destruct (decide (Exists (λ a, under (child cpuPath a) k) names)) as [Hex|Hex].
  - apply list.Exists_exists in Hex as (a & Ha & Hk).
    destruct (sweep_tree names fs a k Hn Hnd Ha Hk) as (fs1 & _ & Hs & ->).
    assert (plain_name a) as Hpa by (by eapply (proj1 (list.Forall_forall _ _) Hn)).
    unfold sweep_one. rewrite decide_False; [by apply Hs|].
    intros Hi%(idle_tree fs); [|done..]. by eapply Hno.
  - clear Hno Hnd. rewrite <- Forall_Exists_neg in Hex. revert fs.
    induction Hex as [|a names Ha _ IH]; intros fs; [done|]. cbn [sweep foldl].
    fold (sweep (sweep_one fs a) names). inversion Hn; subst. rewrite IH by done.
    unfold sweep_one. case_decide; [|done]. by apply remove_tree_kept.
Qed.

Definition with_fs (fs : FS) (s : AgentState E) : AgentState E :=
  mkAgentState fs (ag_NMEndpoint s) (ag_baseURL s) (ag_kills s) (ag_env s).

(** The entries the walk visits. *)
Definition visited (fs : FS) : list string :=
  (filter (λ p, node_dir p.2 = true) (walk_children fs cpuPath)).*1.

Lemma sweep_run s :
  fs_faults (ag_fs s) = ∅ →
  syncNoneProcCgroup n s = (Ok tt, with_fs (sweep (ag_fs s) (visited (ag_fs s))) s).
Proof using SL.
  intros Hf. unfold syncNoneProcCgroup. erewrite M_bind_ok by reflexivity.
  fold cpuPath. unfold visited. set (l := filter _ _). clearbody l. revert s Hf.
  induction l as [|[name nd] l IH]; intros s Hf; [by destruct s|].
  cbn [for_each fmap list_fmap sweep foldl fst].
  match goal with |- (?c ≫= _) s = _ =>
    enough (c s = (Ok tt, with_fs (sweep_one (ag_fs s) name) s)) as Hb end.
  { erewrite M_bind_ok by exact Hb. rewrite IH by (cbn [with_fs ag_fs]; unfold sweep_one; by case_decide). done. }
  unfold sweep_one. set (pp := path_Join _). unfold mbind, M_bind, try, in_fs, zoom.
  destruct (CommonFileRead pp (ag_fs s)) as [r fs'] eqn:Hr.
  assert (idle (ag_fs s) (child cpuPath name) ↔ r = Ok "") as Hi
    by (unfold idle; fold pp; by rewrite Hr).
  pose proof (CommonFileRead_reads pp _ _ _ Hr) as [Hp ->].
  destruct r as [d|e|w]; [|by rewrite decide_False by (by rewrite Hi); destruct s|by destruct (Hp w)].
  case_bool_decide as Hd.
  - subst d. rewrite decide_True by by apply Hi. unfold quiet, try, mbind, M_bind. cbn [ag_fs].
    pose proof (RemoveAll_state (child cpuPath name) (ag_fs s) Hf) as Hst.
    pose proof (RemoveAll_no_panic (child cpuPath name) (ag_fs s)) as Hnp.
    destruct (os_RemoveAll _ _) as [[[]|e|w] fs']; cbn [fst snd] in *; subst fs'; [done..|].
    by destruct (Hnp w).
  - rewrite decide_False by (rewrite Hi; congruence). by destruct s.
Qed.

Lemma entry_name_Some dir k nm : entry_name dir k = Some nm → plain_name nm ∧ k = child dir nm.
Proof using. unfold entry_name. case_decide as H; [|done]. intros [= <-]. apply H. Qed.

Lemma children_names dir (l : list (string * FsNode)) :
  NoDup l.*1 →
  let es := omap (λ '(k, nd), name ← entry_name dir k; Some (name, nd)) l in
  Forall plain_name es.*1 ∧ NoDup es.*1 ∧ (∀ a, a ∈ es.*1 → child dir a ∈ l.*1).
Proof using.
  induction l as [|[k nd] l IH]; cbn [fmap list_fmap fst]; intros Hnd.
  { split; [done|]. split; [constructor|]. by intros a ?%elem_of_nil. }
  apply list.NoDup_cons in Hnd as [Hk Hnd]. destruct (IH Hnd) as (IH1 & IH2 & IH3).
  cbn [omap list_omap]. destruct (entry_name dir k) as [nm|] eqn:He; cbn [mbind option_bind].
  - apply entry_name_Some in He as [Hp ->]. cbn [fmap list_fmap fst]. split; [by constructor|]. split.
    + constructor; [|done]. by intros Hin%IH3.
    + intros a [->|Ha]%elem_of_cons; [by left|right; auto].
  - split; [done|]. split; [done|]. intros a Ha. right. auto.
Qed.

Lemma visited_names fs :
  fs_faults fs = ∅ → Forall plain_name (visited fs) ∧ NoDup (visited fs).
Proof using.
  intros Hf. unfold visited.
  assert (Forall plain_name (fs_children fs cpuPath).*1 ∧ NoDup (fs_children fs cpuPath).*1) as [H1 H2].
  { unfold fs_children. destruct (is_dir _ _); [|by split; constructor].
    destruct (children_names cpuPath (map_to_list (fs_nodes fs))) as (? & ? & _); [|done].
    apply NoDup_fst_map_to_list. }
  rewrite <- (walk_children_perm cpuPath fs Hf) in H1, H2.
  assert (sublist (filter (λ p : string * FsNode, node_dir p.2 = true) (walk_children fs cpuPath)).*1
                  (walk_children fs cpuPath).*1) as Hsub.
  { clear. induction (walk_children fs cpuPath) as [|e l IH]; [done|]. rewrite filter_cons.
    case_decide; cbn [fmap list_fmap]; by constructor. }
  split; [|by eapply sublist_NoDup].
  apply list.Forall_forall. intros a Ha. apply (proj1 (list.Forall_forall _ _) H1).
  by eapply elem_of_submseteq, sublist_submseteq.
Qed.

Lemma visited_subDirs fs d :
  d ∈ subDirs cpuPath fs ↔ ∃ a, a ∈ visited fs ∧ d = child cpuPath a.
Proof using.
  unfold subDirs, visited. rewrite elem_of_list_to_set, list_elem_of_fmap.
  setoid_rewrite list_elem_of_fmap. split.
  - intros ([a nd] & -> & Hin). exists a. split; [|done]. by exists (a, nd).
  - intros (a & ([a' nd] & -> & Hin) & ->). by exists (a', nd).
Qed.

(** C17 Where the operating system refuses no path, a sweep ends and removes exactly the
    containers' CPU cgroups that list no process, up to what the kernel refuses: of the
    tree of such a directory, the directories that are occupied, with a process in them
    or in a directory below, stay with their files, and everything else is gone; every
    file outside of these trees is as before.  Nothing else runs during the sweep; the
    list of processes is read at each visit, and it is the one of the start because no
    visit changes the tree of another container. *)
Theorem sweep_removes_idle s :
  fs_faults (ag_fs s) = ∅ →
  ∃ fs', syncNoneProcCgroup n s = (Ok tt, with_fs fs' s) ∧ fs_faults fs' = ∅ ∧
    ∀ k,
      (∀ d, d ∈ subDirs cpuPath (ag_fs s) → idle (ag_fs s) d → under d k →
        fs_nodes fs' !! k =
        if decide (occupied (ag_fs s) (cgroup_of (ag_fs s) k)) then fs_nodes (ag_fs s) !! k else None) ∧
      ((∀ d, d ∈ subDirs cpuPath (ag_fs s) → idle (ag_fs s) d → ¬ under d k) →
       fs_nodes fs' !! k = fs_nodes (ag_fs s) !! k).
Proof using cpu_proper SL FL.
  intros Hf. eexists. split; [by apply sweep_run|]. split; [by rewrite sweep_faults|]. intros k.
  destruct (visited_names (ag_fs s) Hf) as [Hn Hnd]. split.
  - intros d Hd Hi Hu. pose proof Hd as (_ & _ & _ & _ & Hdir)%elem_of_subDirs; [|done].
    apply visited_subDirs in Hd as (a & Ha & ->). by eapply sweep_idle.
  - intros Hno. apply sweep_keeps; [done..|]. intros a Ha. apply Hno, visited_subDirs. eauto.
Qed.

(** ** The parent's shares *)

(** The cores of the containers that are not in a final state. *)
Definition running_vcores (items : list YarnContainer) : Z :=
  foldr (λ c acc, YarnContainer_TotalVCoresNeeded c + acc)%Z 0%Z
    (filter (λ c, IsFinalState c = false) items).

Lemma cpu_share_sum items : cpu_share items = int64 (1024 * running_vcores items).
Proof using.
  unfold cpu_share, running_vcores.
  enough (∀ acc, foldl (λ acc con, if IsFinalState con then acc
            else int64 (acc + int64 (YarnContainer_TotalVCoresNeeded con * 1024))) (int64 acc) items =
          int64 (acc + 1024 * foldr (λ c acc, YarnContainer_TotalVCoresNeeded c + acc) 0
                   (filter (λ c, IsFinalState c = false) items)))%Z as H by apply (H 0%Z).
  induction items as [|c items IH]; intros acc; cbn [foldl].
  { rewrite filter_nil. cbn [foldr]. f_equal. lia. }
  rewrite filter_cons. destruct (IsFinalState c); [by rewrite decide_False by done|].
  rewrite decide_True by done. cbn [foldr]. rewrite swrap_add_l, swrap_add_r, IH. f_equal. lia.
Qed.

Lemma shares_multiple x : (0 < int64 (1024 * x) → 1024 ≤ int64 (1024 * x))%Z.
Proof using.
  intros H. enough (int64 (1024 * x) mod 1024 = 0)%Z as Hm.
  { pose proof (Z.div_mod (int64 (1024 * x)) 1024). lia. }
  unfold swrap. rewrite (Z.mod_eq _ (2 ^ 64)) by lia. generalize ((1024 * x + 2 ^ (64 - 1)) / 2 ^ 64)%Z as t. intros t.
  replace (1024 * x + 2 ^ (64 - 1) - 2 ^ 64 * t - 2 ^ (64 - 1))%Z with ((x - 2 ^ 54 * t) * 1024)%Z by lia.
  by apply Z.mod_mul.
Qed.

(** C31 When the node manager answers and the tick's write succeeds, the tick leaves the
    parent cgroup with 1024 CPU shares per core of the containers that are not in a final
    state, up to the kernel's limit of 262144 (256 cores), where it stops; the sum is
    computed modulo 2^64, so exactly while it fits; with a sum that is not positive
    nothing is written and the previous shares stay. *)
Theorem parent_shares_follow_containers s code items env' s' :
  resty_GetContainers (ag_baseURL s) (ag_env s) = (Ok (code, items), env') →
  (199 < code < 300)%Z →
  syncParentCgroup n s = (Ok tt, s') →
  let shares := int64 (1024 * running_vcores items) in
  ((0 < shares)%Z →
   node_data <$> fs_nodes (ag_fs s') !! path_Join [cpuPath; CPUSharesName] =
   Some (Itoa (Z.min shares 262144))) ∧
  ((shares ≤ 0)%Z → ag_fs s' = ag_fs s) ∧
  (in_int64 (1024 * running_vcores items) → shares = 1024 * running_vcores items)%Z.
Proof using FL.
  intros Hget Hcode. unfold syncParentCgroup, ListContainers.
  rewrite M_bind_assoc. erewrite M_bind_ok by reflexivity. rewrite M_bind_assoc.
  erewrite M_bind_ok by (unfold in_agent_env, zoom; by rewrite Hget).
  cbv beta iota. rewrite bool_decide_eq_true_2 by lia. erewrite M_bind_ok by reflexivity.
  rewrite cpu_share_sum. cbn zeta. pose proof (shares_multiple (running_vcores items)) as Hmul.
  assert (in_int64 (int64 (1024 * running_vcores items))) as Hin by apply swrap64_range.
  set (shares := int64 _) in *.
  case_bool_decide as Hpos.
  - unfold in_fs, zoom. fold cpuPath.
    destruct (CommonFileWriteIfDifferent _ _ _) as [r fs'] eqn:Hw. intros [= -> <-].
    split; [|split; [lia|by apply swrap64_id]]. intros _. cbn [ag_fs].
    rewrite (shares_stored _ _ _ _ Hin Hpos Hw). unfold clamp_shares. do 2 f_equal. lia.
  - intros [= <-]. split; [lia|]. split; [done|]. by apply swrap64_id.
Qed.
End Sweep.

(** ** A node with a busy container, an idle one, and one with a process in a subdirectory *)

Module SweepRun.
Import OneContainer.

Lemma shares_Base d : Base (path_Join [d; "cpu.shares"]) = "cpu.shares".
Proof.
  destruct (decide (d = "")) as [->|Hd]; [done|]. cbn [path_Join].
  rewrite bool_decide_eq_false_2 by done. change (Join [d; "cpu.shares"] "/") with (d +:+ String slash "cpu.shares").
  apply Base_Clean. by repeat split.
Qed.

#[global] Instance file_laws : FileLaws.
Proof.
  split.
  - intros p fs fs' H. cbn. unfold read_file. rewrite H. by repeat case_match.
  - intros d v fs fs' p Hin Hv. cbn [CommonFileWriteIfDifferent system]. unfold write_file, kernel_text.
    rewrite (bool_decide_eq_true_2 (Base p = "cpu.shares")), Atoi_Itoa by (done || apply shares_Base).
    destruct (is_dir fs p); [by intros [=]|]. intros [= <-]. unfold set_node. cbn [fs_nodes].
    by rewrite lookup_insert_eq.
Qed.

Definition file (d : string) : FsNode := mkFsNode false 420 d.
Definition mixed_fs : FS :=
  mkFS (list_to_map [("/cg/cpu/yarn", dir);
    ("/cg/cpu/yarn/container_1", dir); ("/cg/cpu/yarn/container_1/cgroup.procs", file "4711");
    ("/cg/cpu/yarn/container_2", dir); ("/cg/cpu/yarn/container_2/cgroup.procs", file "");
    ("/cg/cpu/yarn/container_3", dir); ("/cg/cpu/yarn/container_3/cgroup.procs", file "");
    ("/cg/cpu/yarn/container_3/sub", dir); ("/cg/cpu/yarn/container_3/sub/cgroup.procs", file "815")]) ∅.
Definition mixed : AgentState unit := mkAgentState mixed_fs "nm:8042" "http://nm:8042" [] tt.
Definition swept : AgentState unit := (syncNoneProcCgroup operator mixed).2.
Definition shared : AgentState unit := (syncParentCgroup operator mixed).2.

Lemma cpu_proper : cpuPath operator ≠ "" ∧ cpuPath operator ≠ "/" ∧ cpuPath operator ≠ ".".
Proof. by vm_compute. Qed.

Lemma visited_container nm : plain_name nm → is_dir mixed_fs (child "/cg/cpu/yarn" nm) = true →
  child "/cg/cpu/yarn" nm ∈ subDirs (cpuPath operator) (ag_fs mixed).
Proof.
  assert (cpuPath operator = "/cg/cpu/yarn") as -> by (vm_compute; reflexivity).
  intros Hp Hd. apply elem_of_subDirs; [reflexivity|]. split; [vm_compute; reflexivity|]. by exists nm.
Qed.

Lemma sweep_removes_idle_witness :
  fs_nodes (ag_fs swept) !! "/cg/cpu/yarn/container_1/cgroup.procs" = Some (file "4711") ∧
  ∃ fs', syncNoneProcCgroup operator mixed = (Ok tt, with_fs fs' mixed) ∧
    fs_nodes fs' !! "/cg/cpu/yarn/container_2/cgroup.procs" = None ∧
    fs_nodes fs' !! "/cg/cpu/yarn/container_3/sub/cgroup.procs" = Some (file "815").
Proof.
  split; [vm_compute; reflexivity|].
  destruct (sweep_removes_idle operator cpu_proper mixed eq_refl) as (fs' & Hrun & _ & H).
  exists fs'. split; [exact Hrun|]. split.
  - rewrite (proj1 (H _) "/cg/cpu/yarn/container_2"); [vm_compute; reflexivity| | |].
    + apply (visited_container "container_2"); [by repeat split|reflexivity].
    + vm_compute; reflexivity.
    + right. vm_compute. reflexivity.
  - rewrite (proj1 (H _) "/cg/cpu/yarn/container_3"); [vm_compute; reflexivity| | |].
    + apply (visited_container "container_3"); [by repeat split|reflexivity].
    + vm_compute; reflexivity.
    + right. vm_compute. reflexivity.
Defined.

Lemma parent_shares_follow_containers_witness :
  node_data <$> fs_nodes (ag_fs shared) !! "/cg/cpu/yarn/cpu.shares" = Some "2048".
Proof.
  refine (proj1 (parent_shares_follow_containers operator mixed 200 [c1] tt shared
            eq_refl _ _) _).
  - lia.
  - vm_compute. reflexivity.
  - vm_compute. reflexivity.
Defined.
End SweepRun.
