(* ===== verification/AgentServer.v ===== *)
(** * The agent's HTTP server: [src/pkg/copilot-agent/server] *)

From S2P Require Import Prelude GoStrings GoPath NodeResource NodeManager NodeManagerProofs ReferenceApi.

Local Open Scope string_scope.

(** ** Data *)

Record ResourceRequirements (Q : Type) := mkResourceRequirements {
  Limits : gmap string Q;
  Requests : gmap string Q
}.
Arguments mkResourceRequirements {Q}.
Arguments Limits {Q}.
Arguments Requests {Q}.

(** [CreateTimestamp], which is never set, is left out. *)
Record ContainerInfo (Q : Type) := mkContainerInfo {
  ContainerInfo_Name : string;
  ContainerInfo_Namespace : string;
  ContainerInfo_UID : string;
  ContainerInfo_Labels : option (gmap string string);
  ContainerInfo_Annotations : option (gmap string string);
  ContainerInfo_Priority : Z;
  ContainerInfo_CgroupDir : string;
  ContainerInfo_HostNetwork : bool;
  ContainerInfo_Resources : ResourceRequirements Q
}.
Arguments mkContainerInfo {Q}.
Arguments ContainerInfo_Name {Q}.
Arguments ContainerInfo_CgroupDir {Q}.
Arguments ContainerInfo_Resources {Q}.

Record KillRequest (Q : Type) := mkKillRequest {
  KillRequest_ContainerID : string;
  KillRequest_Resources : option (gmap string Q)
}.
Arguments mkKillRequest {Q}.
Arguments KillRequest_ContainerID {Q}.

Record PluginInfo := mkPluginInfo { PluginInfo_Name : string; PluginInfo_Version : string }.

(** What [ctx.JSON] was given. *)
Inductive Body (Q : Type) :=
| BodyText (s : string)
| BodyInfo (p : PluginInfo)
| BodyContainer (c : ContainerInfo Q)
| BodyContainers (l : list (ContainerInfo Q))
| BodyKilled (items : list (ContainerInfo Q))
| BodyError (e : error).
Arguments BodyText {Q}.
Arguments BodyInfo {Q}.
Arguments BodyContainer {Q}.
Arguments BodyContainers {Q}.
Arguments BodyKilled {Q}.
Arguments BodyError {Q}.

Definition StatusOK : Z := 200.
Definition StatusBadRequest : Z := 400.

(** [corev1.ResourceCPU], [corev1.ResourceMemory]. *)
Class CoreV1 := { ResourceCPU : string; ResourceMemory : string }.

Section Server.
Context {E Q : Type} {QA : QuantityApi Q} {CV : CoreV1}.
Context {SA : SystemApi} {RC : RuncApi} {AE : AgentEnv E}.
Context (mgr : NodeMangerOperator).

(** ** [helper.go] *)

(** The products are on 64-bit integers. *)
Definition cpu_milli (c : YarnContainer) : Z := int64 (YarnContainer_TotalVCoresNeeded c * 1000).
Definition memory_milli (c : YarnContainer) : Z :=
  int64 (int64 (int64 (YarnContainer_TotalMemoryNeededMB c * 1024) * 1024) * 1000).

Definition ParseContainerInfo (c : YarnContainer) : ContainerInfo Q :=
  let resources : gmap string Q :=
    {[ ResourceCPU := NewMilliQuantity (cpu_milli c) DecimalSI;
       ResourceMemory := NewMilliQuantity (memory_milli c) DecimalSI ]} in
  mkContainerInfo (YarnContainer_Id c) "yarn" (YarnContainer_Id c) None None 1
    (GenerateCgroupPath mgr (YarnContainer_Id c)) true (mkResourceRequirements resources resources).

(** ** Handlers *)

Abbreviation HM := (M (AgentState E) (Z * Body Q)).

Definition Health : HM := mret (StatusOK, BodyText "ok").
Definition Information : HM := mret (StatusOK, BodyInfo (mkPluginInfo "yarn" "v1")).

Definition srv_ListContainers : HM :=
  listContainers ← try ListContainers;
  match listContainers with
  | inr err => mret (StatusBadRequest, BodyError err)
  | inl items =>
      mret (StatusOK, BodyContainers
              (ParseContainerInfo <$> filter (λ c, IsFinalState c = false) items))
  end.

Definition srv_GetContainer (containerID : string) : HM :=
  container ← try (GetContainer containerID);
  match container with
  | inr err => mret (StatusBadRequest, BodyError err)
  | inl c => mret (StatusOK, BodyContainer (ParseContainerInfo c))
  end.

(** The request body as [ctx.BindJSON] decodes it. *)
Definition srv_KillContainer (bound : outcome (KillRequest Q)) : HM :=
  kr ← try (lift_out bound);
  match kr with
  | inr err => mret (StatusBadRequest, BodyError err)
  | inl kr =>
      container ← try (GetContainer (KillRequest_ContainerID kr));
      match container with
      | inr err => mret (StatusBadRequest, BodyError err)
      | inl c =>
          killed ← try (KillContainer mgr (KillRequest_ContainerID kr));
          match killed with
          | inr err => mret (StatusBadRequest, BodyError err)
          | inl _ => mret (StatusOK, BodyKilled [ParseContainerInfo c])
          end
      end
  end.

(** The handler is empty: no body is written. *)
Definition srv_KillContainerByResource : M (AgentState E) unit := mret tt.
End Server.

(** ** [Run]

    A request as [gin] routes it; the body of a kill request is what
    [ctx.BindJSON] decodes it to. *)
Inductive Method := GET | POST.

Record Request (Q : Type) := mkRequest {
  req_method : Method;
  req_path : string;
  req_containerID : string;
  req_body : outcome (KillRequest Q)
}.
Arguments mkRequest {Q}.
Arguments req_method {Q}.
Arguments req_path {Q}.
Arguments req_containerID {Q}.
Arguments req_body {Q}.

Definition StatusNotFound : Z := 404.

(** The routes [Run] registers; [None] is a response without a body. *)
Section Routes.
Context {E Q : Type} {QA : QuantityApi Q} {CV : CoreV1}.
Context {SA : SystemApi} {RC : RuncApi} {AE : AgentEnv E}.
Context (mgr : NodeMangerOperator).

Definition with_body (h : M (AgentState E) (Z * Body Q)) : M (AgentState E) (Z * option (Body Q)) :=
  '(code, b) ← h; mret (code, Some b).

Definition serve (r : Request Q) : M (AgentState E) (Z * option (Body Q)) :=
  match req_method r with
  | GET =>
      if bool_decide (req_path r = "/health") then with_body Health
      else if bool_decide (req_path r = "/information") then with_body Information
      else if bool_decide (req_path r = "/v1/container") then with_body (srv_GetContainer mgr (req_containerID r))
      else if bool_decide (req_path r = "/v1/containers") then with_body (srv_ListContainers mgr)
      else mret (StatusNotFound, None)
  | POST =>
      if bool_decide (req_path r = "/v1/killContainer") then with_body (srv_KillContainer mgr (req_body r))
      else if bool_decide (req_path r = "/v1/killContainersByResource")
      then _ ← srv_KillContainerByResource; mret (StatusOK, None)
      else mret (StatusNotFound, None)
  end.
End Routes.

(** [os.Remove] of a file or an empty directory. *)
Definition os_Remove (p : string) : M FS unit := λ fs,
  match fs_faults fs !! p, fs_nodes fs !! p with
  | Some e, _ => (Err e, fs)
  | None, Some nd =>
      if node_dir nd && negb (length (fs_children fs p) =? 0)%nat
      then (Err ("remove " +:+ p +:+ ": directory not empty"), fs)
      else (Ok tt, mkFS (delete p (fs_nodes fs)) (fs_faults fs))
  | None, None => (Err ("remove " +:+ p +:+ ": no such file or directory"), fs)
  end.

(** [net.Listen("unix", p)] creates the socket's file, which must not exist. *)
Definition net_Listen (p : string) : M FS unit := λ fs,
  match fs_faults fs !! p, fs_nodes fs !! p with
  | Some e, _ => (Err e, fs)
  | None, Some _ => (Err ("listen unix " +:+ p +:+ ": bind: address already in use"), fs)
  | None, None =>
      if is_dir fs (parent_path p) then (Ok tt, set_node p (mkFsNode false 493 "") fs)
      else (Err ("listen unix " +:+ p +:+ ": bind: no such file or directory"), fs)
  end.

(** A receive from [ctx.Done()] yields a value, and [Shutdown] then returns an
    error or not, or finds the channel closed, which ends [for range]. *)
Inductive ChanEvent := Received (shutdown : option error) | Closed.

(** [Run]'s state: the file system and the number of [Shutdown] calls. *)
Record RunState := mkRunState { run_fs : FS; run_shutdowns : nat }.

Inductive RunResult := ProcessExit | StillRunning | RunReturned (err : option error).

Definition run_in_fs {A} (c : M FS A) : M RunState A :=
  zoom run_fs (λ f s, mkRunState f (run_shutdowns s)) c.

Fixpoint run_loop (events : list ChanEvent) : M RunState RunResult :=
  match events with
  | [] => mret StillRunning
  | Closed :: _ => mret (RunReturned None)
  | Received shutdown :: rest =>
      _ ← modify (λ s, mkRunState (run_fs s) (S (run_shutdowns s)));
      match shutdown with
      | Some err => mret (RunReturned (Some err))
      | None => run_loop rest
      end
  end.

(** The server object: the operator behind the handlers and its socket. *)
Record YarnCopilotServer := mkYarnCopilotServer { srv_mgr : NodeMangerOperator; srv_unixPath : string }.

Definition NewYarnCopilotServer (mgr : NodeMangerOperator) (unixPath : string) : YarnCopilotServer :=
  mkYarnCopilotServer mgr unixPath.

Section Lifecycle.
Context {SA : SystemApi}.

(** The part of [Run] before it waits: the socket's directory is made, a file at the
    socket's path is removed, and the socket is created. *)
Definition srv_listen (unixPath : string) : M FS unit :=
  let sockDir := Dir unixPath in
  _ ← try (os_MkdirAll sockDir 511);
  present ← gets (FileExists unixPath);
  _ ← (if present : bool then _ ← try (os_Remove unixPath); mret tt else mret tt);
  net_Listen unixPath.

(** The deferred removal of the socket's file. *)
Definition srv_cleanup (unixPath : string) : M FS unit := _ ← try (os_Remove unixPath); mret tt.

Definition srv_Run (unixPath : string) (events : list ChanEvent) : M RunState RunResult :=
  listener ← try (run_in_fs (srv_listen unixPath));
  match listener with
  | inr _ => mret ProcessExit
  | inl _ =>
      r ← run_loop events;
      match r with
      | RunReturned _ => _ ← run_in_fs (srv_cleanup unixPath); mret r
      | _ => mret r
      end
  end.
End Lifecycle.

(** "Done returns a channel that's closed when work done on behalf of this context
    should be canceled": nothing is ever sent on it. *)
Definition done_channel (events : list ChanEvent) : Prop := Forall (λ e, e = Closed) events.

(** ** Correctness *)

Section Correct.
Context {E Q : Type} {QA : QuantityApi Q} {CV : CoreV1}.
Context {SA : SystemApi} {RC : RuncApi} {AE : AgentEnv E}.
Context (mgr : NodeMangerOperator).

Lemma in_agent_env_kills {A} (c : M E A) (s : AgentState E) r s' :
  in_agent_env c s = (r, s') → ag_kills s' = ag_kills s.
Proof. unfold in_agent_env, zoom. destruct (c (ag_env s)). by intros [= _ <-]. Qed.

Lemma in_fs_kills {A} (c : M FS A) (s : AgentState E) r s' :
  in_fs c s = (r, s') → ag_kills s' = ag_kills s.
Proof. unfold in_fs, zoom. destruct (c (ag_fs s)). by intros [= _ <-]. Qed.

Lemma GetContainer_ok id (s : AgentState E) r s' :
  GetContainer id s = (r, s') →
  ag_kills s' = ag_kills s ∧ (∀ c, r = Ok c → YarnContainer_Id c = id).
Proof.
  unfold GetContainer, ListContainers. unfold_M.
  destruct (in_agent_env _ s) as [[[code items]|e|w] s1] eqn:Hg; apply in_agent_env_kills in Hg;
    [|by intros [= <- <-]..].
  case_bool_decide; [|by intros [= <- <-]].
  destruct (first_such _ items) as [c|] eqn:Hf; intros [= <- <-]; (split; [done|]); intros c' [= <-].
  apply first_such_Some in Hf as (? & ? & _ & Hid & _). by apply bool_decide_eq_true in Hid.
Qed.

Lemma getProcessGroupID_kills id (s : AgentState E) r s' :
  getProcessGroupID mgr id s = (r, s') → ag_kills s' = ag_kills s.
Proof.
  unfold getProcessGroupID. unfold_M. destruct (in_fs _ s) as [r1 s1] eqn:Hg.
  apply in_fs_kills in Hg. destruct r1 as [[|pid l]|e|w]; by intros [= _ <-].
Qed.

Lemma KillContainer_run id (s : AgentState E) r s' :
  KillContainer mgr id s = (r, s') →
  ag_kills s' = ag_kills s ∧ r ≠ Ok tt ∨
  ∃ pgid s1, getProcessGroupID mgr id s = (Ok pgid, s1) ∧ (1 < pgid)%Z ∧
    ag_kills s' = ((- pgid)%Z, SIGKILL) :: ag_kills s.
Proof.
  unfold KillContainer. unfold mbind at 1, M_bind at 1.
  destruct (getProcessGroupID mgr id s) as [[pgid|e|w] s1] eqn:Hg;
    pose proof (getProcessGroupID_kills _ _ _ _ Hg) as Hk; [|by intros [= <- <-]; left..].
  case_bool_decide as Hle; [by intros [= <- <-]; left|]. erewrite M_bind_ok by reflexivity.
  intros H%in_agent_env_kills. right. exists pgid, s1. split; [done|]. split; [lia|].
  rewrite H. cbn. by rewrite Hk.
Qed.

Lemma kill_only_listed (bound : outcome (KillRequest Q)) (s : AgentState E) code body s' :
  srv_KillContainer mgr bound s = (Ok (code, body), s') →
  (code = StatusBadRequest ∨ code = StatusOK ∧ ag_kills s' ≠ ag_kills s) ∧
  (ag_kills s' = ag_kills s ∨
   ∃ kr c s1 s2 pgid, bound = Ok kr ∧
     GetContainer (KillRequest_ContainerID kr) s = (Ok c, s1) ∧
     YarnContainer_Id c = KillRequest_ContainerID kr ∧
     getProcessGroupID mgr (YarnContainer_Id c) s1 = (Ok pgid, s2) ∧ (1 < pgid)%Z ∧
     ag_kills s' = ((- pgid)%Z, SIGKILL) :: ag_kills s).
Proof.
  unfold srv_KillContainer. intros [(kr & s0 & Hb & H)|(e & s0 & Hb & [= <- <- <-])]%try_bind_inv;
    [|injection Hb as _ <-; by auto].
  unfold lift_out in Hb. injection Hb as Hb <-.
  apply try_bind_inv in H as [(c & s1 & Hg & H)|(e & s1 & Hg & [= <- <- <-])];
    pose proof (GetContainer_ok _ _ _ _ Hg) as [Hk Hid]; [|by auto].
  apply try_bind_inv in H as [([] & s2 & Hkill & [= <- <- <-])|(e & s2 & Hkill & [= <- <- <-])];
    apply KillContainer_run in Hkill as [[Hs Hr]|(pgid & s3 & Hpg & Hlt & Hs)];
    try done; rewrite Hs, Hk.
  - split; [right; split; [done|]|].
    + intros Heq. apply (f_equal length) in Heq. cbn in Heq. lia.
    + right. specialize (Hid c eq_refl). exists kr, c, s1, s3, pgid. rewrite Hid. by auto.
  - by auto.
  - split; [by left|]. right. specialize (Hid c eq_refl). exists kr, c, s1, s3, pgid.
    rewrite Hid. by auto.
Qed.

(** C23 A kill request signals at most one process group, and only that of a
    container the node manager lists under the requested id: the signal is
    SIGKILL to [-pgid] for the container's first process, never to the agent's
    own group or to init ([pgid > 1]).  Every other request answers 400 without
    sending a signal, and 200 is answered only after a signal was sent. *)
Theorem kill_only_listed_container (bound : outcome (KillRequest Q)) (s : AgentState E) code body s' :
  srv_KillContainer mgr bound s = (Ok (code, body), s') →
  (code = StatusBadRequest ∨ code = StatusOK ∧ ag_kills s' ≠ ag_kills s) ∧
  (ag_kills s' = ag_kills s ∨
   ∃ kr c s1 s2 pgid, bound = Ok kr ∧
     GetContainer (KillRequest_ContainerID kr) s = (Ok c, s1) ∧
     YarnContainer_Id c = KillRequest_ContainerID kr ∧
     getProcessGroupID mgr (YarnContainer_Id c) s1 = (Ok pgid, s2) ∧ (1 < pgid)%Z ∧
     ag_kills s' = ((- pgid)%Z, SIGKILL) :: ag_kills s).
Proof. apply kill_only_listed. Qed.

Section Running.
Context (unixPath : string).
(** [system.FileExists] reports whether the path exists. *)
Hypothesis FileExists_spec : ∀ p fs, FileExists p fs = bool_decide (is_Some (fs_nodes fs !! p)).

Lemma run_loop_done events s : done_channel events →
  run_loop events s = (Ok (if events is [] then StillRunning else RunReturned None), s).
Proof using. intros H. by destruct H as [|e l -> _]. Qed.

(** The socket is bound, whatever was at the path before. *)
Lemma listen_after_cleanup (fs fs1 : FS) :
  try (os_MkdirAll (Dir unixPath) 511) fs = (Ok (inl tt), fs1) →
  fs_faults fs1 !! unixPath = None →
  is_dir fs1 (parent_path unixPath) = true → is_dir fs1 unixPath = false →
  ∃ fs', srv_listen unixPath fs = (Ok tt, fs') ∧ fs_faults fs' = fs_faults fs1 ∧
    fs_nodes fs' = <[unixPath := mkFsNode false 493 ""]> (fs_nodes fs1).
Proof using FileExists_spec.
  intros Hmk Hfl Hdir Hfile. assert (parent_path unixPath ≠ unixPath) as Hne by congruence.
  unfold srv_listen. erewrite M_bind_ok by exact Hmk. cbn beta. unfold_M. cbn [gets].
  rewrite FileExists_spec. unfold os_Remove, net_Listen. unfold is_dir in Hfile.
  destruct (fs_nodes fs1 !! unixPath) as [nd|] eqn:Hn.
  - rewrite bool_decide_eq_true_2 by done. rewrite Hfl, Hn, Hfile.
    cbn [andb fs_nodes fs_faults]. rewrite Hfl, lookup_delete_eq. unfold is_dir in *. cbn [fs_nodes].
    rewrite lookup_delete_ne by congruence. rewrite Hdir.
    eexists. split; [done|]. cbn [fs_nodes set_node]. by rewrite insert_delete_eq.
  - rewrite bool_decide_eq_false_2 by by intros []. rewrite Hfl, Hn, Hdir.
    eexists. split; done.
Qed.

(** C39 Where the socket's directory exists or can be made and the operating system does
    not refuse the socket's path, the agent's server starts even if a previous run left a
    file (not a directory) at that path, and serves until its context is cancelled; then [Run] returns nil
    and the socket's file is gone.  But the graceful shutdown is never performed: ranging
    over [ctx.Done()] runs its body once per value received, and that channel is only
    ever closed, so no run calls [Shutdown]. *)
Theorem run_stops_without_shutdown events (s : RunState) (fs1 : FS) :
  done_channel events →
  try (os_MkdirAll (Dir unixPath) 511) (run_fs s) = (Ok (inl tt), fs1) →
  fs_faults fs1 !! unixPath = None →
  is_dir fs1 (parent_path unixPath) = true → is_dir fs1 unixPath = false →
  ∃ s', srv_Run unixPath events s =
          (Ok (if events is [] then StillRunning else RunReturned None), s') ∧
    run_shutdowns s' = run_shutdowns s ∧
    fs_nodes (run_fs s') = (if events is []
                            then <[unixPath := mkFsNode false 493 ""]> (fs_nodes fs1)
                            else delete unixPath (fs_nodes fs1)).
Proof using FileExists_spec.
  intros Hev Hmk Hfl Hdir Hne.
  destruct (listen_after_cleanup (run_fs s) fs1 Hmk Hfl Hdir Hne) as (fs & Hl & Hf & Hfs).
  unfold srv_Run. erewrite M_bind_ok by (unfold try, run_in_fs, zoom; by rewrite Hl). cbv beta iota.
  erewrite M_bind_ok by by apply run_loop_done.
  destruct events as [|e l]; cbn beta iota.
  - by eexists.
  - unfold run_in_fs, zoom, srv_cleanup, os_Remove. unfold_M. cbn [run_fs].
    rewrite Hf, Hfl, Hfs, lookup_insert_eq. cbn [node_dir andb]. eexists. split; [done|]. split; [done|].
    cbn [run_fs fs_nodes]. by rewrite delete_insert_eq.
Qed.
End Running.
End Correct.

(** ** Runs on a node with one container *)

Module AgentRun.
Import OneContainer Reference.

#[global] Instance core : CoreV1 := {| ResourceCPU := "cpu"; ResourceMemory := "memory" |}.

Definition kill_c1 : outcome (KillRequest Qty) := Ok (mkKillRequest "container_1" None).
Definition after_kill : AgentState unit := (srv_KillContainer operator kill_c1 node_state).2.

(** Killing the running container sends SIGKILL to the group of its process. *)
Lemma kill_only_listed_container_witness :
  ag_kills after_kill = [((-4711)%Z, 9%Z)] ∧
  (StatusOK = StatusBadRequest ∨ StatusOK = StatusOK ∧ ag_kills after_kill ≠ ag_kills node_state).
Proof.
  split; [vm_compute; reflexivity|].
  refine (proj1 (kill_only_listed_container operator kill_c1 node_state StatusOK
           (BodyKilled [ParseContainerInfo operator c1]) after_kill _)).
  vm_compute. reflexivity.
Defined.

(** A node on which a crashed agent left its socket. *)
Definition stale : RunState :=
  mkRunState (mkFS (list_to_map [("", dir); ("/run", dir); ("/run/a.sock", mkFsNode false 493 "")]) ∅) 0.

Lemma run_stops_without_shutdown_witness :
  ∃ s', srv_Run "/run/a.sock" [Closed] stale = (Ok (RunReturned None), s') ∧
    run_shutdowns s' = 0%nat ∧
    fs_nodes (run_fs s') = delete "/run/a.sock" (fs_nodes (run_fs stale)).
Proof.
  refine (run_stops_without_shutdown "/run/a.sock" (λ p fs, eq_refl) [Closed] stale (run_fs stale)
            _ _ _ _ _).
  - by constructor.
  - vm_compute. reflexivity.
  - vm_compute. reflexivity.
  - vm_compute. reflexivity.
  - vm_compute. reflexivity.
Defined.
End AgentRun.
