(* ===== verification/Runtime.v ===== *)
(** * Discovery of copilots and their clients: [src/pkg/copilot-agent/runtime]

    The node daemon's side of the agent's socket interface: sockets in a directory
    are discovered as plugins, and a plugin is used over HTTP on its socket. *)

From S2P Require Import Prelude GoStrings AgentServer.

Local Open Scope string_scope.

(** ** Data *)

(** [CreateTimestamp], which no agent sets, is left out. *)
Record ContainerInfo (Q : Type) := mkContainerInfo {
  Name : string;
  Namespace : string;
  UID : string;
  Labels : option (gmap string string);
  Annotations : option (gmap string string);
  CgroupDir : string;
  HostNetwork : bool;
  Resources : AgentServer.ResourceRequirements Q
}.
Arguments mkContainerInfo {Q}.
Arguments Name {Q}.

Record PluginInfo := mkPluginInfo { PluginInfo_Name : string; PluginInfo_Version : string }.

Record KillRequest (Q : Type) := mkKillRequest {
  KillRequest_ContainerID : string;
  KillRequest_Resources : option (gmap string Q)
}.
Arguments mkKillRequest {Q}.
Arguments KillRequest_ContainerID {Q}.
Arguments KillRequest_Resources {Q}.

Record KillInfo (Q : Type) := mkKillInfo { KillInfo_Items : list (ContainerInfo Q) }.
Arguments mkKillInfo {Q}.
Arguments KillInfo_Items {Q}.

(** ** The HTTP client

    [resty] with the transport of [newHttpPlugin]: a request on a socket returns
    the status and, for [SetResult], the pointer the body was decoded into, which
    stays nil ([None]) when nothing was decoded. *)

Record RestRequest (Q : Type) := mkRestRequest {
  rr_method : AgentServer.Method;
  rr_path : string;
  rr_containerID : option string;
  rr_body : option (KillRequest Q)
}.
Arguments mkRestRequest {Q}.
Arguments rr_method {Q}.
Arguments rr_path {Q}.
Arguments rr_containerID {Q}.
Arguments rr_body {Q}.

Inductive ResultKind := RNone | RInfo | RContainers | RContainer | RKill.

Definition result_of (Q : Type) (k : ResultKind) : Type :=
  match k with
  | RNone => unit
  | RInfo => PluginInfo
  | RContainers => list (ContainerInfo Q)
  | RContainer => ContainerInfo Q
  | RKill => KillInfo Q
  end.

Class Resty (W Q : Type) := {
  resty_exec : string → RestRequest Q → ∀ k, M W (Z * option (result_of Q k))
}.

Definition IsSuccess (code : Z) : bool := bool_decide (199 < code ∧ code < 300)%Z.
Definition IsError (code : Z) : bool := bool_decide (399 < code)%Z.

(** ** [httpPlugin]: a plugin is the socket its client dials *)

Record httpPlugin := mkHttpPlugin { plugin_socket : string }.

Definition newHttpPlugin (socket : string) : httpPlugin := mkHttpPlugin socket.

Section Plugin.
Context {W Q : Type} {RW : Resty W Q}.

Definition fetch (h : httpPlugin) (r : RestRequest Q) (k : ResultKind)
  : M W (option (result_of Q k)) :=
  '(_, res) ← resty_exec (plugin_socket h) r k; mret res.

Definition IsAlive (h : httpPlugin) : M W bool :=
  resp ← try (resty_exec (plugin_socket h)
                (mkRestRequest AgentServer.GET "/health" None None) RNone);
  match resp with
  | inr _ => mret false
  | inl (code, _) => if IsError code then mret false else mret (IsSuccess code)
  end.

Definition Info (h : httpPlugin) : M W (option PluginInfo) :=
  fetch h (mkRestRequest AgentServer.GET "/information" None None) RInfo.

Definition ListContainer (h : httpPlugin) : M W (option (list (ContainerInfo Q))) :=
  fetch h (mkRestRequest AgentServer.GET "/v1/containers" None None) RContainers.

Definition GetContainer (h : httpPlugin) (ContainerID : string) : M W (option (ContainerInfo Q)) :=
  fetch h (mkRestRequest AgentServer.GET "/v1/container" (Some ContainerID) None) RContainer.

Definition KillContainer (h : httpPlugin) (killReq : KillRequest Q) : M W (option (KillInfo Q)) :=
  fetch h (mkRestRequest AgentServer.POST "/v1/killContainer" None (Some killReq)) RKill.

Definition KillContainersByResource (h : httpPlugin) (killReq : KillRequest Q)
  : M W (option (KillInfo Q)) :=
  fetch h (mkRestRequest AgentServer.POST "/v1/killContainersByResource" None (Some killReq)) RKill.
End Plugin.

(** ** [Manger] *)

(** A call of [filepath.Walk]'s callback; the file's type is [None] when [info] is
    nil, which is the case when the file could not be examined. *)
Inductive FileType := ModeSocket | OtherMode.
Record Visit := mkVisit { v_path : string; v_type : option FileType }.

Class Walker (W : Type) := { filepath_Walk : string → M W (list Visit) }.

Record Manger := mkManger { SocketDir : string; Plugins : gmap string httpPlugin }.

(** The package's state: [defaultManger] and the world. *)
Record RtState (W : Type) := mkRtState { defaultManger : option Manger; rt_world : W }.
Arguments mkRtState {W}.
Arguments defaultManger {W}.
Arguments rt_world {W}.

Section Manager.
Context {W Q : Type} {RW : Resty W Q} {WK : Walker W}.

Definition NewManger (socketDir : string) : M (RtState W) Manger := λ s,
  let m := mkManger socketDir ∅ in (Ok m, mkRtState (Some m) (rt_world s)).

(** The operations on a manager thread its plugins beside the world. *)
Abbreviation MM := (M (gmap string httpPlugin * W)).

Definition in_world {A} (c : M W A) : MM A := zoom snd (λ w s, (s.1, w)) c.

Definition visit (v : Visit) : MM unit :=
  match v_type v with
  | None => gopanic "nil pointer dereference: info"
  | Some OtherMode => mret tt
  | Some ModeSocket =>
      let p := newHttpPlugin (v_path v) in
      pluginInfo ← in_world (Info p);
      match pluginInfo with
      | None => gopanic "nil pointer dereference: pluginInfo"
      | Some i => modify (λ s, (<[PluginInfo_Name i := p]> s.1, s.2))
      end
  end.

Definition run (socketDir : string) : MM unit :=
  visits ← in_world (filepath_Walk socketDir);
  for_each visits visit.

(** [Run]: the [break] of the stop case leaves the [select], not the loop. *)
Inductive MangerEvent := Tick | Stop.

Fixpoint manger_loop (socketDir : string) (events : list MangerEvent) : MM unit :=
  match events with
  | [] => mret tt
  | Tick :: rest => _ ← try (run socketDir); manger_loop socketDir rest
  | Stop :: rest => manger_loop socketDir rest
  end.

Definition manger_GetAliveCopilots (plugins : gmap string httpPlugin)
  : M W (gmap string httpPlugin) :=
  fold_m (map_to_list plugins) (λ res '(key, plugin),
    alive ← IsAlive plugin;
    mret (if alive : bool then <[key := plugin]> res else res)) ∅.

Definition manger_GetCopilot (plugins : gmap string httpPlugin) (name : string)
  : option httpPlugin := plugins !! name.

(** The package's functions work on [defaultManger]. *)
Definition GetAliveCopilots (m : option Manger) : M W (gmap string httpPlugin) :=
  match m with
  | None => mret ∅
  | Some m => manger_GetAliveCopilots (Plugins m)
  end.

Definition GetCopilot (m : option Manger) (name : string) : option httpPlugin :=
  match m with
  | None => None
  | Some m => manger_GetCopilot (Plugins m) name
  end.
End Manager.
