(* ===== verification/RuntimeProofs.v ===== *)
(** * Correctness of discovery, and of a plugin against the agent's server *)

From S2P Require Import Prelude GoStrings NodeResource NodeManager NodeManagerProofs ReferenceApi.
From S2P Require Import AgentServer Runtime.

Local Open Scope string_scope.

(** ** Discovery *)

Section Discovery.
Context {W Q : Type} {RW : Resty W Q} {WK : Walker W}.
(** What the sockets answer during a walk. *)
Context (answer : string → outcome (option PluginInfo)).
Hypothesis answers : ∀ p w, Info (newHttpPlugin p) (w : W) = (answer p, w).

(** What a visit comes to, and what it registers. *)
Definition visit_outcome (v : Visit) : outcome (option PluginInfo) :=
  match v_type v with
  | None => Panic "nil pointer dereference: info"
  | Some OtherMode => Ok None
  | Some ModeSocket =>
      match answer (v_path v) with
      | Ok None => Panic "nil pointer dereference: pluginInfo"
      | r => r
      end
  end.

Definition registered (v : Visit) : option (string * httpPlugin) :=
  match visit_outcome v with
  | Ok (Some i) => Some (PluginInfo_Name i, newHttpPlugin (v_path v))
  | _ => None
  end.

Lemma visit_run v ps w :
  visit v (ps, w) =
  (match visit_outcome v with Ok _ => Ok tt | Err e => Err e | Panic x => Panic x end,
   (insert_all (option_list (registered v)) ps, w)).
Proof using answers.
  unfold visit, registered, visit_outcome. destruct (v_type v) as [[]|]; [|done..].
  unfold in_world, zoom. unfold_M. cbn [snd fst]. rewrite answers.
  by destruct (answer (v_path v)) as [[i|]|e|x].
Qed.

Lemma visits_run pre ps w :
  Forall (λ v, is_ok (visit_outcome v) = true) pre →
  for_each pre visit (ps, w) = (Ok tt, (insert_all (omap registered pre) ps, w)).
Proof using answers.
  intros Hok. revert ps. induction Hok as [|v pre Hv _ IH]; intros ps; cbn [for_each]; [done|].
  unfold mbind at 1, M_bind at 1. rewrite visit_run. unfold is_ok in Hv.
  cbn [omap list_omap].
  destruct (visit_outcome v); [|done..]. rewrite IH. by destruct (registered v).
Qed.

(** C38 Discovery registers, under the name each answers with, the sockets the
    walk visits before the first that fails, the last one of a name winning; the
    plugins known before stay.  The first socket that does not answer ends it
    with its error, so a dead socket hides every copilot that follows it in the
    directory; and it panics at a file that cannot be examined or a socket that
    answers without a body. *)
Theorem discovery_registers_prefix socketDir ps (w : W) (pre post : list Visit) :
  filepath_Walk socketDir w = (Ok (pre ++ post)%list, w) →
  Forall (λ v, is_ok (visit_outcome v) = true) pre →
  match head post with Some v => is_ok (visit_outcome v) = false | None => True end →
  run socketDir (ps, w) =
    (match head post with
     | None => Ok tt
     | Some v => match visit_outcome v with Ok _ => Ok tt | Err e => Err e | Panic x => Panic x end
     end, (insert_all (omap registered pre) ps, w)).
Proof using answers.
  intros Hw Hpre Hpost. unfold run. unfold mbind at 1, M_bind at 1, in_world, zoom. cbn [snd fst].
  rewrite Hw. rewrite for_each_app. erewrite M_bind_ok by by apply visits_run.
  destruct post as [|v post]; cbn [head for_each] in *; [done|].
  unfold mbind, M_bind. rewrite visit_run. unfold registered. unfold is_ok in Hpost.
  by destruct (visit_outcome v).
Qed.
End Discovery.

Section Alive.
Context {W Q : Type} {RW : Resty W Q}.
Context (alive : httpPlugin → bool).
Hypothesis health : ∀ h w, IsAlive h (w : W) = (Ok (alive h), w).

Lemma fold_alive l acc (w : W) :
  fold_m l (λ res '(key, plugin),
    a ← IsAlive plugin; mret (if a : bool then <[key := plugin]> res else res)) acc w =
  (Ok (insert_all (filter (λ kv, alive kv.2 = true) l) acc), w).
Proof using health.
  revert acc. induction l as [|[k p] l IH]; intros acc; [done|].
  cbn [fold_m]. erewrite M_bind_ok by (erewrite M_bind_ok by apply health; reflexivity).
  rewrite IH, filter_cons. cbn [snd]. by destruct (alive p); repeat case_decide.
Qed.

(** The copilots reported alive are the known plugins that answer their health
    check, each under its name. *)
Lemma alive_copilots m (w : W) :
  GetAliveCopilots m w =
    (Ok (filter (λ kv, alive kv.2 = true) (from_option Plugins ∅ m)), w).
Proof using health.
  destruct m as [m|]; cbn [GetAliveCopilots from_option]; [|by rewrite map_filter_empty].
  unfold manger_GetAliveCopilots. rewrite fold_alive. do 2 f_equal.
  apply map_eq. intros k. rewrite lookup_insert_all, lookup_empty.
  apply option_eq. intros h. rewrite map_lookup_filter_Some, <- elem_of_map_to_list.
  set (l := filter _ (map_to_list (Plugins m))).
  assert (∀ h', (k, h') ∈ l ↔ (k, h') ∈ map_to_list (Plugins m) ∧ alive h' = true) as Hl.
  { intros h'. unfold l. rewrite list_elem_of_filter. cbn [snd]. tauto. }
  rewrite <- Hl. split.
  - destruct (last_value k l) eqn:E; [|done]. intros [= <-]. by apply last_value_Some.
  - intros Hin. destruct (last_value k l) as [h'|] eqn:E.
    + apply last_value_Some, Hl in E as [E _]. apply Hl in Hin as [Hin _].
      apply elem_of_map_to_list in E, Hin. congruence.
    + apply last_value_None in E. destruct E. apply list_elem_of_fmap. by exists (k, h).
Qed.
End Alive.

(** ** A plugin against the agent

    The two packages agree by JSON field names: [ContainerInfo]'s priority is
    dropped by the reader. *)

Section EndToEnd.
Context {E Q : Type} {QA : QuantityApi Q} {CV : CoreV1}.
Context {SA : SystemApi} {RC : RuncApi} {AE : AgentEnv E}.
Context {RW : Resty (AgentState E) Q}.
Context (mgr : NodeMangerOperator) (h : httpPlugin).

Definition read_container (c : AgentServer.ContainerInfo Q) : Runtime.ContainerInfo Q :=
  mkContainerInfo (ContainerInfo_Name c) (ContainerInfo_Namespace _ c) (ContainerInfo_UID _ c)
    (ContainerInfo_Labels _ c) (ContainerInfo_Annotations _ c) (ContainerInfo_CgroupDir c)
    (ContainerInfo_HostNetwork _ c) (ContainerInfo_Resources c).

Definition read_body (k : ResultKind) (b : option (Body Q)) : outcome (option (result_of Q k)) :=
  match k, b with
  | _, None => Ok None
  | RNone, Some _ => Ok None
  | RInfo, Some (BodyInfo i) =>
      Ok (Some (mkPluginInfo (AgentServer.PluginInfo_Name i) (AgentServer.PluginInfo_Version i)))
  | RContainers, Some (BodyContainers l) => Ok (Some (read_container <$> l))
  | RContainer, Some (BodyContainer c) => Ok (Some (read_container c))
  | RKill, Some (BodyKilled l) => Ok (Some (mkKillInfo (read_container <$> l)))
  | _, Some _ => Err "json: cannot unmarshal"
  end.

Definition as_request (r : RestRequest Q) : Request Q :=
  mkRequest (rr_method r) (rr_path r) (default "" (rr_containerID r))
    (match rr_body r with
     | Some b => Ok (AgentServer.mkKillRequest (KillRequest_ContainerID b) (KillRequest_Resources b))
     | None => Err "EOF"
     end).

(** The plugin's socket is the agent's: a request is served by the agent, and the
    client decodes the body of a response with a status between 200 and 299. *)
Hypothesis served : ∀ r k s,
  resty_exec (plugin_socket h) r k s =
  ('(code, b) ← serve mgr (as_request r);
   if IsSuccess code then res ← lift_out (read_body k b); mret (code, res)
   else mret (code, None)) s.

(** What a call returns for the agent's response. *)
Lemma fetch_served r k s :
  fetch h r k s =
  ('(code, b) ← serve mgr (as_request r);
   if IsSuccess code then lift_out (read_body k b) else mret None) s.
Proof using served.
  unfold fetch. unfold mbind at 1, M_bind at 1. rewrite served.
  unfold mbind at 1 3, M_bind at 1 3.
  destruct (serve mgr (as_request r) s) as [[[code b]|e|w] s1]; [|done..].
  destruct (IsSuccess code); [|done]. unfold_M. by destruct (read_body k b).
Qed.

(** The agent's handlers answer 200 or 400. *)
Lemma KillContainer_codes bound (s : AgentState E) code (body : Body Q) s' :
  srv_KillContainer mgr bound s = (Ok (code, body), s') →
  code = StatusBadRequest ∨ code = StatusOK ∧
  ∃ kr c s1, bound = Ok kr ∧ body = BodyKilled [ParseContainerInfo mgr c] ∧
    NodeManager.GetContainer (AgentServer.KillRequest_ContainerID kr) s = (Ok c, s1).
Proof using.
  unfold srv_KillContainer. intros [(kr & s0 & Hb & H)|(e & s0 & Hb & [= <- <- <-])]%try_bind_inv;
    [|by left].
  injection Hb as Hb <-.
  apply try_bind_inv in H as [(c & s1 & Hg & H)|(e & s1 & Hg & [= <- <- <-])]; [|by left].
  apply try_bind_inv in H as [([] & s2 & Hkill & [= <- <- <-])|(e & s2 & Hkill & [= <- <- <-])];
    [|by left].
  right. eauto 10.
Qed.

Lemma KillContainer_never_errs bound (s : AgentState E) e s' :
  srv_KillContainer (Q:=Q) mgr bound s ≠ (Err e, s').
Proof using.
  unfold srv_KillContainer. unfold_M.
  destruct bound as [kr|e1|w]; [|done..].
  destruct (NodeManager.GetContainer _ s) as [[c|e1|w] s1]; [|done..].
  by destruct (NodeManager.KillContainer _ _ s1) as [[[]|e1|w] s2].
Qed.

Lemma kill_served kr s :
  Runtime.KillContainer h kr s =
  ('(code, b) ← with_body (srv_KillContainer mgr
      (Ok (AgentServer.mkKillRequest (KillRequest_ContainerID kr) (KillRequest_Resources kr))));
   if IsSuccess code then lift_out (read_body RKill b) else mret None) s.
Proof using served. unfold Runtime.KillContainer. by rewrite fetch_served. Qed.

(** C37 The plugin's client never reports a failed kill: whenever the agent's handler
    returns with a refusal (400), as it does for an unknown container, for one without a
    process group and when the signal failed, the call returns a nil [KillInfo] with a nil
    error.  Whenever it returns with anything else the status is 200 and the [KillInfo] is
    not nil and tells the truth: it lists exactly the requested container, and a signal
    was sent to a process group. *)
Theorem plugin_kill_failure_is_nil kr s code body s' :
  let id := KillRequest_ContainerID kr in
  srv_KillContainer mgr (Ok (AgentServer.mkKillRequest id (KillRequest_Resources kr))) s
    = (Ok (code, body), s') →
  (code = StatusBadRequest → Runtime.KillContainer h kr s = (Ok None, s')) ∧
  (code ≠ StatusBadRequest → code = StatusOK ∧
     ∃ info pgid, Runtime.KillContainer h kr s = (Ok (Some info), s') ∧
       Name <$> KillInfo_Items info = [id] ∧
       (1 < pgid)%Z ∧ ag_kills s' = ((- pgid)%Z, SIGKILL) :: ag_kills s) ∧
  (∀ e s1, NodeManager.GetContainer id s = (Err e, s1) → code = StatusBadRequest) ∧
  (∀ c s1 e s2, NodeManager.GetContainer id s = (Ok c, s1) →
     NodeManager.KillContainer mgr id s1 = (Err e, s2) → code = StatusBadRequest).
Proof using served.
  intros id Hk. rewrite kill_served. fold id. unfold with_body. set (bound := Ok _) in *.
  assert (∀ x, ('(code0, b) ← ('(code0, b) ← srv_KillContainer mgr bound; mret (code0, Some b));
            if IsSuccess code0 then lift_out (read_body RKill b) else mret None) s = x ↔
          (if IsSuccess code then lift_out (read_body RKill (Some body)) else mret None) s' = x) as Hrun.
  { intros x. unfold mbind, M_bind. by rewrite Hk. }
  split; [|split; [|split]].
  - intros ->. by apply Hrun.
  - intros Hne. pose proof (KillContainer_codes _ _ _ _ _ Hk) as [?|(-> & kr' & c & s2 & Hb & -> & Hg)]; [done|].
    split; [done|].
    apply kill_only_listed in Hk as [[H|[_ Hch]] [?|(_ & _ & _ & _ & pgid & _ & _ & _ & _ & ? & ?)]]; [done..|].
    eexists _, pgid. split; [by apply Hrun|]. split; [|done].
    apply GetContainer_ok in Hg as [_ Hid]. injection Hb as <-. cbn. by rewrite (Hid c eq_refl).
  - intros e s1 Hg. revert Hk. unfold srv_KillContainer, bound. unfold_M. cbn [AgentServer.KillRequest_ContainerID].
    fold id. rewrite Hg. by intros [= <- _ _].
  - intros c s1 e s2 Hg Hkill. revert Hk. unfold srv_KillContainer, bound. unfold_M.
    cbn [AgentServer.KillRequest_ContainerID]. fold id. rewrite Hg, Hkill. by intros [= <- _ _].
Qed.

(** Listing over the plugin's socket returns, in the node manager's order,
    exactly the containers that are not in a final state, described by
    [ParseContainerInfo]; a failure of the node manager is not reported: the call
    then returns a nil list with a nil error. *)
Theorem plugin_lists_running s :
  Runtime.ListContainer h s =
  match NodeManager.ListContainers s with
  | (Ok items, s') => (Ok (Some (read_container ∘ ParseContainerInfo mgr <$>
                                   filter (λ c, IsFinalState c = false) items)), s')
  | (Err _, s') => (Ok None, s')
  | (Panic w, s') => (Panic w, s')
  end.
Proof using served.
  unfold Runtime.ListContainer. rewrite fetch_served. cbn [serve as_request req_method req_path rr_method rr_path].
  rewrite !bool_decide_eq_false_2, bool_decide_eq_true_2 by done.
  unfold with_body, srv_ListContainers. unfold_M.
  destruct (NodeManager.ListContainers s) as [[items|e|w] s']; cbn; [|done..].
  by rewrite <- list_fmap_compose.
Qed.
End EndToEnd.

(** ** Runs *)

Module PluginRun.
Import OneContainer Reference AgentRun.

Definition h : httpPlugin := newHttpPlugin "/run/yarn.sock".

(** The agent's socket, and another on which nothing listens any more. *)
#[global] Instance transport : Resty (AgentState unit) Qty := {|
  resty_exec := λ sock r k,
    if decide (sock = "/run/yarn.sock") then
      '(code, b) ← serve operator (as_request r);
      if IsSuccess code then res ← lift_out (read_body k b); mret (code, res)
      else mret (code, None)
    else throw "connect: connection refused"
|}.

Lemma transport_serves (r : RestRequest Qty) k (s : AgentState unit) :
  resty_exec (plugin_socket h) r k s =
  ('(code, b) ← serve operator (as_request r);
   if IsSuccess code then res ← lift_out (read_body k b); mret (code, res)
   else mret (code, None)) s.
Proof. done. Qed.

(** A request for a container the node does not run: 400, and no error. *)
Definition kill_unknown : KillRequest Qty := mkKillRequest "container_9" None.

Definition kill_running : KillRequest Qty := mkKillRequest "container_1" None.
Definition killed : AgentState unit :=
  (srv_KillContainer operator (Ok (AgentServer.mkKillRequest "container_1" None : AgentServer.KillRequest Qty))
     node_state).2.

Lemma plugin_kill_failure_is_nil_witness :
  Runtime.KillContainer h kill_unknown node_state = (Ok None, node_state) ∧
  ∃ info pgid, Runtime.KillContainer h kill_running node_state = (Ok (Some info), killed) ∧
    Name <$> KillInfo_Items info = ["container_1"] ∧
    (1 < pgid)%Z ∧ ag_kills killed = ((- pgid)%Z, SIGKILL) :: ag_kills node_state.
Proof.
  split.
  - refine (proj1 (plugin_kill_failure_is_nil operator h transport_serves kill_unknown node_state
              StatusBadRequest (BodyError "container Not Found") node_state _) eq_refl).
    vm_compute. reflexivity.
  - refine (proj2 (proj1 (proj2 (plugin_kill_failure_is_nil operator h transport_serves kill_running node_state
              StatusOK (BodyKilled [ParseContainerInfo operator c1]) killed _)) _)).
    + vm_compute. reflexivity.
    + discriminate.
Defined.

Lemma plugin_lists_running_witness :
  Runtime.ListContainer h node_state =
    (Ok (Some [read_container (ParseContainerInfo operator c1)]), node_state).
Proof. exact (plugin_lists_running operator h transport_serves node_state). Defined.

(** A directory with a regular file, the agent's socket, a dead one and another. *)
Definition v_dir : Visit := mkVisit "/run" (Some OtherMode).
Definition v_yarn : Visit := mkVisit "/run/yarn.sock" (Some ModeSocket).
Definition v_dead : Visit := mkVisit "/run/z.sock" (Some ModeSocket).
#[global] Instance walker : Walker (AgentState unit) := {|
  filepath_Walk := λ _, mret [v_dir; v_yarn; v_dead; v_yarn]
|}.

Definition answer (p : string) : outcome (option PluginInfo) :=
  if decide (p = "/run/yarn.sock") then Ok (Some (mkPluginInfo "yarn" "v1"))
  else Err "connect: connection refused".

Lemma answers p (w : AgentState unit) : Info (newHttpPlugin p) w = (answer p, w).
Proof.
  unfold Info, fetch, answer. unfold_M. cbn [resty_exec transport newHttpPlugin plugin_socket].
  by destruct (decide (p = "/run/yarn.sock")).
Qed.

Lemma discovery_registers_prefix_witness :
  run "/run" (∅, node_state) =
    (Err "connect: connection refused", ({[ "yarn" := h ]}, node_state)).
Proof.
  refine (discovery_registers_prefix answer answers "/run" ∅ node_state [v_dir; v_yarn] [v_dead; v_yarn]
            eq_refl _ eq_refl).
  by repeat constructor.
Defined.
End PluginRun.
