(* ===== verification/Options.v ===== *)
(** * Command-line options and wiring: [src/cmd]

    Which controllers the operator starts ([yarn-operator/options]), and the agent's
    defaults and start-up ([yarn-copilot-agent]). *)

From S2P Require Import Prelude GoStrings GoPath NodeManager NodeManagerProofs AgentServer.

Local Open Scope string_scope.

(** ** The operator's options *)

Record Options (W : Type) := mkOptions {
  ControllerAddFuncs : gmap string (M W unit);
  Controllers : list string
}.
Arguments mkOptions {W}.
Arguments ControllerAddFuncs {W}.
Arguments Controllers {W}.

(** [yarnnoderes.Name]. *)
Definition yarnresource := "yarnresource".

Definition controllerAddFuncs {W} (Add : M W unit) : gmap string (M W unit) :=
  {[ yarnresource := Add ]}.
Definition controllerAddDefault : list string := [yarnresource].

Definition NewOptions {W} (Add : M W unit) : Options W :=
  mkOptions (controllerAddFuncs Add) controllerAddDefault.

(** [InitFlags] binds the [controllers] flag: a value on the command line replaces
    the default list. *)
Definition InitFlags {W} (flag : option (list string)) (o : Options W) : Options W :=
  mkOptions (ControllerAddFuncs o) (default (Controllers o) flag).

(** The loop of [isControllerEnabled], with its local variable. *)
Fixpoint enabled_loop (controllerName : string) (hasStar : bool) (controllers : list string) : bool :=
  match controllers with
  | [] => hasStar
  | c :: rest =>
      if bool_decide (c = controllerName) then true
      else if bool_decide (c = "-" +:+ controllerName) then false
      else enabled_loop controllerName (if bool_decide (c = "*") then true else hasStar) rest
  end.

Definition isControllerEnabled (controllerName : string) (controllers : list string) : bool :=
  enabled_loop controllerName false controllers.

Definition ApplyTo {W} (o : Options W) : M W unit :=
  for_each (map_to_list (ControllerAddFuncs o)) (λ '(controllerName, addFn),
    if negb (isControllerEnabled controllerName (Controllers o)) then mret tt
    else addFn).

(** [setRestConfig]: the flags override the client's limits when positive. *)
Record RestConfig := mkRestConfig { QPS : Z; Burst : Z; UserAgent : string }.

Definition setRestConfig (restConfigQPS restConfigBurst : Z) (c : RestConfig) : RestConfig :=
  mkRestConfig (if bool_decide (0 < restConfigQPS)%Z then restConfigQPS else QPS c)
               (if bool_decide (0 < restConfigBurst)%Z then restConfigBurst else Burst c) (UserAgent c).

(** ** The agent's options *)

(** Durations are in nanoseconds. *)
Record Configuration := mkConfiguration {
  ServerEndpoint : string;
  YarnContainerCgroupPath : string;
  conf_SyncMemoryCgroup : bool;
  SyncCgroupPeriod : Z;
  NodeMangerEndpoint : string;
  CgroupRootDir : string
}.

Definition DefaultServerEndpoint := "/var/run/yarn-copilot/yarn-copilot.sock".
Definition DefaultYarnContainerCgroupPath := "kubepods/besteffort/hadoop-yarn".
Definition DefaultSyncCgroupPeriod : Z := 10 * 1000000000.
Definition DefaultNodeManagerEndpoint := "localhost:8042".
Definition DefaultCgroupRootDir := "/sys/fs/cgroup/".

Definition NewConfiguration : Configuration :=
  mkConfiguration DefaultServerEndpoint DefaultYarnContainerCgroupPath false
    DefaultSyncCgroupPeriod DefaultNodeManagerEndpoint DefaultCgroupRootDir.

(** [main] after the flags were parsed into [conf]: the operator it starts. *)
Definition agent_operator {E} (watcher : outcome unit) (conf : Configuration) (fs : FS) (env : E)
  : outcome (NodeMangerOperator * AgentState E) :=
  NewNodeMangerOperator watcher (CgroupRootDir conf) (YarnContainerCgroupPath conf)
    (conf_SyncMemoryCgroup conf) (NodeMangerEndpoint conf) (SyncCgroupPeriod conf) fs env.

(** ** Correctness *)

(** A controller is selected by the first entry of the list that names it, or, when
    none does, by a star. *)
Definition selected (name : string) (controllers : list string) : bool :=
  match first_such (λ c, bool_decide (c = name ∨ c = "-" +:+ name)) controllers with
  | Some c => bool_decide (c = name)
  | None => bool_decide ("*" ∈ controllers)
  end.

Lemma enabled_loop_selected name star cs :
  enabled_loop name star cs =
  match first_such (λ c, bool_decide (c = name ∨ c = "-" +:+ name)) cs with
  | Some c => bool_decide (c = name)
  | None => star || bool_decide ("*" ∈ cs)
  end.
Proof.
  revert star. induction cs as [|c cs IH]; intros star; cbn [enabled_loop first_such].
  { by rewrite orb_false_r. }
  destruct (decide (c = name)) as [->|Hn].
  { rewrite !bool_decide_eq_true_2 by auto. done. }
  rewrite (bool_decide_eq_false_2 (c = name)) by done.
  destruct (decide (c = "-" +:+ name)) as [->|Hm].
  { rewrite !bool_decide_eq_true_2 by auto. by rewrite bool_decide_eq_false_2. }
  rewrite (bool_decide_eq_false_2 (c = "-" +:+ name)) by done.
  rewrite (bool_decide_eq_false_2 (c = name ∨ _)) by tauto. rewrite IH.
  destruct (first_such _ cs); [done|].
  rewrite (bool_decide_ext ("*" ∈ c :: cs) ("*" = c ∨ "*" ∈ cs)) by apply elem_of_cons.
  rewrite bool_decide_or, orb_assoc. f_equal.
  rewrite (bool_decide_ext ("*" = c) (c = "*")) by done.
  by destruct star, (bool_decide (c = "*")).
Qed.

Lemma isControllerEnabled_selected name cs : isControllerEnabled name cs = selected name cs.
Proof. unfold isControllerEnabled. by rewrite enabled_loop_selected. Qed.

(** A loop whose body does nothing on the elements that are not selected. *)
Lemma for_each_skip {S A} (p : A → bool) (f g : A → M S unit) l s :
  (∀ x s, g x s = (if p x then f x else mret tt) s) →
  for_each l g s = for_each (filter (λ x, p x = true) l) f s.
Proof.
  intros Hg. revert s. induction l as [|x l IH]; intros s; [done|]. cbn [for_each]. rewrite filter_cons.
  unfold mbind at 1, M_bind at 1. rewrite Hg. destruct (p x) eqn:Hp.
  - rewrite decide_True by done. cbn [for_each]. unfold mbind, M_bind.
    destruct (f x s) as [[[]|e|w] s1]; [apply IH|done..].
  - rewrite decide_False by done. apply IH.
Qed.

(** The operator starts exactly the registered controllers the [controllers] flag
    selects, one after the other until one fails: the first entry that names a
    controller decides, [x] for and [-x] against it, and a [*] anywhere decides for
    the controllers no entry names, so "*,-x" starts all except [x]. *)
Theorem apply_starts_selected {W} (o : Options W) (w : W) :
  ApplyTo o w =
  for_each (filter (λ p, selected p.1 (Controllers o) = true) (map_to_list (ControllerAddFuncs o)))
    snd w.
Proof.
  apply (for_each_skip (λ p, selected p.1 (Controllers o)) snd). intros [name addFn] s. cbn [fst snd].
  rewrite isControllerEnabled_selected. by destruct (selected _ _).
Qed.
