(* ===== verification/Agent.v ===== *)
(** * The agent as a whole: [src/cmd/yarn-copilot-agent/main.go]

    The start-up of the agent and its goroutines, the node-manager operator and the HTTP
    server, as a transition system: the opening and the closing of the server's socket,
    an event of the operator's loop and a request are steps in any order. *)

From S2P Require Import Prelude GoStrings NodeResource ReferenceApi GoPath NodeManager NodeManagerProofs.
From S2P Require Import AgentServer Options.

Local Open Scope string_scope.

(** ** Start-up

    [parsed] is what [f.Parse] makes of the arguments: the configuration the flags
    were stored in and the value of [help].  As the set is made with [ExitOnError], the
    library itself ends the process on unusable arguments; the branch for a returned
    error is there as in the code. *)

Inductive AgentBoot (E : Type) :=
| AgentExits (code : Z)
| AgentServes (server : YarnCopilotServer) (s : AgentState E).
Arguments AgentExits {E}.
Arguments AgentServes {E}.

(** [klog.Fatal] ends the process with this status. *)
Definition fatal_code : Z := 255.

Definition agent_boot {E} (watcher : outcome unit) (parsed : outcome (Configuration * bool))
    (fs : FS) (env : E) : outcome (AgentBoot E) :=
  match parsed with
  | Panic w => Panic w
  | Err _ => Ok (AgentExits fatal_code)
  | Ok (conf, help) =>
      if help : bool then Ok (AgentExits 0)
      else
        match agent_operator watcher conf fs env with
        | Panic w => Panic w
        | Err _ => Ok (AgentExits fatal_code)
        | Ok (n, s) => Ok (AgentServes (NewYarnCopilotServer n (ServerEndpoint conf)) s)
        end
  end.

(** ** The two goroutines *)

(** Where [operator.Run] is: before the directories are set up, in its loop, or
    returned, with or without an error. *)
Inductive LoopPhase := Starting | Looping | Returned.

(** Where [server.Run] is: before it listens, serving, or returned, after which [main]
    returns too; or the process has ended because the socket could not be opened. *)
Inductive ServerPhase := Opening | Serving | Stopped | Exited.

(** [Run] never calls [Shutdown], so requests are answered until the process is gone. *)
Definition answering (sv : ServerPhase) : bool :=
  match sv with Serving | Stopped => true | Opening | Exited => false end.

Record AgentRun (E : Type) := mkAgentRun {
  run_phase : LoopPhase;
  run_server : ServerPhase;
  run_agent : AgentState E
}.
Arguments mkAgentRun {E}.
Arguments run_phase {E}.
Arguments run_server {E}.
Arguments run_agent {E}.

(** [operator.Run] does something only with [SyncMemoryCgroup]. *)
Definition agent_begin {E} (n : NodeMangerOperator) (s : AgentState E) : AgentRun E :=
  mkAgentRun (if SyncMemoryCgroup n then Starting else Returned) Opening s.

Section Steps.
Context {E Q : Type} {QA : QuantityApi Q} {CV : CoreV1}.
Context {SA : SystemApi} {RC : RuncApi} {AE : AgentEnv E}.
Context (n : NodeMangerOperator) (unixPath : string).

(** A panic of the loop ends the process, so such a run has no further states; a
    panic of a handler is recovered by the HTTP library. *)
Inductive agent_step : relation (AgentRun E) :=
| StepSetup sv s s' :
    sv ≠ Exited → nm_setup n s = (Ok tt, s') →
    agent_step (mkAgentRun Starting sv s) (mkAgentRun Looping sv s')
| StepSetupFails sv s e s' :
    sv ≠ Exited → nm_setup n s = (Err e, s') →
    agent_step (mkAgentRun Starting sv s) (mkAgentRun Returned sv s')
| StepEvent sv ev s s' (go : bool) :
    sv ≠ Exited → nm_step n ev s = (Ok go, s') →
    agent_step (mkAgentRun Looping sv s) (mkAgentRun (if go then Looping else Returned) sv s')
| StepListen ph s s' :
    in_fs (srv_listen unixPath) s = (Ok tt, s') →
    agent_step (mkAgentRun ph Opening s) (mkAgentRun ph Serving s')
| StepListenFails ph s e s' :
    in_fs (srv_listen unixPath) s = (Err e, s') →
    agent_step (mkAgentRun ph Opening s) (mkAgentRun ph Exited s')
| StepRequest ph sv (req : Request Q) s out s' :
    answering sv = true → serve n req s = (out, s') →
    agent_step (mkAgentRun ph sv s) (mkAgentRun ph sv s')
| StepCancelled ph s s' :
    in_fs (srv_cleanup unixPath) s = (Ok tt, s') →
    agent_step (mkAgentRun ph Serving s) (mkAgentRun ph Stopped s').

(** ** What the parts leave alone

    Calls into the file system and the environment change no field of the operator;
    a relation that allows them is kept by everything but a kill and a change of the
    endpoint. *)
Definition same_fields : relation (AgentState E) := λ s s',
  ag_NMEndpoint s' = ag_NMEndpoint s ∧ ag_baseURL s' = ag_baseURL s ∧ ag_kills s' = ag_kills s.

Section Preserved.
Context (R : relation (AgentState E)) `{!PreOrder R}.
Hypothesis R_calls : ∀ s s', same_fields s s' → R s s'.

Lemma preserves_in_fs {A} (c : M FS A) : preserves R (in_fs c).
Proof using R_calls.
  intros s r s'. unfold in_fs, zoom. destruct (c _). intros [= <- <-]. by apply R_calls.
Qed.

Lemma preserves_in_agent_env {A} (c : M E A) : preserves R (in_agent_env c).
Proof using R_calls.
  intros s r s'. unfold in_agent_env, zoom. destruct (c _). intros [= <- <-]. by apply R_calls.
Qed.

#[local] Hint Resolve preserves_in_fs preserves_in_agent_env : copilot.

Lemma preserves_quiet c : preserves R c → preserves R (quiet c).
Proof using PreOrder0. intros Hc. unfold quiet. solve_preserves. Qed.

Lemma preserves_ListContainers : preserves R ListContainers.
Proof using PreOrder0 R_calls. unfold ListContainers. solve_preserves. Qed.

#[local] Hint Resolve preserves_ListContainers : copilot.

Lemma preserves_GetContainer id : preserves R (GetContainer id).
Proof using PreOrder0 R_calls. unfold GetContainer. solve_preserves. Qed.

#[local] Hint Resolve preserves_GetContainer : copilot.

Lemma preserves_loop {A} (l : list A) (f : A → M (AgentState E) unit) :
  (∀ x, preserves R (f x)) → preserves R (for_each l f).
Proof using PreOrder0. intros Hf. by apply preserves_for_each. Qed.

Lemma preserves_createMemoryCgroup f : preserves R (createMemoryCgroup n f).
Proof using PreOrder0 R_calls.
  unfold createMemoryCgroup. case_match; [solve_preserves|]. apply preserves_quiet.
  solve_preserves. apply preserves_loop. auto with copilot.
Qed.

Lemma preserves_removeMemoryCgroup f : preserves R (removeMemoryCgroup n f).
Proof using PreOrder0 R_calls.
  unfold removeMemoryCgroup. case_match; [solve_preserves|]. apply preserves_quiet. auto with copilot.
Qed.

Lemma preserves_syncNoneProcCgroup : preserves R (syncNoneProcCgroup n).
Proof using PreOrder0 R_calls.
  unfold syncNoneProcCgroup. solve_preserves. apply preserves_loop. intros [name nd].
  solve_preserves.
Qed.

Lemma preserves_syncAllCgroup : preserves R (syncAllCgroup n).
Proof using PreOrder0 R_calls.
  unfold syncAllCgroup. solve_preserves; apply preserves_loop;
    auto using preserves_createMemoryCgroup, preserves_removeMemoryCgroup.
Qed.

Lemma preserves_syncParentCgroup : preserves R (syncParentCgroup n).
Proof using PreOrder0 R_calls. unfold syncParentCgroup. solve_preserves. Qed.

Lemma preserves_nm_setup : preserves R (nm_setup n).
Proof using PreOrder0 R_calls. unfold nm_setup, ensureCgroupDir. solve_preserves. Qed.

#[local] Hint Resolve preserves_createMemoryCgroup preserves_removeMemoryCgroup
  preserves_syncNoneProcCgroup preserves_syncAllCgroup preserves_syncParentCgroup : copilot.

Lemma preserves_nm_step ev :
  (ev = NMTick → preserves R syncNMEndpoint) → preserves R (nm_step n ev).
Proof using PreOrder0 R_calls.
  intros He. destruct ev; cbn [nm_step]; try specialize (He eq_refl); solve_preserves.
Qed.

Lemma preserves_serve (req : Request Q) :
  (∀ id, preserves R (KillContainer n id)) → preserves R (serve n req).
Proof using PreOrder0 R_calls.
  intros Hk. unfold serve, with_body, Health, Information, srv_GetContainer, srv_ListContainers,
    srv_KillContainer, srv_KillContainerByResource. solve_preserves.
Qed.
End Preserved.

(** What a step does to the agent's state. *)
Lemma preserves_step (R : relation (AgentState E)) `{!PreOrder R} r1 r2 :
  (∀ s s', same_fields s s' → R s s') →
  preserves R syncNMEndpoint → (∀ id, preserves R (KillContainer n id)) →
  agent_step r1 r2 → R (run_agent r1) (run_agent r2).
Proof.
  intros HR He Hk. destruct 1 as [? ? ? _ H|? ? ? ? _ H|? ? ? ? ? _ H|? ? ? H|? ? ? ? H|? ? ? ? ? ? _ H|? ? ? H];
    revert H; cbn [run_agent].
  1,2: by apply preserves_nm_setup.
  2,3,5: by apply preserves_in_fs.
  - by apply preserves_nm_step.
  - by apply preserves_serve.
Qed.

(** A relation that every step satisfies holds between the first and the last state
    of a run. *)
Lemma run_related (R : relation (AgentState E)) `{!PreOrder R} r0 r :
  (∀ r1 r2, agent_step r1 r2 → R (run_agent r1) (run_agent r2)) →
  rtc agent_step r0 r → R (run_agent r0) (run_agent r).
Proof. intros HR. induction 1 as [|r1 r2 r3 H12 _ IH]; [done|]. etrans; [by apply HR|done]. Qed.

(** ** Signals *)

(** A process group other than the ones [kill] treats specially: the sender's own
    (0), every process (-1), and init. *)
Definition group_kill (k : Z * Z) : Prop := (k.1 ≤ -2)%Z ∧ k.2 = SIGKILL.

Definition kills_groups : relation (AgentState E) := λ s s',
  Forall group_kill (ag_kills s) → Forall group_kill (ag_kills s').

#[global] Instance kills_groups_preorder : PreOrder kills_groups.
Proof. split; [by intros s H|intros s1 s2 s3 H1 H2 H; exact (H2 (H1 H))]. Qed.

Lemma kills_groups_calls s s' : same_fields s s' → kills_groups s s'.
Proof. intros (_ & _ & H). unfold kills_groups. by rewrite H. Qed.

#[local] Hint Resolve kills_groups_calls : copilot.

Lemma kills_groups_KillContainer id : preserves kills_groups (KillContainer n id).
Proof.
  unfold KillContainer, getProcessGroupID. apply preserves_bind; [apply _| |intros p].
  { solve_preserves; apply preserves_in_fs; auto with copilot. }
  case_bool_decide; [solve_preserves|].
  apply preserves_bind; [apply _| |intros _; apply preserves_in_agent_env; auto with copilot].
  intros s r s' [= <- <-] Hs. constructor; [|done]. split; [cbn; lia|done].
Qed.

Lemma kills_groups_syncNMEndpoint : preserves kills_groups syncNMEndpoint.
Proof.
  apply preserves_quiet; [apply _|]. unfold GetNMPodEndpoint.
  solve_preserves; first [by intros s0 r s' [= <- <-] ?|apply preserves_in_agent_env; auto with copilot].
Qed.

Lemma kills_groups_step r1 r2 : agent_step r1 r2 → kills_groups (run_agent r1) (run_agent r2).
Proof.
  apply preserves_step; auto using kills_groups_syncNMEndpoint, kills_groups_KillContainer
    with copilot typeclass_instances.
Qed.

(** ** The endpoint *)

Definition same_endpoint : relation (AgentState E) := λ s s',
  ag_NMEndpoint s' = ag_NMEndpoint s ∧ ag_baseURL s' = ag_baseURL s.

#[global] Instance same_endpoint_preorder : PreOrder same_endpoint.
Proof. split; [by intros s|intros s1 s2 s3 [] []; split; congruence]. Qed.

Lemma same_endpoint_calls s s' : same_fields s s' → same_endpoint s s'.
Proof. by intros (? & ? & _). Qed.

#[local] Hint Resolve same_endpoint_calls : copilot.

Lemma same_endpoint_KillContainer id : preserves same_endpoint (KillContainer n id).
Proof.
  unfold KillContainer, getProcessGroupID.
  solve_preserves; first [by intros s r s' [= <- <-]; split|apply preserves_in_fs; auto with copilot
                         |apply preserves_in_agent_env; auto with copilot].
Qed.

Lemma same_endpoint_serve (req : Request Q) : preserves same_endpoint (serve n req).
Proof. apply preserves_serve; auto using same_endpoint_KillContainer with copilot typeclass_instances. Qed.

Lemma GetNMPodEndpoint_run (s : AgentState E) r s' :
  GetNMPodEndpoint s = (r, s') →
  same_endpoint s s' ∧ (∀ ep found, r = Ok (ep, found) → ep = "" ↔ found = false).
Proof.
  unfold GetNMPodEndpoint. unfold_M. intros H.
  destruct (in_agent_env _ s) as [r1 s1] eqn:Hg.
  assert (same_endpoint s s1) as He by (revert Hg; apply preserves_in_agent_env; auto with copilot).
  repeat case_match; simplify_eq; (split; [done|]); intros ep found; [..|congruence|congruence];
    intros [= <- <-]; try done.
  split; [|done]. intros Hep. apply (f_equal String.length) in Hep. rewrite string_length_app in Hep.
  cbn in Hep. lia.
Qed.

(** How the endpoint and the base URL change: not at all; the endpoint is lost and the
    URL stays; or both are the endpoint the kubelet names. *)
Definition endpoint_change (s s' : AgentState E) : Prop :=
  same_endpoint s s' ∨
  ag_NMEndpoint s' = "" ∧ ag_baseURL s' = ag_baseURL s ∨
  ∃ ep s1, GetNMPodEndpoint s = (Ok (ep, true), s1) ∧ ep ≠ "" ∧
    ag_NMEndpoint s' = ep ∧ ag_baseURL s' = "http://" +:+ ep.

Lemma syncNMEndpoint_change (s : AgentState E) r s' : syncNMEndpoint s = (r, s') → endpoint_change s s'.
Proof.
  unfold syncNMEndpoint, quiet, try. unfold mbind at 1 2, M_bind at 1 2.
  destruct (GetNMPodEndpoint s) as [[[ep found]|e|w] s1] eqn:Hg;
    pose proof (GetNMPodEndpoint_run _ _ _ Hg) as [Hs Hf]; [|intros [= <- <-]; by left..].
  unfold_M. case_bool_decide; intros [= <- <-]; [by left|]. right.
  specialize (Hf ep found eq_refl). destruct found.
  - right. exists ep, s1. split; [done|]. split; [by intros ?%Hf|]. done.
  - left. split; [by apply Hf|]. apply Hs.
Qed.

Lemma endpoint_step r1 r2 : agent_step r1 r2 → endpoint_change (run_agent r1) (run_agent r2).
Proof.
  destruct 1 as [? ? ? _ H|? ? ? ? _ H|sv ev s s' go _ H|? ? ? H|? ? ? ? H|? ? ? ? ? ? _ H|? ? ? H];
    cbn [run_agent]; [left..| |left|left|left|left].
  1,2: revert H; apply preserves_nm_setup; auto with copilot typeclass_instances.
  2,3,5: revert H; apply preserves_in_fs; auto with copilot.
  2: eapply same_endpoint_serve, H.
  assert (ev = NMTick ∨ ev ≠ NMTick) as [->|Hne] by (destruct ev; by (left + right)).
  - cbn [nm_step] in H. apply M_bind_inv in H as ([] & s1 & H & [= _ <-]).
    by eapply syncNMEndpoint_change.
  - left. revert H. apply preserves_nm_step; auto with copilot typeclass_instances. done.
Qed.

(** An operator whose [Run] has returned answers requests only. *)
Lemma returned_run r0 r :
  run_phase r0 = Returned → rtc agent_step r0 r → same_endpoint (run_agent r0) (run_agent r).
Proof.
  intros H0. induction 1 as [|r1 r2 r3 Hstep _ IH]; [done|].
  destruct Hstep as [| | |? ? ? H|? ? ? ? H|? ? ? ? ? ? _ H|? ? ? H]; cbn [run_phase run_agent] in *; [done..| | | |];
    (etrans; [|by apply IH]); first [eapply same_endpoint_serve, H|revert H; apply preserves_in_fs; auto with copilot].
Qed.

Lemma agent_boot_serves watcher parsed fs (env : E) srv s :
  agent_boot watcher parsed fs env = Ok (AgentServes srv s) →
  ∃ conf, parsed = Ok (conf, false) ∧ (0 < SyncCgroupPeriod conf)%Z ∧
    srv = NewYarnCopilotServer (mkNodeMangerOperator (CgroupRootDir conf) (YarnContainerCgroupPath conf)
            (conf_SyncMemoryCgroup conf)) (ServerEndpoint conf) ∧
    s = mkAgentState fs (NodeMangerEndpoint conf) ("http://" +:+ NodeMangerEndpoint conf) [] env.
Proof.
  unfold agent_boot, agent_operator, NewNodeMangerOperator, NewTicker.
  destruct parsed as [[conf [|]]|e|w]; [done| |done..].
  destruct watcher as [[]|e|w]; [|done..]. cbn [mbind outcome_bind].
  destruct (bool_decide (0 < SyncCgroupPeriod conf)%Z) eqn:Hp; [|done].
  apply bool_decide_eq_true in Hp. cbn. intros [= <- <-]. exists conf. auto.
Qed.
End Steps.

Section Theorems.
Context {E Q : Type} {QA : QuantityApi Q} {CV : CoreV1}.
Context {SA : SystemApi} {RC : RuncApi} {AE : AgentEnv E}.

(** However events and requests interleave after the start-up, every signal the
    agent sends is SIGKILL to a process group with a number above one: never to its
    own group, to every process, or to init's group, whatever the cgroup files and
    the node manager say. *)
Theorem agent_signals_only_groups watcher parsed fs (env : E) srv s0 r :
  agent_boot watcher parsed fs env = Ok (AgentServes srv s0) →
  rtc (agent_step (Q:=Q) (srv_mgr srv) (srv_unixPath srv)) (agent_begin (srv_mgr srv) s0) r →
  Forall group_kill (ag_kills (run_agent r)).
Proof.
  intros (conf & _ & _ & _ & ->)%agent_boot_serves Hrun.
  eapply (run_related _ _ kills_groups); [apply kills_groups_step|done|constructor].
Qed.

(** C21 The address of the node manager.  In every reachable state the HTTP client talks
    to an endpoint that was configured or that the kubelet named in an earlier state of
    the run, and it is the endpoint the operator holds unless that one is empty, because
    no node-manager pod was found last; a step that ends without an endpoint leaves the
    client's address as it was.  Without [sync-memory-cgroup], which is off by default,
    the loop that looks for the pod never runs and the configured endpoint is used for
    ever. *)
Theorem agent_endpoint watcher conf help fs (env : E) srv s0 r :
  agent_boot watcher (Ok (conf, help)) fs env = Ok (AgentServes srv s0) →
  let step := agent_step (Q:=Q) (srv_mgr srv) (srv_unixPath srv) in
  let start := agent_begin (srv_mgr srv) s0 in
  rtc step start r →
  (∃ ep, ag_baseURL (run_agent r) = "http://" +:+ ep ∧
     (ag_NMEndpoint (run_agent r) = ep ∨ ag_NMEndpoint (run_agent r) = "") ∧
     (ep = NodeMangerEndpoint conf ∨
      ∃ r0 s1, rtc step start r0 ∧ rtc step r0 r ∧
        GetNMPodEndpoint (run_agent r0) = (Ok (ep, true), s1))) ∧
  (∀ r', step r r' → ag_NMEndpoint (run_agent r') = "" →
     ag_baseURL (run_agent r') = ag_baseURL (run_agent r)) ∧
  (conf_SyncMemoryCgroup conf = false →
   ag_NMEndpoint (run_agent r) = NodeMangerEndpoint conf ∧
   ag_baseURL (run_agent r) = "http://" +:+ NodeMangerEndpoint conf).
Proof.
  intros (conf' & Hp & _ & -> & ->)%agent_boot_serves step start Hrun. simplify_eq. split; [|split].
  - revert r Hrun. apply rtc_ind_r; [by eauto 6|].
    intros r1 r2 Hr1 Hstep (ep & Hurl & Hep & Hsrc).
    assert (ep = NodeMangerEndpoint conf' ∨ ∃ r0 s1, rtc step start r0 ∧ rtc step r0 r2 ∧
              GetNMPodEndpoint (run_agent r0) = (Ok (ep, true), s1)) as Hsrc'.
    { destruct Hsrc as [?|(r0 & s1 & ? & ? & ?)]; [by left|right]. exists r0, s1.
      split; [done|]. split; [by eapply rtc_r|done]. }
    pose proof (endpoint_step _ _ _ _ Hstep) as [[H1 H2]|[[H1 H2]|(ep' & s1 & Hg & _ & H1 & H2)]].
    + exists ep. rewrite H1, H2. auto.
    + exists ep. rewrite H1, H2. auto.
    + exists ep'. rewrite H1, H2. split; [done|]. split; [by left|]. right. exists r1, s1.
      split; [done|]. split; [by apply rtc_once|done].
  - intros r' Hstep He.
    pose proof (endpoint_step _ _ _ _ Hstep) as [[H1 H2]|[[H1 H2]|(ep' & s1 & _ & Hne & H1 & H2)]];
      congruence.
  - intros Hoff. eapply returned_run in Hrun; [exact Hrun|]. cbn. by rewrite Hoff.
Qed.
End Theorems.

(** ** A run

    The agent starts with the mirror on, sets up its directories, looks for the node
    manager, resyncs, and serves a kill. *)
Module AgentWitness.
Import OneContainer Reference AgentServer.AgentRun.

Definition conf_of (sync : bool) : Configuration :=
  mkConfiguration DefaultServerEndpoint "yarn" sync DefaultSyncCgroupPeriod "nm.local:8042" "/cg".
Definition op_of (sync : bool) : NodeMangerOperator := mkNodeMangerOperator "/cg" "yarn" sync.
Definition boot_state : AgentState unit :=
  mkAgentState node_fs "nm.local:8042" "http://nm.local:8042" [] tt.
Definition kill_request : Request Qty := mkRequest POST "/v1/killContainer" "" kill_c1.

Definition ready_state : AgentState unit := (nm_setup (op_of true) boot_state).2.
Definition found_state : AgentState unit := (nm_step (op_of true) NMTick ready_state).2.
Definition synced_state : AgentState unit := (nm_step (op_of true) SyncTick found_state).2.
Definition served_state (s : AgentState unit) : AgentState unit :=
  (in_fs (srv_listen DefaultServerEndpoint) s).2.
Definition killed_state : AgentState unit :=
  (serve (op_of true) kill_request (served_state synced_state)).2.

Abbreviation step sync := (agent_step (Q:=Qty) (op_of sync) DefaultServerEndpoint).

Lemma mirror_run :
  rtc (step true) (agent_begin (op_of true) boot_state) (mkAgentRun Looping Serving killed_state).
Proof.
  eapply rtc_l; [by apply (StepSetup _ _ Opening boot_state ready_state); [|vm_compute]|].
  eapply rtc_l; [by apply (StepEvent _ _ Opening NMTick ready_state found_state true); [|vm_compute]|].
  eapply rtc_l; [by apply (StepEvent _ _ Opening SyncTick found_state synced_state true); [|vm_compute]|].
  eapply rtc_l; [by apply (StepListen _ _ _ synced_state (served_state synced_state)); vm_compute|].
  apply rtc_once. eapply (StepRequest _ _ _ _ kill_request); [done|]. apply surjective_pairing.
Defined.

(** The mirror is off and the kill is served right after the start. *)
Definition off_state : AgentState unit :=
  (serve (op_of false) kill_request (served_state boot_state)).2.

Lemma off_run :
  rtc (step false) (agent_begin (op_of false) boot_state) (mkAgentRun Returned Serving off_state).
Proof.
  eapply rtc_l; [by apply (StepListen _ _ _ boot_state (served_state boot_state)); vm_compute|].
  apply rtc_once. eapply (StepRequest _ _ _ _ kill_request); [done|]. apply surjective_pairing.
Defined.

Lemma agent_signals_only_groups_witness :
  ag_kills killed_state = [(-4711, 9)%Z] ∧ Forall group_kill (ag_kills killed_state).
Proof.
  split; [vm_compute; reflexivity|].
  exact (agent_signals_only_groups (Q:=Qty) (Ok tt) (Ok (conf_of true, false)) node_fs tt
           (NewYarnCopilotServer (op_of true) DefaultServerEndpoint) boot_state _ eq_refl mirror_run).
Defined.

(** With the mirror on, the endpoint is the one the kubelet named. *)
Lemma agent_endpoint_witness :
  (ag_baseURL killed_state = "http://localhost:8042" ∧
   ∃ ep, ag_baseURL killed_state = "http://" +:+ ep ∧
     (ag_NMEndpoint killed_state = ep ∨ ag_NMEndpoint killed_state = "") ∧
     (ep = "nm.local:8042" ∨
      ∃ r0 s1, rtc (step true) (agent_begin (op_of true) boot_state) r0 ∧
        rtc (step true) r0 (mkAgentRun Looping Serving killed_state) ∧
        GetNMPodEndpoint (run_agent r0) = (Ok (ep, true), s1))) ∧
  ag_NMEndpoint off_state = "nm.local:8042".
Proof.
  split; [split; [vm_compute; reflexivity|]|].
  - exact (proj1 (agent_endpoint (Q:=Qty) (Ok tt) (conf_of true) false node_fs tt
             (NewYarnCopilotServer (op_of true) DefaultServerEndpoint) boot_state _ eq_refl mirror_run)).
  - exact (proj1 (proj2 (proj2 (agent_endpoint (Q:=Qty) (Ok tt) (conf_of false) false node_fs tt
             (NewYarnCopilotServer (op_of false) DefaultServerEndpoint) boot_state _ eq_refl off_run)) eq_refl)).
Defined.
End AgentWitness.
