(* ===== verification/AgentFiles.v ===== *)
(** * The files the agent changes

    In every run of the agent, whatever the events, the container names in them, the node
    manager's answers and the requests. *)

From stdpp Require Import sorting.
From S2P Require Import Prelude GoStrings NodeResource ReferenceApi GoPath NodeManager NodeManagerProofs.
From S2P Require Import CgroupSweep AgentServer Options Agent.

Local Open Scope string_scope.

(** ** Trees *)

(** The last element of a path is a plain name or one of the special ones. *)
Lemma Base_no_slash p : Base p = "/" ∨ contains_byte slash (Base p) = false.
Proof.
  unfold Base. destruct (list.last _) as [c|] eqn:Hl.
  - right. apply list.last_Some in Hl as [l Hl].
    assert (c ∈ filter (λ c, c ≠ "") (Split p slash)) as Hin by (rewrite Hl; set_solver).
    apply list_elem_of_filter in Hin as [_ Hin].
    pose proof (Split_pieces p slash) as Hs. rewrite list.Forall_forall in Hs. by apply Hs.
  - case_bool_decide; [by right|by left].
Qed.

Lemma container_base f : is_container (Base f) = true → plain_name (Base f).
Proof.
  intros Hc. apply container_plain; [done|].
  destruct (Base_no_slash f) as [Hb|Hb]; [|done]. by rewrite Hb in Hc.
Qed.

(** ** Confinement *)

Section Confined.
Context {E Q : Type} {QA : QuantityApi Q} {CV : CoreV1}.
Context {SA : SystemApi} {RC : RuncApi} {AE : AgentEnv E} {SL : SystemLaws}.
Context (n : NodeMangerOperator) (unixPath : string).

(** The two directories of the containers' cgroups, and the server's socket. *)
Definition own_file (k : string) : Prop := under (cpuDir n) k ∨ under (memDir n) k ∨ k = unixPath.

(** A directory above one of them. *)
Definition above (k : string) : Prop :=
  k ∈ path_prefixes (cpuDir n) ∨ k ∈ path_prefixes (memDir n) ∨ k ∈ path_prefixes (Dir unixPath).

(** Other files stay as they are; only missing directories above these may have been made. *)
Definition confined_fs (fs fs' : FS) : Prop := ∀ k, ¬ own_file k →
  fs_nodes fs' !! k = fs_nodes fs !! k ∨
  above k ∧ fs_nodes fs !! k = None ∧ is_dir fs' k = true.

Definition confined : relation (AgentState E) := λ s s', confined_fs (ag_fs s) (ag_fs s').

#[export] Instance confined_fs_preorder : PreOrder confined_fs.
Proof.
  split; [intros fs k _; by left|]. intros f1 f2 f3 H12 H23 k Hk.
  destruct (H12 k Hk) as [H1|(Ha & H1 & Hd)], (H23 k Hk) as [H2|(Ha' & H2 & Hd')].
  - left. congruence.
  - right. by rewrite <- H1.
  - right. split; [done|]. split; [done|]. unfold is_dir in *. by rewrite H2.
  - unfold is_dir in Hd. by rewrite H2 in Hd.
Qed.
#[export] Instance confined_preorder : PreOrder confined.
Proof. unfold confined. split; [by intros s|]. intros s1 s2 s3 H1 H2. by etrans. Qed.

Lemma confined_in_fs {A} (c : M FS A) : preserves confined_fs c → preserves confined (in_fs c).
Proof.
  intros Hc s r s'. unfold in_fs, zoom. destruct (c (ag_fs s)) as [r' fs'] eqn:H.
  intros [= <- <-]. exact (Hc _ _ _ H).
Qed.
Lemma confined_env {A} (c : M E A) : preserves confined (in_agent_env c).
Proof.
  intros s r s'. unfold in_agent_env, zoom. destruct (c (ag_env s)) as [r' e'].
  intros [= <- <-]. unfold confined. cbn. reflexivity.
Qed.

Lemma confined_reads {A} (c : M FS A) : reads c → preserves confined (in_fs c).
Proof. intros Hc. apply confined_in_fs. intros fs r fs' [_ ->]%Hc. reflexivity. Qed.

Lemma confined_touches p c : own_file p → touches_only p c → preserves confined (in_fs c).
Proof.
  intros Hp Hc. apply confined_in_fs. intros fs r fs' (_ & _ & _ & Hk)%Hc k Hno. left.
  apply Hk. by intros ->.
Qed.

Lemma confined_set p nd fs : own_file p → confined_fs fs (set_node p nd fs).
Proof.
  intros Hp k Hno. left. unfold set_node. cbn. apply lookup_insert_ne. by intros <-.
Qed.

Lemma confined_mkdir p perm : own_file p → preserves confined (in_fs (os_Mkdir p perm)).
Proof.
  intros Hp. apply confined_in_fs. intros fs r fs'. unfold os_Mkdir.
  repeat case_match; intros [= <- <-]; first [reflexivity|by apply confined_set].
Qed.

Lemma confined_remove p :
  (∀ k, under p k → own_file k) → preserves confined (in_fs (os_RemoveAll p)).
Proof.
  intros Hp. apply confined_in_fs. intros fs r fs'. unfold os_RemoveAll. cbn zeta.
  repeat case_match; intros [= <- <-]; [reflexivity|..]; intros k Hno; left;
    apply (remove_tree_kept p fs k); intros Hu; by apply Hno, Hp.
Qed.

Lemma confined_ListContainers : preserves confined (ListContainers (E:=E)).
Proof. unfold ListContainers. solve_preserves. apply confined_env. Qed.

Lemma confined_quiet c : preserves confined c → preserves confined (quiet c).
Proof. apply preserves_quiet; apply _. Qed.

#[local] Hint Resolve confined_env confined_reads confined_ListContainers confined_quiet : copilot.

(** The directories are not the root or the working directory. *)
Hypothesis root_set : CgroupRoot n ≠ "".
Hypothesis mem_proper : memDir n ≠ "/" ∧ memDir n ≠ ".".
Hypothesis cpu_proper : cpuDir n ≠ "/" ∧ cpuDir n ≠ ".".

Lemma dir_clean sub : Clean (path_Join [CgroupRoot n; sub; CgroupPath n]) = path_Join [CgroupRoot n; sub; CgroupPath n].
Proof using root_set.
  cbn [path_Join]. rewrite bool_decide_eq_false_2 by done. apply Clean_idem.
Qed.

Lemma own_mem name : own_file (child (memDir n) name).
Proof using. right. left. apply under_child. Qed.

(** A helper's file in a container's memory cgroup. *)
Lemma own_mem_file name file : plain_name name → plain_name file →
  own_file (path_Join [child (memDir n) name; file]).
Proof using root_set mem_proper.
  intros Hn Hf. rewrite path_Join_grandchild; [|apply dir_clean|apply mem_proper|apply mem_proper|done..].
  right. left. eapply under_trans; apply under_child.
Qed.

Lemma confined_create f : preserves confined (createMemoryCgroup (E:=E) n f).
Proof using SL root_set mem_proper.
  unfold createMemoryCgroup. fold (is_container (Base f)).
  destruct (is_container (Base f)) eqn:Hc; cbn [negb]; [|solve_preserves].
  pose proof (container_base f Hc) as Hb. rewrite (memPath_child n root_set mem_proper _ Hb).
  pose proof system_names as Hnames. rewrite !list.Forall_cons in Hnames.
  destruct Hnames as ([H1 _] & [H2 _] & [H3 _] & [H4 _] & _).
  assert (plain_name MemoryMoveChargeAtImmigrateName) as H5 by (by repeat split).
  apply confined_quiet. unfold GetContainer.
  solve_preserves; try (apply confined_mkdir, own_mem);
    try (eapply confined_touches; [|apply WriteIfDifferent_touches]; by apply own_mem_file).
  - apply confined_reads, GetPids_reads.
  - apply preserves_for_each; [apply _|]. intros pid _.
    eapply confined_touches; [|apply CommonFileWrite_touches]. by apply own_mem_file.
Qed.

Lemma confined_delete f : preserves confined (removeMemoryCgroup (E:=E) n f).
Proof using root_set mem_proper.
  unfold removeMemoryCgroup. fold (is_container (Base f)).
  destruct (is_container (Base f)) eqn:Hc; cbn [negb]; [|solve_preserves].
  rewrite (memPath_child n root_set mem_proper _ (container_base f Hc)).
  apply confined_quiet, confined_remove. intros k Hk. right. left. eapply under_trans; [apply under_child|done].
Qed.

Lemma confined_all : preserves confined (syncAllCgroup (E:=E) n).
Proof using SL root_set mem_proper.
  unfold syncAllCgroup. solve_preserves; (apply preserves_for_each; [apply _|]);
    intros x _; [apply confined_create|apply confined_delete].
Qed.

Lemma confined_sweep : preserves confined (syncNoneProcCgroup (E:=E) n).
Proof using SL.
  unfold syncNoneProcCgroup. solve_preserves. apply preserves_for_each; [apply _|]. intros [name nd] _.
  solve_preserves; [apply confined_reads, CommonFileRead_reads|].
  apply confined_remove. intros k Hk. left. eapply under_trans; [apply under_child|done].
Qed.

Lemma confined_parent : preserves confined (syncParentCgroup (E:=E) n).
Proof using SL root_set cpu_proper.
  unfold syncParentCgroup. solve_preserves.
  eapply confined_touches; [|apply WriteIfDifferent_touches]. left.
  change (GenerateCgroupFullPath n CgroupCPUDir) with (cpuDir n).
  pose proof system_names as Hnames. rewrite !list.Forall_cons in Hnames.
  rewrite path_Join_child; [apply under_child| |apply dir_clean|apply cpu_proper|apply cpu_proper|apply Hnames].
  intros Hc. pose proof (dir_clean CgroupCPUDir) as Hd. fold (cpuDir n) in Hd. by rewrite Hc in Hd.
Qed.

Lemma mkdir_all_confined d perm :
  (∀ k, k ∈ path_prefixes d → above k) → preserves confined_fs (os_MkdirAll d perm).
Proof using.
  intros Hd. unfold os_MkdirAll. apply preserves_for_each; [apply _|].
  intros q Hq fs r fs'. destruct (fs_nodes fs !! q) as [nd|] eqn:Hn.
  - case_match; intros [= <- <-]; reflexivity.
  - case_match; intros [= <- <-]; [reflexivity|]. intros k Hno. destruct (decide (k = q)) as [->|Hne].
    + right. split; [by apply Hd|]. split; [done|]. unfold is_dir, set_node. cbn.
      by rewrite lookup_insert_eq.
    + left. unfold set_node. cbn. by apply lookup_insert_ne.
Qed.

Lemma confined_MkdirAll d perm :
  (∀ k, k ∈ path_prefixes d → above k) → preserves confined (in_fs (os_MkdirAll d perm)).
Proof using. intros Hd. by apply confined_in_fs, mkdir_all_confined. Qed.

Lemma confined_Chmod d perm : own_file d → preserves confined (in_fs (os_Chmod d perm)).
Proof using.
  intros Hd. apply confined_in_fs. intros fs r fs'. unfold os_Chmod.
  repeat case_match; intros [= <- <-]; first [reflexivity|by apply confined_set].
Qed.

(** The server's socket. *)
Lemma confined_Remove : preserves confined_fs (os_Remove unixPath).
Proof using.
  intros fs r fs'. unfold os_Remove. repeat case_match; intros [= <- <-]; try reflexivity.
  intros k Hno. left. cbn. apply lookup_delete_ne. intros <-. apply Hno. by right; right.
Qed.

Lemma confined_listen : preserves confined (in_fs (srv_listen unixPath)).
Proof using.
  apply confined_in_fs. unfold srv_listen.
  apply preserves_bind; [apply _| |intros _].
  { apply preserves_try, mkdir_all_confined. intros k Hk. by right; right. }
  apply preserves_bind; [apply _|by intros fs r fs' [= _ <-]|intros present].
  apply preserves_bind; [apply _| |intros _].
  - destruct present; [|solve_preserves]. apply preserves_bind; [apply _| |intros _; solve_preserves].
    apply preserves_try, confined_Remove.
  - intros fs r fs'. unfold net_Listen. repeat case_match; intros [= <- <-];
      first [reflexivity|apply confined_set; by right; right].
Qed.

Lemma confined_cleanup : preserves confined (in_fs (srv_cleanup unixPath)).
Proof using.
  apply confined_in_fs. unfold srv_cleanup. apply preserves_bind; [apply _| |intros _; solve_preserves].
  apply preserves_try, confined_Remove.
Qed.

Lemma Stat_state d : preserves confined (in_fs (E:=E) (os_Stat d)).
Proof using.
  apply confined_in_fs. intros fs r fs'. unfold os_Stat. case_match; intros [= <- <-]; reflexivity.
Qed.

#[local] Hint Resolve confined_MkdirAll confined_Chmod Stat_state : copilot.

Lemma confined_ensure d :
  own_file d → (∀ k, k ∈ path_prefixes d → above k) → preserves confined (ensureCgroupDir (E:=E) d).
Proof using. intros Hd Ha. unfold ensureCgroupDir. solve_preserves. Qed.

Lemma confined_setup : preserves confined (nm_setup (E:=E) n).
Proof using.
  unfold nm_setup. fold (cpuDir n). fold (memDir n).
  apply preserves_bind; [apply _|apply confined_ensure; [by left; left|by intros k Hk; left]|intros _].
  apply preserves_bind; [apply _|apply confined_env|intros _].
  apply confined_ensure; [by right; left; left|by intros k Hk; right; left].
Qed.

Lemma confined_endpoint : preserves confined (syncNMEndpoint (E:=E)).
Proof using.
  apply confined_quiet. unfold GetNMPodEndpoint.
  solve_preserves; first [apply confined_env|intros s0 r s' [= <- <-]; unfold confined; cbn; reflexivity].
Qed.

#[local] Hint Resolve confined_create confined_delete confined_sweep confined_all confined_parent
  confined_endpoint : copilot.

Lemma confined_event ev : preserves confined (nm_step (E:=E) n ev).
Proof using SL root_set mem_proper cpu_proper. destruct ev; cbn [nm_step]; solve_preserves. Qed.

Lemma confined_kill id : preserves confined (KillContainer (E:=E) n id).
Proof using SL.
  unfold KillContainer, getProcessGroupID. solve_preserves.
  - apply confined_reads, GetPids_reads.
  - intros s r s' [= <- <-]. unfold confined. cbn. reflexivity.
Qed.

#[local] Hint Resolve confined_kill : copilot.

Lemma confined_serve (req : Request Q) : preserves confined (serve (E:=E) n req).
Proof using SL.
  unfold serve, with_body, Health, Information, srv_GetContainer, srv_ListContainers,
    srv_KillContainer, srv_KillContainerByResource, GetContainer. solve_preserves.
Qed.

Lemma confined_step r1 r2 :
  agent_step (Q:=Q) n unixPath r1 r2 → confined (run_agent r1) (run_agent r2).
Proof using SL root_set mem_proper cpu_proper.
  destruct 1 as [? ? ? _ H|? ? ? ? _ H|? ? ? ? ? _ H|? ? ? H|? ? ? ? H|? ? ? ? ? ? _ H|? ? ? H];
    revert H; cbn [run_agent].
  1,2: apply confined_setup.
  - apply confined_event.
  - apply confined_listen.
  - apply confined_listen.
  - apply confined_serve.
  - apply confined_cleanup.
Qed.
End Confined.

Section Theorems.
Context {E Q : Type} {QA : QuantityApi Q} {CV : CoreV1}.
Context {SA : SystemApi} {RC : RuncApi} {AE : AgentEnv E} {SL : SystemLaws}.

(** C20 The agent stays in its directories: with a cgroup root configured, and the
    containers' directories proper ones, in every reachable state, from the opening of the
    server's socket to its removal, whatever names the events carry, whatever the node
    manager lists and whoever asks, every file other than the socket and outside of the
    containers' CPU and memory directories is as it was at the start; only directories
    above these three that were missing may have been made.  (The kernel's own lists of
    processes follow the processes that are moved and are not files of this statement.) *)
Theorem agent_stays_in_its_directories watcher parsed fs (env : E) srv s0 r :
  agent_boot watcher parsed fs env = Ok (AgentServes srv s0) →
  CgroupRoot (srv_mgr srv) ≠ "" →
  memDir (srv_mgr srv) ≠ "/" ∧ memDir (srv_mgr srv) ≠ "." →
  cpuDir (srv_mgr srv) ≠ "/" ∧ cpuDir (srv_mgr srv) ≠ "." →
  rtc (agent_step (Q:=Q) (srv_mgr srv) (srv_unixPath srv)) (agent_begin (srv_mgr srv) s0) r →
  ∀ k, ¬ under (cpuDir (srv_mgr srv)) k → ¬ under (memDir (srv_mgr srv)) k → k ≠ srv_unixPath srv →
    fs_nodes (ag_fs (run_agent r)) !! k = fs_nodes fs !! k ∨
    above (srv_mgr srv) (srv_unixPath srv) k ∧ fs_nodes fs !! k = None ∧
      is_dir (ag_fs (run_agent r)) k = true.
Proof.
  intros (conf & _ & _ & _ & ->)%agent_boot_serves Hroot Hmem Hcpu Hrun k Hc Hm Hu.
  pose proof (run_related (srv_mgr srv) _ (confined (srv_mgr srv) (srv_unixPath srv)) _ _
    (confined_step (srv_mgr srv) (srv_unixPath srv) Hroot Hmem Hcpu) Hrun) as Hconf.
  apply (Hconf k). by intros [?|[?|?]].
Qed.
End Theorems.

(** ** A run

    The agent opens its socket, makes a memory cgroup, serves a kill and is stopped; the
    file of the system that is not the agent's is as before. *)
Section Witness.
Import OneContainer Reference AgentWitness.

Definition hosts : FsNode := mkFsNode false 420 "127.0.0.1 localhost".
Definition host_fs : FS := set_node "/etc/hosts" hosts node_fs.
Definition host_boot : AgentState unit :=
  mkAgentState host_fs "nm.local:8042" "http://nm.local:8042" [] tt.
Definition host_listening : AgentState unit := served_state host_boot.
Definition host_ready : AgentState unit := (nm_setup (op_of true) host_listening).2.
Definition host_synced : AgentState unit := (nm_step (op_of true) SyncTick host_ready).2.
Definition host_killed : AgentState unit := (serve (op_of true) kill_request host_synced).2.
Definition host_stopped : AgentState unit := (in_fs (srv_cleanup DefaultServerEndpoint) host_killed).2.

Definition host_srv : YarnCopilotServer := NewYarnCopilotServer (op_of true) DefaultServerEndpoint.
Definition host_end : AgentRun unit := mkAgentRun Looping Stopped host_stopped.

Lemma host_run :
  rtc (agent_step (Q:=Qty) (srv_mgr host_srv) (srv_unixPath host_srv))
    (agent_begin (srv_mgr host_srv) host_boot) host_end.
Proof.
  eapply rtc_l; [by apply (StepListen _ _ _ host_boot host_listening); vm_compute|].
  eapply rtc_l; [by apply (StepSetup _ _ _ host_listening host_ready); [|vm_compute]|].
  eapply rtc_l; [by apply (StepEvent _ _ _ SyncTick host_ready host_synced true); [|vm_compute]|].
  eapply rtc_l; [eapply (StepRequest _ _ _ _ kill_request); [done|apply surjective_pairing]|].
  apply rtc_once. apply StepCancelled. vm_compute. reflexivity.
Qed.

Lemma agent_stays_in_its_directories_witness :
  (is_dir (ag_fs host_stopped) "/cg/memory/yarn/container_1" = true ∧
   fs_nodes (ag_fs host_listening) !! DefaultServerEndpoint = Some (mkFsNode false 493 "") ∧
   fs_nodes host_fs !! "/etc/hosts" = Some hosts) ∧
  (fs_nodes (ag_fs (run_agent host_end)) !! "/etc/hosts" = fs_nodes host_fs !! "/etc/hosts" ∨
   above (srv_mgr host_srv) (srv_unixPath host_srv) "/etc/hosts" ∧ fs_nodes host_fs !! "/etc/hosts" = None ∧
     is_dir (ag_fs (run_agent host_end)) "/etc/hosts" = true).
Proof.
  split; [by vm_compute|].
  refine (agent_stays_in_its_directories (Q:=Qty) (Ok tt) (Ok (conf_of true, false)) host_fs tt
            host_srv host_boot host_end eq_refl _ _ _ host_run "/etc/hosts" _ _ _).
  - discriminate.
  - split; vm_compute; discriminate.
  - split; vm_compute; discriminate.
  - intros [H|H]; vm_compute in H; discriminate H.
  - intros [H|H]; vm_compute in H; discriminate H.
  - vm_compute. discriminate.
Defined.
End Witness.
