(* ===== verification/AgentRaces.v ===== *)
(** * The agent's goroutines, call by call

    [Agent] treats a request and an event of the loop as one step.  Here handlers and the
    endpoint's refresh are split at their calls: a goroutine is a tree of atomic actions,
    any number of requests run beside the loop, and what the others do happens between
    two actions.  A small rely-guarantee logic ([rg]) carries the proofs.  The file
    operations of the other events of the loop stay atomic. *)

From S2P Require Import Prelude GoStrings NodeResource ReferenceApi GoPath NodeManager NodeManagerProofs.
From S2P Require Import AgentServer Options Agent.

Local Open Scope string_scope.

(** ** Goroutines *)

(** What an action does to the fields that goroutines share without a lock: the base URL
    of the HTTP client is read by every request to the node manager and written when the
    endpoint changes. *)
Inductive Access := Plain | ReadsURL | WritesURL.

(** The state an action leaves, and how the goroutine goes on. *)
Inductive Prog (S A : Type) :=
| Ret (r : outcome A)
| Act (a : Access) (upd : S → S) (next : S → Prog S A).
Arguments Ret {S A}.
Arguments Act {S A}.

(** Without interference. *)
Fixpoint exec {S A} (p : Prog S A) : M S A := λ s,
  match p with
  | Ret r => (r, s)
  | Act _ upd next => exec (next s) (upd s)
  end.

Definition act {S A} (a : Access) (c : M S A) : Prog S A :=
  Act a (λ s, (c s).2) (λ s, Ret (c s).1).

Fixpoint prog_bind {S A B} (k : A → Prog S B) (p : Prog S A) : Prog S B :=
  match p with
  | Ret (Ok a) => k a
  | Ret (Err e) => Ret (Err e)
  | Ret (Panic w) => Ret (Panic w)
  | Act a upd next => Act a upd (λ s, prog_bind k (next s))
  end.
#[export] Instance Prog_ret S : MRet (Prog S) := λ A a, Ret (Ok a).
#[export] Instance Prog_bind S : MBind (Prog S) := λ A B k p, prog_bind k p.

Fixpoint prog_try {S A} (p : Prog S A) : Prog S (A + error) :=
  match p with
  | Ret (Ok a) => Ret (Ok (inl a))
  | Ret (Err e) => Ret (Ok (inr e))
  | Ret (Panic w) => Ret (Panic w)
  | Act a upd next => Act a upd (λ s, prog_try (next s))
  end.

Section Run.
Context {S : Type}.

Lemma exec_act {A} a (c : M S A) s : exec (act a c) s = c s.
Proof. cbn. by destruct (c s). Qed.

Lemma exec_bind {A B} (p : Prog S A) (k : A → Prog S B) s :
  exec (p ≫= k) s = (exec p ≫= λ a, exec (k a)) s.
Proof.
  unfold mbind at 1, Prog_bind. revert s. induction p as [[a|e|w]|acc upd next IH]; intros s; [done..|].
  cbn. by rewrite IH.
Qed.

Lemma exec_try {A} (p : Prog S A) s : exec (prog_try p) s = try (exec p) s.
Proof.
  revert s. induction p as [[a|e|w]|acc upd next IH]; intros s; [done..|]. cbn. by rewrite IH.
Qed.

(** Running a sequence, given how its parts run. *)
Lemma exec_seq {A B} (p : Prog S A) (k : A → Prog S B) (c : M S A) (f : A → M S B) s :
  (∀ s, exec p s = c s) → (∀ a s, exec (k a) s = f a s) → exec (p ≫= k) s = (c ≫= f) s.
Proof.
  intros Hp Hk. rewrite exec_bind. unfold mbind, M_bind. rewrite Hp.
  destruct (c s) as [[a|e|w] s']; [apply Hk|done..].
Qed.
Lemma exec_seq_try {A B} (p : Prog S A) (k : A + error → Prog S B) (c : M S A) (f : A + error → M S B) s :
  (∀ s, exec p s = c s) → (∀ a s, exec (k a) s = f a s) → exec (prog_try p ≫= k) s = (try c ≫= f) s.
Proof. intros Hp Hk. apply exec_seq; [|done]. intros s0. rewrite exec_try. unfold try. by rewrite Hp. Qed.

(** ** Rely and guarantee

    [rg p s Q]: while the others keep to [R] and the shared state to [P], every action of
    [p], started in [s], satisfies [A], and [p] ends with [Q]. *)
Context (P : S → Prop) (R : relation S) (A : Access → relation S).

Fixpoint rg {X} (p : Prog S X) (s : S) (Q : outcome X → S → Prop) : Prop :=
  match p with
  | Ret r => Q r s
  | Act a upd next => ∀ s', R s s' → P s' → A a s' (upd s') ∧ rg (next s') (upd s') Q
  end.

Lemma rg_mono {X} (p : Prog S X) s (Q Q' : outcome X → S → Prop) :
  rg p s Q → (∀ r s', Q r s' → Q' r s') → rg p s Q'.
Proof.
  intros Hp HQ. revert s Hp. induction p as [r|a upd next IH]; intros s Hp; [by apply HQ|].
  intros s' HR HP. destruct (Hp s' HR HP) as [HA Hn]. split; [done|]. by apply IH.
Qed.

Lemma rg_act {X} a (c : M S X) s (Q : outcome X → S → Prop) :
  (∀ s', R s s' → P s' → A a s' (c s').2 ∧ Q (c s').1 (c s').2) → rg (act a c) s Q.
Proof. done. Qed.

Lemma rg_bind {X Y} (p : Prog S X) (k : X → Prog S Y) s (Q : outcome Y → S → Prop) :
  rg p s (λ r s', match r with Ok x => rg (k x) s' Q | Err e => Q (Err e) s' | Panic w => Q (Panic w) s' end) →
  rg (p ≫= k) s Q.
Proof.
  unfold mbind, Prog_bind. revert s. induction p as [[x|e|w]|a upd next IH]; intros s Hp; [done..|].
  intros s' HR HP. destruct (Hp s' HR HP) as [HA Hn]. split; [done|]. by apply IH.
Qed.

Lemma rg_try {X} (p : Prog S X) s (Q : outcome (X + error) → S → Prop) :
  rg p s (λ r s', match r with Ok x => Q (Ok (inl x)) s' | Err e => Q (Ok (inr e)) s' | Panic w => Q (Panic w) s' end) →
  rg (prog_try p) s Q.
Proof.
  revert s. induction p as [[x|e|w]|a upd next IH]; intros s Hp; [done..|].
  intros s' HR HP. destruct (Hp s' HR HP) as [HA Hn]. split; [done|]. by apply IH.
Qed.

(** Nothing is claimed of the end. *)
Abbreviation rg_safe p s := (rg p s (λ _ _, True)).

Lemma rg_interfere `{!PreOrder R} {X} (p : Prog S X) s s' :
  R s s' → rg_safe p s → rg_safe p s'.
Proof. destruct p as [r|a upd next]; [done|]. intros HR Hp s2 HR2. apply Hp. by etrans. Qed.

(** When all actions satisfy [A] wherever they happen. *)
Lemma rg_bind_safe {X Y} (p : Prog S X) (k : X → Prog S Y) s :
  (∀ s, rg_safe p s) → (∀ x s, rg_safe (k x) s) → rg_safe (p ≫= k) s.
Proof. intros Hp Hk. apply rg_bind. eapply rg_mono; [apply Hp|]. intros [x|e|w] s' _; [apply Hk|done..]. Qed.

Lemma rg_try_safe {X} (p : Prog S X) s : (∀ s, rg_safe p s) → rg_safe (prog_try p) s.
Proof. intros Hp. apply rg_try. eapply rg_mono; [apply Hp|]. by intros [x|e|w] s' _. Qed.

Lemma rg_act_safe {X} a (c : M S X) s : (∀ s, A a s (c s).2) → rg_safe (act a c) s.
Proof. intros Hc. apply rg_act. done. Qed.
End Run.

(** ** The handlers and the loop, split at their calls *)

Section Split.
Context {E Q : Type} {QA : QuantityApi Q} {CV : CoreV1}.
Context {SA : SystemApi} {RC : RuncApi} {AE : AgentEnv E}.
Context (n : NodeMangerOperator).

Abbreviation AP := (Prog (AgentState E)).
Abbreviation fail e := (Ret (Err e)).

(** [n.client.R()...Get(...)]: the client builds the address from its base URL, then asks. *)
Definition split_ListContainers : AP (list YarnContainer) :=
  url ← act ReadsURL (gets ag_baseURL);
  '(code, items) ← act Plain (in_agent_env (resty_GetContainers url));
  if bool_decide (199 < code ∧ code < 300)%Z then mret items
  else fail ("code for ListContainer is " +:+ Itoa code).

Definition split_GetContainer (containerID : string) : AP YarnContainer :=
  items ← split_ListContainers;
  match first_such (λ c, bool_decide (YarnContainer_Id c = containerID)) items with
  | Some c => mret c
  | None => fail "container Not Found"
  end.

Definition send_kill (pgid : Z) : M (AgentState E) unit :=
  _ ← modify (λ s, mkAgentState (ag_fs s) (ag_NMEndpoint s) (ag_baseURL s)
                     ((- pgid, SIGKILL)%Z :: ag_kills s) (ag_env s));
  in_agent_env (syscall_Kill (- pgid) SIGKILL).

Definition split_KillContainer (containerID : string) : AP unit :=
  processGroupID ← act Plain (getProcessGroupID n containerID);
  if bool_decide (processGroupID ≤ 1)%Z
  then fail ("invalid process group pid(" +:+ Itoa processGroupID +:+ ") for container " +:+ containerID)
  else act Plain (send_kill processGroupID).

Definition split_srv_ListContainers : AP (Z * Body Q) :=
  listContainers ← prog_try split_ListContainers;
  match listContainers with
  | inr err => mret (StatusBadRequest, BodyError err)
  | inl items =>
      mret (StatusOK, BodyContainers
              (ParseContainerInfo n <$> filter (λ c, IsFinalState c = false) items))
  end.

Definition split_srv_GetContainer (containerID : string) : AP (Z * Body Q) :=
  container ← prog_try (split_GetContainer containerID);
  match container with
  | inr err => mret (StatusBadRequest, BodyError err)
  | inl c => mret (StatusOK, BodyContainer (ParseContainerInfo n c))
  end.

Definition split_srv_KillContainer (bound : outcome (KillRequest Q)) : AP (Z * Body Q) :=
  kr ← prog_try (Ret bound);
  match kr with
  | inr err => mret (StatusBadRequest, BodyError err)
  | inl kr =>
      container ← prog_try (split_GetContainer (KillRequest_ContainerID kr));
      match container with
      | inr err => mret (StatusBadRequest, BodyError err)
      | inl c =>
          killed ← prog_try (split_KillContainer (KillRequest_ContainerID kr));
          match killed with
          | inr err => mret (StatusBadRequest, BodyError err)
          | inl _ => mret (StatusOK, BodyKilled [ParseContainerInfo n c])
          end
      end
  end.

Definition split_body (h : AP (Z * Body Q)) : AP (Z * option (Body Q)) :=
  '(code, b) ← h; mret (code, Some b).

Definition split_serve (r : Request Q) : AP (Z * option (Body Q)) :=
  match req_method r with
  | GET =>
      if bool_decide (req_path r = "/health") then split_body (mret (StatusOK, BodyText "ok"))
      else if bool_decide (req_path r = "/information")
      then split_body (mret (StatusOK, BodyInfo (mkPluginInfo "yarn" "v1")))
      else if bool_decide (req_path r = "/v1/container") then split_body (split_srv_GetContainer (req_containerID r))
      else if bool_decide (req_path r = "/v1/containers") then split_body split_srv_ListContainers
      else mret (StatusNotFound, None)
  | POST =>
      if bool_decide (req_path r = "/v1/killContainer") then split_body (split_srv_KillContainer (req_body r))
      else if bool_decide (req_path r = "/v1/killContainersByResource") then mret (StatusOK, None)
      else mret (StatusNotFound, None)
  end.

(** [n.NMEndpoint = endpoint] and [n.client.SetBaseURL(...)] are two writes. *)
Definition set_endpoint (endpoint : string) : M (AgentState E) unit :=
  modify (λ s, mkAgentState (ag_fs s) endpoint (ag_baseURL s) (ag_kills s) (ag_env s)).
Definition set_baseURL (endpoint : string) : M (AgentState E) unit :=
  modify (λ s, mkAgentState (ag_fs s) (ag_NMEndpoint s) ("http://" +:+ endpoint) (ag_kills s) (ag_env s)).

Definition split_syncNMEndpoint : AP unit :=
  _ ← prog_try (
    '(endpoint, found) ← act Plain GetNMPodEndpoint;
    current ← act Plain (gets ag_NMEndpoint);
    if bool_decide (current = endpoint) then mret tt
    else
      _ ← act Plain (set_endpoint endpoint);
      if found : bool then act WritesURL (set_baseURL endpoint) else mret tt);
  mret tt.

Definition split_nm_step (e : NmEvent) : AP bool :=
  match e with
  | NMTick => _ ← split_syncNMEndpoint; mret true
  | _ => act Plain (nm_step n e)
  end.

(** ** Without interference they are the handlers and the loop *)

Lemma exec_ListContainers s : exec split_ListContainers s = ListContainers s.
Proof.
  unfold split_ListContainers, ListContainers. rewrite exec_bind. unfold mbind at 1 3, M_bind at 1 2. cbn -[mbind].
  apply exec_seq; [apply exec_act|]. intros [code items] s'. by case_bool_decide.
Qed.

Lemma exec_GetContainer id s : exec (split_GetContainer id) s = GetContainer id s.
Proof. apply exec_seq; [apply exec_ListContainers|]. intros items s'. by case_match. Qed.

Lemma exec_KillContainer id s : exec (split_KillContainer id) s = KillContainer n id s.
Proof.
  apply exec_seq; [apply exec_act|]. intros pgid s'. case_bool_decide; [done|]. apply exec_act.
Qed.

Lemma exec_srv_KillContainer bound s : exec (split_srv_KillContainer bound) s = srv_KillContainer n bound s.
Proof.
  apply exec_seq_try; [done|]. intros [kr|err] s1; [|done].
  apply exec_seq_try; [apply exec_GetContainer|]. intros [c|err] s2; [|done].
  apply exec_seq_try; [apply exec_KillContainer|]. by intros [c'|err] s3.
Qed.

Lemma exec_body p h s : (∀ s, exec p s = h s) → exec (split_body p) s = with_body h s.
Proof. intros Hp. apply exec_seq; [done|]. by intros [code b] s'. Qed.

Lemma exec_serve req s : exec (split_serve req) s = serve n req s.
Proof.
  unfold split_serve, serve. destruct (req_method req); repeat case_bool_decide; try done;
    apply exec_body; intros s'.
  - apply exec_seq_try; [apply exec_GetContainer|]. by intros [c|err] s2.
  - apply exec_seq_try; [apply exec_ListContainers|]. by intros [c|err] s2.
  - apply exec_srv_KillContainer.
Qed.

Lemma exec_syncNMEndpoint s : exec split_syncNMEndpoint s = syncNMEndpoint s.
Proof.
  apply exec_seq_try; [|done]. intros s0. apply exec_seq; [apply exec_act|]. intros [endpoint found] s1.
  rewrite exec_bind. unfold mbind at 1 3, M_bind at 1 2. cbn -[mbind]. case_bool_decide; [done|].
  by destruct found.
Qed.

Lemma exec_nm_step ev s : exec (split_nm_step ev) s = nm_step n ev s.
Proof. destruct ev; try apply exec_act. apply exec_seq; [apply exec_syncNMEndpoint|done]. Qed.
End Split.

(** ** The system *)

Section Races.
Context {E Q : Type} {QA : QuantityApi Q} {CV : CoreV1}.
Context {SA : SystemApi} {RC : RuncApi} {AE : AgentEnv E}.
Context (n : NodeMangerOperator) (unixPath : string).

(** The goroutine of [operator.Run]: between two events, or inside one. *)
Inductive LoopState :=
| LoopAt (ph : LoopPhase)
| LoopIn (p : Prog (AgentState E) bool).

(** [rc_server]: where [server.Run] is; [rc_pool]: the requests being served, one
    goroutine each. *)
Record Races := mkRaces {
  rc_loop : LoopState;
  rc_server : ServerPhase;
  rc_pool : gmap positive (Prog (AgentState E) (Z * option (Body Q)));
  rc_agent : AgentState E
}.

Inductive races_step : relation Races :=
| RequestArrives loop sv pool s i req :
    answering sv = true → pool !! i = None →
    races_step (mkRaces loop sv pool s) (mkRaces loop sv (<[i := split_serve n req]> pool) s)
| RequestActs loop sv pool s i a upd next :
    answering sv = true → pool !! i = Some (Act a upd next) →
    races_step (mkRaces loop sv pool s) (mkRaces loop sv (<[i := next s]> pool) (upd s))
| RequestDone loop sv pool s i r :
    answering sv = true → pool !! i = Some (Ret r) →
    races_step (mkRaces loop sv pool s) (mkRaces loop sv (delete i pool) s)
| LoopSetup sv pool s s' :
    sv ≠ Exited → nm_setup n s = (Ok tt, s') →
    races_step (mkRaces (LoopAt Starting) sv pool s) (mkRaces (LoopAt Looping) sv pool s')
| LoopSetupFails sv pool s e s' :
    sv ≠ Exited → nm_setup n s = (Err e, s') →
    races_step (mkRaces (LoopAt Starting) sv pool s) (mkRaces (LoopAt Returned) sv pool s')
| LoopEvent sv pool s ev :
    sv ≠ Exited →
    races_step (mkRaces (LoopAt Looping) sv pool s) (mkRaces (LoopIn (split_nm_step n ev)) sv pool s)
| LoopActs sv pool s a upd next :
    sv ≠ Exited →
    races_step (mkRaces (LoopIn (Act a upd next)) sv pool s) (mkRaces (LoopIn (next s)) sv pool (upd s))
| LoopNext sv pool s (go : bool) :
    sv ≠ Exited →
    races_step (mkRaces (LoopIn (Ret (Ok go))) sv pool s)
      (mkRaces (LoopAt (if go then Looping else Returned)) sv pool s)
| ServerListens loop pool s s' :
    in_fs (srv_listen unixPath) s = (Ok tt, s') →
    races_step (mkRaces loop Opening pool s) (mkRaces loop Serving pool s')
| ServerListenFails loop pool s e s' :
    in_fs (srv_listen unixPath) s = (Err e, s') →
    races_step (mkRaces loop Opening pool s) (mkRaces loop Exited pool s')
| ServerCancelled loop pool s s' :
    in_fs (srv_cleanup unixPath) s = (Ok tt, s') →
    races_step (mkRaces loop Serving pool s) (mkRaces loop Stopped pool s').

(** Everything a run of [Agent] does, this system can do. *)
Definition atomic (r : AgentRun E) : Races :=
  mkRaces (LoopAt (run_phase r)) (run_server r) ∅ (run_agent r).

Lemma pool_runs p loop sv pool s i r s' : answering sv = true →
  exec p s = (r, s') →
  rtc races_step (mkRaces loop sv (<[i := p]> pool) s) (mkRaces loop sv (<[i := Ret r]> pool) s').
Proof.
  intros Hsv. revert s. induction p as [r0|a upd next IH]; intros s; cbn.
  - intros [= <- <-]. apply rtc_refl.
  - intros H. eapply rtc_l; [eapply RequestActs, lookup_insert_eq; done|]. rewrite insert_insert_eq. by apply IH.
Qed.

Lemma loop_runs p sv pool s r s' : sv ≠ Exited →
  exec p s = (r, s') → rtc races_step (mkRaces (LoopIn p) sv pool s) (mkRaces (LoopIn (Ret r)) sv pool s').
Proof.
  intros Hsv. revert s. induction p as [r0|a upd next IH]; intros s; cbn.
  - intros [= <- <-]. apply rtc_refl.
  - intros H. eapply rtc_l; [by apply LoopActs|]. by apply IH.
Qed.

Lemma races_cover_atomic r1 r2 :
  rtc (agent_step (Q:=Q) n unixPath) r1 r2 → rtc races_step (atomic r1) (atomic r2).
Proof.
  induction 1 as [|r1 r2 r3 Hstep _ IH]; [apply rtc_refl|]. etrans; [|exact IH]. clear IH r3.
  destruct Hstep as [sv s s' Hsv H|sv s e s' Hsv H|sv ev s s' go Hsv H|ph s s' H|ph s e s' H
    |ph sv req s out s' Hsv H|ph s s' H]; unfold atomic; cbn.
  - by apply rtc_once, LoopSetup.
  - eapply rtc_once, LoopSetupFails, H. done.
  - eapply rtc_l; [by apply (LoopEvent _ _ _ ev)|]. eapply rtc_r; [|by apply LoopNext].
    apply loop_runs; [done|]. by rewrite exec_nm_step.
  - by apply rtc_once, ServerListens.
  - eapply rtc_once, ServerListenFails, H.
  - eapply rtc_l; [by apply (RequestArrives _ _ _ _ 1 req); [|apply lookup_empty]|].
    eapply rtc_r; [apply (pool_runs _ _ _ _ _ _ out s'); [done|by rewrite exec_serve]|].
    rewrite <- (delete_insert_id ∅ 1%positive (Ret out)) at 2 by apply lookup_empty.
    eapply RequestDone, lookup_insert_eq. done.
  - by apply rtc_once, ServerCancelled.
Qed.

(** ** What the goroutines guarantee

    A request leaves the endpoint alone and signals groups only.  The loop signals nobody;
    it writes the base URL only after it has taken over an endpoint the kubelet named. *)

Context (init : Races).

(** A state of the agent in some run from [init]. *)
Definition visited (s : AgentState E) : Prop := ∃ r, rtc races_step init r ∧ rc_agent r = s.

Definition request_change : relation (AgentState E) := λ s s', same_endpoint s s' ∧ kills_groups s s'.
Definition request_acts : Access → relation (AgentState E) := λ _, request_change.
#[local] Instance request_change_preorder : PreOrder request_change.
Proof using.
  unfold request_change. split; [by intros s; split|]. intros s1 s2 s3 [] []. split; by etrans.
Qed.

Definition named_by_kubelet (s : AgentState E) : Prop :=
  ∃ s0 s1, visited s0 ∧ GetNMPodEndpoint s0 = (Ok (ag_NMEndpoint s, true), s1) ∧
    ag_NMEndpoint s0 ≠ ag_NMEndpoint s.

Definition loop_acts : Access → relation (AgentState E) := λ a s s',
  kills_groups s s' ∧ (a = WritesURL → named_by_kubelet s).

Definition any_change : relation (AgentState E) := λ _ _, True.

Abbreviation request_safe p s := (rg (λ _, True) any_change request_acts p s (λ _ _, True)).
Abbreviation loop_safe p s := (rg visited same_endpoint loop_acts p s (λ _ _, True)).

Lemma request_calls s s' : same_fields s s' → request_change s s'.
Proof using. intros H. split; [by apply same_endpoint_calls|by apply kills_groups_calls]. Qed.

Lemma request_act {A} a (c : M (AgentState E) A) s : preserves request_change c → request_safe (act a c) s.
Proof using.
  intros Hc. apply rg_act_safe. intros s2. destruct (c s2) as [r s3] eqn:Hr. exact (Hc _ _ _ Hr).
Qed.

#[local] Hint Resolve request_calls request_act preserves_in_fs preserves_in_agent_env
  request_change_preorder : copilot.

Lemma request_ListContainers s : request_safe split_ListContainers s.
Proof using.
  apply rg_bind_safe; [|intros url s1; apply rg_bind_safe].
  - intros s0. apply request_act. intros s1 r s2 [= _ <-]. reflexivity.
  - auto with copilot.
  - intros [code items] s2. by case_bool_decide.
Qed.

Lemma request_GetContainer id s : request_safe (split_GetContainer id) s.
Proof using.
  apply rg_bind_safe; [apply request_ListContainers|]. intros items s1. by case_match.
Qed.

Lemma request_send_kill pgid : (1 < pgid)%Z → preserves request_change (send_kill (AE:=AE) pgid).
Proof using.
  intros Hp. unfold send_kill. apply preserves_bind; [apply _| |intros _; auto with copilot].
  intros s r s' [= _ <-]. split; [done|]. intros Hs. constructor; [|done]. split; [cbn; lia|done].
Qed.

Lemma request_KillContainer id s : request_safe (split_KillContainer n id) s.
Proof using.
  apply rg_bind_safe.
  - intros s1. apply request_act. unfold getProcessGroupID. solve_preserves; auto with copilot.
  - intros pgid s1. case_bool_decide; [done|]. apply request_act, request_send_kill. lia.
Qed.

Lemma request_serve req s : request_safe (split_serve n req) s.
Proof using.
  assert (∀ h s, (∀ s, request_safe h s) → request_safe (split_body (Q:=Q) h) s) as Hbody.
  { intros h s1 Hh. apply rg_bind_safe; [done|]. by intros [code b] s2. }
  unfold split_serve. destruct (req_method req); repeat case_bool_decide; try done; apply Hbody;
    intros s1; try done.
  - apply rg_bind_safe; [|by intros [c|err] s2]. intros s2. apply rg_try_safe, request_GetContainer.
  - apply rg_bind_safe; [|by intros [c|err] s2]. intros s2. apply rg_try_safe, request_ListContainers.
  - apply rg_bind_safe; [intros s2; by destruct (req_body req)|]. intros [kr|err] s2; [|done].
    apply rg_bind_safe; [intros s3; apply rg_try_safe, request_GetContainer|]. intros [c|err] s3; [|done].
    apply rg_bind_safe; [intros s4; apply rg_try_safe, request_KillContainer|]. by intros [u|err] s4.
Qed.

Lemma loop_plain {A} (c : M (AgentState E) A) s : preserves kills_groups c → loop_safe (act Plain c) s.
Proof using.
  intros Hc. apply rg_act_safe. intros s2. split; [|done].
  destruct (c s2) as [r s3] eqn:Hr. exact (Hc _ _ _ Hr).
Qed.

Lemma kills_same (s s' : AgentState E) : ag_kills s' = ag_kills s → kills_groups s s'.
Proof using. unfold kills_groups. by intros ->. Qed.
Lemma loop_quiet (s s' : AgentState E) : ag_kills s' = ag_kills s → loop_acts Plain s s'.
Proof using. intros H. split; [by apply kills_same|done]. Qed.

(** The refresh of the endpoint: by the time it writes the base URL, the endpoint is the
    one the kubelet named, and was another one when it was asked. *)
Lemma loop_syncNMEndpoint s : loop_safe split_syncNMEndpoint s.
Proof using.
  apply rg_bind_safe; [|done]. clear s. intros s. apply rg_try_safe. clear s. intros s.
  apply rg_bind, rg_act. intros s0 _ Hv.
  destruct (GetNMPodEndpoint s0) as [o s1] eqn:Hg. cbn [fst snd].
  pose proof (GetNMPodEndpoint_run _ _ _ Hg) as [[Hsame _] _].
  split.
  { split; [|done]. revert Hg. unfold GetNMPodEndpoint. apply preserves_bind; [apply _| |intros pods].
    - auto using kills_groups_calls with copilot.
    - solve_preserves. }
  destruct o as [[ep found]|e|w]; [|done..].
  apply rg_bind, rg_act. intros s2 [Hs2 _] _. split; [by apply loop_quiet|]. cbn [fst snd gets].
  case_bool_decide as Hne; [done|].
  apply rg_bind, rg_act. intros s3 _ _. split; [by apply loop_quiet|]. cbn [fst snd set_endpoint modify].
  destruct found; [|done]. apply rg_act. intros s4 [Hs4 _] _. cbn [ag_NMEndpoint] in Hs4.
  split; [|done]. split; [by apply kills_same|]. intros _. exists s0, s1. rewrite Hs4. split; [done|]. split; [done|]. congruence.
Qed.

Lemma loop_nm_step ev s : loop_safe (split_nm_step n ev) s.
Proof using.
  destruct ev; cbn [split_nm_step];
    try (apply loop_plain, preserves_nm_step; auto using kills_groups_calls, kills_groups_syncNMEndpoint
           with typeclass_instances).
  apply rg_bind_safe; [intros s1; apply loop_syncNMEndpoint|done].
Qed.

(** ** The invariant *)

Definition races_inv (r : Races) : Prop :=
  Forall group_kill (ag_kills (rc_agent r)) ∧
  map_Forall (λ _ p, request_safe p (rc_agent r)) (rc_pool r) ∧
  match rc_loop r with
  | LoopIn p => loop_safe p (rc_agent r) ∧ SyncMemoryCgroup n = true
  | LoopAt ph => ph = Returned ∨ SyncMemoryCgroup n = true
  end.

(** Requests bear anything, the loop bears requests. *)
Lemma pool_interfere (pool : gmap positive (Prog (AgentState E) (Z * option (Body Q)))) s s' :
  map_Forall (λ _ p, request_safe p s) pool → map_Forall (λ _ p, request_safe p s') pool.
Proof using.
  intros Hp i p Hi. eapply (rg_interfere _ any_change); [|done|by apply (Hp i)]. by split.
Qed.

Lemma loop_interfere loop s s' :
  same_endpoint s s' →
  match loop with LoopIn p => loop_safe p s ∧ SyncMemoryCgroup n = true
                | LoopAt ph => ph = Returned ∨ SyncMemoryCgroup n = true end →
  match loop with LoopIn p => loop_safe p s' ∧ SyncMemoryCgroup n = true
                | LoopAt ph => ph = Returned ∨ SyncMemoryCgroup n = true end.
Proof using.
  intros Hs. destruct loop as [ph|p]; [done|]. intros [Hp Hn]. split; [|done].
  eapply rg_interfere; [apply _|exact Hs|exact Hp].
Qed.

Lemma setup_kills : preserves kills_groups (nm_setup (E:=E) n).
Proof using. apply preserves_nm_setup; auto using kills_groups_calls with typeclass_instances. Qed.

Lemma socket_calls {A} (c : M FS A) (s s' : AgentState E) r :
  in_fs c s = (r, s') → request_change s s'.
Proof using. revert s r s'. apply preserves_in_fs. apply request_calls. Qed.

(** The server's own file operations. *)
Lemma races_inv_socket loop sv sv' pool s s' :
  request_change s s' → races_inv (mkRaces loop sv pool s) → races_inv (mkRaces loop sv' pool s').
Proof using.
  intros [He Hg] (Hk & Hp & Hl). cbn in *. split; [by apply Hg|].
  split; [by eapply pool_interfere|by eapply loop_interfere].
Qed.

Lemma races_inv_step r r' : rtc races_step init r → races_step r r' → races_inv r → races_inv r'.
Proof using.
  intros Hreach Hstep Hinv. pose proof Hinv as (Hk & Hp & Hl).
  destruct Hstep as [loop sv pool s i req _ Hi|loop sv pool s i a upd next _ Hi|loop sv pool s i r _ Hi
    |sv pool s s' _ H|sv pool s e s' _ H|sv pool s ev _|sv pool s a upd next _|sv pool s go _
    |loop pool s s' H|loop pool s e s' H|loop pool s s' H]; cbn in *.
  9-11: eapply races_inv_socket, Hinv; by eapply socket_calls.
  - split; [done|]. split; [|done]. apply map_Forall_insert_2; [apply request_serve|done].
  - destruct (Hp i _ Hi s I I) as [[He Hg] Hn]. split; [by apply Hg|].
    split; [|by eapply loop_interfere]. apply map_Forall_insert_2; [done|]. by eapply pool_interfere.
  - split; [done|]. split; [|done]. by apply map_Forall_delete.
  - split; [|split; [by eapply pool_interfere|]].
    + exact (setup_kills _ _ _ H Hk).
    + right. by destruct Hl.
  - split; [|split; [by eapply pool_interfere|by left]].
    exact (setup_kills _ _ _ H Hk).
  - split; [done|]. split; [done|]. split; [apply loop_nm_step|]. by destruct Hl.
  - destruct Hl as [Hl Hn]. destruct (Hl s) as [[Hg _] Hnext]; [done|by eexists|].
    split; [by apply Hg|]. split; [by eapply pool_interfere|done].
  - destruct Hl as [_ Hn]. split; [done|]. split; [done|]. by right.
Qed.

Lemma races_inv_run r : races_inv init → rtc races_step init r → races_inv r.
Proof using.
  intros H0. revert r. apply rtc_ind_r; [done|]. intros r1 r2 Hrun Hstep. by eapply races_inv_step.
Qed.
End Races.

(** A read and a write of the base URL can happen at the same time.  Strings are two
    words in Go, so such a read may see half of the new value. *)
Definition url_race {E Q} (r : Races (E:=E) (Q:=Q)) : Prop :=
  ∃ upd next i upd' next',
    rc_loop r = LoopIn (Act WritesURL upd next) ∧ rc_pool r !! i = Some (Act ReadsURL upd' next').

Section Theorems.
Context {E Q : Type} {QA : QuantityApi Q} {CV : CoreV1}.
Context {SA : SystemApi} {RC : RuncApi} {AE : AgentEnv E}.

Definition races_begin (n : NodeMangerOperator) (s : AgentState E) : Races (Q:=Q) := atomic (agent_begin n s).

Lemma begin_inv watcher parsed fs (env : E) srv s0 :
  agent_boot watcher parsed fs env = Ok (AgentServes srv s0) →
  races_inv (srv_mgr srv) (srv_unixPath srv) (races_begin (srv_mgr srv) s0) (races_begin (srv_mgr srv) s0).
Proof.
  intros (conf & _ & _ & _ & ->)%agent_boot_serves. split; [constructor|]. split; [apply map_Forall_empty|].
  unfold races_begin, atomic, agent_begin. cbn. destruct (SyncMemoryCgroup (srv_mgr srv)); auto.
Qed.

(** C18 However many requests run at once and wherever they and the loop are interrupted by
    each other, every signal the agent sends is SIGKILL to a process group above one: never
    to what [kill] takes for the caller's own group (0) or for every process (-1), or to
    init's group, whatever the cgroup files and the node manager say. *)
Theorem concurrent_signals_only_groups watcher parsed fs (env : E) srv s0 r :
  agent_boot watcher parsed fs env = Ok (AgentServes srv s0) →
  rtc (races_step (Q:=Q) (srv_mgr srv) (srv_unixPath srv)) (races_begin (srv_mgr srv) s0) r →
  Forall group_kill (ag_kills (rc_agent r)).
Proof. intros Hboot%begin_inv Hrun. by apply (races_inv_run _ _ _ _ Hboot) in Hrun as [? _]. Qed.

(** C19 Requests and the loop share the base URL of the HTTP client without a lock.  A
    request can read it while the loop writes it only when the mirror of memory cgroups is
    on and the kubelet names, in a reachable state, an endpoint other than the one held in
    that state; it is the endpoint held now.  Such a run exists, as the example of this
    theorem shows; with the mirror off, the default, no interleaving has one. *)
Theorem url_race_needs_new_endpoint watcher parsed fs (env : E) srv s0 r :
  agent_boot watcher parsed fs env = Ok (AgentServes srv s0) →
  rtc (races_step (Q:=Q) (srv_mgr srv) (srv_unixPath srv)) (races_begin (srv_mgr srv) s0) r → url_race r →
  SyncMemoryCgroup (srv_mgr srv) = true ∧
  ∃ r0 s1, rtc (races_step (Q:=Q) (srv_mgr srv) (srv_unixPath srv)) (races_begin (srv_mgr srv) s0) r0 ∧
    GetNMPodEndpoint (rc_agent r0) = (Ok (ag_NMEndpoint (rc_agent r), true), s1) ∧
    ag_NMEndpoint (rc_agent r0) ≠ ag_NMEndpoint (rc_agent r).
Proof.
  intros Hboot%begin_inv Hrun (upd & next & i & upd' & next' & Hl & _).
  destruct (races_inv_run _ _ _ _ Hboot Hrun) as (_ & _ & Hinv). rewrite Hl in Hinv. destruct Hinv as [Hs Hon].
  split; [done|]. destruct (Hs (rc_agent r)) as [[_ Hw] _]; [done|by exists r|].
  destruct (Hw eq_refl) as (s1 & s2 & (r0 & Hr0 & <-) & Hg & Hne). by exists r0, s2.
Qed.
End Theorems.

(** ** Runs

    A request for the list arrives while the loop has found a new endpoint and is about to
    write the base URL. *)
Section Witness.
Import OneContainer Reference AgentServer.AgentRun AgentWitness.

Definition list_request : Request Qty := mkRequest GET "/v1/containers" "" (Err "no body").

Fixpoint acts_of {S A} (k : nat) (p : Prog S A) (s : S) : Prog S A * S :=
  match k, p with
  | Datatypes.S k', Act _ upd next => acts_of k' (next s) (upd s)
  | _, _ => (p, s)
  end.

(** The socket is open; then the directories are set up. *)
Definition open_state : AgentState unit := served_state boot_state.
Definition set_up : AgentState unit := (nm_setup (op_of true) open_state).2.
Definition at_write : Prog (AgentState unit) bool * AgentState unit :=
  acts_of 3 (split_nm_step (op_of true) NMTick) set_up.
Definition raced : Races (E:=unit) (Q:=Qty) :=
  mkRaces (LoopIn at_write.1) Serving {[ 1%positive := split_serve (op_of true) list_request ]} at_write.2.

Abbreviation rstep := (races_step (Q:=Qty) (op_of true) DefaultServerEndpoint).

Lemma loop_acts_run k p sv (pool : gmap positive (Prog (AgentState unit) (Z * option (Body Qty)))) s :
  sv ≠ Exited →
  rtc rstep (mkRaces (LoopIn p) sv pool s)
    (mkRaces (LoopIn (acts_of k p s).1) sv pool (acts_of k p s).2).
Proof.
  intros Hsv. revert p s. induction k as [|k IH]; intros p s; [apply rtc_refl|].
  destruct p as [r|a upd next]; [apply rtc_refl|]. eapply rtc_l; [by apply LoopActs|apply IH].
Qed.

Lemma raced_reachable : rtc rstep (races_begin (op_of true) boot_state) raced.
Proof.
  eapply rtc_l; [by apply (ServerListens _ _ _ _ _ open_state); vm_compute|].
  eapply rtc_l; [by apply (LoopSetup _ _ Serving _ open_state set_up); [|vm_compute]|].
  eapply rtc_l; [by apply (LoopEvent _ _ _ _ _ NMTick)|].
  eapply rtc_r; [by apply (loop_acts_run 3)|]. by apply RequestArrives.
Qed.

Lemma url_race_needs_new_endpoint_witness :
  url_race raced ∧
  ∃ r0 s1, rtc rstep (races_begin (op_of true) boot_state) r0 ∧
    GetNMPodEndpoint (rc_agent r0) = (Ok (ag_NMEndpoint (rc_agent raced), true), s1) ∧
    ag_NMEndpoint (rc_agent r0) ≠ ag_NMEndpoint (rc_agent raced).
Proof.
  assert (url_race raced) as Hr.
  { eexists _, _, 1%positive, _, _. split; reflexivity. }
  split; [exact Hr|].
  exact (proj2 (url_race_needs_new_endpoint (Q:=Qty) (Ok tt) (Ok (conf_of true, false)) node_fs tt
    (NewYarnCopilotServer (op_of true) DefaultServerEndpoint) boot_state raced eq_refl raced_reachable Hr)).
Defined.

(** Two kill requests at once, their actions taking turns. *)
Abbreviation Pool := (gmap positive (Prog (AgentState unit) (Z * option (Body Qty)))).
Definition pool_act (st : Pool * AgentState unit) (i : positive) : Pool * AgentState unit :=
  match st.1 !! i with
  | Some (Act _ upd next) => (<[i := next st.2]> st.1, upd st.2)
  | _ => st
  end.
Definition kill_goroutine : Prog (AgentState unit) (Z * option (Body Qty)) :=
  split_serve (op_of true) kill_request.
Definition two_kills : Pool := <[2%positive := kill_goroutine]> {[ 1%positive := kill_goroutine ]}.
Definition turns : Pool * AgentState unit :=
  foldl pool_act (two_kills, open_state) [1; 2; 1; 2; 1; 2; 1; 2]%positive.

Lemma pool_acts_run l loop st :
  rtc rstep (mkRaces loop Serving st.1 st.2)
    (mkRaces loop Serving (foldl pool_act st l).1 (foldl pool_act st l).2).
Proof.
  revert st. induction l as [|i l IH]; intros st; [apply rtc_refl|]. cbn [foldl].
  etrans; [|apply IH]. unfold pool_act. destruct (st.1 !! i) as [[r|a upd next]|] eqn:Hi; try apply rtc_refl.
  cbn [fst snd]. by eapply rtc_once, RequestActs, Hi.
Qed.

Lemma turns_reachable :
  rtc rstep (races_begin (op_of true) boot_state)
    (mkRaces (LoopAt Starting) Serving turns.1 turns.2).
Proof.
  eapply rtc_l; [by apply (ServerListens _ _ _ _ _ open_state); vm_compute|].
  eapply rtc_l; [by apply (RequestArrives _ _ _ _ _ _ 1 kill_request)|].
  eapply rtc_l; [by apply (RequestArrives _ _ _ _ _ _ 2 kill_request)|].
  exact (pool_acts_run _ _ (two_kills, open_state)).
Qed.

Lemma concurrent_signals_only_groups_witness :
  ag_kills turns.2 = [(-4711, 9); (-4711, 9)]%Z ∧ Forall group_kill (ag_kills turns.2).
Proof.
  split; [vm_compute; reflexivity|].
  exact (concurrent_signals_only_groups (Q:=Qty) (Ok tt) (Ok (conf_of true, false)) node_fs tt
    (NewYarnCopilotServer (op_of true) DefaultServerEndpoint) boot_state _ eq_refl turns_reachable).
Defined.
End Witness.
