(* ===== verification/Startup.v ===== *)
(** * The operator's start-up: [src/cmd/yarn-operator/main.go]

    [main] as a function from the parsed flags to the status the process exits with:
    what it asks of the controller manager, in which order, and where it gives up. *)

From S2P Require Import Prelude GoStrings Proto NodeResource ReferenceApi YarnApi NodesSyncer.
From S2P Require Import Reconciler ReconcilerProofs Options.

Local Open Scope string_scope.

(** ** Flags *)

(** [controllers] is the value of the flag of that name, if it was given. *)
Record OperatorFlags := mkOperatorFlags {
  metricsAddr : string;
  healthProbeAddr : string;
  enableLeaderElection : bool;
  leaderElectionNamespace : string;
  namespace : string;
  enablePprof : bool;
  pprofAddr : string;
  syncPeriodStr : string;
  controllers : option (list string);
  restConfigQPS : Z;
  restConfigBurst : Z
}.

(** The values without arguments. *)
Definition default_flags : OperatorFlags :=
  mkOperatorFlags ":8080" ":8000" true "koordinator-system" "" true ":8090" "" None 30 50.

(** [ctrl.Options], without the scheme, the kind of lock and the client constructor,
    which are constants of libraries. *)
Record ManagerOptions := mkManagerOptions {
  MetricsBindAddress : string;
  HealthProbeBindAddress : string;
  LeaderElection : bool;
  LeaderElectionID : string;
  LeaderElectionNamespace : string;
  Namespace : string;
  SyncPeriod : option Z
}.

(** ** The controller run time

    [mgr_Start] runs what has been added to the manager, here the state of the one
    controller if it was enabled, until the process is told to stop.
    [ParseDuration] is that of Go's [time], in nanoseconds. *)
Class ControllerRuntime (W C : Type) := {
  http_ListenAndServe : string → M W unit;
  ctrl_GetConfig : M W RestConfig;
  ParseDuration : string → outcome Z;
  ctrl_NewManager : RestConfig → ManagerOptions → M W unit;
  RegisterFieldIndexes : M W unit;
  mgr_Start : option (RState W C) → M W unit
}.

Section Main.
Context {W C : Type} {YF : YarnClientFactory W C} {OM : OperatorManager W} {CR : ControllerRuntime W C}.

(** The manager under construction: the world and the controller added to it. *)
Record MgrState := mkMgrState { ms_world : W; ms_controller : option (RState W C) }.

Definition in_mgr {A} (c : M W A) : M MgrState A :=
  zoom ms_world (λ w m, mkMgrState w (ms_controller m)) c.

(** [yarnnoderes.Add(mgr)] keeps the reconciler and the node cache it builds alive in
    the manager. *)
Definition add_controller : M MgrState unit :=
  s ← in_mgr Add;
  modify (λ m, mkMgrState (ms_world m) (Some s)).

(** An unusable [sync-period] is only logged. *)
Definition sync_period (s : string) : option Z :=
  if bool_decide (s = "") then None
  else match ParseDuration s with Ok d => Some d | _ => None end.

Definition manager_options (f : OperatorFlags) : ManagerOptions :=
  mkManagerOptions (metricsAddr f) (healthProbeAddr f) (enableLeaderElection f)
    "koordinator-yarn-operator" (leaderElectionNamespace f) (namespace f) (sync_period (syncPeriodStr f)).

Definition rest_config (f : OperatorFlags) (cfg : RestConfig) : RestConfig :=
  let cfg := setRestConfig (restConfigQPS f) (restConfigBurst f) cfg in
  mkRestConfig (QPS cfg) (Burst cfg) "koordinator-yarn-operator".

(** [main] on the parsed flags; the result is the exit status.  The pprof server runs
    beside it, and only its coming up is a step here. *)
Definition operator_main (f : OperatorFlags) : M MgrState Z :=
  let opts := InitFlags (controllers f) (NewOptions add_controller) in
  _ ← (if enablePprof f then _ ← try (in_mgr (http_ListenAndServe (pprofAddr f))); mret tt else mret tt);
  or_exit (in_mgr ctrl_GetConfig) (λ cfg,
  or_exit (in_mgr (ctrl_NewManager (rest_config f cfg) (manager_options f))) (λ _,
  or_exit (in_mgr RegisterFieldIndexes) (λ _,
  or_exit (ApplyTo opts) (λ _,
  m ← get_st;
  or_exit (in_mgr (mgr_Start (ms_controller m))) (λ _, mret 0%Z))))).

(** ** Correctness *)

(** What setting the controllers up amounts to: [Add] if it is selected. *)
Definition setup_controllers (flag : option (list string)) : M MgrState unit :=
  if selected yarnresource (default controllerAddDefault flag) then add_controller else mret tt.

Lemma ApplyTo_setup flag m :
  ApplyTo (InitFlags flag (NewOptions add_controller)) m = setup_controllers flag m.
Proof.
  unfold ApplyTo, InitFlags, NewOptions, controllerAddFuncs, setup_controllers. cbn [ControllerAddFuncs Controllers].
  rewrite map_to_list_singleton. cbn [for_each]. rewrite isControllerEnabled_selected.
  destruct (selected _ _); cbn [negb]; [|done].
  unfold mbind, M_bind. by destruct (add_controller m) as [[[]|e|w] m1].
Qed.

(** The steps before the manager is started, as far as they get. *)
Definition boot (f : OperatorFlags) : M MgrState unit :=
  cfg ← in_mgr ctrl_GetConfig;
  _ ← in_mgr (ctrl_NewManager (rest_config f cfg) (manager_options f));
  _ ← in_mgr RegisterFieldIndexes;
  setup_controllers (controllers f).

(** The manager's start and what follows. *)
Definition run_manager (m : MgrState) : outcome Z * MgrState :=
  or_exit (in_mgr (mgr_Start (ms_controller m))) (λ _, mret 0%Z) m.

Definition start_pprof (f : OperatorFlags) : M MgrState unit :=
  if enablePprof f then _ ← try (in_mgr (http_ListenAndServe (pprofAddr f))); mret tt else mret tt.

Lemma operator_main_boot f m m1 :
  start_pprof f m = (Ok tt, m1) → operator_main f m = or_exit (boot f) (λ _, run_manager) m1.
Proof.
  intros Hp. unfold operator_main, boot. rewrite (M_bind_ok _ _ _ _ _ Hp).
  rewrite <- or_exit_bind. apply or_exit_ext; [done|]. intros cfg m2.
  rewrite <- or_exit_bind. apply or_exit_ext; [done|]. intros [] m3.
  rewrite <- or_exit_bind. apply or_exit_ext; [done|]. intros [] m4.
  apply or_exit_ext; [apply ApplyTo_setup|]. done.
Qed.

(** A successful boot in the world [w]: the steps that were taken, in their order. *)
Definition booted (f : OperatorFlags) (w : W) (ctrl : option (RState W C)) (w' : W) : Prop :=
  ∃ cfg w1 w2 w3,
    ctrl_GetConfig w = (Ok cfg, w1) ∧
    ctrl_NewManager (rest_config f cfg) (manager_options f) w1 = (Ok tt, w2) ∧
    RegisterFieldIndexes w2 = (Ok tt, w3) ∧
    (if selected yarnresource (default controllerAddDefault (controllers f))
     then ∃ s, Add w3 = (Ok s, w') ∧ ctrl = Some s
     else w' = w3 ∧ ctrl = None).

Lemma in_mgr_inv {A} (c : M W A) m a m1 :
  in_mgr c m = (Ok a, m1) ↔
  ∃ w1, c (ms_world m) = (Ok a, w1) ∧ m1 = mkMgrState w1 (ms_controller m).
Proof.
  unfold in_mgr, zoom. destruct (c (ms_world m)) as [r w1]. split.
  - intros [= -> <-]. eauto.
  - by intros (w2 & [= -> ->] & ->).
Qed.

Lemma setup_inv l w ctrl w' :
  setup_controllers l (mkMgrState w None) = (Ok tt, mkMgrState w' ctrl) ↔
  if selected yarnresource (default controllerAddDefault l) then ∃ s, Add w = (Ok s, w') ∧ ctrl = Some s else w' = w ∧ ctrl = None.
Proof.
  unfold setup_controllers. destruct (selected _ _).
  - unfold add_controller, in_mgr, zoom. unfold_M. cbn [ms_world].
    destruct (Add w) as [[s|e|y] w1]; (split; [intros; simplify_eq; eauto|]);
      by intros (s' & [= -> ->] & ->).
  - split; [by intros [= -> ->]|by intros [-> ->]].
Qed.

Lemma boot_inv f w ctrl w' :
  boot f (mkMgrState w None) = (Ok tt, mkMgrState w' ctrl) ↔ booted f w ctrl w'.
Proof.
  unfold boot, booted. split.
  - intros (cfg & m1 & (w1 & H1 & ->)%in_mgr_inv & H)%M_bind_inv.
    apply M_bind_inv in H as ([] & m2 & (w2 & H2 & ->)%in_mgr_inv & H).
    apply M_bind_inv in H as ([] & m3 & (w3 & H3 & ->)%in_mgr_inv & H).
    apply setup_inv in H. eauto 10.
  - intros (cfg & w1 & w2 & w3 & H1 & H2 & H3 & H4%setup_inv).
    erewrite M_bind_ok by (apply in_mgr_inv; eauto). erewrite M_bind_ok by (apply in_mgr_inv; eauto).
    erewrite M_bind_ok by (apply in_mgr_inv; eauto). exact H4.
Qed.

(** A boot that failed in the world [w], and the state its failing step left. *)
Inductive boot_fails (f : OperatorFlags) (w : W) : MgrState → Prop :=
| ConfigFails e w1 :
    ctrl_GetConfig w = (Err e, w1) → boot_fails f w (mkMgrState w1 None)
| ManagerFails cfg w1 e w2 :
    ctrl_GetConfig w = (Ok cfg, w1) →
    ctrl_NewManager (rest_config f cfg) (manager_options f) w1 = (Err e, w2) →
    boot_fails f w (mkMgrState w2 None)
| IndexesFail cfg w1 w2 e w3 :
    ctrl_GetConfig w = (Ok cfg, w1) →
    ctrl_NewManager (rest_config f cfg) (manager_options f) w1 = (Ok tt, w2) →
    RegisterFieldIndexes w2 = (Err e, w3) →
    boot_fails f w (mkMgrState w3 None)
| ControllerFails cfg w1 w2 w3 e w4 :
    ctrl_GetConfig w = (Ok cfg, w1) →
    ctrl_NewManager (rest_config f cfg) (manager_options f) w1 = (Ok tt, w2) →
    RegisterFieldIndexes w2 = (Ok tt, w3) →
    selected yarnresource (default controllerAddDefault (controllers f)) = true →
    Add w3 = (Err e, w4) →
    boot_fails f w (mkMgrState w4 None).

Lemma boot_err f w e m : boot f (mkMgrState w None) = (Err e, m) → boot_fails f w m.
Proof.
  unfold boot, in_mgr, zoom, setup_controllers, add_controller, in_mgr, zoom. unfold_M. cbn [ms_world ms_controller].
  destruct (ctrl_GetConfig w) as [[cfg|e1|y] w1] eqn:H1; [|intros [= <- <-]; by eapply ConfigFails|done].
  cbn [ms_world ms_controller].
  destruct (ctrl_NewManager _ _ w1) as [[[]|e1|y] w2] eqn:H2; [|intros [= <- <-]; by eapply ManagerFails|done].
  cbn [ms_world ms_controller].
  destruct (RegisterFieldIndexes w2) as [[[]|e1|y] w3] eqn:H3; [|intros [= <- <-]; by eapply IndexesFail|done].
  cbn [ms_world ms_controller]. destruct (selected _ _) eqn:Hsel; [|done]. cbn [ms_world ms_controller].
  destruct (Add w3) as [[s|e1|y] w4] eqn:H4; [done|intros [= <- <-]; by eapply ControllerFails|done].
Qed.

Lemma boot_fails_not f w m ctrl w' : boot_fails f w m → booted f w ctrl w' → False.
Proof.
  intros Hf (cfg & w1 & w2 & w3 & H1 & H2 & H3 & H4).
  destruct Hf as [e w1' G1|cfg' w1' e w2' G1 G2|cfg' w1' w2' e w3' G1 G2 G3
    |cfg' w1' w2' w3' e w4' G1 G2 G3 G4 G5]; rewrite H1 in G1; simplify_eq;
    rewrite H2 in G2; simplify_eq; rewrite H3 in G3; simplify_eq.
  rewrite G4 in H4. destruct H4 as (s & H4 & _). congruence.
Qed.

(** C36 The operator's process ends with status 0 exactly when every step of its
    start-up succeeded, in the order of [main], and the manager it started ended without
    an error.  Otherwise it ends with status 1, either in the state the first failing
    step of the start-up left, so that no later step was taken and the manager was not
    started, or in the one the failing manager left.  The manager is started with the
    yarn controller, set up by [Add], exactly if the [controllers] flag selects it, and
    with nothing to run if not; a failing pprof server and an unusable sync period stop
    nothing. *)
Theorem operator_main_status f w w0 code m' :
  start_pprof f (mkMgrState w None) = (Ok tt, mkMgrState w0 None) →
  operator_main f (mkMgrState w None) = (Ok code, m') →
  (code = 0%Z ∨ code = 1%Z) ∧
  (code = 0%Z ↔ ∃ ctrl w1 w2, booted f w0 ctrl w1 ∧ mgr_Start ctrl w1 = (Ok tt, w2) ∧
                  m' = mkMgrState w2 ctrl) ∧
  (code = 1%Z ↔ boot_fails f w0 m' ∨
     ∃ ctrl w1 e w2, booted f w0 ctrl w1 ∧ mgr_Start ctrl w1 = (Err e, w2) ∧ m' = mkMgrState w2 ctrl).
Proof.
  intros Hp. rewrite (operator_main_boot _ _ _ Hp). unfold or_exit, try. unfold mbind, M_bind.
  destruct (boot f (mkMgrState w0 None)) as [[[]|e|y] [w1 ctrl]] eqn:Hb; [| |done].
  - unfold run_manager, or_exit, try, in_mgr, zoom. unfold_M. cbn [ms_controller ms_world].
    assert (booted f w0 ctrl w1) as Hbooted by by apply boot_inv.
    assert (∀ ctrl' w1', booted f w0 ctrl' w1' → ctrl' = ctrl ∧ w1' = w1) as Hdet.
    { intros ctrl' w1' H%boot_inv. rewrite Hb in H. by simplify_eq. }
    destruct (mgr_Start ctrl w1) as [[[]|e|y] w2] eqn:Hs; intros [= <- <-].
    + split; [by left|]. split; [split; [intros _; by eauto 10|done]|]. split; [done|].
      intros [H|(c' & w1' & e & w2' & [-> ->]%Hdet & H & _)]; [by destruct (boot_fails_not _ _ _ _ _ H Hbooted)|].
      by rewrite Hs in H.
    + split; [by right|]. split; [|split; [intros _; right; by eauto 10|done]]. split; [done|].
      intros (c' & w1' & w2' & [-> ->]%Hdet & H & _). by rewrite Hs in H.
  - intros [= <- <-]. apply boot_err in Hb. split; [by right|]. split; [|split; [by left|done]].
    split; [done|]. intros (c' & w1' & w2' & H & _). by destruct (boot_fails_not _ _ _ _ _ Hb H).
Qed.
End Main.

(** ** A boot with the defaults *)

Module BootRun.
Import Reference MockKube.

#[local] Instance runtime : ControllerRuntime KubeWorld string := {|
  http_ListenAndServe := λ _, throw "listen tcp :8090: bind: address already in use";
  ctrl_GetConfig := mret (mkRestConfig 5 10 "");
  ParseDuration := λ _, Err "time: invalid duration";
  ctrl_NewManager := λ _ _, mret tt;
  RegisterFieldIndexes := mret tt;
  mgr_Start := λ _, mret tt
|}.

Definition bad_period : OperatorFlags :=
  mkOperatorFlags ":8080" ":8000" true "koordinator-system" "" true ":8090" "soon" (Some ["*"]) 30 50.
Definition world0 : KubeWorld := mkKubeWorld ∅ [] [] 0.

(** The status is 0 and the manager was started with the controller of [Add]. *)
Lemma operator_main_status_witness :
  (operator_main (C:=string) bad_period (mkMgrState world0 None)).1 = Ok 0%Z ∧
  ∃ s w1 w2, booted (C:=string) bad_period world0 (Some s) w1 ∧ mgr_Start (Some s) w1 = (Ok tt, w2).
Proof.
  split; [vm_compute; reflexivity|].
  destruct (operator_main_status (C:=string) bad_period world0 world0 0%Z
    (operator_main (C:=string) bad_period (mkMgrState world0 None)).2) as [_ [[H _] _]].
  - vm_compute. reflexivity.
  - vm_compute. reflexivity.
  - destruct (H eq_refl) as (ctrl & w1 & w2 & Hb & Hs & _).
    assert (∃ s, ctrl = Some s) as [s ->].
    { destruct Hb as (cfg & w1' & w2' & w3 & _ & _ & _ & Ha). cbn in Ha.
      destruct Ha as (s & _ & ->). exists s. reflexivity. }
    exists s, w1, w2. split; [exact Hb|exact Hs].
Defined.
End BootRun.
